(** * The mmp_pdma physical-channel-multiplexed DMA engine (SpacemiT K1)

    A shallow embedding of the channel and descriptor logic of the
    [mmp_pdma] driver: descriptor pool, physical channel registry, the three
    transfer builders, submission and queueing, the completion tasklet and the
    residue calculator, followed by the properties established for them.

    Conventions of the embedding.
    - C integers are [Z]; a [u32] store is written out as [u32 z] (reduction
      modulo [2^32]) and a [dma_addr_t]/[size_t] store as [u64 z].
    - A pointer to a software descriptor is identified with the bus address
      [phys] that the pool handed out for it; a pointer to a physical channel
      is its index in the [phy] array; a pointer to a logical channel is a
      channel id.
    - An intrusive [list_head] queue is the ordered list of the descriptors
      linked on it.  A descriptor that is updated through [prev] or [new]
      while it already sits on [first->tx_list] is updated in the list.
    - The memory mapped register file behind [phy->base] is a finite map from
      byte offset to the last value written, unwritten registers reading 0.
    - The preprocessor switch CONFIG_SPACEMIT_PDMA_SUPPORT_64BIT is the
      boolean [SUPPORT_64BIT]; without it the three high words of a hardware
      descriptor do not exist and stay 0 in the model. *)

From Stdlib Require Import ZArith List Lia Bool Permutation.
From stdpp Require Import base option list gmap.
Import ListNotations.
Local Open Scope Z_scope.

(** ** Machine integers and register constants *)

Definition u32 (z : Z) : Z := z mod 2 ^ 32.
Definition u64 (z : Z) : Z := z mod 2 ^ 64.
Definition BIT (n : Z) : Z := Z.shiftl 1 n.

Definition DCSR : Z := 0x0000.
Definition DALGN : Z := 0x00a0.
Definition DINT : Z := 0x00f0.
Definition DDADR : Z := 0x0200.
Definition DSADR (n : Z) : Z := 0x0204 + Z.shiftl n 4.
Definition DTADR (n : Z) : Z := 0x0208 + Z.shiftl n 4.
Definition DDADRH (n : Z) : Z := 0x0300 + Z.shiftl n 4.

Definition DCSR_RUN : Z := BIT 31.
Definition DCSR_EORIRQEN : Z := BIT 28.
Definition DCSR_EORSTOPEN : Z := BIT 26.
Definition DCSR_LPAEEN : Z := BIT 21.
Definition DCSR_BUSERR : Z := BIT 0.

Definition DRCMR (n : Z) : Z :=
  (if n <? 64 then 0x0100 else 0x1100) + Z.shiftl (Z.land n 0x3f) 2.
Definition DRCMR_MAPVLD : Z := BIT 7.

Definition DDADR_STOP : Z := BIT 0.

Definition DCMD_INCSRCADDR : Z := BIT 31.
Definition DCMD_INCTRGADDR : Z := BIT 30.
Definition DCMD_FLOWSRC : Z := BIT 29.
Definition DCMD_FLOWTRG : Z := BIT 28.
Definition DCMD_ENDIRQEN : Z := BIT 21.
Definition DCMD_BURST8 : Z := Z.shiftl 1 16.
Definition DCMD_BURST16 : Z := Z.shiftl 2 16.
Definition DCMD_BURST32 : Z := Z.shiftl 3 16.
Definition DCMD_BURST64 : Z := Z.shiftl 4 16.
Definition DCMD_WIDTH1 : Z := Z.shiftl 1 14.
Definition DCMD_WIDTH2 : Z := Z.shiftl 2 14.
Definition DCMD_WIDTH4 : Z := Z.shiftl 3 14.
Definition DCMD_LENGTH : Z := 0x01fff.

Definition PDMA_MAX_DESC_BYTES : Z := DCMD_LENGTH.

Definition INVALID_BURST_SETTING : Z := -1.
Definition DEFAULT_MAX_BURST_SIZE : Z := 32.

(** Kernel constants the driver uses: [-EBUSY], [-EAGAIN] and the
    [DMA_CTRL_ACK] flag set by [async_tx_ack]. *)
Definition EBUSY : Z := 16.
Definition EAGAIN : Z := 11.
Definition DMA_CTRL_ACK : Z := 2.

(** [enum dma_transfer_direction] of the dmaengine interface, in the order
    of its enumerators: [DMA_MEM_TO_MEM] is the zero value, so the driver's
    test [!chan->dir] is the test for [DMA_MEM_TO_MEM]. *)
Inductive dma_transfer_direction :=
  | DMA_MEM_TO_MEM | DMA_MEM_TO_DEV | DMA_DEV_TO_MEM | DMA_DEV_TO_DEV
  | DMA_TRANS_NONE.

(** [enum dma_status]. *)
Inductive dma_status :=
  | DMA_COMPLETE | DMA_IN_PROGRESS | DMA_PAUSED | DMA_ERROR.

Definition dir_eqb (a b : dma_transfer_direction) : bool :=
  match a, b with
  | DMA_MEM_TO_MEM, DMA_MEM_TO_MEM | DMA_MEM_TO_DEV, DMA_MEM_TO_DEV
  | DMA_DEV_TO_MEM, DMA_DEV_TO_MEM | DMA_DEV_TO_DEV, DMA_DEV_TO_DEV
  | DMA_TRANS_NONE, DMA_TRANS_NONE => true
  | _, _ => false
  end.

Definition status_eqb (a b : dma_status) : bool :=
  match a, b with
  | DMA_COMPLETE, DMA_COMPLETE | DMA_IN_PROGRESS, DMA_IN_PROGRESS
  | DMA_PAUSED, DMA_PAUSED | DMA_ERROR, DMA_ERROR => true
  | _, _ => false
  end.

(** ** Data model *)

(** [struct mmp_pdma_desc_hw]. *)
Record mmp_pdma_desc_hw := {
  ddadr : Z;   (* points to the next descriptor + flags *)
  dsadr : Z;
  dtadr : Z;
  dcmd : Z;
  ddadrh : Z;
  dsadrh : Z;
  dtadrh : Z
}.

(** [struct dma_async_tx_descriptor]: the fields the driver touches.  A
    client callback is named by a number; [None] is a null callback. *)
Record dma_async_tx_descriptor := {
  cookie : Z;
  flags : Z;
  phys : Z;
  callback : option nat
}.

(** [struct mmp_pdma_desc_sw]; [node] and [tx_list] are list membership. *)
Record mmp_pdma_desc_sw := {
  desc : mmp_pdma_desc_hw;
  async_tx : dma_async_tx_descriptor
}.

(** [struct dma_slave_config]: the fields read by [mmp_pdma_config_write]. *)
Record dma_slave_config := {
  src_addr : Z;
  dst_addr : Z;
  src_addr_width : Z;
  dst_addr_width : Z;
  src_maxburst : Z;
  dst_maxburst : Z
}.

(** Modelled from the spec: the descriptor pool ([struct dma_pool], whose
    code is not part of the driver), with the contract
    [allocate() -> SoftwareDescriptor | Exhausted] and [free(desc)], each
    descriptor zero-initialised on allocation.  [pool_free] lists the bus
    addresses of the blocks still available, [pool_used] those handed out. *)
Record dma_pool := {
  pool_free : list Z;
  pool_used : list Z
}.

Definition dma_pool_zalloc (p : dma_pool) : option (Z * dma_pool) :=
  match pool_free p with
  | [] => None
  | a :: rest => Some (a, {| pool_free := rest; pool_used := a :: pool_used p |})
  end.

Definition dma_pool_free (p : dma_pool) (a : Z) : dma_pool :=
  {| pool_free := a :: pool_free p;
     pool_used := List.remove Z.eq_dec a (pool_used p) |}.

(** [struct mmp_pdma_chan].  [chan_id] stands for the address of the channel,
    [chan_cookie] and [completed_cookie] are the cookie counters of the
    embedded [struct dma_chan]. *)
Record mmp_pdma_chan := {
  chan_id : nat;
  phy : option nat;
  dir : dma_transfer_direction;
  slave_config : dma_slave_config;
  cyclic_first : option Z;
  chan_dcmd : Z;
  drcmr : Z;
  dev_addr : Z;
  chain_pending : list mmp_pdma_desc_sw;
  chain_running : list mmp_pdma_desc_sw;
  idle : bool;
  byte_align : bool;
  user_do_qos : Z;
  qos_count : Z;
  status : dma_status;
  bytes_residue : Z;
  desc_pool : dma_pool;
  chan_cookie : Z;
  completed_cookie : Z
}.

(** [struct reserved_chan]. *)
Record reserved_chan := {
  rc_chan_id : Z;
  rc_drcmr : Z
}.

(** [struct mmp_pdma_device].  [pdev_phy] is the [phy] array: entry [i] is
    [phy[i].vchan], the logical channel bound to physical channel [i].
    [regs] is the register file at [base]. *)
Record mmp_pdma_device := {
  dma_channels : Z;
  reserved_channels : list reserved_chan;
  max_burst_size : Z;
  pdev_phy : list (option nat);
  regs : gmap Z Z
}.

Definition nr_reserved_channels (pdev : mmp_pdma_device) : Z :=
  Z.of_nat (length (reserved_channels pdev)).

(** Field updates. *)
Definition set_ddadr (v : Z) (h : mmp_pdma_desc_hw) : mmp_pdma_desc_hw :=
  {| ddadr := v; dsadr := dsadr h; dtadr := dtadr h; dcmd := dcmd h;
     ddadrh := ddadrh h; dsadrh := dsadrh h; dtadrh := dtadrh h |}.
Definition set_ddadrh (v : Z) (h : mmp_pdma_desc_hw) : mmp_pdma_desc_hw :=
  {| ddadr := ddadr h; dsadr := dsadr h; dtadr := dtadr h; dcmd := dcmd h;
     ddadrh := v; dsadrh := dsadrh h; dtadrh := dtadrh h |}.
Definition set_dcmd (v : Z) (h : mmp_pdma_desc_hw) : mmp_pdma_desc_hw :=
  {| ddadr := ddadr h; dsadr := dsadr h; dtadr := dtadr h; dcmd := v;
     ddadrh := ddadrh h; dsadrh := dsadrh h; dtadrh := dtadrh h |}.
Definition set_addrs (s t sh th : Z) (h : mmp_pdma_desc_hw) : mmp_pdma_desc_hw :=
  {| ddadr := ddadr h; dsadr := s; dtadr := t; dcmd := dcmd h;
     ddadrh := ddadrh h; dsadrh := sh; dtadrh := th |}.

Definition with_desc (f : mmp_pdma_desc_hw -> mmp_pdma_desc_hw)
    (d : mmp_pdma_desc_sw) : mmp_pdma_desc_sw :=
  {| desc := f (desc d); async_tx := async_tx d |}.
Definition with_tx (f : dma_async_tx_descriptor -> dma_async_tx_descriptor)
    (d : mmp_pdma_desc_sw) : mmp_pdma_desc_sw :=
  {| desc := desc d; async_tx := f (async_tx d) |}.
Definition set_cookie (v : Z) (t : dma_async_tx_descriptor) :=
  {| cookie := v; flags := flags t; phys := phys t; callback := callback t |}.
Definition set_flags (v : Z) (t : dma_async_tx_descriptor) :=
  {| cookie := cookie t; flags := v; phys := phys t; callback := callback t |}.
Definition set_callback (v : option nat) (t : dma_async_tx_descriptor) :=
  {| cookie := cookie t; flags := flags t; phys := phys t; callback := v |}.

(** Assignments to the fields of a channel. *)
Definition set_phy (v : option nat) (c : mmp_pdma_chan) : mmp_pdma_chan :=
  {| chan_id := chan_id c; phy := v; dir := dir c;
     slave_config := slave_config c; cyclic_first := cyclic_first c;
     chan_dcmd := chan_dcmd c; drcmr := drcmr c; dev_addr := dev_addr c;
     chain_pending := chain_pending c; chain_running := chain_running c;
     idle := idle c; byte_align := byte_align c;
     user_do_qos := user_do_qos c; qos_count := qos_count c;
     status := status c; bytes_residue := bytes_residue c;
     desc_pool := desc_pool c; chan_cookie := chan_cookie c;
     completed_cookie := completed_cookie c |}.
Definition set_dir (v : dma_transfer_direction) (c : mmp_pdma_chan) : mmp_pdma_chan :=
  {| chan_id := chan_id c; phy := phy c; dir := v;
     slave_config := slave_config c; cyclic_first := cyclic_first c;
     chan_dcmd := chan_dcmd c; drcmr := drcmr c; dev_addr := dev_addr c;
     chain_pending := chain_pending c; chain_running := chain_running c;
     idle := idle c; byte_align := byte_align c;
     user_do_qos := user_do_qos c; qos_count := qos_count c;
     status := status c; bytes_residue := bytes_residue c;
     desc_pool := desc_pool c; chan_cookie := chan_cookie c;
     completed_cookie := completed_cookie c |}.
Definition set_slave_config (v : dma_slave_config) (c : mmp_pdma_chan) : mmp_pdma_chan :=
  {| chan_id := chan_id c; phy := phy c; dir := dir c; slave_config := v;
     cyclic_first := cyclic_first c; chan_dcmd := chan_dcmd c;
     drcmr := drcmr c; dev_addr := dev_addr c;
     chain_pending := chain_pending c; chain_running := chain_running c;
     idle := idle c; byte_align := byte_align c;
     user_do_qos := user_do_qos c; qos_count := qos_count c;
     status := status c; bytes_residue := bytes_residue c;
     desc_pool := desc_pool c; chan_cookie := chan_cookie c;
     completed_cookie := completed_cookie c |}.
Definition set_cyclic_first (v : option Z) (c : mmp_pdma_chan) : mmp_pdma_chan :=
  {| chan_id := chan_id c; phy := phy c; dir := dir c;
     slave_config := slave_config c; cyclic_first := v;
     chan_dcmd := chan_dcmd c; drcmr := drcmr c; dev_addr := dev_addr c;
     chain_pending := chain_pending c; chain_running := chain_running c;
     idle := idle c; byte_align := byte_align c;
     user_do_qos := user_do_qos c; qos_count := qos_count c;
     status := status c; bytes_residue := bytes_residue c;
     desc_pool := desc_pool c; chan_cookie := chan_cookie c;
     completed_cookie := completed_cookie c |}.
Definition set_chan_dcmd (v : Z) (c : mmp_pdma_chan) : mmp_pdma_chan :=
  {| chan_id := chan_id c; phy := phy c; dir := dir c;
     slave_config := slave_config c; cyclic_first := cyclic_first c;
     chan_dcmd := v; drcmr := drcmr c; dev_addr := dev_addr c;
     chain_pending := chain_pending c; chain_running := chain_running c;
     idle := idle c; byte_align := byte_align c;
     user_do_qos := user_do_qos c; qos_count := qos_count c;
     status := status c; bytes_residue := bytes_residue c;
     desc_pool := desc_pool c; chan_cookie := chan_cookie c;
     completed_cookie := completed_cookie c |}.
Definition set_dev_addr (v : Z) (c : mmp_pdma_chan) : mmp_pdma_chan :=
  {| chan_id := chan_id c; phy := phy c; dir := dir c;
     slave_config := slave_config c; cyclic_first := cyclic_first c;
     chan_dcmd := chan_dcmd c; drcmr := drcmr c; dev_addr := v;
     chain_pending := chain_pending c; chain_running := chain_running c;
     idle := idle c; byte_align := byte_align c;
     user_do_qos := user_do_qos c; qos_count := qos_count c;
     status := status c; bytes_residue := bytes_residue c;
     desc_pool := desc_pool c; chan_cookie := chan_cookie c;
     completed_cookie := completed_cookie c |}.
Definition set_chain_pending (v : list mmp_pdma_desc_sw) (c : mmp_pdma_chan) : mmp_pdma_chan :=
  {| chan_id := chan_id c; phy := phy c; dir := dir c;
     slave_config := slave_config c; cyclic_first := cyclic_first c;
     chan_dcmd := chan_dcmd c; drcmr := drcmr c; dev_addr := dev_addr c;
     chain_pending := v; chain_running := chain_running c; idle := idle c;
     byte_align := byte_align c; user_do_qos := user_do_qos c;
     qos_count := qos_count c; status := status c;
     bytes_residue := bytes_residue c; desc_pool := desc_pool c;
     chan_cookie := chan_cookie c; completed_cookie := completed_cookie c |}.
Definition set_chain_running (v : list mmp_pdma_desc_sw) (c : mmp_pdma_chan) : mmp_pdma_chan :=
  {| chan_id := chan_id c; phy := phy c; dir := dir c;
     slave_config := slave_config c; cyclic_first := cyclic_first c;
     chan_dcmd := chan_dcmd c; drcmr := drcmr c; dev_addr := dev_addr c;
     chain_pending := chain_pending c; chain_running := v; idle := idle c;
     byte_align := byte_align c; user_do_qos := user_do_qos c;
     qos_count := qos_count c; status := status c;
     bytes_residue := bytes_residue c; desc_pool := desc_pool c;
     chan_cookie := chan_cookie c; completed_cookie := completed_cookie c |}.
Definition set_idle (v : bool) (c : mmp_pdma_chan) : mmp_pdma_chan :=
  {| chan_id := chan_id c; phy := phy c; dir := dir c;
     slave_config := slave_config c; cyclic_first := cyclic_first c;
     chan_dcmd := chan_dcmd c; drcmr := drcmr c; dev_addr := dev_addr c;
     chain_pending := chain_pending c; chain_running := chain_running c;
     idle := v; byte_align := byte_align c; user_do_qos := user_do_qos c;
     qos_count := qos_count c; status := status c;
     bytes_residue := bytes_residue c; desc_pool := desc_pool c;
     chan_cookie := chan_cookie c; completed_cookie := completed_cookie c |}.
Definition set_byte_align (v : bool) (c : mmp_pdma_chan) : mmp_pdma_chan :=
  {| chan_id := chan_id c; phy := phy c; dir := dir c;
     slave_config := slave_config c; cyclic_first := cyclic_first c;
     chan_dcmd := chan_dcmd c; drcmr := drcmr c; dev_addr := dev_addr c;
     chain_pending := chain_pending c; chain_running := chain_running c;
     idle := idle c; byte_align := v; user_do_qos := user_do_qos c;
     qos_count := qos_count c; status := status c;
     bytes_residue := bytes_residue c; desc_pool := desc_pool c;
     chan_cookie := chan_cookie c; completed_cookie := completed_cookie c |}.
Definition set_qos_count (v : Z) (c : mmp_pdma_chan) : mmp_pdma_chan :=
  {| chan_id := chan_id c; phy := phy c; dir := dir c;
     slave_config := slave_config c; cyclic_first := cyclic_first c;
     chan_dcmd := chan_dcmd c; drcmr := drcmr c; dev_addr := dev_addr c;
     chain_pending := chain_pending c; chain_running := chain_running c;
     idle := idle c; byte_align := byte_align c;
     user_do_qos := user_do_qos c; qos_count := v; status := status c;
     bytes_residue := bytes_residue c; desc_pool := desc_pool c;
     chan_cookie := chan_cookie c; completed_cookie := completed_cookie c |}.
Definition set_status (v : dma_status) (c : mmp_pdma_chan) : mmp_pdma_chan :=
  {| chan_id := chan_id c; phy := phy c; dir := dir c;
     slave_config := slave_config c; cyclic_first := cyclic_first c;
     chan_dcmd := chan_dcmd c; drcmr := drcmr c; dev_addr := dev_addr c;
     chain_pending := chain_pending c; chain_running := chain_running c;
     idle := idle c; byte_align := byte_align c;
     user_do_qos := user_do_qos c; qos_count := qos_count c; status := v;
     bytes_residue := bytes_residue c; desc_pool := desc_pool c;
     chan_cookie := chan_cookie c; completed_cookie := completed_cookie c |}.
Definition set_bytes_residue (v : Z) (c : mmp_pdma_chan) : mmp_pdma_chan :=
  {| chan_id := chan_id c; phy := phy c; dir := dir c;
     slave_config := slave_config c; cyclic_first := cyclic_first c;
     chan_dcmd := chan_dcmd c; drcmr := drcmr c; dev_addr := dev_addr c;
     chain_pending := chain_pending c; chain_running := chain_running c;
     idle := idle c; byte_align := byte_align c;
     user_do_qos := user_do_qos c; qos_count := qos_count c;
     status := status c; bytes_residue := v; desc_pool := desc_pool c;
     chan_cookie := chan_cookie c; completed_cookie := completed_cookie c |}.
Definition set_desc_pool (v : dma_pool) (c : mmp_pdma_chan) : mmp_pdma_chan :=
  {| chan_id := chan_id c; phy := phy c; dir := dir c;
     slave_config := slave_config c; cyclic_first := cyclic_first c;
     chan_dcmd := chan_dcmd c; drcmr := drcmr c; dev_addr := dev_addr c;
     chain_pending := chain_pending c; chain_running := chain_running c;
     idle := idle c; byte_align := byte_align c;
     user_do_qos := user_do_qos c; qos_count := qos_count c;
     status := status c; bytes_residue := bytes_residue c; desc_pool := v;
     chan_cookie := chan_cookie c; completed_cookie := completed_cookie c |}.
Definition set_chan_cookie (v : Z) (c : mmp_pdma_chan) : mmp_pdma_chan :=
  {| chan_id := chan_id c; phy := phy c; dir := dir c;
     slave_config := slave_config c; cyclic_first := cyclic_first c;
     chan_dcmd := chan_dcmd c; drcmr := drcmr c; dev_addr := dev_addr c;
     chain_pending := chain_pending c; chain_running := chain_running c;
     idle := idle c; byte_align := byte_align c;
     user_do_qos := user_do_qos c; qos_count := qos_count c;
     status := status c; bytes_residue := bytes_residue c;
     desc_pool := desc_pool c; chan_cookie := v;
     completed_cookie := completed_cookie c |}.
Definition set_completed_cookie (v : Z) (c : mmp_pdma_chan) : mmp_pdma_chan :=
  {| chan_id := chan_id c; phy := phy c; dir := dir c;
     slave_config := slave_config c; cyclic_first := cyclic_first c;
     chan_dcmd := chan_dcmd c; drcmr := drcmr c; dev_addr := dev_addr c;
     chain_pending := chain_pending c; chain_running := chain_running c;
     idle := idle c; byte_align := byte_align c;
     user_do_qos := user_do_qos c; qos_count := qos_count c;
     status := status c; bytes_residue := bytes_residue c;
     desc_pool := desc_pool c; chan_cookie := chan_cookie c;
     completed_cookie := v |}.

(** Assignments to the fields of the device. *)
Definition set_pdev_phy (v : list (option nat)) (d : mmp_pdma_device)
    : mmp_pdma_device :=
  {| dma_channels := dma_channels d; reserved_channels := reserved_channels d;
     max_burst_size := max_burst_size d; pdev_phy := v; regs := regs d |}.
Definition set_regs (v : gmap Z Z) (d : mmp_pdma_device)
    : mmp_pdma_device :=
  {| dma_channels := dma_channels d; reserved_channels := reserved_channels d;
     max_burst_size := max_burst_size d; pdev_phy := pdev_phy d; regs := v |}.

(** ** Helpers for intrusive lists *)

(** Update of the object at the tail of a list ([prev], or [new] once it has
    been added with [list_add_tail]). *)
Fixpoint map_last {A : Type} (f : A -> A) (l : list A) : list A :=
  match l with
  | [] => []
  | [x] => [f x]
  | x :: t => x :: map_last f t
  end.

(** Update of the object at the head of a list ([first]). *)
Definition map_head {A : Type} (f : A -> A) (l : list A) : list A :=
  match l with
  | [] => []
  | x :: t => f x :: t
  end.

Definition nonzero (z : Z) : bool := negb (z =? 0).

(** Outcome of a function that may hit a [BUG_ON]. *)
Inductive outcome (A : Type) : Type :=
  | Done (a : A)
  | Bug.
Arguments Done {A} a.
Arguments Bug {A}.

(** ** Descriptor pool wrappers *)

(** A block fresh from [dma_pool_zalloc], with [async_tx.phys] set. *)
Definition zero_desc (a : Z) : mmp_pdma_desc_sw :=
  {| desc := {| ddadr := 0; dsadr := 0; dtadr := 0; dcmd := 0;
                ddadrh := 0; dsadrh := 0; dtadrh := 0 |};
     async_tx := {| cookie := 0; flags := 0; phys := a; callback := None |} |}.

(** [mmp_pdma_alloc_descriptor]: a zeroed descriptor whose [phys] is the bus
    address of the block, or [None] when the pool is exhausted. *)
Definition mmp_pdma_alloc_descriptor (chan : mmp_pdma_chan)
    : option (mmp_pdma_desc_sw * mmp_pdma_chan) :=
  match dma_pool_zalloc (desc_pool chan) with
  | None => None
  | Some (pdesc, pool) => Some (zero_desc pdesc, set_desc_pool pool chan)
  end.

(** [mmp_pdma_free_desc_list]: every descriptor on the list goes back to
    the pool; the list itself is left empty. *)
Definition mmp_pdma_free_desc_list (chan : mmp_pdma_chan)
    (l : list mmp_pdma_desc_sw) : mmp_pdma_chan :=
  set_desc_pool
    (fold_left (fun p d => dma_pool_free p (phys (async_tx d))) l
       (desc_pool chan))
    chan.

Definition get_max_burst_setting (max_burst_size : Z) : Z :=
  if max_burst_size =? 8 then DCMD_BURST8
  else if max_burst_size =? 16 then DCMD_BURST16
  else if max_burst_size =? 32 then DCMD_BURST32
  else if max_burst_size =? 64 then DCMD_BURST64
  else INVALID_BURST_SETTING.

(** [mmp_pdma_config_write] ([enum dma_slave_buswidth] values are the
    widths in bytes). *)
Definition mmp_pdma_config_write (chan : mmp_pdma_chan)
    (cfg : dma_slave_config) (direction : dma_transfer_direction)
    : mmp_pdma_chan :=
  let '(chan, maxburst, width, addr) :=
    match direction with
    | DMA_DEV_TO_MEM =>
        (set_chan_dcmd (Z.lor DCMD_INCTRGADDR DCMD_FLOWSRC) chan,
         src_maxburst cfg, src_addr_width cfg, u32 (src_addr cfg))
    | DMA_MEM_TO_DEV =>
        (set_chan_dcmd (Z.lor DCMD_INCSRCADDR DCMD_FLOWTRG) chan,
         dst_maxburst cfg, dst_addr_width cfg, u32 (dst_addr cfg))
    | _ => (chan, 0, 0, 0)
    end in
  let chan :=
    if width =? 1 then set_chan_dcmd (Z.lor (chan_dcmd chan) DCMD_WIDTH1) chan
    else if width =? 2 then set_chan_dcmd (Z.lor (chan_dcmd chan) DCMD_WIDTH2) chan
    else if width =? 4 then set_chan_dcmd (Z.lor (chan_dcmd chan) DCMD_WIDTH4) chan
    else chan in
  let chan :=
    if maxburst =? 8 then set_chan_dcmd (Z.lor (chan_dcmd chan) DCMD_BURST8) chan
    else if maxburst =? 16 then set_chan_dcmd (Z.lor (chan_dcmd chan) DCMD_BURST16) chan
    else if maxburst =? 32 then set_chan_dcmd (Z.lor (chan_dcmd chan) DCMD_BURST32) chan
    else chan in
  set_dev_addr addr (set_dir direction chan).

(** ** Transfer builders *)

Section Builders.

Variable SUPPORT_64BIT : bool.

(** A store to one of the high words, present only in the 64-bit layout. *)
Definition hi (v old : Z) : Z := if SUPPORT_64BIT then v else old.

(** [prev->desc.ddadr = new->async_tx.phys] and, in the 64-bit layout,
    [prev->desc.ddadrh = new->async_tx.phys >> 32]. *)
Definition link_to (new prev : mmp_pdma_desc_sw) : mmp_pdma_desc_sw :=
  with_desc
    (fun h =>
       set_ddadrh (hi (u32 (Z.shiftr (phys (async_tx new)) 32)) (ddadrh h))
         (set_ddadr (u32 (phys (async_tx new))) h))
    prev.

(** [new->async_tx.cookie = 0; async_tx_ack(&new->async_tx)]. *)
Definition ack_new (new : mmp_pdma_desc_sw) : mmp_pdma_desc_sw :=
  with_tx (fun t => set_flags (Z.lor (flags (set_cookie 0 t)) DMA_CTRL_ACK)
                      (set_cookie 0 t)) new.

(** The [fail:] label shared by the builders:
    [if (first) mmp_pdma_free_desc_list(chan, &first->tx_list)]. *)
Definition builder_fail (chan : mmp_pdma_chan)
    (tx_list : list mmp_pdma_desc_sw) : mmp_pdma_chan :=
  match tx_list with
  | [] => chan
  | _ :: _ => mmp_pdma_free_desc_list chan tx_list
  end.

(** Address words of one descriptor of [mmp_pdma_prep_memcpy]; [None] is
    the branch "wrong direction". *)
Definition memcpy_set_addrs (d : dma_transfer_direction)
    (dma_dst dma_src : Z) (h : mmp_pdma_desc_hw) : option mmp_pdma_desc_hw :=
  match d with
  | DMA_MEM_TO_DEV =>
      Some (set_addrs (Z.land dma_src 0xffffffff) (u32 dma_dst)
              (hi (u32 (Z.shiftr dma_src 32)) (dsadrh h)) (hi 0 (dtadrh h)) h)
  | DMA_DEV_TO_MEM =>
      Some (set_addrs (u32 dma_src) (Z.land dma_dst 0xffffffff)
              (hi 0 (dsadrh h)) (hi (u32 (Z.shiftr dma_dst 32)) (dtadrh h)) h)
  | DMA_MEM_TO_MEM =>
      Some (set_addrs (Z.land dma_src 0xffffffff) (Z.land dma_dst 0xffffffff)
              (hi (u32 (Z.shiftr dma_src 32)) (dsadrh h))
              (hi (u32 (Z.shiftr dma_dst 32)) (dtadrh h)) h)
  | _ => None
  end.

(** The [do { ... } while (len)] loop of [mmp_pdma_prep_memcpy].  [tx_list]
    is [first->tx_list] ([first] its head, [prev] its tail).  The result is
    the finished list, or [None] after [goto fail]. *)
Fixpoint memcpy_loop (fuel : nat) (chan : mmp_pdma_chan)
    (tx_list : list mmp_pdma_desc_sw) (dma_dst dma_src len : Z)
    : option (list mmp_pdma_desc_sw) * mmp_pdma_chan :=
  match fuel with
  | O => (None, chan)
  | S fuel =>
      match mmp_pdma_alloc_descriptor chan with
      | None => (None, builder_fail chan tx_list)
      | Some (new, chan) =>
          let copy := Z.min len PDMA_MAX_DESC_BYTES in
          let chan :=
            if nonzero (Z.land dma_src 0x7) || nonzero (Z.land dma_dst 0x7)
            then set_byte_align true chan else chan in
          let hw :=
            set_dcmd (Z.lor (chan_dcmd chan) (Z.land DCMD_LENGTH copy))
              (desc new) in
          match memcpy_set_addrs (dir chan) dma_dst dma_src hw with
          | None => (None, builder_fail chan tx_list)
          | Some hw =>
              let new := with_desc (fun _ => hw) new in
              let tx_list := map_last (link_to new) tx_list in
              let new := ack_new new in
              let len := len - copy in
              let dma_src :=
                match dir chan with
                | DMA_MEM_TO_DEV | DMA_MEM_TO_MEM => u64 (dma_src + copy)
                | _ => dma_src
                end in
              let dma_dst :=
                match dir chan with
                | DMA_DEV_TO_MEM | DMA_MEM_TO_MEM => u64 (dma_dst + copy)
                | _ => dma_dst
                end in
              let tx_list := tx_list ++ [new] in
              if len =? 0 then (Some tx_list, chan)
              else memcpy_loop fuel chan tx_list dma_dst dma_src len
          end
      end
  end.

(** "last desc and fire IRQ". *)
Definition stop_and_irq : mmp_pdma_desc_sw -> mmp_pdma_desc_sw :=
  with_desc (fun h => set_dcmd (Z.lor (dcmd (set_ddadr DDADR_STOP h))
                                  DCMD_ENDIRQEN)
                        (set_ddadr DDADR_STOP h)).

(** The block [if (!chan->dir) { ... }] of [mmp_pdma_prep_memcpy], with its
    [BUG_ON(value == INVALID_BURST_SETTING)]. *)
Definition memcpy_setup (pdev : mmp_pdma_device) (chan : mmp_pdma_chan)
    : outcome mmp_pdma_chan :=
  match dir chan with
  | DMA_MEM_TO_MEM =>
      let value := get_max_burst_setting (max_burst_size pdev) in
      if value =? INVALID_BURST_SETTING then Bug
      else Done (set_chan_dcmd
                   (Z.lor (Z.lor DCMD_INCTRGADDR DCMD_INCSRCADDR) value)
                   (set_dir DMA_MEM_TO_MEM chan))
  | _ => Done chan
  end.

(** [mmp_pdma_prep_memcpy].  The result is [first->tx_list] (whose head
    carries the returned [async_tx]) or [None] for a null return. *)
Definition mmp_pdma_prep_memcpy (pdev : mmp_pdma_device)
    (chan : mmp_pdma_chan) (dma_dst dma_src len flags : Z)
    : outcome (option (list mmp_pdma_desc_sw) * mmp_pdma_chan) :=
  if len =? 0 then Done (None, chan)
  else
    let chan := set_byte_align false chan in
    match memcpy_setup pdev chan with
    | Bug => Bug
    | Done chan =>
        match memcpy_loop (Z.to_nat len) chan [] dma_dst dma_src len with
        | (None, chan) => Done (None, chan)
        | (Some tx_list, chan) =>
            let tx_list :=
              map_head (with_tx (fun t => set_cookie (- EBUSY)
                                            (set_flags flags t))) tx_list in
            let tx_list := map_last stop_and_irq tx_list in
            Done (Some tx_list, set_cyclic_first None chan)
        end
    end.

(** [struct scatterlist]: bus address and length of one segment. *)
Record scatterlist := {
  sg_dma_address : Z;
  sg_dma_len : Z
}.

(** Address words of one descriptor of [mmp_pdma_prep_slave_sg]. *)
Definition sg_set_addrs (d : dma_transfer_direction) (dev_addr addr : Z)
    (h : mmp_pdma_desc_hw) : option mmp_pdma_desc_hw :=
  match d with
  | DMA_MEM_TO_DEV =>
      Some (set_addrs (Z.land addr 0xffffffff) dev_addr
              (hi (u32 (Z.shiftr addr 32)) (dsadrh h)) (hi 0 (dtadrh h)) h)
  | DMA_DEV_TO_MEM =>
      Some (set_addrs dev_addr (Z.land addr 0xffffffff)
              (hi 0 (dsadrh h)) (hi (u32 (Z.shiftr addr 32)) (dtadrh h)) h)
  | _ => None
  end.

(** The inner [do { ... } while (avail)] loop of [mmp_pdma_prep_slave_sg]. *)
Fixpoint sg_inner_loop (fuel : nat) (d : dma_transfer_direction)
    (chan : mmp_pdma_chan) (tx_list : list mmp_pdma_desc_sw) (addr avail : Z)
    : option (list mmp_pdma_desc_sw) * mmp_pdma_chan :=
  match fuel with
  | O => (None, chan)
  | S fuel =>
      let len := Z.min avail PDMA_MAX_DESC_BYTES in
      let chan :=
        if nonzero (Z.land addr 0x7) then set_byte_align true chan else chan in
      match mmp_pdma_alloc_descriptor chan with
      | None => (None, builder_fail chan tx_list)
      | Some (new, chan) =>
          let hw :=
            set_dcmd (Z.lor (chan_dcmd chan) (Z.land DCMD_LENGTH len))
              (desc new) in
          match sg_set_addrs d (dev_addr chan) addr hw with
          | None => (None, builder_fail chan tx_list)
          | Some hw =>
              let new := with_desc (fun _ => hw) new in
              let tx_list := map_last (link_to new) tx_list in
              let new := ack_new new in
              let tx_list := tx_list ++ [new] in
              let addr := u64 (addr + len) in
              let avail := avail - len in
              if avail =? 0 then (Some tx_list, chan)
              else sg_inner_loop fuel d chan tx_list addr avail
          end
      end
  end.

(** The [for_each_sg] loop.  [sgl] is the list the caller passed (the
    variable [sgl] of the source, which keeps pointing at the first entry),
    [rest] the entries still to visit (the cursor [sg]):
    [addr = sg_dma_address(sg); avail = sg_dma_len(sgl);]. *)
Fixpoint sg_outer_loop (sgl rest : list scatterlist)
    (d : dma_transfer_direction) (chan : mmp_pdma_chan)
    (tx_list : list mmp_pdma_desc_sw)
    : option (list mmp_pdma_desc_sw) * mmp_pdma_chan :=
  match rest with
  | [] => (Some tx_list, chan)
  | sg :: rest =>
      let addr := sg_dma_address sg in
      let avail := match sgl with s0 :: _ => sg_dma_len s0 | [] => 0 end in
      match sg_inner_loop (S (Z.to_nat avail)) d chan tx_list addr avail with
      | (None, chan) => (None, chan)
      | (Some tx_list, chan) => sg_outer_loop sgl rest d chan tx_list
      end
  end.

(** [mmp_pdma_prep_slave_sg]; [sg_len] is the length of [sgl]. *)
Definition mmp_pdma_prep_slave_sg (chan : mmp_pdma_chan)
    (sgl : list scatterlist) (d : dma_transfer_direction) (flags : Z)
    : option (list mmp_pdma_desc_sw) * mmp_pdma_chan :=
  match sgl with
  | [] => (None, chan)
  | _ :: _ =>
      let chan := set_byte_align true chan in
      let chan := mmp_pdma_config_write chan (slave_config chan) d in
      match sg_outer_loop sgl sgl d chan [] with
      | (None, chan) => (None, chan)
      | (Some tx_list, chan) =>
          let tx_list :=
            map_head (with_tx (fun t => set_flags flags
                                          (set_cookie (- EBUSY) t))) tx_list in
          let tx_list := map_last stop_and_irq tx_list in
          (Some tx_list, set_cyclic_first None (set_dir d chan))
      end
  end.

(** The [do { ... } while (len)] loop of [mmp_pdma_prep_dma_cyclic]. *)
Fixpoint cyclic_loop (fuel : nat) (chan : mmp_pdma_chan)
    (tx_list : list mmp_pdma_desc_sw)
    (dma_src dma_dst dma_srch dma_dsth len period_len : Z)
    : option (list mmp_pdma_desc_sw) * mmp_pdma_chan :=
  match fuel with
  | O => (None, chan)
  | S fuel =>
      match mmp_pdma_alloc_descriptor chan with
      | None => (None, builder_fail chan tx_list)
      | Some (new, chan) =>
          let hw :=
            set_dcmd (Z.lor (Z.lor (chan_dcmd chan) DCMD_ENDIRQEN)
                        (Z.land DCMD_LENGTH period_len)) (desc new) in
          let hw :=
            set_addrs (u32 dma_src) (u32 dma_dst)
              (hi (u32 dma_dsth) (dsadrh hw)) (hi (u32 dma_srch) (dtadrh hw))
              hw in
          let new := with_desc (fun _ => hw) new in
          let tx_list := map_last (link_to new) tx_list in
          let new := ack_new new in
          let len := u64 (len - period_len) in
          let dma_src :=
            match dir chan with
            | DMA_MEM_TO_DEV => u64 (dma_src + period_len)
            | _ => dma_src
            end in
          let dma_dst :=
            match dir chan with
            | DMA_MEM_TO_DEV => dma_dst
            | _ => u64 (dma_dst + period_len)
            end in
          let tx_list := tx_list ++ [new] in
          if len =? 0 then (Some tx_list, chan)
          else cyclic_loop fuel chan tx_list dma_src dma_dst dma_srch dma_dsth
                 len period_len
      end
  end.

(** [mmp_pdma_prep_dma_cyclic]. *)
Definition mmp_pdma_prep_dma_cyclic (chan : mmp_pdma_chan)
    (buf_addr len period_len : Z) (direction : dma_transfer_direction)
    (flags : Z) : option (list mmp_pdma_desc_sw) * mmp_pdma_chan :=
  if (len =? 0) || (period_len =? 0) then (None, chan)
  else if nonzero (len mod period_len) then (None, chan)
  else if period_len >? PDMA_MAX_DESC_BYTES then (None, chan)
  else
    let chan := mmp_pdma_config_write chan (slave_config chan) direction in
    let start :=
      match direction with
      | DMA_MEM_TO_DEV =>
          Some (Z.land buf_addr 0xffffffff, dev_addr chan,
                Z.shiftr buf_addr 32, 0)
      | DMA_DEV_TO_MEM =>
          Some (dev_addr chan, Z.land buf_addr 0xffffffff,
                0, Z.shiftr buf_addr 32)
      | _ => None
      end in
    match start with
    | None => (None, chan)
    | Some (dma_src, dma_dst, dma_srch, dma_dsth) =>
        let chan := set_dir direction chan in
        match cyclic_loop (Z.to_nat len) chan [] dma_src dma_dst dma_srch
                dma_dsth len period_len with
        | (None, chan) => (None, chan)
        | (Some tx_list, chan) =>
            let tx_list :=
              map_head (with_tx (fun t => set_cookie (- EBUSY)
                                            (set_flags flags t))) tx_list in
            let first_phys :=
              match tx_list with
              | first :: _ => phys (async_tx first)
              | [] => 0
              end in
            let tx_list :=
              map_last (with_desc (set_ddadr (u32 first_phys))) tx_list in
            (Some tx_list, set_cyclic_first (Some first_phys) chan)
        end
    end.

(** A chain in which every descriptor but the last points to its
    successor. *)
Fixpoint link_chain (l : list mmp_pdma_desc_sw) : list mmp_pdma_desc_sw :=
  match l with
  | [] => []
  | x :: t =>
      match t with
      | [] => [x]
      | y :: _ => link_to y x :: link_chain t
      end
  end.

End Builders.

(** ** Observations on descriptors and chains *)

(** The length field of a descriptor: [dcmd & DCMD_LENGTH]. *)
Definition desc_len (d : mmp_pdma_desc_sw) : Z :=
  Z.land (dcmd (desc d)) DCMD_LENGTH.

(** [dcmd & DCMD_ENDIRQEN], the end-of-chain interrupt flag. *)
Definition end_of_chain_irq (d : mmp_pdma_desc_sw) : bool :=
  nonzero (Z.land (dcmd (desc d)) DCMD_ENDIRQEN).

(** [ddadr & DDADR_STOP], the stop marker of the next pointer. *)
Definition ddadr_stop (d : mmp_pdma_desc_sw) : bool :=
  nonzero (Z.land (ddadr (desc d)) DDADR_STOP).

(** The next-descriptor address seen by the hardware: [ddadrh:ddadr]. *)
Definition next_descriptor_addr (d : mmp_pdma_desc_sw) : Z :=
  ddadrh (desc d) * 2 ^ 32 + ddadr (desc d).

Definition desc_phys (d : mmp_pdma_desc_sw) : Z := phys (async_tx d).

Definition sum_len (l : list mmp_pdma_desc_sw) : Z :=
  fold_right (fun d acc => desc_len d + acc) 0 l.

(** Number of descriptors needed for [len] bytes:
    [ceil (len / PDMA_MAX_DESC_BYTES)]. *)
Definition chunks (len : Z) : Z :=
  (len + PDMA_MAX_DESC_BYTES - 1) / PDMA_MAX_DESC_BYTES.

(** The pool hands out distinct, descriptor-aligned bus addresses
    ([struct mmp_pdma_desc_hw] is [__aligned(32)] or [__aligned(64)]). *)
Definition pool_ok (p : dma_pool) : Prop :=
  NoDup (pool_free p ++ pool_used p) /\
  Forall (fun a => 0 <= a < 2 ^ 64 /\ a mod 32 = 0) (pool_free p).

(** A channel command word as [mmp_pdma_config_write] leaves it: neither
    length bits nor the end interrupt enable. *)
Definition dcmd_clean (v : Z) : Prop :=
  Z.land v DCMD_LENGTH = 0 /\ Z.land v DCMD_ENDIRQEN = 0.

(** Return of a list of blocks to the pool. *)
Definition free_all (p : dma_pool) (l : list Z) : dma_pool :=
  fold_left dma_pool_free l p.

(** ** Closed forms of the chains the builder loops produce

    These definitions describe, descriptor by descriptor, what the loops
    above leave on [first->tx_list]; the properties below relate the two. *)

Section ChainShapes.

Variable SUPPORT_64BIT : bool.

Definition memcpy_dir_ok (d : dma_transfer_direction) : Prop :=
  d = DMA_MEM_TO_MEM \/ d = DMA_MEM_TO_DEV \/ d = DMA_DEV_TO_MEM.

(** The two directions a slave transfer may have. *)
Definition slave_dir_ok (d : dma_transfer_direction) : Prop :=
  d = DMA_MEM_TO_DEV \/ d = DMA_DEV_TO_MEM.

(** Does the source (resp. target) address of a flat copy lie in memory? *)
Definition src_in_memory (d : dma_transfer_direction) : bool :=
  match d with DMA_MEM_TO_DEV | DMA_MEM_TO_MEM => true | _ => false end.
Definition dst_in_memory (d : dma_transfer_direction) : bool :=
  match d with DMA_DEV_TO_MEM | DMA_MEM_TO_MEM => true | _ => false end.

(** One descriptor of a flat copy at block [a], before it is linked. *)
Definition memcpy_desc (c0 : Z) (d : dma_transfer_direction)
    (a dma_dst dma_src len : Z) : mmp_pdma_desc_sw :=
  let copy := Z.min len PDMA_MAX_DESC_BYTES in
  let hw := set_dcmd (Z.lor c0 (Z.land DCMD_LENGTH copy)) (desc (zero_desc a)) in
  ack_new
    (with_desc
       (fun _ => default hw (memcpy_set_addrs SUPPORT_64BIT d dma_dst dma_src hw))
       (zero_desc a)).

Fixpoint memcpy_descs (c0 : Z) (d : dma_transfer_direction) (addrs : list Z)
    (dma_dst dma_src len : Z) : list mmp_pdma_desc_sw :=
  match addrs with
  | [] => []
  | a :: addrs =>
      let copy := Z.min len PDMA_MAX_DESC_BYTES in
      memcpy_desc c0 d a dma_dst dma_src len
      :: memcpy_descs c0 d addrs
           (if dst_in_memory d then u64 (dma_dst + copy) else dma_dst)
           (if src_in_memory d then u64 (dma_src + copy) else dma_src)
           (len - copy)
  end.

End ChainShapes.

(** The 64-bit source and target addresses a descriptor carries
    ([dsadrh:dsadr] and [dtadrh:dtadr]). *)
Definition src_addr64 (d : mmp_pdma_desc_sw) : Z :=
  dsadrh (desc d) * 2 ^ 32 + dsadr (desc d).
Definition dst_addr64 (d : mmp_pdma_desc_sw) : Z :=
  dtadrh (desc d) * 2 ^ 32 + dtadr (desc d).

(** ** Sample configuration used to exercise the model *)

Definition sample_config : dma_slave_config :=
  {| src_addr := 0xd4017000; dst_addr := 0xd4017000;
     src_addr_width := 1; dst_addr_width := 1;
     src_maxburst := 8; dst_maxburst := 8 |}.

Definition sample_pool : dma_pool :=
  {| pool_free := [0x1000; 0x1040; 0x1080; 0x10c0]; pool_used := [] |}.

(** A freshly set up channel (as [mmp_pdma_chan_init] and
    [mmp_pdma_alloc_chan_resources] leave it) with request line 5. *)
Definition sample_chan : mmp_pdma_chan :=
  {| chan_id := 0; phy := None; dir := DMA_MEM_TO_MEM;
     slave_config := sample_config; cyclic_first := None; chan_dcmd := 0;
     drcmr := 5; dev_addr := 0; chain_pending := []; chain_running := [];
     idle := true; byte_align := false; user_do_qos := 1; qos_count := 0;
     status := DMA_COMPLETE; bytes_residue := 0; desc_pool := sample_pool;
     chan_cookie := 1; completed_cookie := 1 |}.

(** A controller with 16 physical channels, none of them bound. *)
Definition sample_pdev : mmp_pdma_device :=
  {| dma_channels := 16; reserved_channels := [];
     max_burst_size := DEFAULT_MAX_BURST_SIZE;
     pdev_phy := replicate 16 None; regs := ∅ |}.

Section CyclicShape.

Variable SUPPORT_64BIT : bool.

(** One descriptor of a cyclic transfer at block [a], before it is
    linked. *)
Definition cyclic_desc (c0 a dma_src dma_dst dma_srch dma_dsth period_len : Z)
    : mmp_pdma_desc_sw :=
  let hw :=
    set_dcmd (Z.lor (Z.lor c0 DCMD_ENDIRQEN) (Z.land DCMD_LENGTH period_len))
      (desc (zero_desc a)) in
  ack_new
    (with_desc
       (fun _ => set_addrs (u32 dma_src) (u32 dma_dst)
                   (hi SUPPORT_64BIT (u32 dma_dsth) (dsadrh hw))
                   (hi SUPPORT_64BIT (u32 dma_srch) (dtadrh hw)) hw)
       (zero_desc a)).

Fixpoint cyclic_descs (c0 : Z) (d : dma_transfer_direction) (addrs : list Z)
    (dma_src dma_dst dma_srch dma_dsth period_len : Z)
    : list mmp_pdma_desc_sw :=
  match addrs with
  | [] => []
  | a :: addrs =>
      cyclic_desc c0 a dma_src dma_dst dma_srch dma_dsth period_len
      :: cyclic_descs c0 d addrs
           (match d with
            | DMA_MEM_TO_DEV => u64 (dma_src + period_len)
            | _ => dma_src
            end)
           (match d with
            | DMA_MEM_TO_DEV => dma_dst
            | _ => u64 (dma_dst + period_len)
            end)
           dma_srch dma_dsth period_len
  end.

End CyclicShape.

(** Number of descriptors the inner loop of [mmp_pdma_prep_slave_sg]
    builds for [avail] bytes (a [do ... while] loop runs at least once). *)
Definition sg_chunks (avail : Z) : Z :=
  if avail <=? 0 then 1 else chunks avail.

(** Number of descriptors [mmp_pdma_prep_slave_sg] allocates for a list:
    the loop reads [sg_dma_len(sgl)], the length of the first entry, for
    every entry. *)
Definition sg_desc_count (sgl : list scatterlist) : Z :=
  match sgl with
  | [] => 0
  | s0 :: _ => Z.of_nat (length sgl) * sg_chunks (sg_dma_len s0)
  end.

(** The pool holds the same blocks as before: the same blocks are handed
    out and the same blocks are free (possibly in another order). *)
Definition pool_restored (p p' : dma_pool) : Prop :=
  pool_used p' = pool_used p /\ Permutation (pool_free p') (pool_free p).

(** ** Register access *)

Definition readl (r : gmap Z Z) (off : Z) : Z := default 0 (r !! off).
Definition writel (v off : Z) (r : gmap Z Z) : gmap Z Z := <[off := v]> r.

(** ** Physical channel registry *)

(** [pdev->phy[i].vchan], for an [int] index; [None] outside the array,
    where the source, which does not check the index, reads whatever lies
    behind the array. *)
Definition phy_vchan (pdev : mmp_pdma_device) (i : Z) : option (option nat) :=
  if i <? 0 then None else pdev_phy pdev !! Z.to_nat i.

(** [phy->vchan = pchan]. *)
Definition bind_phy (pdev : mmp_pdma_device) (i : nat) (cid : nat)
    : mmp_pdma_device :=
  set_pdev_phy (<[i := Some cid]> (pdev_phy pdev)) pdev.

Fixpoint is_reserved_in (l : list reserved_chan) (chan_id : Z) : bool :=
  match l with
  | [] => false
  | rc :: rest =>
      if chan_id =? rc_chan_id rc then true else is_reserved_in rest chan_id
  end.

(** [is_channel_reserved]. *)
Definition is_channel_reserved (pdev : mmp_pdma_device) (chan_id : Z) : bool :=
  is_reserved_in (reserved_channels pdev) chan_id.

Fixpoint drcmr_in (l : list reserved_chan) (drcmr : Z) : option Z :=
  match l with
  | [] => None
  | rc :: rest =>
      if drcmr =? rc_drcmr rc then Some (rc_chan_id rc) else drcmr_in rest drcmr
  end.

(** [lookup_phy_for_drcmr]: the index of the physical channel reserved for
    request line [drcmr], if there is one. *)
Definition lookup_phy_for_drcmr (pdev : mmp_pdma_device) (drcmr : Z)
    : option Z :=
  drcmr_in (reserved_channels pdev) drcmr.

(** [(i & 0xf) >> 2], the priority of physical channel [i]. *)
Definition prio_of (i : Z) : Z := Z.shiftr (Z.land i 0xf) 2.

(** The inner loop of [lookup_phy] over the indices [idxs], for one
    priority. *)
Fixpoint lookup_phy_in_band (pdev : mmp_pdma_device) (prio : Z)
    (idxs : list nat) : option nat :=
  match idxs with
  | [] => None
  | i :: rest =>
      if negb (prio =? prio_of (Z.of_nat i)) then
        lookup_phy_in_band pdev prio rest
      else if is_channel_reserved pdev (Z.of_nat i) then
        lookup_phy_in_band pdev prio rest
      else
        match pdev_phy pdev !! i with
        | Some None => Some i
        | _ => lookup_phy_in_band pdev prio rest
        end
  end.

(** The outer loop of [lookup_phy] over the priorities [prios]. *)
Fixpoint lookup_phy_bands (pdev : mmp_pdma_device) (prios : list nat)
    : option nat :=
  match prios with
  | [] => None
  | prio :: rest =>
      match lookup_phy_in_band pdev (Z.of_nat prio)
              (seq 0 (Z.to_nat (dma_channels pdev))) with
      | Some i => Some i
      | None => lookup_phy_bands pdev rest
      end
  end.

(** The last priority the outer loop visits:
    [((pdev->dma_channels - 1) & 0xf) >> 2]. *)
Definition last_prio (pdev : mmp_pdma_device) : Z :=
  Z.shiftr (Z.land (dma_channels pdev - 1) 0xf) 2.

(** [lookup_phy]: the physical channel found (and now bound to [pchan]),
    with the new registry.  A reservation entry is followed without a
    bounds check, as in the source; the result describes the source when
    the entry names a channel of the array, which
    [reserved_phy_in_bounds] below decides. *)
Definition lookup_phy (pdev : mmp_pdma_device) (pchan : mmp_pdma_chan)
    : option nat * mmp_pdma_device :=
  match lookup_phy_for_drcmr pdev (drcmr pchan) with
  | Some idx =>
      match phy_vchan pdev idx with
      | Some None =>
          (Some (Z.to_nat idx), bind_phy pdev (Z.to_nat idx) (chan_id pchan))
      | _ => (None, pdev)
      end
  | None =>
      match lookup_phy_bands pdev (seq 0 (Z.to_nat (last_prio pdev + 1))) with
      | Some i => (Some i, bind_phy pdev i (chan_id pchan))
      | None => (None, pdev)
      end
  end.

(** [mmp_pdma_free_phy]. *)
Definition mmp_pdma_free_phy (pdev : mmp_pdma_device) (pchan : mmp_pdma_chan)
    : mmp_pdma_device * mmp_pdma_chan :=
  match phy pchan with
  | None => (pdev, pchan)
  | Some i =>
      let pdev := set_regs (writel 0 (DRCMR (drcmr pchan)) (regs pdev)) pdev in
      (set_pdev_phy (<[i := None]> (pdev_phy pdev)) pdev, set_phy None pchan)
  end.

(** ** Hardware control, submission, completion and residue *)

(** Result of an interrupt handler.  [IRQ_OOPS] is a fault: the handler
    dereferenced a null [phy->vchan]. *)
Inductive irqreturn_t := IRQ_NONE | IRQ_HANDLED | IRQ_OOPS.

(** [tasklet_schedule(&vchan->tasklet)] for the channel a [vchan] pointer
    designates; [None] is a call through a null pointer.  The schedule
    requests are collected in order. *)
Definition tasklet_schedule (vchan : option nat) (scheduled : list nat)
    : option (list nat) :=
  match vchan with
  | Some cid => Some (scheduled ++ [cid])
  | None => None
  end.

(** [clear_chan_irq]: [0], or [-EAGAIN] when the status bit of the channel
    is clear.  The write-back of [DCSR] acknowledges the interrupt. *)
Definition clear_chan_irq (pdev : mmp_pdma_device) (idx : nat)
    : Z * mmp_pdma_device :=
  let dint := readl (regs pdev) DINT in
  let reg := Z.shiftl (Z.of_nat idx) 2 + DCSR in
  if negb (nonzero (Z.land dint (BIT (Z.of_nat idx)))) then (- EAGAIN, pdev)
  else
    let dcsr := readl (regs pdev) reg in
    (0, set_regs (writel dcsr reg (regs pdev)) pdev).

(** [mmp_pdma_chan_handler] for physical channel [idx]. *)
Definition mmp_pdma_chan_handler (pdev : mmp_pdma_device) (idx : nat)
    (scheduled : list nat) : irqreturn_t * mmp_pdma_device * list nat :=
  let pchan := mjoin (pdev_phy pdev !! idx) in
  match clear_chan_irq pdev idx with
  | (ret, pdev) =>
      if nonzero ret then (IRQ_NONE, pdev, scheduled)
      else
        let scheduled :=
          match pchan with
          | Some cid => scheduled ++ [cid]
          | None => scheduled
          end in
        match tasklet_schedule (mjoin (pdev_phy pdev !! idx)) scheduled with
        | Some scheduled => (IRQ_HANDLED, pdev, scheduled)
        | None => (IRQ_OOPS, pdev, scheduled)
        end
  end.

(** [dma_cookie_assign] of the dmaengine core.
    Modelled from the spec: the helper is not part of the driver; submit
    "assigns each descriptor in the chain a monotonically increasing
    token", the next token of the channel. *)
Definition dma_cookie_assign (chan : mmp_pdma_chan)
    (tx : dma_async_tx_descriptor) : Z * mmp_pdma_chan * dma_async_tx_descriptor :=
  let c := chan_cookie chan + 1 in
  (c, set_chan_cookie c chan, set_cookie c tx).

(** The loop [list_for_each_entry(child, &desc->tx_list, node)] of
    [mmp_pdma_tx_submit]. *)
Fixpoint assign_cookies (chan : mmp_pdma_chan) (cookie0 : Z)
    (tx_list : list mmp_pdma_desc_sw)
    : Z * mmp_pdma_chan * list mmp_pdma_desc_sw :=
  match tx_list with
  | [] => (cookie0, chan, [])
  | child :: rest =>
      match dma_cookie_assign chan (async_tx child) with
      | (c, chan, tx) =>
          match assign_cookies chan c rest with
          | (c', chan, rest) => (c', chan, with_tx (fun _ => tx) child :: rest)
          end
      end
  end.

(** [mmp_pdma_tx_submit] for the chain [tx_list] of a prepared
    descriptor. *)
Definition mmp_pdma_tx_submit (chan : mmp_pdma_chan)
    (tx_list : list mmp_pdma_desc_sw) : Z * mmp_pdma_chan :=
  match assign_cookies chan (- EBUSY) tx_list with
  | (c, chan, tx_list) =>
      (c, set_chain_pending (chain_pending chan ++ tx_list) chan)
  end.

(** The loop of [start_pending_queue] that moves descriptors from the
    pending to the running list, up to and including the first one whose
    [ddadr] carries [DDADR_STOP]: the descriptors moved and those left. *)
Fixpoint take_pending (pending : list mmp_pdma_desc_sw)
    : list mmp_pdma_desc_sw * list mmp_pdma_desc_sw :=
  match pending with
  | [] => ([], [])
  | d :: rest =>
      if ddadr_stop d then ([d], rest)
      else let '(moved, remaining) := take_pending rest in (d :: moved, remaining)
  end.

(** [mmp_pdma_qos_get] and [mmp_pdma_qos_put]; the runtime power
    management calls themselves are outside the model. *)
Definition mmp_pdma_qos_get (chan : mmp_pdma_chan) : mmp_pdma_chan :=
  if nonzero (user_do_qos chan) then chan
  else if qos_count chan =? 0 then set_qos_count 1 chan else chan.

Definition mmp_pdma_qos_put (chan : mmp_pdma_chan) : mmp_pdma_chan :=
  if nonzero (user_do_qos chan) then chan
  else if qos_count chan =? 1 then set_qos_count 0 chan else chan.

(** The walk of [mmp_pdma_residue] over the running list, with the loop
    variables [residue] and [passed]. *)
Fixpoint residue_walk (d : dma_transfer_direction) (cyclic : bool)
    (cookie0 curr : Z) (running : list mmp_pdma_desc_sw)
    (residue : Z) (passed : bool) : Z :=
  match running with
  | [] => residue
  | sw :: rest =>
      let start :=
        match d with
        | DMA_DEV_TO_MEM => dtadr (desc sw)
        | _ => dsadr (desc sw)
        end in
      let len := Z.land (dcmd (desc sw)) DCMD_LENGTH in
      let end_ := u32 (start + len) in
      let '(residue, passed) :=
        if passed then (u32 (residue + len), passed)
        else if (curr >=? start) && (curr <=? end_)
             then (u32 (residue + u32 (end_ - curr)), true)
             else (residue, passed) in
      if cyclic || negb (nonzero (Z.land (dcmd (desc sw)) DCMD_ENDIRQEN))
      then residue_walk d cyclic cookie0 curr rest residue passed
      else if cookie (async_tx sw) =? cookie0 then residue
      else residue_walk d cyclic cookie0 curr rest 0 false
  end.

(** [mmp_pdma_residue]. *)
Definition mmp_pdma_residue (pdev : mmp_pdma_device) (chan : mmp_pdma_chan)
    (cookie0 : Z) : Z :=
  let cyclic := match cyclic_first chan with Some _ => true | None => false end in
  match phy chan with
  | None => bytes_residue chan
  | Some idx =>
      let curr :=
        match dir chan with
        | DMA_DEV_TO_MEM => readl (regs pdev) (DTADR (Z.of_nat idx))
        | _ => readl (regs pdev) (DSADR (Z.of_nat idx))
        end in
      residue_walk (dir chan) cyclic cookie0 curr (chain_running chan) 0 false
  end.

Section Engine.

Variable SUPPORT_64BIT : bool.

(** [set_desc]. *)
Definition set_desc (pdev : mmp_pdma_device) (idx : nat) (addr : Z)
    : mmp_pdma_device :=
  let reg := Z.shiftl (Z.of_nat idx) 4 + DDADR in
  let r := writel (Z.land addr 0xffffffff) reg (regs pdev) in
  let r :=
    if SUPPORT_64BIT
    then writel (u32 (Z.shiftr addr 32)) (DDADRH (Z.of_nat idx)) r
    else r in
  set_regs r pdev.

(** [enable_chan(chan->phy)].  The caller passes the physical channel of
    [chan], so [phy->vchan], when set, is [chan]. *)
Definition enable_chan (pdev : mmp_pdma_device) (phy : option nat)
    (chan : mmp_pdma_chan) : mmp_pdma_device :=
  match phy with
  | None => pdev
  | Some idx =>
      match mjoin (pdev_phy pdev !! idx) with
      | None => pdev
      | Some _ =>
          let i := Z.of_nat idx in
          let r := writel (Z.lor DRCMR_MAPVLD i) (DRCMR (drcmr chan))
                     (regs pdev) in
          let dalgn := readl r DALGN in
          let dalgn :=
            if byte_align chan then u32 (Z.lor dalgn (Z.shiftl 1 i))
            else Z.ldiff dalgn (Z.shiftl 1 i) in
          let r := writel dalgn DALGN r in
          let reg := Z.shiftl i 2 + DCSR in
          let dcsr := readl r reg in
          let dcsr :=
            Z.lor dcsr (Z.lor (Z.lor DCSR_RUN DCSR_EORIRQEN) DCSR_EORSTOPEN) in
          let dcsr := if SUPPORT_64BIT then Z.lor dcsr DCSR_LPAEEN else dcsr in
          set_regs (writel dcsr reg r) pdev
      end
  end.

(** [disable_chan].  The bounded poll for the stop state only reads the
    register and leaves no trace in the state. *)
Definition disable_chan (pdev : mmp_pdma_device) (phy : option nat)
    : mmp_pdma_device :=
  match phy with
  | None => pdev
  | Some idx =>
      let reg := Z.shiftl (Z.of_nat idx) 2 + DCSR in
      let dcsr := readl (regs pdev) reg in
      let dcsr :=
        Z.ldiff dcsr (Z.lor (Z.lor DCSR_RUN DCSR_EORIRQEN) DCSR_EORSTOPEN) in
      let dcsr := if SUPPORT_64BIT then Z.ldiff dcsr DCSR_LPAEEN else dcsr in
      set_regs (writel dcsr reg (regs pdev)) pdev
  end.

(** The tail of [start_pending_queue], once a physical channel is bound:
    pending to running, program the first running descriptor, start. *)
Definition run_pending (pdev : mmp_pdma_device) (chan : mmp_pdma_chan)
    : Z * mmp_pdma_device * mmp_pdma_chan :=
  let '(moved, remaining) := take_pending (chain_pending chan) in
  let chan :=
    set_chain_running (chain_running chan ++ moved)
      (set_chain_pending remaining chan) in
  let addr :=
    match chain_running chan with
    | first :: _ => phys (async_tx first)
    | [] => 0
    end in
  let pdev :=
    match phy chan with
    | Some idx => set_desc pdev idx addr
    | None => pdev
    end in
  let pdev := enable_chan pdev (phy chan) chan in
  (0, pdev,
   set_bytes_residue 0 (set_status DMA_IN_PROGRESS (set_idle false chan))).

(** [start_pending_queue]: return value, registry and channel. *)
Definition start_pending_queue (pdev : mmp_pdma_device) (chan : mmp_pdma_chan)
    : Z * mmp_pdma_device * mmp_pdma_chan :=
  if status_eqb (status chan) DMA_IN_PROGRESS then (-1, pdev, chan)
  else
    match chain_pending chan with
    | [] =>
        let '(pdev, chan) := mmp_pdma_free_phy pdev chan in (-1, pdev, chan)
    | _ :: _ =>
        let acquired :=
          match phy chan with
          | Some _ => Some (pdev, chan)
          | None =>
              match lookup_phy pdev chan with
              | (Some i, pdev) => Some (pdev, set_phy (Some i) chan)
              | (None, _) => None
              end
          end in
        match acquired with
        | None => (-1, pdev, chan)
        | Some (pdev, chan) => run_pending pdev chan
        end
    end.

(** [mmp_pdma_issue_pending]. *)
Definition mmp_pdma_issue_pending (pdev : mmp_pdma_device)
    (chan : mmp_pdma_chan) : mmp_pdma_device * mmp_pdma_chan :=
  let chan := mmp_pdma_qos_get chan in
  match start_pending_queue pdev chan with
  | (ret, pdev, chan) =>
      (pdev, if nonzero ret then mmp_pdma_qos_put chan else chan)
  end.

(** [mmp_pdma_pause_chan]. *)
Definition mmp_pdma_pause_chan (pdev : mmp_pdma_device) (chan : mmp_pdma_chan)
    : Z * mmp_pdma_device * mmp_pdma_chan :=
  match phy chan with
  | None => (-1, pdev, chan)
  | Some idx =>
      (0, disable_chan pdev (Some idx), set_status DMA_PAUSED chan)
  end.

(** [mmp_pdma_terminate_all]. *)
Definition mmp_pdma_terminate_all (pdev : mmp_pdma_device)
    (chan : mmp_pdma_chan) : mmp_pdma_device * mmp_pdma_chan :=
  let pdev := disable_chan pdev (phy chan) in
  let chan := set_status DMA_COMPLETE chan in
  let '(pdev, chan) := mmp_pdma_free_phy pdev chan in
  let chan :=
    set_chain_pending [] (mmp_pdma_free_desc_list chan (chain_pending chan)) in
  let chan :=
    set_chain_running [] (mmp_pdma_free_desc_list chan (chain_running chan)) in
  let chan := set_bytes_residue 0 chan in
  let chan := set_idle true chan in
  (pdev, mmp_pdma_qos_put chan).

(** The second loop of [dma_do_tasklet] over the running list.
    [list_move] unlinks the descriptor and inserts it at the head of
    [chain_cleanup]; the loop stops after the first descriptor with the end
    interrupt flag, whose cookie it completes. *)
Fixpoint move_to_cleanup (running cleanup : list mmp_pdma_desc_sw)
    (completed : option Z)
    : list mmp_pdma_desc_sw * list mmp_pdma_desc_sw * option Z :=
  match running with
  | [] => ([], cleanup, completed)
  | d :: rest =>
      let cleanup := d :: cleanup in
      if end_of_chain_irq d then (rest, cleanup, Some (cookie (async_tx d)))
      else move_to_cleanup rest cleanup completed
  end.

(** The first loop of [dma_do_tasklet]: the cookie of the first running
    descriptor with the end interrupt flag. *)
Definition first_irq_cookie (running : list mmp_pdma_desc_sw) : option Z :=
  cookie <$> (async_tx <$> List.find end_of_chain_irq running).

(** The last loop of [dma_do_tasklet]: for every descriptor on the cleanup
    list, in list order, run its callback (if it has one) and free it.
    The callbacks run are recorded as (callback, cookie of the
    descriptor). *)
Fixpoint run_cleanup (chan : mmp_pdma_chan) (cleanup : list mmp_pdma_desc_sw)
    (log : list (nat * Z)) : mmp_pdma_chan * list (nat * Z) :=
  match cleanup with
  | [] => (chan, log)
  | d :: rest =>
      let log :=
        match callback (async_tx d) with
        | Some cb => log ++ [(cb, cookie (async_tx d))]
        | None => log
        end in
      run_cleanup
        (set_desc_pool (dma_pool_free (desc_pool chan) (phys (async_tx d))) chan)
        rest log
  end.

(** [dma_do_tasklet]: registry, channel and the callbacks run, in order.
    [dma_cookie_complete] is modelled from the spec ("mark its token
    complete"): it records the cookie as the completed cookie of the
    channel.  In cyclic mode the source calls the callback through the
    pointer [chan->cyclic_first]; the model finds that descriptor by its
    bus address on the queues of the channel, which describes the source
    when the ring is queued ([cyclic_head_queued] below). *)
Definition dma_do_tasklet (pdev : mmp_pdma_device) (chan : mmp_pdma_chan)
    : mmp_pdma_device * mmp_pdma_chan * list (nat * Z) :=
  if status_eqb (status chan) DMA_COMPLETE then (pdev, chan, [])
  else
    match cyclic_first chan with
    | Some first =>
        let cb :=
          List.find (fun d => phys (async_tx d) =? first)
            (chain_running chan ++ chain_pending chan) in
        (pdev, chan,
         match cb with
         | Some d =>
             match callback (async_tx d) with
             | Some cb => [(cb, cookie (async_tx d))]
             | None => []
             end
         | None => []
         end)
    | None =>
        let chan :=
          match first_irq_cookie (chain_running chan) with
          | Some c => set_bytes_residue (mmp_pdma_residue pdev chan c) chan
          | None => chan
          end in
        let '(running, cleanup, completed) :=
          move_to_cleanup (chain_running chan) [] None in
        let chan := set_chain_running running chan in
        let chan :=
          match completed with
          | Some c => set_completed_cookie c chan
          | None => chan
          end in
        let chan :=
          set_status (match chain_running chan with
                      | [] => DMA_COMPLETE
                      | _ :: _ => DMA_IN_PROGRESS
                      end) chan in
        match start_pending_queue pdev chan with
        | (ret, pdev, chan) =>
            let chan := if nonzero ret then mmp_pdma_qos_put chan else chan in
            let '(chan, log) := run_cleanup chan cleanup [] in
            (pdev, chan, log)
        end
    end.

End Engine.

(** ** Concrete states used in the evaluations below *)

(** The sample controller with the interrupt status bit of physical
    channel 3 raised in [DINT]; no physical channel is bound. *)
Definition irq_pdev : mmp_pdma_device :=
  set_regs {[ DINT := BIT 3 ]} sample_pdev.

(** Two scatter-gather segments of 100 and 200 bytes. *)
Definition two_segments : list scatterlist :=
  [ {| sg_dma_address := 0x8000; sg_dma_len := 100 |};
    {| sg_dma_address := 0x9000; sg_dma_len := 200 |} ].

(** A two-descriptor transfer on the running list: tokens 2 and 3, the
    second descriptor closing the chain, and a callback on each. *)
Definition running_pair : list mmp_pdma_desc_sw :=
  [ {| desc := {| ddadr := 0x1040; dsadr := 0x800000; dtadr := 0x900000;
                  dcmd := Z.lor (Z.lor DCMD_INCTRGADDR DCMD_INCSRCADDR) 8191;
                  ddadrh := 0; dsadrh := 0; dtadrh := 0 |};
       async_tx := {| cookie := 2; flags := DMA_CTRL_ACK; phys := 0x1000;
                      callback := Some 0%nat |} |};
    {| desc := {| ddadr := DDADR_STOP; dsadr := 0x801fff; dtadr := 0x901fff;
                  dcmd := Z.lor (Z.lor (Z.lor DCMD_INCTRGADDR DCMD_INCSRCADDR)
                                   DCMD_ENDIRQEN) 1809;
                  ddadrh := 0; dsadrh := 0; dtadrh := 0 |};
       async_tx := {| cookie := 3; flags := DMA_CTRL_ACK; phys := 0x1040;
                      callback := Some 1%nat |} |} ].

(** The sample channel, bound to physical channel 0, with that transfer in
    flight. *)
Definition busy_chan : mmp_pdma_chan :=
  set_desc_pool {| pool_free := [0x1080; 0x10c0]; pool_used := [0x1040; 0x1000] |}
    (set_chan_cookie 3
       (set_status DMA_IN_PROGRESS
          (set_chain_running running_pair (set_phy (Some 0%nat) sample_chan)))).

Definition busy_pdev : mmp_pdma_device := bind_phy sample_pdev 0 0.

(** ** Descriptions used in the statements about the registry *)

(** Physical channel [j] exists and is bound to no logical channel. *)
Definition phy_unbound (pdev : mmp_pdma_device) (j : nat) : Prop :=
  pdev_phy pdev !! j = Some None.

(** The test the inner loop of [lookup_phy] applies to index [j] for
    priority [prio]. *)
Definition eligible (pdev : mmp_pdma_device) (prio : Z) (j : nat) : bool :=
  (prio =? prio_of (Z.of_nat j))
  && negb (is_channel_reserved pdev (Z.of_nat j))
  && match pdev_phy pdev !! j with Some None => true | _ => false end.

(** The reading of the claim on the free search: a request without a
    reservation is given a physical channel whenever some channel of the
    controller is unbound and not reserved. *)
Definition free_search_finds_any (pdev : mmp_pdma_device)
    (pchan : mmp_pdma_chan) : Prop :=
  lookup_phy_for_drcmr pdev (drcmr pchan) = None ->
  forall j : nat,
    Z.of_nat j < dma_channels pdev -> phy_unbound pdev j ->
    is_channel_reserved pdev (Z.of_nat j) = false ->
    fst (lookup_phy pdev pchan) <> None.

(** The sample channel with a descriptor pool above 4 GiB, as the 64-bit
    DMA mask that probe sets under [CONFIG_SPACEMIT_PDMA_SUPPORT_64BIT]
    allows. *)
Definition high_pool_chan : mmp_pdma_chan :=
  set_desc_pool
    {| pool_free := [0x100001000; 0x100001040; 0x100001080; 0x1000010c0];
       pool_used := [] |}
    sample_chan.

(** A controller with 20 physical channels of which 0-3 and 16-19, the
    channels of priority 0, are bound to other logical channels. *)
Definition pdev20 : mmp_pdma_device :=
  {| dma_channels := 20; reserved_channels := [];
     max_burst_size := DEFAULT_MAX_BURST_SIZE;
     pdev_phy := replicate 4 (Some 7%nat) ++ replicate 12 None
                 ++ replicate 4 (Some 7%nat);
     regs := ∅ |}.

(** A controller on which request line 5 has physical channel 15 reserved. *)
Definition reserved_pdev : mmp_pdma_device :=
  {| dma_channels := 16;
     reserved_channels := [ {| rc_chan_id := 15; rc_drcmr := 5 |} ];
     max_burst_size := DEFAULT_MAX_BURST_SIZE;
     pdev_phy := replicate 16 None; regs := ∅ |}.

(** ** The residue, transfer by transfer

    A second description of what [mmp_pdma_residue] computes, following the
    wording of the specification: the running list is a sequence of
    transfers, each ending at a descriptor with the end interrupt flag; the
    residue of a transfer is the rest of the descriptor that contains the
    live position plus the full length of every later descriptor of that
    transfer. *)

Definition span_start (d : dma_transfer_direction) (sw : mmp_pdma_desc_sw) : Z :=
  match d with
  | DMA_DEV_TO_MEM => dtadr (desc sw)
  | _ => dsadr (desc sw)
  end.

Definition span_end (d : dma_transfer_direction) (sw : mmp_pdma_desc_sw) : Z :=
  u32 (span_start d sw + desc_len sw).

(** The live position lies in the span of the descriptor, both ends
    included. *)
Definition in_span (d : dma_transfer_direction) (curr : Z)
    (sw : mmp_pdma_desc_sw) : bool :=
  (curr >=? span_start d sw) && (curr <=? span_end d sw).

(** Bytes still to move in the descriptors [l] of one transfer. *)
Fixpoint bytes_left (d : dma_transfer_direction) (curr : Z)
    (l : list mmp_pdma_desc_sw) : Z :=
  match l with
  | [] => 0
  | sw :: rest =>
      if in_span d curr sw then u32 (span_end d sw - curr + sum_len rest)
      else bytes_left d curr rest
  end.

(** "Passed": some descriptor of the list contains the live position. *)
Definition passed_in (d : dma_transfer_direction) (curr : Z)
    (l : list mmp_pdma_desc_sw) : bool :=
  existsb (in_span d curr) l.

(** The residue of the transfer whose closing descriptor carries
    [cookie0]; [acc] holds the descriptors of the transfer being looked
    at. *)
Fixpoint residue_by_transfer (d : dma_transfer_direction) (cookie0 curr : Z)
    (running acc : list mmp_pdma_desc_sw) : Z :=
  match running with
  | [] => bytes_left d curr acc
  | sw :: rest =>
      if end_of_chain_irq sw then
        if cookie (async_tx sw) =? cookie0
        then bytes_left d curr (acc ++ [sw])
        else residue_by_transfer d cookie0 curr rest []
      else residue_by_transfer d cookie0 curr rest (acc ++ [sw])
  end.

Definition residue_spec (d : dma_transfer_direction) (cyclic : bool)
    (cookie0 curr : Z) (running : list mmp_pdma_desc_sw) : Z :=
  if cyclic then bytes_left d curr running
  else residue_by_transfer d cookie0 curr running [].

(** The live position register [mmp_pdma_residue] reads for a channel
    bound to physical channel [idx]. *)
Definition position_register (d : dma_transfer_direction) (idx : nat) : Z :=
  match d with
  | DMA_DEV_TO_MEM => DTADR (Z.of_nat idx)
  | _ => DSADR (Z.of_nat idx)
  end.

(** The sample channel with the two-descriptor transfer submitted but not
    yet issued. *)
Definition pending_chan : mmp_pdma_chan :=
  set_desc_pool {| pool_free := [0x1080; 0x10c0]; pool_used := [0x1040; 0x1000] |}
    (set_chan_cookie 3 (set_chain_pending running_pair sample_chan)).


(** ** The logical channel invariant *)

(** A non-empty running list implies status "in progress" and a bound
    physical channel. *)
Definition running_ok (chan : mmp_pdma_chan) : Prop :=
  chain_running chan <> [] ->
  status chan = DMA_IN_PROGRESS /\ phy chan <> None.

(** The channel's [phy] pointer and the [vchan] pointers of the registry
    agree. *)
Definition bound_consistent (pdev : mmp_pdma_device) (chan : mmp_pdma_chan)
    : Prop :=
  (forall i, phy chan = Some i ->
             pdev_phy pdev !! i = Some (Some (chan_id chan))) /\
  (forall i, pdev_phy pdev !! i = Some (Some (chan_id chan)) ->
             phy chan = Some i).

(** At most one physical channel is bound to the logical channel [cid]. *)
Definition at_most_one_bound (pdev : mmp_pdma_device) (cid : nat) : Prop :=
  forall i j, pdev_phy pdev !! i = Some (Some cid) ->
              pdev_phy pdev !! j = Some (Some cid) -> i = j.

Definition chan_invariant (pdev : mmp_pdma_device) (chan : mmp_pdma_chan)
    : Prop :=
  running_ok chan /\ bound_consistent pdev chan /\
  at_most_one_bound pdev (chan_id chan).

(** What is left of the invariant after a pause: a non-empty running list
    still implies a bound physical channel, with status "paused". *)
Definition paused_invariant (pdev : mmp_pdma_device) (chan : mmp_pdma_chan)
    : Prop :=
  (chain_running chan <> [] ->
   status chan = DMA_PAUSED /\ phy chan <> None) /\
  bound_consistent pdev chan /\ at_most_one_bound pdev (chan_id chan).

(** The reading of the claim for the pause operation. *)
Definition pause_keeps_invariant (b64 : bool) : Prop :=
  forall (pdev : mmp_pdma_device) (chan : mmp_pdma_chan),
    chan_invariant pdev chan ->
    chan_invariant (snd (fst (mmp_pdma_pause_chan b64 pdev chan)))
      (snd (mmp_pdma_pause_chan b64 pdev chan)).

(** ** Descriptions used in the statements about completion *)

(** The descriptors one run of the tasklet retires: the running list up to
    and including its first descriptor with the end interrupt flag. *)
Fixpoint take_through_irq (running : list mmp_pdma_desc_sw)
    : list mmp_pdma_desc_sw :=
  match running with
  | [] => []
  | d :: rest =>
      if end_of_chain_irq d then [d] else d :: take_through_irq rest
  end.

(** The callbacks carried by a list of descriptors, in list order. *)
Fixpoint callbacks_of (l : list mmp_pdma_desc_sw) : list (nat * Z) :=
  match l with
  | [] => []
  | d :: rest =>
      match callback (async_tx d) with
      | Some cb => (cb, cookie (async_tx d)) :: callbacks_of rest
      | None => callbacks_of rest
      end
  end.

(** Two segments, the first longer than the second. *)
Definition two_segments_long_first : list scatterlist :=
  [ {| sg_dma_address := 0x8000; sg_dma_len := 200 |};
    {| sg_dma_address := 0x9000; sg_dma_len := 100 |} ].

(** ** Probe and channel set-up *)

Definition DRCMR_CHLNUM : Z := 0x1f.

(** The properties of the device tree node that [mmp_pdma_probe] reads once
    [of_match_device] has matched; [None] is an absent property.
    [dt_reserved_channels] holds the u32 cells of "reserved-channels". *)
Record pdma_of_node := {
  dt_dma_channels : option Z;
  dt_reserved_channels : option (list Z);
  dt_max_burst_size : option Z
}.

(** One round of the loop of [mmp_pdma_probe] over the reserved channels:
    [of_property_read_u32_index] at [i * num_args] and [i * num_args + 1].
    Both indices lie inside the property, so the reads succeed. *)
Definition read_reserved_chan (cells : list Z) (i : nat) : reserved_chan :=
  {| rc_chan_id := default 0 (cells !! (i * 2)%nat);
     rc_drcmr := default 0 (cells !! (i * 2 + 1)%nat) |}.

(** The table [mmp_pdma_probe] builds from "reserved-channels":
    [n / (sizeof(u32) * num_args)] entries, [n] the size of the property in
    bytes. *)
Definition probe_reserved_channels (cells : list Z) : list reserved_chan :=
  let n := 4 * Z.of_nat (length cells) in
  let nr_reserved_channels := n / (4 * 2) in
  map (read_reserved_chan cells) (seq 0 (Z.to_nat nr_reserved_channels)).

(** The value [mmp_pdma_probe] stores in [pdev->max_burst_size] for a
    matched node. *)
Definition probe_max_burst_size (prop : option Z) : Z :=
  let max_burst_size :=
    match prop with
    | Some v => v
    | None => DEFAULT_MAX_BURST_SIZE
    end in
  if get_max_burst_setting max_burst_size =? INVALID_BURST_SETTING
  then DEFAULT_MAX_BURST_SIZE else max_burst_size.

(** The device [mmp_pdma_probe] sets up.  [of_id] is the matched device tree
    node, if any; [pdata] the [dma_channels] field of the platform data, if
    there are platform data; [base] the register file.  The [phy] array
    comes from [devm_kcalloc], so no physical channel is bound. *)
Definition mmp_pdma_probe (of_id : option pdma_of_node) (pdata : option Z)
    (base : gmap Z Z) : mmp_pdma_device :=
  let '(dma_channels, reserved, max_burst_size) :=
    match of_id with
    | Some node =>
        (default 0 (dt_dma_channels node),
         match dt_reserved_channels node with
         | Some cells => probe_reserved_channels cells
         | None => []
         end,
         probe_max_burst_size (dt_max_burst_size node))
    | None =>
        (match pdata with
         | Some n => if nonzero n then n else 32
         | None => 32
         end, [], DEFAULT_MAX_BURST_SIZE)
    end in
  {| dma_channels := dma_channels; reserved_channels := reserved;
     max_burst_size := max_burst_size;
     pdev_phy := replicate (Z.to_nat dma_channels) None; regs := base |}.

(** [mmp_pdma_config]: the configuration is copied into
    [chan->slave_config]. *)
Definition mmp_pdma_config (chan : mmp_pdma_chan) (cfg : dma_slave_config)
    : Z * mmp_pdma_chan :=
  (0, set_slave_config cfg chan).

(** The cells of a "reserved-channels" property written as pairs
    [<chan_id drcmr>]. *)
Definition reserved_cells (pairs : list (Z * Z)) : list Z :=
  concat (map (fun p => [fst p; snd p]) pairs).

(** The registers of physical channel [j]: control/status, descriptor
    address (low and high word) and its bit of the alignment register. *)
Definition phy_registers (r : gmap Z Z) (j : nat) : Z * Z * Z * bool :=
  (readl r (Z.shiftl (Z.of_nat j) 2 + DCSR),
   readl r (Z.shiftl (Z.of_nat j) 4 + DDADR),
   readl r (DDADRH (Z.of_nat j)),
   Z.testbit (readl r DALGN) (Z.of_nat j)).

(** ** Descriptions used in the statements about queueing *)

(** Repeated runs of the completion tasklet, one per interrupt, with the
    callbacks of all runs in order. *)
Fixpoint tasklet_runs (b64 : bool) (n : nat) (pdev : mmp_pdma_device)
    (chan : mmp_pdma_chan)
    : mmp_pdma_device * mmp_pdma_chan * list (nat * Z) :=
  match n with
  | O => (pdev, chan, [])
  | S n =>
      let '(pdev, chan, log) := dma_do_tasklet b64 pdev chan in
      let '(pdev, chan, log') := tasklet_runs b64 n pdev chan in
      (pdev, chan, log ++ log')
  end.

(** Every block the pool has handed out belongs to a descriptor on one of
    the two queues of the channel. *)
Definition all_blocks_queued (chan : mmp_pdma_chan) : Prop :=
  forall a, In a (pool_used (desc_pool chan)) ->
            In a (map desc_phys (chain_pending chan ++ chain_running chan)).

(** ** Closed form of the chain the slave builder produces *)

Section SgShape.

Variable SUPPORT_64BIT : bool.

(** One descriptor of a slave transfer at block [a], before it is
    linked. *)
Definition sg_desc (c0 : Z) (d : dma_transfer_direction) (dev a addr avail : Z)
    : mmp_pdma_desc_sw :=
  let len := Z.min avail PDMA_MAX_DESC_BYTES in
  let hw := set_dcmd (Z.lor c0 (Z.land DCMD_LENGTH len)) (desc (zero_desc a)) in
  ack_new
    (with_desc
       (fun _ => default hw (sg_set_addrs SUPPORT_64BIT d dev addr hw))
       (zero_desc a)).

(** The descriptors the inner loop builds for one segment. *)
Fixpoint sg_descs (c0 : Z) (d : dma_transfer_direction) (dev : Z)
    (addrs : list Z) (addr avail : Z) : list mmp_pdma_desc_sw :=
  match addrs with
  | [] => []
  | a :: addrs =>
      let len := Z.min avail PDMA_MAX_DESC_BYTES in
      sg_desc c0 d dev a addr avail
      :: sg_descs c0 d dev addrs (u64 (addr + len)) (avail - len)
  end.

(** The descriptors the outer loop builds for the segments [rest], [n]
    blocks and [avail] bytes for each of them. *)
Fixpoint sg_list_descs (c0 : Z) (d : dma_transfer_direction) (dev : Z)
    (n : nat) (avail : Z) (rest : list scatterlist) (addrs : list Z)
    : list mmp_pdma_desc_sw :=
  match rest with
  | [] => []
  | sg :: rest =>
      sg_descs c0 d dev (take n addrs) (sg_dma_address sg) avail
      ++ sg_list_descs c0 d dev n avail rest (drop n addrs)
  end.

End SgShape.

(** The device-side address word of a descriptor of a slave transfer (the
    memory-side word is [span_start]). *)
Definition dev_side (d : dma_transfer_direction) (sw : mmp_pdma_desc_sw) : Z :=
  match d with
  | DMA_DEV_TO_MEM => dsadr (desc sw)
  | _ => dtadr (desc sw)
  end.

(** The pieces of at most [PDMA_MAX_DESC_BYTES] bytes into which a buffer of
    [avail] bytes at [addr] is cut: low address word and length of each. *)
Definition buffer_pieces (addr avail : Z) : list (Z * Z) :=
  map (fun k => (u32 (addr + PDMA_MAX_DESC_BYTES * Z.of_nat k),
                 Z.min (avail - PDMA_MAX_DESC_BYTES * Z.of_nat k)
                   PDMA_MAX_DESC_BYTES))
    (seq 0 (Z.to_nat (chunks avail))).

(** Memory-side address word and length of a descriptor. *)
Definition piece_of (d : dma_transfer_direction) (sw : mmp_pdma_desc_sw)
    : Z * Z :=
  (span_start d sw, desc_len sw).

(** The width and burst fields of the command word ([DCMD_WIDTH1],
    [DCMD_WIDTH2], [DCMD_WIDTH4] at bit 14 and [DCMD_BURST8], [DCMD_BURST16],
    [DCMD_BURST32] at bit 16) as numbers, for a bus width in bytes and a
    burst size. *)
Definition width_code (width : Z) : Z :=
  if width =? 1 then 1 else if width =? 2 then 2 else if width =? 4 then 3
  else 0.
Definition burst_code (maxburst : Z) : Z :=
  if maxburst =? 8 then 1 else if maxburst =? 16 then 2
  else if maxburst =? 32 then 3 else 0.

(** ** Descriptions used in the statements about whole transfers *)

(** The part of a logical channel that belongs to the queueing engine (and
    not to the builders): identity, binding, request line, the two queues,
    status, tokens, QoS bookkeeping, the slave configuration and the cached
    residue. *)
Definition chan_frame (c c' : mmp_pdma_chan) : Prop :=
  chan_id c' = chan_id c /\ phy c' = phy c /\ drcmr c' = drcmr c /\
  chain_pending c' = chain_pending c /\ chain_running c' = chain_running c /\
  status c' = status c /\ chan_cookie c' = chan_cookie c /\
  completed_cookie c' = completed_cookie c /\
  user_do_qos c' = user_do_qos c /\ qos_count c' = qos_count c /\
  slave_config c' = slave_config c /\ bytes_residue c' = bytes_residue c /\
  idle c' = idle c.

(** The descriptors [l] cover one buffer without gaps: the first one starts
    at [start] and each one starts where the previous one ended. *)
Fixpoint contiguous_from (d : dma_transfer_direction) (start : Z)
    (l : list mmp_pdma_desc_sw) : Prop :=
  match l with
  | [] => True
  | sw :: rest =>
      span_start d sw = start /\ contiguous_from d (start + desc_len sw) rest
  end.

(** A chain as the flat-copy and slave builders close it: the last
    descriptor, and only the last, carries the stop marker and the end
    interrupt flag. *)
Fixpoint closed_chain (l : list mmp_pdma_desc_sw) : bool :=
  match l with
  | [] => false
  | x :: rest =>
      match rest with
      | [] => end_of_chain_irq x && ddadr_stop x
      | _ :: _ =>
          negb (end_of_chain_irq x) && negb (ddadr_stop x) && closed_chain rest
      end
  end.

(** [mmp_pdma_tx_status].  [ret] is what [dma_cookie_status] of the
    dmaengine core, whose code is not part of the driver, returns for the
    token.  The second component is the residue stored with
    [dma_set_residue], if any. *)
Definition mmp_pdma_tx_status (pdev : mmp_pdma_device) (chan : mmp_pdma_chan)
    (cookie : Z) (ret : dma_status) : dma_status * option Z :=
  let residue :=
    if negb (status_eqb ret DMA_ERROR)
    then Some (mmp_pdma_residue pdev chan cookie) else None in
  (if status_eqb ret DMA_COMPLETE then ret else status chan, residue).

(** The sequence by which a client starts one slave transfer, as
    [pxa_uart_receive_dma_start] and [pxa_uart_transmit_dma_start] of the
    serial driver do for their buffer: [dmaengine_slave_config],
    [dmaengine_prep_slave_single] (the slave builder on a list of one
    segment), the completion callback stored in the returned descriptor,
    [dmaengine_submit] and [dma_async_issue_pending].  The result is the
    token, or [None] when no descriptor could be prepared. *)
Definition start_slave_transfer (b64 : bool) (pdev : mmp_pdma_device)
    (chan : mmp_pdma_chan) (cfg : dma_slave_config)
    (d : dma_transfer_direction) (buf len flags : Z) (cb : option nat)
    : option Z * mmp_pdma_device * mmp_pdma_chan :=
  let '(_, chan) := mmp_pdma_config chan cfg in
  match mmp_pdma_prep_slave_sg b64 chan
          [ {| sg_dma_address := buf; sg_dma_len := len |} ] d flags with
  | (None, chan) => (None, pdev, chan)
  | (Some tx_list, chan) =>
      let tx_list := map_head (with_tx (set_callback cb)) tx_list in
      let '(cookie, chan) := mmp_pdma_tx_submit chan tx_list in
      let '(pdev, chan) := mmp_pdma_issue_pending b64 pdev chan in
      (Some cookie, pdev, chan)
  end.

(** ** A controller shared by several logical channels *)

(** The calls a client makes on a logical channel, and the completion
    tasklet of the channel. *)
Inductive engine_op :=
  | OpPrepMemcpy (dma_dst dma_src len flags : Z)
  | OpPrepSlaveSg (sgl : list scatterlist) (d : dma_transfer_direction)
      (flags : Z)
  | OpPrepDmaCyclic (buf_addr len period_len : Z)
      (direction : dma_transfer_direction) (flags : Z)
  | OpSubmit (tx_list : list mmp_pdma_desc_sw)
  | OpIssuePending
  | OpTasklet
  | OpPause
  | OpTerminateAll.

(** One such call on the logical channel [chan]: the controller and the
    channel afterwards.  (A flat-copy request that runs into the [BUG_ON]
    does not return; the state is left as it is.) *)
Definition engine_step (b64 : bool) (op : engine_op) (pdev : mmp_pdma_device)
    (chan : mmp_pdma_chan) : mmp_pdma_device * mmp_pdma_chan :=
  match op with
  | OpPrepMemcpy dma_dst dma_src len flags =>
      match mmp_pdma_prep_memcpy b64 pdev chan dma_dst dma_src len flags with
      | Done (_, chan) => (pdev, chan)
      | Bug => (pdev, chan)
      end
  | OpPrepSlaveSg sgl d flags =>
      (pdev, snd (mmp_pdma_prep_slave_sg b64 chan sgl d flags))
  | OpPrepDmaCyclic buf_addr len period_len direction flags =>
      (pdev, snd (mmp_pdma_prep_dma_cyclic b64 chan buf_addr len period_len
                    direction flags))
  | OpSubmit tx_list => (pdev, snd (mmp_pdma_tx_submit chan tx_list))
  | OpIssuePending => mmp_pdma_issue_pending b64 pdev chan
  | OpTasklet => fst (dma_do_tasklet b64 pdev chan)
  | OpPause =>
      (snd (fst (mmp_pdma_pause_chan b64 pdev chan)),
       snd (mmp_pdma_pause_chan b64 pdev chan))
  | OpTerminateAll => mmp_pdma_terminate_all b64 pdev chan
  end.

(** A sequence of calls, each on the logical channel with the given
    number; [chans] lists the logical channels of the controller, channel
    number [k] at position [k]. *)
Fixpoint engine_run (b64 : bool) (ops : list (nat * engine_op))
    (pdev : mmp_pdma_device) (chans : list mmp_pdma_chan)
    : mmp_pdma_device * list mmp_pdma_chan :=
  match ops with
  | [] => (pdev, chans)
  | (k, op) :: ops =>
      match chans !! k with
      | Some chan =>
          let '(pdev, chan) := engine_step b64 op pdev chan in
          engine_run b64 ops pdev (<[k := chan]> chans)
      | None => engine_run b64 ops pdev chans
      end
  end.

(** Every logical channel carries its own number, and its [phy] pointer
    agrees with the registry. *)
Definition engine_consistent (pdev : mmp_pdma_device)
    (chans : list mmp_pdma_chan) : Prop :=
  forall (k : nat) (chan : mmp_pdma_chan),
    chans !! k = Some chan ->
    chan_id chan = k /\ bound_consistent pdev chan.

(** The bindings of all logical channels other than [k] are the same in
    both registries. *)
Definition others_untouched (pdev pdev' : mmp_pdma_device) (k : nat) : Prop :=
  forall (i j : nat), j <> k ->
    (pdev_phy pdev' !! i = Some (Some j) <-> pdev_phy pdev !! i = Some (Some j)).

(** A second logical channel, with request line 6. *)
Definition sample_chan_1 : mmp_pdma_chan :=
  {| chan_id := 1; phy := None; dir := DMA_MEM_TO_MEM;
     slave_config := sample_config; cyclic_first := None; chan_dcmd := 0;
     drcmr := 6; dev_addr := 0; chain_pending := []; chain_running := [];
     idle := true; byte_align := false; user_do_qos := 1; qos_count := 0;
     status := DMA_COMPLETE; bytes_residue := 0;
     desc_pool := {| pool_free := [0x2000; 0x2040]; pool_used := [] |};
     chan_cookie := 1; completed_cookie := 1 |}.

(** ** The shared interrupt handler *)

(** [__ffs]: the index of the least significant set bit of a word that is
    not zero. *)
Fixpoint ctz (p : positive) : nat :=
  match p with
  | xO p => S (ctz p)
  | _ => O
  end.
Definition __ffs (w : Z) : nat :=
  match w with
  | Zpos p => ctz p
  | _ => O
  end.

(** The loop [while (dint)] of [mmp_pdma_int_handler].  Each round clears
    one bit of the 32-bit word [dint], so 32 rounds are enough.  A fault in
    the per-channel handler ends the run. *)
Fixpoint int_handler_loop (fuel : nat) (pdev : mmp_pdma_device)
    (dint irq_num : Z) (scheduled : list nat)
    : irqreturn_t * mmp_pdma_device * list nat :=
  let finish :=
    (if nonzero irq_num then IRQ_HANDLED else IRQ_NONE, pdev, scheduled) in
  match fuel with
  | O => finish
  | S fuel =>
      if negb (nonzero dint) then finish
      else
        let i := __ffs dint in
        if Z.of_nat i >=? dma_channels pdev then finish
        else
          let dint := Z.land dint (dint - 1) in
          match mmp_pdma_chan_handler pdev i scheduled with
          | (IRQ_OOPS, pdev, scheduled) => (IRQ_OOPS, pdev, scheduled)
          | (IRQ_HANDLED, pdev, scheduled) =>
              int_handler_loop fuel pdev dint (irq_num + 1) scheduled
          | (IRQ_NONE, pdev, scheduled) =>
              int_handler_loop fuel pdev dint irq_num scheduled
          end
  end.

(** [mmp_pdma_int_handler]: the handler of the interrupt line shared by all
    physical channels. *)
Definition mmp_pdma_int_handler (pdev : mmp_pdma_device)
    (scheduled : list nat) : irqreturn_t * mmp_pdma_device * list nat :=
  let dint := u32 (readl (regs pdev) DINT) in
  int_handler_loop 32 pdev dint 0 scheduled.

(** The physical channels whose interrupt status bit is set, in ascending
    order. *)
Definition pending_channels (pdev : mmp_pdma_device) : list nat :=
  List.filter (fun i => Z.testbit (readl (regs pdev) DINT) (Z.of_nat i))
    (seq 0 (Z.to_nat (dma_channels pdev))).

(** The tasklet schedule requests the per-channel handler makes for a bound
    physical channel. *)
Definition schedule_requests (pdev : mmp_pdma_device) (i : nat) : list nat :=
  match mjoin (pdev_phy pdev !! i) with
  | Some cid => [cid; cid]
  | None => []
  end.

(** ** Descriptions used in the statements about the order of callbacks *)











(** ** Where the model is exact

    Two accesses of the source go through a pointer that the model
    replaces by a lookup.  The predicates below say when the lookup stands
    for the object the pointer designates. *)

(** [lookup_phy_for_drcmr] computes [&pdev->phy[chan_id]] from a reservation
    entry without a bounds check, and [lookup_phy] reads and writes
    [phy->vchan] through it.  [reserved_phy_in_bounds] says that this
    access stays inside the [phy] array (or that the request line has no
    reservation).  Outside the array the access of the source is undefined;
    [lookup_phy] then gives no physical channel, which describes the source
    only as far as the memory behind the array allows. *)
Definition reserved_phy_in_bounds (pdev : mmp_pdma_device)
    (pchan : mmp_pdma_chan) : bool :=
  match lookup_phy_for_drcmr pdev (drcmr pchan) with
  | Some idx => (0 <=? idx) && (idx <? Z.of_nat (length (pdev_phy pdev)))
  | None => true
  end.

(** In cyclic mode [dma_do_tasklet] calls the callback through the pointer
    [chan->cyclic_first] that [mmp_pdma_prep_dma_cyclic] stored; the model
    keeps the bus address of that descriptor and finds the descriptor on
    the queues of the channel.  [cyclic_head_queued] says that it is there
    (or that the channel is not in cyclic mode).  For a ring that was
    prepared and not submitted, or whose descriptors were freed, the source
    reads a descriptor the model has no copy of, and the model runs no
    callback. *)
Definition cyclic_head_queued (chan : mmp_pdma_chan) : bool :=
  match cyclic_first chan with
  | Some first =>
      existsb (fun d => phys (async_tx d) =? first)
        (chain_running chan ++ chain_pending chan)
  | None => true
  end.

(** * Properties *)

(** ** Lemmas on list helpers and the pool *)

Lemma map_last_app {A : Type} (f : A -> A) (l : list A) (x : A) :
  map_last f (l ++ [x]) = l ++ [f x].
Proof.
  induction l as [|a l IH]; [reflexivity|].
  change ((a :: l) ++ [x]) with (a :: (l ++ [x])).
  cbn [map_last]. rewrite IH.
  destruct l; reflexivity.
Qed.

Lemma map_last_length {A : Type} (f : A -> A) (l : list A) :
  length (map_last f l) = length l.
Proof.
  induction l as [|a [|b l] IH]; cbn in *; congruence.
Qed.

Lemma map_head_length {A : Type} (f : A -> A) (l : list A) :
  length (map_head f l) = length l.
Proof. destruct l; reflexivity. Qed.

Lemma map_last_lookup_last {A : Type} (f : A -> A) (l : list A) (i : nat) (x : A) :
  l !! i = Some x -> l !! S i = None -> map_last f l !! i = Some (f x).
Proof.
  revert i. induction l as [|a [|b l] IH]; intros i Hi Hn.
  - discriminate.
  - destruct i; [cbn in *; congruence|discriminate].
  - destruct i; [discriminate|].
    change (map_last f (a :: b :: l)) with (a :: map_last f (b :: l)).
    cbn [lookup list_lookup]. apply IH; assumption.
Qed.

Lemma map_last_lookup_other {A : Type} (f : A -> A) (l : list A) (i : nat) :
  is_Some (l !! S i) -> map_last f l !! i = l !! i.
Proof.
  revert i. induction l as [|a [|b l] IH]; intros i [y Hy].
  - discriminate.
  - destruct i; discriminate.
  - change (map_last f (a :: b :: l)) with (a :: map_last f (b :: l)).
    destruct i; [reflexivity|].
    cbn [lookup list_lookup]. apply IH. exists y. exact Hy.
Qed.

Lemma map_head_lookup_0 {A : Type} (f : A -> A) (l : list A) :
  map_head f l !! 0%nat = f <$> (l !! 0%nat).
Proof. destruct l; reflexivity. Qed.

Lemma map_head_lookup_S {A : Type} (f : A -> A) (l : list A) (i : nat) :
  map_head f l !! S i = l !! S i.
Proof. destruct l; reflexivity. Qed.

Lemma free_all_app (p : dma_pool) (l1 l2 : list Z) :
  free_all p (l1 ++ l2) = free_all (free_all p l1) l2.
Proof. unfold free_all. apply fold_left_app. Qed.

Lemma remove_not_in (a : Z) (l : list Z) :
  ~ In a l -> List.remove Z.eq_dec a l = l.
Proof. intros H. apply notin_remove. exact H. Qed.

(** Blocks allocated in the order [l] and then all freed: the pool holds
    the same blocks again. *)
Lemma free_all_restores (l f u : list Z) :
  NoDup (l ++ u) ->
  free_all {| pool_free := f; pool_used := rev l ++ u |} l
  = {| pool_free := rev l ++ f; pool_used := u |}.
Proof.
  revert f. induction l as [|a l IH]; intros f Hnd; [reflexivity|].
  change ((a :: l) ++ u) with (a :: (l ++ u)) in Hnd.
  apply NoDup_cons in Hnd as [Ha Hnd].
  rewrite not_elem_of_app in Ha. destruct Ha as [Hal Hau].
  cbn [free_all fold_left rev]. unfold dma_pool_free at 2. cbn [pool_free pool_used].
  rewrite <- app_assoc. cbn [app].
  rewrite List.remove_app, List.remove_cons.
  rewrite !remove_not_in.
  - fold (free_all {| pool_free := a :: f; pool_used := rev l ++ u |} l).
    rewrite IH by exact Hnd. rewrite <- app_assoc. reflexivity.
  - rewrite <- list_elem_of_In. exact Hau.
  - rewrite <- in_rev, <- list_elem_of_In. exact Hal.
Qed.

Lemma chunks_pos (len : Z) : 0 < len -> 0 < chunks len.
Proof.
  intros H. unfold chunks, PDMA_MAX_DESC_BYTES, DCMD_LENGTH.
  apply Z.div_str_pos. lia.
Qed.

Lemma chunks_small (len : Z) :
  0 < len <= PDMA_MAX_DESC_BYTES -> chunks len = 1.
Proof.
  unfold chunks, PDMA_MAX_DESC_BYTES, DCMD_LENGTH. intros H.
  symmetry. apply (Z.div_unique _ _ 1 (len - 1)); lia.
Qed.

Lemma chunks_big (len : Z) :
  PDMA_MAX_DESC_BYTES < len ->
  chunks len = chunks (len - PDMA_MAX_DESC_BYTES) + 1.
Proof.
  unfold chunks, PDMA_MAX_DESC_BYTES, DCMD_LENGTH. intros H.
  replace (len + 8191 - 1) with (len - 8191 + 8191 - 1 + 1 * 8191) by lia.
  rewrite Z.div_add by lia. reflexivity.
Qed.

Lemma alloc_descriptor_some (chan : mmp_pdma_chan) (a : Z) (rest : list Z) :
  pool_free (desc_pool chan) = a :: rest ->
  mmp_pdma_alloc_descriptor chan =
    Some (zero_desc a,
          set_desc_pool {| pool_free := rest;
                           pool_used := a :: pool_used (desc_pool chan) |}
            chan).
Proof.
  intros H. unfold mmp_pdma_alloc_descriptor, dma_pool_zalloc.
  rewrite H. reflexivity.
Qed.

Lemma alloc_descriptor_none (chan : mmp_pdma_chan) :
  pool_free (desc_pool chan) = [] -> mmp_pdma_alloc_descriptor chan = None.
Proof.
  intros H. unfold mmp_pdma_alloc_descriptor, dma_pool_zalloc.
  rewrite H. reflexivity.
Qed.

Section BuilderLemmas.

Variable SUPPORT_64BIT : bool.


Lemma link_chain_length (l : list mmp_pdma_desc_sw) :
  length (link_chain SUPPORT_64BIT l) = length l.
Proof.
  induction l as [|x [|y t] IH]; [reflexivity|reflexivity|].
  change (link_chain SUPPORT_64BIT (x :: y :: t)) with (link_to SUPPORT_64BIT y x :: link_chain SUPPORT_64BIT (y :: t)).
  cbn [length]. rewrite IH. reflexivity.
Qed.

Lemma link_to_phys (n n' p : mmp_pdma_desc_sw) :
  desc_phys n = desc_phys n' -> link_to SUPPORT_64BIT n p = link_to SUPPORT_64BIT n' p.
Proof. unfold link_to, desc_phys. intros ->. reflexivity. Qed.

Lemma link_chain_push (l : list mmp_pdma_desc_sw) (new new' : mmp_pdma_desc_sw) :
  desc_phys new = desc_phys new' ->
  map_last (link_to SUPPORT_64BIT new) (link_chain SUPPORT_64BIT l) ++ [new'] = link_chain SUPPORT_64BIT (l ++ [new']).
Proof.
  intros Hp. induction l as [|x [|y t] IH].
  - reflexivity.
  - cbn. rewrite (link_to_phys new new') by exact Hp. reflexivity.
  - change (link_chain SUPPORT_64BIT (x :: y :: t)) with (link_to SUPPORT_64BIT y x :: link_chain SUPPORT_64BIT (y :: t)).
    change ((x :: y :: t) ++ [new']) with (x :: y :: (t ++ [new'])).
    change (link_chain SUPPORT_64BIT (x :: y :: t ++ [new']))
      with (link_to SUPPORT_64BIT y x :: link_chain SUPPORT_64BIT ((y :: t) ++ [new'])).
    rewrite <- IH.
    assert (Hne : exists z r, link_chain SUPPORT_64BIT (y :: t) = z :: r).
    { destruct t; cbn; eauto. }
    destruct Hne as (z & r & ->). reflexivity.
Qed.

Lemma link_chain_lookup_linked (l : list mmp_pdma_desc_sw) (i : nat)
    (x y : mmp_pdma_desc_sw) :
  l !! i = Some x -> l !! S i = Some y ->
  link_chain SUPPORT_64BIT l !! i = Some (link_to SUPPORT_64BIT y x).
Proof.
  revert i. induction l as [|a [|b t] IH]; intros i Hx Hy.
  - discriminate.
  - destruct i; discriminate.
  - change (link_chain SUPPORT_64BIT (a :: b :: t)) with (link_to SUPPORT_64BIT b a :: link_chain SUPPORT_64BIT (b :: t)).
    destruct i.
    + cbn in Hx, Hy. injection Hx as ->. injection Hy as ->. reflexivity.
    + cbn [lookup list_lookup]. apply IH; assumption.
Qed.

Lemma link_chain_lookup_last (l : list mmp_pdma_desc_sw) (i : nat)
    (x : mmp_pdma_desc_sw) :
  l !! i = Some x -> l !! S i = None -> link_chain SUPPORT_64BIT l !! i = Some x.
Proof.
  revert i. induction l as [|a [|b t] IH]; intros i Hx Hy.
  - discriminate.
  - destruct i; [exact Hx|discriminate].
  - change (link_chain SUPPORT_64BIT (a :: b :: t)) with (link_to SUPPORT_64BIT b a :: link_chain SUPPORT_64BIT (b :: t)).
    destruct i; [discriminate|].
    cbn [lookup list_lookup]. apply IH; assumption.
Qed.

Lemma link_chain_phys (l : list mmp_pdma_desc_sw) :
  map desc_phys (link_chain SUPPORT_64BIT l) = map desc_phys l.
Proof.
  induction l as [|a [|b t] IH]; [reflexivity|reflexivity|].
  change (link_chain SUPPORT_64BIT (a :: b :: t)) with (link_to SUPPORT_64BIT b a :: link_chain SUPPORT_64BIT (b :: t)).
  cbn [map]. rewrite IH. reflexivity.
Qed.

End BuilderLemmas.

Section MemcpyLemmas.

Variable SUPPORT_64BIT : bool.


Lemma memcpy_set_addrs_ok (d : dma_transfer_direction) (dst src : Z)
    (hw : mmp_pdma_desc_hw) :
  memcpy_dir_ok d -> is_Some (memcpy_set_addrs SUPPORT_64BIT d dst src hw).
Proof. intros [-> | [-> | ->]]; cbn; eauto. Qed.

(** With enough free blocks the copy loop runs to completion and leaves
    the chain [memcpy_descs SUPPORT_64BIT] describes. *)
Lemma memcpy_loop_ok (addrs : list Z) :
  forall (fuel : nat) (chan : mmp_pdma_chan) (pre : list mmp_pdma_desc_sw)
         (dst src len : Z) (more : list Z),
    memcpy_dir_ok (dir chan) ->
    0 < len -> (Z.to_nat len <= fuel)%nat ->
    pool_free (desc_pool chan) = addrs ++ more ->
    Z.of_nat (length addrs) = chunks len ->
    exists chan',
      memcpy_loop SUPPORT_64BIT fuel chan (link_chain SUPPORT_64BIT pre) dst src len
      = (Some (link_chain SUPPORT_64BIT
                 (pre ++ memcpy_descs SUPPORT_64BIT (chan_dcmd chan) (dir chan) addrs
                           dst src len)), chan')
      /\ desc_pool chan'
         = {| pool_free := more;
              pool_used := rev addrs ++ pool_used (desc_pool chan) |}.
Proof.
  induction addrs as [|a addrs IH]; intros fuel chan pre dst src len more
    Hdir Hlen Hfuel Hpool Hn.
  - pose proof (chunks_pos len Hlen). cbn in Hn. lia.
  - destruct fuel as [|fuel]; [lia|].
    cbn [memcpy_loop].
    rewrite (alloc_descriptor_some chan a (addrs ++ more)) by exact Hpool.
    set (pool1 := {| pool_free := addrs ++ more;
                     pool_used := a :: pool_used (desc_pool chan) |}).
    set (chan1 := if nonzero (Z.land src 7) || nonzero (Z.land dst 7)
                  then set_byte_align true (set_desc_pool pool1 chan)
                  else set_desc_pool pool1 chan).
    assert (Hd1 : dir chan1 = dir chan) by (subst chan1; destruct (_ || _); reflexivity).
    assert (Hc1 : chan_dcmd chan1 = chan_dcmd chan) by (subst chan1; destruct (_ || _); reflexivity).
    assert (Hp1 : desc_pool chan1 = pool1) by (subst chan1; destruct (_ || _); reflexivity).
    rewrite Hd1, Hc1.
    destruct (memcpy_set_addrs_ok (dir chan) dst src
                (set_dcmd (Z.lor (chan_dcmd chan)
                             (Z.land DCMD_LENGTH (Z.min len PDMA_MAX_DESC_BYTES)))
                   (desc (zero_desc a))) Hdir) as [hw Hhw].
    rewrite Hhw.
    set (new := with_desc (fun _ => hw) _).
    assert (Hnew : ack_new new
                   = memcpy_desc SUPPORT_64BIT (chan_dcmd chan) (dir chan) a dst src len).
    { unfold memcpy_desc. cbv zeta. rewrite Hhw. reflexivity. }
    rewrite (link_chain_push SUPPORT_64BIT pre new (ack_new new)) by reflexivity.
    rewrite Hnew.
    cbn [memcpy_descs].
    destruct (Z.leb_spec len PDMA_MAX_DESC_BYTES) as [Hsmall|Hbig].
    + rewrite Z.min_l by lia. rewrite Z.sub_diag. cbn [Z.eqb].
      rewrite chunks_small in Hn by lia.
      destruct addrs; [|cbn in Hn; lia].
      exists chan1. split; [reflexivity|]. rewrite Hp1. reflexivity.
    + rewrite !Z.min_r by lia.
      destruct (Z.eqb_spec (len - PDMA_MAX_DESC_BYTES) 0) as [E|_]; [lia|].
      rewrite chunks_big in Hn by lia.
      destruct (IH fuel chan1 (pre ++ [memcpy_desc SUPPORT_64BIT (chan_dcmd chan) (dir chan) a dst src len])
                  (if dst_in_memory (dir chan) then u64 (dst + PDMA_MAX_DESC_BYTES) else dst)
                  (if src_in_memory (dir chan) then u64 (src + PDMA_MAX_DESC_BYTES) else src)
                  (len - PDMA_MAX_DESC_BYTES) more) as (chan' & Hrun & Hpool').
      * rewrite Hd1. exact Hdir.
      * lia.
      * unfold PDMA_MAX_DESC_BYTES, DCMD_LENGTH in *. lia.
      * rewrite Hp1. reflexivity.
      * cbn [length] in Hn. lia.
      * exists chan'. rewrite Hd1, Hc1 in Hrun. split.
        -- rewrite <- app_assoc in Hrun. cbn [app] in Hrun.
           rewrite <- Hrun. f_equal;
             destruct Hdir as [-> | [-> | ->]]; reflexivity.
        -- rewrite Hpool', Hp1. subst pool1. cbn [pool_used pool_free rev].
           rewrite <- app_assoc. reflexivity.
Qed.

End MemcpyLemmas.

Lemma map_last_phys (f : mmp_pdma_desc_sw -> mmp_pdma_desc_sw)
    (l : list mmp_pdma_desc_sw) :
  (forall x, desc_phys (f x) = desc_phys x) ->
  map desc_phys (map_last f l) = map desc_phys l.
Proof.
  intros Hf. induction l as [|a [|b t] IH]; [reflexivity| |].
  - cbn. rewrite Hf. reflexivity.
  - change (map_last f (a :: b :: t)) with (a :: map_last f (b :: t)).
    cbn [map]. rewrite IH. reflexivity.
Qed.

Lemma builder_fail_pool (chan : mmp_pdma_chan) (tx : list mmp_pdma_desc_sw) :
  desc_pool (builder_fail chan tx)
  = free_all (desc_pool chan) (map desc_phys tx).
Proof.
  destruct tx as [|d tx]; [reflexivity|].
  unfold builder_fail, mmp_pdma_free_desc_list. cbn [desc_pool set_desc_pool].
  unfold free_all. generalize (desc_pool chan). generalize (d :: tx).
  intros l. induction l as [|x l IH]; intros p; [reflexivity|].
  cbn [fold_left map]. apply IH.
Qed.

Lemma pool_eta (p : dma_pool) :
  p = {| pool_free := pool_free p; pool_used := pool_used p |}.
Proof. destruct p; reflexivity. Qed.

Section MemcpyFailure.

Variable SUPPORT_64BIT : bool.


(** With too few free blocks the copy loop takes the [fail:] exit after
    having consumed the whole pool, and gives every block back. *)
Lemma memcpy_loop_fail (free : list Z) :
  forall (fuel : nat) (chan : mmp_pdma_chan) (tx : list mmp_pdma_desc_sw)
         (dst src len : Z),
    memcpy_dir_ok (dir chan) ->
    0 < len -> (Z.to_nat len <= fuel)%nat ->
    pool_free (desc_pool chan) = free ->
    Z.of_nat (length free) < chunks len ->
    exists chan',
      memcpy_loop SUPPORT_64BIT fuel chan tx dst src len = (None, chan')
      /\ desc_pool chan'
         = free_all {| pool_free := [];
                       pool_used := rev free ++ pool_used (desc_pool chan) |}
             (map desc_phys tx ++ free).
Proof.
  induction free as [|a free IH]; intros fuel chan tx dst src len
    Hdir Hlen Hfuel Hpool Hn;
    (destruct fuel as [|fuel]; [lia|]); cbn [memcpy_loop].
  - rewrite alloc_descriptor_none by exact Hpool.
    eexists. split; [reflexivity|].
    rewrite builder_fail_pool, app_nil_r. cbn [rev app].
    rewrite (pool_eta (desc_pool chan)) at 1. rewrite Hpool. reflexivity.
  - rewrite (alloc_descriptor_some chan a free) by exact Hpool.
    set (pool1 := {| pool_free := free;
                     pool_used := a :: pool_used (desc_pool chan) |}).
    set (chan1 := if nonzero (Z.land src 7) || nonzero (Z.land dst 7)
                  then set_byte_align true (set_desc_pool pool1 chan)
                  else set_desc_pool pool1 chan).
    assert (Hd1 : dir chan1 = dir chan) by (subst chan1; destruct (_ || _); reflexivity).
    assert (Hp1 : desc_pool chan1 = pool1) by (subst chan1; destruct (_ || _); reflexivity).
    rewrite Hd1.
    destruct (memcpy_set_addrs_ok SUPPORT_64BIT (dir chan) dst src
                (set_dcmd (Z.lor (chan_dcmd chan1)
                             (Z.land DCMD_LENGTH (Z.min len PDMA_MAX_DESC_BYTES)))
                   (desc (zero_desc a))) Hdir) as [hw Hhw].
    rewrite Hhw.
    destruct (Z.leb_spec len PDMA_MAX_DESC_BYTES) as [Hsmall|Hbig].
    + rewrite chunks_small in Hn by lia. cbn [length] in Hn. lia.
    + rewrite !Z.min_r by lia.
      destruct (Z.eqb_spec (len - PDMA_MAX_DESC_BYTES) 0) as [E|_]; [lia|].
      rewrite chunks_big in Hn by lia.
      match goal with
      | |- exists c, memcpy_loop SUPPORT_64BIT fuel chan1 ?tx' ?d' ?s' ?l' = _ /\ _ =>
          destruct (IH fuel chan1 tx' d' s' l') as (chan' & Hrun & Hpool')
      end.
      * rewrite Hd1. exact Hdir.
      * lia.
      * unfold PDMA_MAX_DESC_BYTES, DCMD_LENGTH in *. lia.
      * rewrite Hp1. reflexivity.
      * cbn [length] in Hn. lia.
      * exists chan'. split; [exact Hrun|].
        rewrite Hpool', Hp1. subst pool1. cbn [pool_used rev].
        rewrite map_app, map_last_phys by reflexivity.
        cbn [map]. rewrite <- !app_assoc. reflexivity.
Qed.

End MemcpyFailure.

(** ** Bit-field arithmetic of the command word *)

Lemma land_length_small (x : Z) :
  0 <= x <= PDMA_MAX_DESC_BYTES -> Z.land DCMD_LENGTH x = x.
Proof.
  intros H. rewrite Z.land_comm.
  change DCMD_LENGTH with (Z.ones 13). rewrite Z.land_ones by lia.
  apply Z.mod_small. unfold PDMA_MAX_DESC_BYTES, DCMD_LENGTH in H. lia.
Qed.

Lemma dcmd_length_field (c0 x : Z) :
  dcmd_clean c0 -> 0 <= x <= PDMA_MAX_DESC_BYTES ->
  Z.land (Z.lor c0 (Z.land DCMD_LENGTH x)) DCMD_LENGTH = x.
Proof.
  intros [Hl _] Hx. rewrite Z.land_lor_distr_l, Hl, Z.lor_0_l.
  rewrite land_length_small by exact Hx.
  rewrite Z.land_comm. apply land_length_small. exact Hx.
Qed.

Lemma dcmd_irq_field_clear (c0 x : Z) :
  dcmd_clean c0 ->
  Z.land (Z.lor c0 (Z.land DCMD_LENGTH x)) DCMD_ENDIRQEN = 0.
Proof.
  intros [_ Hi]. rewrite Z.land_lor_distr_l, Hi, Z.lor_0_l.
  rewrite (Z.land_comm DCMD_LENGTH x), <- Z.land_assoc.
  change (Z.land DCMD_LENGTH DCMD_ENDIRQEN) with 0. apply Z.land_0_r.
Qed.

Lemma lor_irq_length (v : Z) :
  Z.land (Z.lor v DCMD_ENDIRQEN) DCMD_LENGTH = Z.land v DCMD_LENGTH.
Proof.
  rewrite Z.land_lor_distr_l.
  change (Z.land DCMD_ENDIRQEN DCMD_LENGTH) with 0. apply Z.lor_0_r.
Qed.

Lemma lor_irq_set (v : Z) : nonzero (Z.land (Z.lor v DCMD_ENDIRQEN) DCMD_ENDIRQEN) = true.
Proof.
  unfold nonzero. destruct (Z.eqb_spec (Z.land (Z.lor v DCMD_ENDIRQEN) DCMD_ENDIRQEN) 0)
    as [E|_]; [|reflexivity].
  exfalso. assert (H : Z.testbit (Z.land (Z.lor v DCMD_ENDIRQEN) DCMD_ENDIRQEN) 21 = true).
  { rewrite Z.land_spec, Z.lor_spec.
    change (Z.testbit DCMD_ENDIRQEN 21) with true.
    rewrite orb_true_r. reflexivity. }
  rewrite E in H. discriminate.
Qed.

Lemma u32_aligned_no_stop (a : Z) :
  a mod 32 = 0 -> Z.land (u32 a) DDADR_STOP = 0.
Proof.
  intros H. change DDADR_STOP with (Z.ones 1). rewrite Z.land_ones by lia.
  unfold u32. change (2 ^ 1) with 2.
  rewrite Z.mod_mod_divide by (exists (2 ^ 31); reflexivity).
  rewrite <- (Z.mod_mod_divide a 32 2) by (exists 16; reflexivity).
  rewrite H. reflexivity.
Qed.

Lemma split_addr_64 (a : Z) :
  0 <= a < 2 ^ 64 -> u32 (Z.shiftr a 32) * 2 ^ 32 + u32 a = a.
Proof.
  intros H. unfold u32. rewrite Z.shiftr_div_pow2 by lia.
  rewrite (Z.mod_small (a / 2 ^ 32)).
  - pose proof (Z.div_mod a (2 ^ 32)). lia.
  - split; [apply Z.div_pos; lia|].
    apply Z.div_lt_upper_bound; [lia|]. change (2 ^ 32 * 2 ^ 32) with (2 ^ 64). lia.
Qed.

Lemma land_low_word (a : Z) : Z.land a 0xffffffff = u32 a.
Proof. change 0xffffffff with (Z.ones 32). apply Z.land_ones. lia. Qed.

Lemma u64_add_u64 (a b c : Z) : u64 (u64 (a + b) + c) = u64 (a + (b + c)).
Proof.
  unfold u64. rewrite Zplus_mod_idemp_l. f_equal. lia.
Qed.

Lemma burst_setting_clean (m : Z) :
  get_max_burst_setting m <> INVALID_BURST_SETTING ->
  dcmd_clean (Z.lor (Z.lor DCMD_INCTRGADDR DCMD_INCSRCADDR)
                (get_max_burst_setting m)).
Proof.
  unfold get_max_burst_setting.
  repeat match goal with
         | |- context [if ?b then _ else _] => destruct b
         end; intros H; try (split; reflexivity).
  contradiction.
Qed.

(** ** Invariance of observations under the list surgery of the builders *)

Lemma map_last_obs {B : Type} (obs : mmp_pdma_desc_sw -> B)
    (f : mmp_pdma_desc_sw -> mmp_pdma_desc_sw) (l : list mmp_pdma_desc_sw) :
  (forall x, obs (f x) = obs x) -> map obs (map_last f l) = map obs l.
Proof.
  intros Hf. induction l as [|a [|b t] IH]; [reflexivity| |].
  - cbn. rewrite Hf. reflexivity.
  - change (map_last f (a :: b :: t)) with (a :: map_last f (b :: t)).
    cbn [map]. rewrite IH. reflexivity.
Qed.

Lemma map_head_obs {B : Type} (obs : mmp_pdma_desc_sw -> B)
    (f : mmp_pdma_desc_sw -> mmp_pdma_desc_sw) (l : list mmp_pdma_desc_sw) :
  (forall x, obs (f x) = obs x) -> map obs (map_head f l) = map obs l.
Proof. intros Hf. destruct l; cbn; [|rewrite Hf]; reflexivity. Qed.

Lemma link_chain_obs {B : Type} (b64 : bool) (obs : mmp_pdma_desc_sw -> B)
    (l : list mmp_pdma_desc_sw) :
  (forall n x, obs (link_to b64 n x) = obs x) ->
  map obs (link_chain b64 l) = map obs l.
Proof.
  intros Hf. induction l as [|a [|b t] IH]; [reflexivity|reflexivity|].
  change (link_chain b64 (a :: b :: t))
    with (link_to b64 b a :: link_chain b64 (b :: t)).
  cbn [map]. rewrite IH, Hf. reflexivity.
Qed.

Lemma sum_len_map (l : list mmp_pdma_desc_sw) :
  sum_len l = fold_right Z.add 0 (map desc_len l).
Proof. induction l as [|a l IH]; cbn; [|rewrite <- IH]; reflexivity. Qed.

(** The shape of a finished chain: [f] is applied to the transfer handle
    of [first], [g] to the hardware words of the last descriptor. *)
Lemma finished_lookup (b64 : bool)
    (f : dma_async_tx_descriptor -> dma_async_tx_descriptor)
    (g : mmp_pdma_desc_hw -> mmp_pdma_desc_hw)
    (news : list mmp_pdma_desc_sw) (i : nat) (d : mmp_pdma_desc_sw) :
  (forall t, phys (f t) = phys t) ->
  map_last (with_desc g) (map_head (with_tx f) (link_chain b64 news)) !! i
    = Some d ->
  exists x, news !! i = Some x /\ desc_phys d = desc_phys x /\
    match news !! S i with
    | Some y => desc d = desc (link_to b64 y x)
    | None => desc d = g (desc x)
    end.
Proof.
  intros Hf Hd.
  set (L := link_chain b64 news) in *.
  set (H := map_head (with_tx f) L) in *.
  assert (HlenL : length L = length news) by apply link_chain_length.
  assert (HlenH : length H = length news).
  { subst H. rewrite map_head_length. exact HlenL. }
  assert (Hi : (i < length news)%nat).
  { apply lookup_lt_Some in Hd. rewrite map_last_length in Hd. lia. }
  destruct (lookup_lt_is_Some_2 news i Hi) as [x Hx].
  exists x. split; [exact Hx|].
  assert (HH : forall z, L !! i = Some z ->
                exists z', H !! i = Some z' /\ desc z' = desc z
                           /\ desc_phys z' = desc_phys z).
  { intros z Hz. subst H. destruct i.
    - rewrite map_head_lookup_0, Hz. cbn. eexists. split; [reflexivity|].
      split; [reflexivity|]. unfold desc_phys. cbn. apply Hf.
    - rewrite map_head_lookup_S, Hz. eauto. }
  destruct (news !! S i) as [y|] eqn:Hy.
  - destruct (HH _ (link_chain_lookup_linked b64 news i x y Hx Hy))
      as (z' & Hz' & Hdesc & Hphys).
    rewrite map_last_lookup_other in Hd.
    + rewrite Hz' in Hd. injection Hd as <-. split; [|exact Hdesc].
      rewrite Hphys. reflexivity.
    + apply lookup_lt_is_Some_2. apply lookup_lt_Some in Hy. lia.
  - destruct (HH _ (link_chain_lookup_last b64 news i x Hx Hy))
      as (z' & Hz' & Hdesc & Hphys).
    rewrite (map_last_lookup_last _ H i z') in Hd.
    + injection Hd as <-. cbn. rewrite Hdesc. split; [|reflexivity].
      unfold desc_phys in *. cbn. exact Hphys.
    + exact Hz'.
    + apply lookup_ge_None_2. apply lookup_ge_None_1 in Hy. lia.
Qed.

Section MemcpyShape.

Variable SUPPORT_64BIT : bool.


Lemma memcpy_descs_length (c0 : Z) (D : dma_transfer_direction)
    (addrs : list Z) :
  forall dst src len, length (memcpy_descs SUPPORT_64BIT c0 D addrs dst src len) = length addrs.
Proof.
  induction addrs as [|a addrs IH]; intros; cbn; [|rewrite IH]; reflexivity.
Qed.

(** The [i]-th descriptor of a flat copy sits [i] full descriptors into the
    buffer. *)
Lemma memcpy_descs_lookup (c0 : Z) (D : dma_transfer_direction)
    (addrs : list Z) :
  forall (dst src len : Z) (i : nat) (d : mmp_pdma_desc_sw),
    0 < len -> 0 <= dst < 2 ^ 64 -> 0 <= src < 2 ^ 64 ->
    Z.of_nat (length addrs) = chunks len ->
    memcpy_descs SUPPORT_64BIT c0 D addrs dst src len !! i = Some d ->
    exists a, addrs !! i = Some a /\
      0 < len - PDMA_MAX_DESC_BYTES * Z.of_nat i /\
      d = memcpy_desc SUPPORT_64BIT c0 D a
            (if dst_in_memory D
             then u64 (dst + PDMA_MAX_DESC_BYTES * Z.of_nat i) else dst)
            (if src_in_memory D
             then u64 (src + PDMA_MAX_DESC_BYTES * Z.of_nat i) else src)
            (len - PDMA_MAX_DESC_BYTES * Z.of_nat i).
Proof.
  induction addrs as [|a addrs IH]; intros dst src len i d Hlen Hdst Hsrc Hn Hd.
  - discriminate.
  - cbn [memcpy_descs] in Hd. destruct i as [|i].
    + cbn in Hd. injection Hd as <-. exists a. split; [reflexivity|].
      change (Z.of_nat 0) with 0. rewrite Z.mul_0_r, !Z.add_0_r, Z.sub_0_r.
      split; [exact Hlen|]. unfold u64. rewrite !Z.mod_small by lia.
      destruct (dst_in_memory D), (src_in_memory D); reflexivity.
    + cbn [lookup list_lookup] in Hd.
      assert (Hbig : PDMA_MAX_DESC_BYTES < len).
      { destruct (Z.ltb_spec PDMA_MAX_DESC_BYTES len) as [|Hs]; [assumption|].
        rewrite chunks_small in Hn by lia.
        apply lookup_lt_Some in Hd. rewrite memcpy_descs_length in Hd.
        cbn [length] in Hn. lia. }
      rewrite !Z.min_r in Hd by lia.
      rewrite chunks_big in Hn by exact Hbig. cbn [length] in Hn.
      apply IH in Hd; [| lia | | | lia].
      * destruct Hd as (a' & Ha' & Hpos & ->). exists a'.
        split; [exact Ha'|].
        replace (len - PDMA_MAX_DESC_BYTES - PDMA_MAX_DESC_BYTES * Z.of_nat i)
          with (len - PDMA_MAX_DESC_BYTES * Z.of_nat (S i)) in * by lia.
        split; [exact Hpos|]. f_equal.
        -- destruct (dst_in_memory D); [|reflexivity].
           rewrite u64_add_u64. f_equal. lia.
        -- destruct (src_in_memory D); [|reflexivity].
           rewrite u64_add_u64. f_equal. lia.
      * destruct (dst_in_memory D); [apply Z.mod_pos_bound; lia|exact Hdst].
      * destruct (src_in_memory D); [apply Z.mod_pos_bound; lia|exact Hsrc].
Qed.

Lemma memcpy_descs_sum (c0 : Z) (D : dma_transfer_direction)
    (addrs : list Z) :
  forall (dst src len : Z),
    dcmd_clean c0 -> memcpy_dir_ok D -> 0 < len ->
    Z.of_nat (length addrs) = chunks len ->
    sum_len (memcpy_descs SUPPORT_64BIT c0 D addrs dst src len) = len.
Proof.
  induction addrs as [|a addrs IH]; intros dst src len Hc HD Hlen Hn.
  - pose proof (chunks_pos len Hlen). cbn in Hn. lia.
  - cbn [memcpy_descs sum_len fold_right].
    fold (sum_len (memcpy_descs SUPPORT_64BIT c0 D addrs
            (if dst_in_memory D then u64 (dst + Z.min len PDMA_MAX_DESC_BYTES) else dst)
            (if src_in_memory D then u64 (src + Z.min len PDMA_MAX_DESC_BYTES) else src)
            (len - Z.min len PDMA_MAX_DESC_BYTES))).
    assert (Hfst : desc_len (memcpy_desc SUPPORT_64BIT c0 D a dst src len)
                   = Z.min len PDMA_MAX_DESC_BYTES).
    { unfold desc_len. destruct HD as [-> | [-> | ->]]; cbn;
        apply dcmd_length_field; try exact Hc;
        unfold PDMA_MAX_DESC_BYTES, DCMD_LENGTH; lia. }
    rewrite Hfst.
    destruct (Z.leb_spec len PDMA_MAX_DESC_BYTES) as [Hsmall|Hbig].
    + rewrite chunks_small in Hn by lia.
      destruct addrs; [|cbn in Hn; lia]. cbn. lia.
    + rewrite !Z.min_r by lia. rewrite chunks_big in Hn by lia.
      cbn [length] in Hn. rewrite IH; [lia|assumption|assumption|lia|lia].
Qed.

End MemcpyShape.

Lemma memcpy_setup_ok (pdev : mmp_pdma_device) (chan : mmp_pdma_chan) :
  memcpy_dir_ok (dir chan) ->
  (dir chan = DMA_MEM_TO_MEM ->
   get_max_burst_setting (max_burst_size pdev) <> INVALID_BURST_SETTING) ->
  (dir chan <> DMA_MEM_TO_MEM -> dcmd_clean (chan_dcmd chan)) ->
  exists chan1,
    memcpy_setup pdev (set_byte_align false chan) = Done chan1 /\
    dir chan1 = dir chan /\ dcmd_clean (chan_dcmd chan1) /\
    desc_pool chan1 = desc_pool chan.
Proof.
  intros Hdir Hburst Hclean. unfold memcpy_setup. cbn [dir set_byte_align].
  destruct (dir chan) eqn:E.
  - destruct (Z.eqb_spec (get_max_burst_setting (max_burst_size pdev))
                INVALID_BURST_SETTING) as [Hb|Hb].
    + exfalso. apply Hburst; [reflexivity|exact Hb].
    + eexists. split; [reflexivity|]. cbn. split; [reflexivity|].
      split; [|reflexivity]. apply burst_setting_clean. exact Hb.
  - eexists. split; [reflexivity|]. cbn. rewrite E.
    split; [reflexivity|]. split; [|reflexivity]. apply Hclean. discriminate.
  - eexists. split; [reflexivity|]. cbn. rewrite E.
    split; [reflexivity|]. split; [|reflexivity]. apply Hclean. discriminate.
  - destruct Hdir as [? | [? | ?]]; discriminate.
  - destruct Hdir as [? | [? | ?]]; discriminate.
Qed.

Lemma pool_split (free : list Z) (n : Z) :
  0 <= n <= Z.of_nat (length free) ->
  exists addrs more, free = addrs ++ more /\ Z.of_nat (length addrs) = n.
Proof.
  intros H. exists (take (Z.to_nat n) free), (drop (Z.to_nat n) free).
  split; [symmetry; apply take_drop|].
  rewrite length_take. lia.
Qed.

Lemma u32_u64 (x : Z) : u32 (u64 x) = u32 x.
Proof.
  unfold u32, u64. apply Z.mod_mod_divide. exists (2 ^ 32). reflexivity.
Qed.

Lemma u64_range (x : Z) : 0 <= u64 x < 2 ^ 64.
Proof. apply Z.mod_pos_bound. lia. Qed.

Lemma pool_ok_lookup (p : dma_pool) (addrs more : list Z) (i : nat) (a : Z) :
  pool_ok p -> pool_free p = addrs ++ more -> addrs !! i = Some a ->
  0 <= a < 2 ^ 64 /\ a mod 32 = 0.
Proof.
  intros [_ Hall] Hfree Ha. rewrite Hfree in Hall.
  apply Forall_app in Hall as [Hall _].
  exact (Forall_lookup_1 _ _ _ _ Hall Ha).
Qed.

Section MemcpyTheorem.

Variable SUPPORT_64BIT : bool.

(** C1.  For every length > 0 the flat-copy builder returns a chain of
    exactly [ceil (len / PDMA_MAX_DESC_BYTES)] descriptors whose length
    fields sum to [len]; descriptor [i] covers the bytes from offset
    [8191 * i] on, its memory-side addresses are the buffer addresses
    advanced by that offset, it points to descriptor [i + 1], and only the
    last descriptor carries the end interrupt flag and [DDADR_STOP]. *)
Theorem prep_memcpy_chain (pdev : mmp_pdma_device) (chan : mmp_pdma_chan)
    (dst src len flags : Z) :
  0 < len < 2 ^ 64 -> 0 <= dst < 2 ^ 64 -> 0 <= src < 2 ^ 64 ->
  memcpy_dir_ok (dir chan) ->
  (dir chan = DMA_MEM_TO_MEM ->
   get_max_burst_setting (max_burst_size pdev) <> INVALID_BURST_SETTING) ->
  (dir chan <> DMA_MEM_TO_MEM -> dcmd_clean (chan_dcmd chan)) ->
  pool_ok (desc_pool chan) ->
  chunks len <= Z.of_nat (length (pool_free (desc_pool chan))) ->
  exists tx_list chan',
    mmp_pdma_prep_memcpy SUPPORT_64BIT pdev chan dst src len flags
      = Done (Some tx_list, chan') /\
    Z.of_nat (length tx_list) = chunks len /\
    sum_len tx_list = len /\
    forall (i : nat) (d : mmp_pdma_desc_sw),
      tx_list !! i = Some d ->
      let off := PDMA_MAX_DESC_BYTES * Z.of_nat i in
      desc_len d = Z.min (len - off) PDMA_MAX_DESC_BYTES /\
      (src_in_memory (dir chan) = true ->
         dsadr (desc d) = u32 (src + off) /\
         (SUPPORT_64BIT = true -> src_addr64 d = u64 (src + off))) /\
      (dst_in_memory (dir chan) = true ->
         dtadr (desc d) = u32 (dst + off) /\
         (SUPPORT_64BIT = true -> dst_addr64 d = u64 (dst + off))) /\
      match tx_list !! S i with
      | Some d' =>
          ddadr (desc d) = u32 (desc_phys d') /\
          (SUPPORT_64BIT = true -> next_descriptor_addr d = desc_phys d') /\
          end_of_chain_irq d = false /\ ddadr_stop d = false
      | None => ddadr (desc d) = DDADR_STOP /\ end_of_chain_irq d = true
      end.
Proof.
  intros Hlen Hdst Hsrc Hdir Hburst Hclean Hpool Hfree.
  unfold mmp_pdma_prep_memcpy.
  destruct (Z.eqb_spec len 0) as [E|_]; [lia|].
  destruct (memcpy_setup_ok pdev chan Hdir Hburst Hclean)
    as (chan1 & -> & Hd1 & Hc1 & Hp1).
  destruct (pool_split (pool_free (desc_pool chan)) (chunks len))
    as (addrs & more & Hsplit & Hn).
  { pose proof (chunks_pos len). lia. }
  destruct (memcpy_loop_ok SUPPORT_64BIT addrs (Z.to_nat len) chan1 [] dst src
              len more) as (chan' & Hrun & _).
  { rewrite Hd1. exact Hdir. }
  { lia. } { lia. } { rewrite Hp1. exact Hsplit. } { exact Hn. }
  cbn [link_chain app] in Hrun. rewrite Hrun.
  rewrite Hd1 in *.
  set (c0 := chan_dcmd chan1) in *. set (D := dir chan) in *.
  set (news := memcpy_descs SUPPORT_64BIT c0 D addrs dst src len) in *.
  eexists. eexists. split; [reflexivity|].
  assert (Hlennews : length news = length addrs) by apply memcpy_descs_length.
  split; [|split].
  - rewrite map_last_length, map_head_length, link_chain_length. lia.
  - rewrite sum_len_map.
    rewrite (map_last_obs desc_len), (map_head_obs desc_len),
      (link_chain_obs SUPPORT_64BIT desc_len).
    + rewrite <- sum_len_map. apply memcpy_descs_sum; [assumption|assumption|lia|assumption].
    + reflexivity.
    + reflexivity.
    + intros x. unfold desc_len, stop_and_irq. cbn. apply lor_irq_length.
  - intros i d Hd. set (off := PDMA_MAX_DESC_BYTES * Z.of_nat i).
    unfold stop_and_irq in Hd |- *.
    pose proof Hd as Hd0.
    apply finished_lookup in Hd; [|reflexivity].
    destruct Hd as (x & Hx & Hphys & Hnext).
    destruct (memcpy_descs_lookup SUPPORT_64BIT c0 D addrs dst src len i x)
      as (a & Ha & Hpos & Hxeq); [lia|assumption|assumption|assumption|exact Hx|].
    fold off in Hpos, Hxeq.
    assert (Hxlen : desc_len x = Z.min (len - off) PDMA_MAX_DESC_BYTES).
    { rewrite Hxeq. unfold desc_len.
      destruct Hdir as [-> | [-> | ->]]; cbn;
        apply dcmd_length_field; try exact Hc1;
        unfold PDMA_MAX_DESC_BYTES, DCMD_LENGTH; lia. }
    assert (Hxirq : Z.land (dcmd (desc x)) DCMD_ENDIRQEN = 0).
    { rewrite Hxeq.
      destruct Hdir as [-> | [-> | ->]]; cbn;
        apply dcmd_irq_field_clear; exact Hc1. }
    assert (Hxsrc : src_in_memory D = true ->
              dsadr (desc x) = u32 (src + off) /\
              (SUPPORT_64BIT = true ->
                 dsadrh (desc x) * 2 ^ 32 + dsadr (desc x) = u64 (src + off))).
    { intros Hm. rewrite Hxeq, Hm.
      assert (Hlo : dsadr (desc (memcpy_desc SUPPORT_64BIT c0 D a
                (if dst_in_memory D then u64 (dst + off) else dst)
                (u64 (src + off)) (len - off))) = u32 (src + off)).
      { destruct Hdir as [-> | [-> | ->]]; cbn; try discriminate;
          rewrite land_low_word; apply u32_u64. }
      split; [exact Hlo|]. intros H64. rewrite Hlo.
      assert (Hhi : dsadrh (desc (memcpy_desc SUPPORT_64BIT c0 D a
                (if dst_in_memory D then u64 (dst + off) else dst)
                (u64 (src + off)) (len - off)))
              = u32 (Z.shiftr (u64 (src + off)) 32)).
      { destruct Hdir as [-> | [-> | ->]]; cbn; try discriminate;
          unfold hi; rewrite H64; reflexivity. }
      rewrite Hhi, <- (u32_u64 (src + off)).
      apply split_addr_64. apply u64_range. }
    assert (Hxdst : dst_in_memory D = true ->
              dtadr (desc x) = u32 (dst + off) /\
              (SUPPORT_64BIT = true ->
                 dtadrh (desc x) * 2 ^ 32 + dtadr (desc x) = u64 (dst + off))).
    { intros Hm. rewrite Hxeq, Hm.
      assert (Hlo : dtadr (desc (memcpy_desc SUPPORT_64BIT c0 D a
                (u64 (dst + off))
                (if src_in_memory D then u64 (src + off) else src)
                (len - off))) = u32 (dst + off)).
      { destruct Hdir as [-> | [-> | ->]]; cbn; try discriminate;
          rewrite land_low_word; apply u32_u64. }
      split; [exact Hlo|]. intros H64. rewrite Hlo.
      assert (Hhi : dtadrh (desc (memcpy_desc SUPPORT_64BIT c0 D a
                (u64 (dst + off))
                (if src_in_memory D then u64 (src + off) else src)
                (len - off)))
              = u32 (Z.shiftr (u64 (dst + off)) 32)).
      { destruct Hdir as [-> | [-> | ->]]; cbn; try discriminate;
          unfold hi; rewrite H64; reflexivity. }
      rewrite Hhi, <- (u32_u64 (dst + off)).
      apply split_addr_64. apply u64_range. }
    destruct (news !! S i) as [y|] eqn:Hy.
    + (* an inner descriptor: linked to its successor *)
      assert (Hsucc : exists d', map_last
                (with_desc (fun h => set_dcmd
                   (Z.lor (dcmd (set_ddadr DDADR_STOP h)) DCMD_ENDIRQEN)
                   (set_ddadr DDADR_STOP h)))
                (map_head (with_tx (fun t => set_cookie (- EBUSY) (set_flags flags t)))
                   (link_chain SUPPORT_64BIT news)) !! S i = Some d').
      { apply lookup_lt_is_Some_2.
        rewrite map_last_length, map_head_length, link_chain_length.
        apply lookup_lt_Some in Hy. exact Hy. }
      destruct Hsucc as [d' Hd'].
      rewrite Hd'.
      pose proof Hd' as Hd'0.
      apply finished_lookup in Hd'; [|reflexivity].
      destruct Hd' as (y' & Hy' & Hphys' & _).
      rewrite Hy in Hy'. injection Hy' as <-.
      destruct (memcpy_descs_lookup SUPPORT_64BIT c0 D addrs dst src len (S i) y)
        as (b & Hb & _ & Hyeq); [lia|assumption|assumption|assumption|exact Hy|].
      assert (Hyphys : desc_phys y = b).
      { rewrite Hyeq. reflexivity. }
      destruct (pool_ok_lookup (desc_pool chan) addrs more (S i) b Hpool Hsplit Hb)
        as [Hbr Hbal].
      unfold desc_len, src_addr64, dst_addr64, next_descriptor_addr,
        end_of_chain_irq, ddadr_stop.
      rewrite Hnext, Hphys'. unfold link_to. cbn.
      fold (desc_phys y). rewrite Hyphys.
      split; [exact Hxlen|]. split; [exact Hxsrc|]. split; [exact Hxdst|].
      split; [reflexivity|].
      split.
      * intros H64. unfold hi. rewrite H64. apply split_addr_64. exact Hbr.
      * split.
        -- unfold nonzero. rewrite Hxirq. reflexivity.
        -- unfold nonzero. rewrite u32_aligned_no_stop by exact Hbal. reflexivity.
    + (* the last descriptor *)
      assert (Hnone : map_last
                (with_desc (fun h => set_dcmd
                   (Z.lor (dcmd (set_ddadr DDADR_STOP h)) DCMD_ENDIRQEN)
                   (set_ddadr DDADR_STOP h)))
                (map_head (with_tx (fun t => set_cookie (- EBUSY) (set_flags flags t)))
                   (link_chain SUPPORT_64BIT news)) !! S i = None).
      { apply lookup_ge_None_2.
        rewrite map_last_length, map_head_length, link_chain_length.
        apply lookup_ge_None_1 in Hy. exact Hy. }
      rewrite Hnone.
      unfold desc_len, src_addr64, dst_addr64, end_of_chain_irq.
      rewrite Hnext. cbn.
      split; [rewrite lor_irq_length; exact Hxlen|].
      split; [exact Hxsrc|]. split; [exact Hxdst|].
      split; [reflexivity|]. apply lor_irq_set.
Qed.

End MemcpyTheorem.

Lemma sample_pool_ok : pool_ok sample_pool.
Proof.
  split.
  - apply NoDup_ListNoDup. cbn.
    repeat (constructor; [cbn; intros H; repeat destruct H as [H|H]; try discriminate; try contradiction|]).
    constructor.
  - repeat constructor; cbn; lia.
Qed.

Lemma prep_memcpy_chain_witness :
  exists tx_list chan',
    mmp_pdma_prep_memcpy true sample_pdev sample_chan 0x900000 0x800000 20000 0
      = Done (Some tx_list, chan') /\
    Z.of_nat (length tx_list) = chunks 20000 /\
    sum_len tx_list = 20000 /\
    forall (i : nat) (d : mmp_pdma_desc_sw),
      tx_list !! i = Some d ->
      let off := PDMA_MAX_DESC_BYTES * Z.of_nat i in
      desc_len d = Z.min (20000 - off) PDMA_MAX_DESC_BYTES /\
      (src_in_memory (dir sample_chan) = true ->
         dsadr (desc d) = u32 (0x800000 + off) /\
         (true = true -> src_addr64 d = u64 (0x800000 + off))) /\
      (dst_in_memory (dir sample_chan) = true ->
         dtadr (desc d) = u32 (0x900000 + off) /\
         (true = true -> dst_addr64 d = u64 (0x900000 + off))) /\
      match tx_list !! S i with
      | Some d' =>
          ddadr (desc d) = u32 (desc_phys d') /\
          (true = true -> next_descriptor_addr d = desc_phys d') /\
          end_of_chain_irq d = false /\ ddadr_stop d = false
      | None => ddadr (desc d) = DDADR_STOP /\ end_of_chain_irq d = true
      end.
Proof.
  apply (prep_memcpy_chain true sample_pdev sample_chan 0x900000 0x800000
           20000 0).
  - lia.
  - lia.
  - lia.
  - left. reflexivity.
  - intros _. vm_compute. discriminate.
  - intros H. exfalso. apply H. reflexivity.
  - exact sample_pool_ok.
  - vm_compute. discriminate.
Defined.

(** The scenario of the specification: 20000 bytes give three descriptors
    of 8191, 8191 and 3618 bytes. *)
Example prep_memcpy_20000 :
  match mmp_pdma_prep_memcpy true sample_pdev sample_chan 0x900000 0x800000
          20000 0 with
  | Done (Some tx_list, _) => map desc_len tx_list = [8191; 8191; 3618]
  | _ => False
  end.
Proof. vm_compute. reflexivity. Qed.

Lemma chunks_is_ceiling (len : Z) :
  0 < len ->
  PDMA_MAX_DESC_BYTES * (chunks len - 1) < len <= PDMA_MAX_DESC_BYTES * chunks len.
Proof.
  intros H. unfold chunks, PDMA_MAX_DESC_BYTES, DCMD_LENGTH.
  pose proof (Z.div_mod (len + 8191 - 1) 8191).
  pose proof (Z.mod_pos_bound (len + 8191 - 1) 8191). lia.
Qed.

Section CyclicLemmas.

Variable SUPPORT_64BIT : bool.

(** With one free block per period the cyclic loop runs to completion. *)
Lemma cyclic_loop_ok (addrs : list Z) :
  forall (fuel : nat) (chan : mmp_pdma_chan) (pre : list mmp_pdma_desc_sw)
         (src dst srch dsth len period_len : Z) (more : list Z),
    0 < period_len -> 0 < len < 2 ^ 64 -> (Z.to_nat len <= fuel)%nat ->
    pool_free (desc_pool chan) = addrs ++ more ->
    len = period_len * Z.of_nat (length addrs) ->
    exists chan',
      cyclic_loop SUPPORT_64BIT fuel chan (link_chain SUPPORT_64BIT pre)
        src dst srch dsth len period_len
      = (Some (link_chain SUPPORT_64BIT
                 (pre ++ cyclic_descs SUPPORT_64BIT (chan_dcmd chan) (dir chan)
                           addrs src dst srch dsth period_len)), chan')
      /\ desc_pool chan'
         = {| pool_free := more;
              pool_used := rev addrs ++ pool_used (desc_pool chan) |}.
Proof.
  induction addrs as [|a addrs IH]; intros fuel chan pre src dst srch dsth len
    period_len more Hp Hlen Hfuel Hpool Hn.
  - cbn in Hn. lia.
  - destruct fuel as [|fuel]; [lia|].
    cbn [cyclic_loop].
    rewrite (alloc_descriptor_some chan a (addrs ++ more)) by exact Hpool.
    set (pool1 := {| pool_free := addrs ++ more;
                     pool_used := a :: pool_used (desc_pool chan) |}).
    set (chan1 := set_desc_pool pool1 chan).
    change (chan_dcmd chan1) with (chan_dcmd chan).
    change (dir chan1) with (dir chan).
    set (new := with_desc _ (zero_desc a)).
    assert (Hnew : ack_new new
                   = cyclic_desc SUPPORT_64BIT (chan_dcmd chan) a src dst srch
                       dsth period_len) by reflexivity.
    rewrite (link_chain_push SUPPORT_64BIT pre new (ack_new new)) by reflexivity.
    rewrite Hnew. cbn [cyclic_descs].
    cbn [length] in Hn.
    assert (Hsub : u64 (len - period_len) = len - period_len).
    { unfold u64. apply Z.mod_small. nia. }
    rewrite Hsub.
    destruct addrs as [|b addrs].
    + cbn [length] in Hn. replace (len - period_len) with 0 by lia.
      cbn [Z.eqb]. exists chan1. split; reflexivity.
    + destruct (Z.eqb_spec (len - period_len) 0) as [E|_].
      { cbn [length] in Hn. nia. }
      match goal with
      | |- exists c, cyclic_loop _ fuel chan1 _ ?s' ?d' _ _ ?l' _ = _ /\ _ =>
          destruct (IH fuel chan1
                      (pre ++ [cyclic_desc SUPPORT_64BIT (chan_dcmd chan) a src
                                 dst srch dsth period_len])
                      s' d' srch dsth l' period_len more)
            as (chan' & Hrun & Hpool')
      end.
      * exact Hp.
      * cbn [length] in Hn. nia.
      * lia.
      * reflexivity.
      * cbn [length] in Hn |- *. lia.
      * exists chan'. split.
        -- rewrite Hrun. rewrite <- app_assoc. reflexivity.
        -- rewrite Hpool'. subst chan1 pool1. cbn [desc_pool set_desc_pool pool_used rev].
           rewrite <- !app_assoc. reflexivity.
Qed.

(** With fewer free blocks than periods the cyclic loop takes the [fail:]
    exit and gives every block back. *)
Lemma cyclic_loop_fail (free : list Z) :
  forall (fuel : nat) (chan : mmp_pdma_chan) (tx : list mmp_pdma_desc_sw)
         (src dst srch dsth len period_len : Z),
    0 < period_len -> 0 < len < 2 ^ 64 -> (Z.to_nat len <= fuel)%nat ->
    pool_free (desc_pool chan) = free ->
    period_len * Z.of_nat (length free) < len ->
    exists chan',
      cyclic_loop SUPPORT_64BIT fuel chan tx src dst srch dsth len period_len
      = (None, chan')
      /\ desc_pool chan'
         = free_all {| pool_free := [];
                       pool_used := rev free ++ pool_used (desc_pool chan) |}
             (map desc_phys tx ++ free).
Proof.
  induction free as [|a free IH]; intros fuel chan tx src dst srch dsth len
    period_len Hp Hlen Hfuel Hpool Hn;
    (destruct fuel as [|fuel]; [lia|]); cbn [cyclic_loop].
  - rewrite alloc_descriptor_none by exact Hpool.
    eexists. split; [reflexivity|].
    rewrite builder_fail_pool, app_nil_r. cbn [rev app].
    rewrite (pool_eta (desc_pool chan)) at 1. rewrite Hpool. reflexivity.
  - rewrite (alloc_descriptor_some chan a free) by exact Hpool.
    set (pool1 := {| pool_free := free;
                     pool_used := a :: pool_used (desc_pool chan) |}).
    set (chan1 := set_desc_pool pool1 chan).
    cbn [length] in Hn.
    assert (Hsub : u64 (len - period_len) = len - period_len).
    { unfold u64. apply Z.mod_small. nia. }
    rewrite Hsub.
    destruct (Z.eqb_spec (len - period_len) 0) as [E|_]; [nia|].
    match goal with
    | |- exists c, cyclic_loop _ fuel chan1 ?tx' ?s' ?d' _ _ ?l' _ = _ /\ _ =>
        destruct (IH fuel chan1 tx' s' d' srch dsth l' period_len)
          as (chan' & Hrun & Hpool')
    end.
    + exact Hp.
    + nia.
    + lia.
    + reflexivity.
    + nia.
    + exists chan'. split; [exact Hrun|].
      rewrite Hpool'. subst chan1 pool1. cbn [desc_pool set_desc_pool pool_used rev].
      rewrite map_app, map_last_phys by reflexivity.
      cbn [map]. rewrite <- !app_assoc. reflexivity.
Qed.

Lemma cyclic_descs_length (c0 : Z) (D : dma_transfer_direction)
    (addrs : list Z) :
  forall src dst srch dsth p,
    length (cyclic_descs SUPPORT_64BIT c0 D addrs src dst srch dsth p)
    = length addrs.
Proof.
  induction addrs as [|a addrs IH]; intros; cbn; [|rewrite IH]; reflexivity.
Qed.

Lemma cyclic_descs_lookup (c0 : Z) (D : dma_transfer_direction)
    (addrs : list Z) :
  forall (src dst srch dsth p : Z) (i : nat) (d : mmp_pdma_desc_sw),
    cyclic_descs SUPPORT_64BIT c0 D addrs src dst srch dsth p !! i = Some d ->
    exists a s t, addrs !! i = Some a /\
      d = cyclic_desc SUPPORT_64BIT c0 a s t srch dsth p.
Proof.
  induction addrs as [|a addrs IH]; intros src dst srch dsth p i d Hd.
  - discriminate.
  - cbn [cyclic_descs] in Hd. destruct i as [|i].
    + cbn in Hd. injection Hd as <-. exists a, src, dst. split; reflexivity.
    + cbn [lookup list_lookup] in Hd. apply IH in Hd. exact Hd.
Qed.

End CyclicLemmas.

Lemma dcmd_length_field_gen (c x : Z) :
  Z.land c DCMD_LENGTH = 0 -> 0 <= x <= PDMA_MAX_DESC_BYTES ->
  Z.land (Z.lor c (Z.land DCMD_LENGTH x)) DCMD_LENGTH = x.
Proof.
  intros Hl Hx. rewrite Z.land_lor_distr_l, Hl, Z.lor_0_l.
  rewrite land_length_small by exact Hx.
  rewrite Z.land_comm. apply land_length_small. exact Hx.
Qed.

Lemma irq_bit_set (v : Z) :
  Z.testbit v 21 = true -> nonzero (Z.land v DCMD_ENDIRQEN) = true.
Proof.
  intros Hb. unfold nonzero.
  destruct (Z.eqb_spec (Z.land v DCMD_ENDIRQEN) 0) as [E|_]; [|reflexivity].
  exfalso. assert (H : Z.testbit (Z.land v DCMD_ENDIRQEN) 21 = true).
  { rewrite Z.land_spec, Hb. reflexivity. }
  rewrite E in H. discriminate.
Qed.

(** For a slave direction [mmp_pdma_config_write] rebuilds the command
    word of the channel from scratch. *)
Lemma config_write_slave (chan : mmp_pdma_chan) (cfg : dma_slave_config)
    (d : dma_transfer_direction) :
  slave_dir_ok d ->
  dcmd_clean (chan_dcmd (mmp_pdma_config_write chan cfg d)) /\
  dir (mmp_pdma_config_write chan cfg d) = d /\
  desc_pool (mmp_pdma_config_write chan cfg d) = desc_pool chan.
Proof.
  intros [-> | ->]; unfold mmp_pdma_config_write;
    repeat match goal with
           | |- context [if ?b then _ else _] => destruct b
           end; cbn; (split; [split; reflexivity|split; reflexivity]).
Qed.

Lemma head_phys (b64 : bool)
    (f : dma_async_tx_descriptor -> dma_async_tx_descriptor)
    (news : list mmp_pdma_desc_sw) (x0 : mmp_pdma_desc_sw) :
  (forall t, phys (f t) = phys t) ->
  news !! 0%nat = Some x0 ->
  match map_head (with_tx f) (link_chain b64 news) with
  | first :: _ => phys (async_tx first)
  | [] => 0
  end = desc_phys x0.
Proof.
  intros Hf H0. destruct news as [|x [|y t]]; cbn in H0; [discriminate| |];
    injection H0 as ->; cbn; apply Hf.
Qed.

Section CyclicTheorem.

Variable SUPPORT_64BIT : bool.

(** The cyclic builder with a descriptor pool below 4 GiB.  A request is
    refused when the buffer length is not a multiple of the period or the
    period exceeds [PDMA_MAX_DESC_BYTES]; otherwise the builder returns
    exactly [len / period_len] descriptors of one period each, every one
    with the end interrupt flag, each pointing to its successor and the
    last one pointing back to the first.  The link back is written to
    [ddadr] alone, hence the bound on the pool. *)
Theorem prep_dma_cyclic_ring (chan : mmp_pdma_chan)
    (buf_addr len period_len flags : Z) (direction : dma_transfer_direction) :
  (len mod period_len <> 0 \/ PDMA_MAX_DESC_BYTES < period_len ->
   mmp_pdma_prep_dma_cyclic SUPPORT_64BIT chan buf_addr len period_len
     direction flags = (None, chan)) /\
  (0 < len < 2 ^ 64 -> 0 < period_len <= PDMA_MAX_DESC_BYTES ->
   len mod period_len = 0 ->
   slave_dir_ok direction ->
   pool_ok (desc_pool chan) ->
   Forall (fun a => a < 2 ^ 32) (pool_free (desc_pool chan)) ->
   len / period_len <= Z.of_nat (length (pool_free (desc_pool chan))) ->
   exists tx_list chan',
     mmp_pdma_prep_dma_cyclic SUPPORT_64BIT chan buf_addr len period_len
       direction flags = (Some tx_list, chan') /\
     Z.of_nat (length tx_list) = len / period_len /\
     forall (i : nat) (d : mmp_pdma_desc_sw),
       tx_list !! i = Some d ->
       end_of_chain_irq d = true /\ desc_len d = period_len /\
       match tx_list !! S i with
       | Some d' => next_descriptor_addr d = desc_phys d'
       | None =>
           exists first, tx_list !! 0%nat = Some first /\
             next_descriptor_addr d = desc_phys first /\
             cyclic_first chan' = Some (desc_phys first)
       end).
Proof.
  split.
  - intros Hbad. unfold mmp_pdma_prep_dma_cyclic.
    destruct ((len =? 0) || (period_len =? 0)); [reflexivity|].
    unfold nonzero.
    destruct (Z.eqb_spec (len mod period_len) 0) as [E|_]; [|reflexivity].
    cbn [negb].
    destruct (Z.gtb_spec period_len PDMA_MAX_DESC_BYTES) as [_|Hle]; [reflexivity|].
    destruct Hbad; [contradiction|lia].
  - intros Hlen Hp Hdiv Hdir Hpool H4g Hfree.
    unfold mmp_pdma_prep_dma_cyclic.
    destruct (Z.eqb_spec len 0) as [E|_]; [lia|].
    destruct (Z.eqb_spec period_len 0) as [E|_]; [lia|].
    cbn [orb]. unfold nonzero. rewrite Hdiv. cbn [Z.eqb negb].
    destruct (Z.gtb_spec period_len PDMA_MAX_DESC_BYTES) as [Hgt|_]; [lia|].
    destruct (config_write_slave chan (slave_config chan) direction Hdir)
      as (Hclean & Hd1 & Hp1).
    set (chan1 := mmp_pdma_config_write chan (slave_config chan) direction) in *.
    assert (Hlenq : len = period_len * (len / period_len)).
    { pose proof (Z.div_mod len period_len). lia. }
    assert (Hq : 0 < len / period_len).
    { apply Z.div_str_pos. split; [lia|].
      destruct (Z.le_gt_cases period_len len) as [|Hlt]; [assumption|].
      rewrite Z.mod_small in Hdiv by lia. lia. }
    destruct (pool_split (pool_free (desc_pool chan)) (len / period_len))
      as (addrs & more & Hsplit & Hn); [lia|].
    assert (Hstart : exists s t sh th,
      match direction with
      | DMA_MEM_TO_DEV =>
          Some (Z.land buf_addr 4294967295, dev_addr chan1,
                Z.shiftr buf_addr 32, 0)
      | DMA_DEV_TO_MEM =>
          Some (dev_addr chan1, Z.land buf_addr 4294967295, 0,
                Z.shiftr buf_addr 32)
      | _ => None
      end = Some (s, t, sh, th)).
    { destruct Hdir as [-> | ->]; do 4 eexists; reflexivity. }
    destruct Hstart as (s & t & sh & th & ->).
    destruct (cyclic_loop_ok SUPPORT_64BIT addrs (Z.to_nat len)
                (set_dir direction chan1) [] s t sh th len period_len more)
      as (chan' & Hrun & _).
    { lia. } { lia. } { lia. }
    { cbn [desc_pool set_dir]. rewrite Hp1. exact Hsplit. }
    { rewrite Hn. exact Hlenq. }
    cbn [link_chain app] in Hrun. rewrite Hrun.
    change (chan_dcmd (set_dir direction chan1)) with (chan_dcmd chan1).
    set (c0 := chan_dcmd chan1) in *.
    set (D := dir (set_dir direction chan1)).
    set (news := cyclic_descs SUPPORT_64BIT c0 D addrs s t sh th period_len).
    assert (Hlennews : length news = length addrs) by apply cyclic_descs_length.
    assert (Ha0 : exists a0, addrs !! 0%nat = Some a0 /\
              news !! 0%nat
              = Some (cyclic_desc SUPPORT_64BIT c0 a0 s t sh th period_len)).
    { subst news. destruct addrs as [|a0 addrs0]; [cbn in Hn; lia|].
      exists a0. split; reflexivity. }
    destruct Ha0 as (a0 & Eaddrs & H0).
    set (f := fun t0 => set_cookie (- EBUSY) (set_flags flags t0)).
    rewrite (head_phys SUPPORT_64BIT f news _ (fun _ => eq_refl) H0).
    change (desc_phys (cyclic_desc SUPPORT_64BIT c0 a0 s t sh th period_len))
      with a0.
    eexists. eexists. split; [reflexivity|].
    split.
    { rewrite map_last_length, map_head_length, link_chain_length. lia. }
    assert (Hblock : forall (j : nat) (b : Z), addrs !! j = Some b ->
                       0 <= b < 2 ^ 32 /\ b mod 32 = 0).
    { intros j b Hb.
      destruct (pool_ok_lookup _ _ _ _ _ Hpool Hsplit Hb) as [Hr Ha].
      rewrite Hsplit in H4g. apply Forall_app in H4g as [H4g _].
      pose proof (Forall_lookup_1 _ _ _ _ H4g Hb). cbn in *. lia. }
    assert (Hsmall : forall b, 0 <= b < 2 ^ 32 ->
              hi SUPPORT_64BIT (u32 (Z.shiftr b 32)) 0 * 2 ^ 32 + u32 b = b).
    { intros b Hb. unfold hi, u32.
      rewrite Z.shiftr_div_pow2, (Z.div_small b), (Z.mod_small b) by lia.
      destruct SUPPORT_64BIT; reflexivity. }
    intros i d Hd.
    pose proof Hd as Hd0.
    apply finished_lookup in Hd; [|reflexivity].
    destruct Hd as (x & Hx & Hphys & Hnext).
    destruct (cyclic_descs_lookup SUPPORT_64BIT c0 D addrs s t sh th period_len
                i x Hx) as (a & s' & t' & Ha & Hxeq).
    assert (Hxirq : end_of_chain_irq x = true).
    { rewrite Hxeq. unfold end_of_chain_irq. cbn. apply irq_bit_set.
      rewrite !Z.lor_spec. change (Z.testbit DCMD_ENDIRQEN 21) with true.
      rewrite orb_true_r. reflexivity. }
    assert (Hxlen : desc_len x = period_len).
    { rewrite Hxeq. unfold desc_len. cbn. apply dcmd_length_field_gen; [|lia].
      rewrite lor_irq_length. apply Hclean. }
    destruct (news !! S i) as [y|] eqn:Hy.
    + assert (Hsucc : is_Some (map_last (with_desc (set_ddadr (u32 a0)))
                (map_head (with_tx f) (link_chain SUPPORT_64BIT news)) !! S i)).
      { apply lookup_lt_is_Some_2.
        rewrite map_last_length, map_head_length, link_chain_length.
        apply lookup_lt_Some in Hy. exact Hy. }
      destruct Hsucc as [d' Hd']. rewrite Hd'.
      apply finished_lookup in Hd'; [|reflexivity].
      destruct Hd' as (y' & Hy' & Hphys' & _).
      rewrite Hy in Hy'. injection Hy' as <-.
      destruct (cyclic_descs_lookup SUPPORT_64BIT c0 D addrs s t sh th period_len
                  (S i) y Hy) as (b & s'' & t'' & Hb & Hyeq).
      assert (Hyphys : desc_phys y = b) by (rewrite Hyeq; reflexivity).
      unfold end_of_chain_irq, desc_len, next_descriptor_addr in *.
      rewrite Hnext, Hphys'. unfold link_to. cbn.
      fold (desc_phys y). rewrite Hyphys.
      split; [exact Hxirq|]. split; [exact Hxlen|].
      rewrite Hxeq. cbn. apply Hsmall. apply (Hblock (S i)). exact Hb.
    + assert (Hnone : map_last (with_desc (set_ddadr (u32 a0)))
                (map_head (with_tx f) (link_chain SUPPORT_64BIT news)) !! S i
                = None).
      { apply lookup_ge_None_2.
        rewrite map_last_length, map_head_length, link_chain_length.
        apply lookup_ge_None_1 in Hy. exact Hy. }
      rewrite Hnone.
      unfold end_of_chain_irq, desc_len, next_descriptor_addr in *.
      rewrite Hnext. cbn.
      split; [exact Hxirq|]. split; [exact Hxlen|].
      assert (Hfirst : is_Some (map_last (with_desc (set_ddadr (u32 a0)))
                (map_head (with_tx f) (link_chain SUPPORT_64BIT news)) !! 0%nat)).
      { apply lookup_lt_is_Some_2.
        rewrite map_last_length, map_head_length, link_chain_length.
        rewrite Hlennews. apply lookup_lt_Some in Eaddrs. exact Eaddrs. }
      destruct Hfirst as [first Hfirst]. exists first.
      split; [exact Hfirst|].
      apply finished_lookup in Hfirst; [|reflexivity].
      destruct Hfirst as (x0 & Hx0 & Hphys0 & _).
      rewrite H0 in Hx0. injection Hx0 as <-.
      rewrite Hphys0.
      change (desc_phys (cyclic_desc SUPPORT_64BIT c0 a0 s t sh th period_len))
        with a0.
      split; [|reflexivity].
      rewrite Hxeq. cbn.
      assert (Ha0 : 0 <= a0 < 2 ^ 32).
      { apply (Hblock 0%nat). exact Eaddrs. }
      unfold u32. rewrite Z.mod_small by lia. lia.
Qed.

End CyclicTheorem.

Lemma prep_dma_cyclic_ring_witness :
  mmp_pdma_prep_dma_cyclic true sample_chan 0x8000 4096 1000 DMA_DEV_TO_MEM 0
    = (None, sample_chan) /\
  exists tx_list chan',
    mmp_pdma_prep_dma_cyclic true sample_chan 0x8000 4096 1024 DMA_DEV_TO_MEM 0
      = (Some tx_list, chan') /\
    Z.of_nat (length tx_list) = 4096 / 1024 /\
    forall (i : nat) (d : mmp_pdma_desc_sw),
      tx_list !! i = Some d ->
      end_of_chain_irq d = true /\ desc_len d = 1024 /\
      match tx_list !! S i with
      | Some d' => next_descriptor_addr d = desc_phys d'
      | None =>
          exists first, tx_list !! 0%nat = Some first /\
            next_descriptor_addr d = desc_phys first /\
            cyclic_first chan' = Some (desc_phys first)
      end.
Proof.
  split.
  - apply (proj1 (prep_dma_cyclic_ring true sample_chan 0x8000 4096 1000 0
                    DMA_DEV_TO_MEM)).
    left. vm_compute. discriminate.
  - apply (proj2 (prep_dma_cyclic_ring true sample_chan 0x8000 4096 1024 0
                    DMA_DEV_TO_MEM)).
    + lia.
    + unfold PDMA_MAX_DESC_BYTES, DCMD_LENGTH. lia.
    + reflexivity.
    + right. reflexivity.
    + exact sample_pool_ok.
    + repeat constructor.
    + vm_compute. discriminate.
Defined.

(** C2.  With the 64-bit descriptor layout and a descriptor pool above
    4 GiB the ring is not closed.  For a 4096 byte buffer and 1024 byte
    periods the builder returns four descriptors, all with the end interrupt
    flag and each of the first three pointing to its successor through
    [ddadrh:ddadr]; the last one points to 0x1000 and not to the first
    descriptor at 0x100001000, because the cyclic link is stored in [ddadr]
    only and [ddadrh] of the last descriptor is left 0. *)
Theorem prep_dma_cyclic_ring_open :
  match mmp_pdma_prep_dma_cyclic true high_pool_chan 0x8000 4096 1024
          DMA_DEV_TO_MEM 0 with
  | (Some tx_list, chan') =>
      map desc_phys tx_list
      = [0x100001000; 0x100001040; 0x100001080; 0x1000010c0] /\
      map end_of_chain_irq tx_list = [true; true; true; true] /\
      map next_descriptor_addr tx_list
      = [0x100001040; 0x100001080; 0x1000010c0; 0x1000] /\
      map (fun d => ddadrh (desc d)) tx_list = [1; 1; 1; 0] /\
      cyclic_first chan' = Some 0x100001000
  | _ => False
  end.
Proof. vm_compute. repeat split; reflexivity. Qed.

(** The scenario of the specification: a 4096 byte ring of 1024 byte
    periods has four descriptors, all with the end interrupt flag, the last
    one pointing at the first. *)
Example prep_dma_cyclic_4096 :
  match mmp_pdma_prep_dma_cyclic true sample_chan 0x8000 4096 1024
          DMA_DEV_TO_MEM 0 with
  | (Some tx_list, _) =>
      map (fun d => (desc_phys d, next_descriptor_addr d, end_of_chain_irq d))
        tx_list
      = [(0x1000, 0x1040, true); (0x1040, 0x1080, true);
         (0x1080, 0x10c0, true); (0x10c0, 0x1000, true)]
  | _ => False
  end.
Proof. vm_compute. reflexivity. Qed.

Section SgLemmas.

Variable SUPPORT_64BIT : bool.

Lemma sg_set_addrs_ok (d : dma_transfer_direction) (dev addr : Z)
    (hw : mmp_pdma_desc_hw) :
  slave_dir_ok d -> is_Some (sg_set_addrs SUPPORT_64BIT d dev addr hw).
Proof. intros [-> | ->]; cbn; eauto. Qed.

Lemma sg_chunks_pos (avail : Z) : 0 < sg_chunks avail.
Proof.
  unfold sg_chunks. destruct (Z.leb_spec avail 0); [lia|].
  apply chunks_pos. assumption.
Qed.

Lemma sg_inner_loop_ok (addrs : list Z) :
  forall (fuel : nat) (d : dma_transfer_direction) (chan : mmp_pdma_chan)
         (tx : list mmp_pdma_desc_sw) (addr avail : Z) (more : list Z),
    slave_dir_ok d -> 0 <= avail -> (Z.to_nat avail < fuel)%nat ->
    pool_free (desc_pool chan) = addrs ++ more ->
    Z.of_nat (length addrs) = sg_chunks avail ->
    exists tx' chan',
      sg_inner_loop SUPPORT_64BIT fuel d chan tx addr avail = (Some tx', chan')
      /\ map desc_phys tx' = map desc_phys tx ++ addrs
      /\ desc_pool chan'
         = {| pool_free := more;
              pool_used := rev addrs ++ pool_used (desc_pool chan) |}.
Proof.
  induction addrs as [|a addrs IH]; intros fuel d chan tx addr avail more
    Hdir Hav Hfuel Hpool Hn.
  - pose proof (sg_chunks_pos avail). cbn in Hn. lia.
  - destruct fuel as [|fuel]; [lia|].
    cbn [sg_inner_loop].
    set (chan0 := if nonzero (Z.land addr 7) then set_byte_align true chan
                  else chan).
    assert (Hp0 : desc_pool chan0 = desc_pool chan)
      by (subst chan0; destruct (nonzero _); reflexivity).
    rewrite (alloc_descriptor_some chan0 a (addrs ++ more))
      by (rewrite Hp0; exact Hpool).
    rewrite Hp0.
    set (pool1 := {| pool_free := addrs ++ more;
                     pool_used := a :: pool_used (desc_pool chan) |}).
    set (chan1 := set_desc_pool pool1 chan0).
    match goal with
    | |- context [sg_set_addrs SUPPORT_64BIT d ?dv addr ?hw0] =>
        destruct (sg_set_addrs_ok d dv addr hw0 Hdir) as [hw Hhw]; rewrite Hhw
    end.
    unfold sg_chunks in Hn.
    destruct (Z.leb_spec avail PDMA_MAX_DESC_BYTES) as [Hsmall|Hbig].
    + rewrite !Z.min_l by lia. rewrite Z.sub_diag. cbn [Z.eqb].
      assert (Hone : Z.of_nat (length (a :: addrs)) = 1).
      { destruct (Z.leb_spec avail 0); [exact Hn|].
        rewrite chunks_small in Hn by lia. exact Hn. }
      destruct addrs; [|cbn in Hone; lia].
      eexists. exists chan1. split; [reflexivity|]. split.
      * rewrite map_app, map_last_phys by reflexivity. reflexivity.
      * reflexivity.
    + rewrite !Z.min_r by lia.
      destruct (Z.eqb_spec (avail - PDMA_MAX_DESC_BYTES) 0) as [E|_]; [lia|].
      assert (Hav0 : 0 < avail) by (unfold PDMA_MAX_DESC_BYTES, DCMD_LENGTH in Hbig; lia).
      destruct (Z.leb_spec avail 0) as [|_]; [lia|].
      rewrite chunks_big in Hn by lia. cbn [length] in Hn.
      match goal with
      | |- exists t c, sg_inner_loop _ fuel d chan1 ?tx' ?a' ?l' = _ /\ _ =>
          destruct (IH fuel d chan1 tx' a' l' more)
            as (tx2 & chan' & Hrun & Hphys & Hpool')
      end.
      * exact Hdir.
      * lia.
      * unfold PDMA_MAX_DESC_BYTES, DCMD_LENGTH in *. lia.
      * reflexivity.
      * unfold sg_chunks.
        destruct (Z.leb_spec (avail - PDMA_MAX_DESC_BYTES) 0); lia.
      * exists tx2, chan'. split; [exact Hrun|]. split.
        -- rewrite Hphys, map_app, map_last_phys by reflexivity.
           cbn [map]. rewrite <- app_assoc. reflexivity.
        -- rewrite Hpool'. subst chan1 pool1.
           cbn [desc_pool set_desc_pool pool_used rev].
           rewrite <- !app_assoc. reflexivity.
Qed.

Lemma sg_inner_loop_fail (free : list Z) :
  forall (fuel : nat) (d : dma_transfer_direction) (chan : mmp_pdma_chan)
         (tx : list mmp_pdma_desc_sw) (addr avail : Z),
    slave_dir_ok d -> 0 <= avail -> (Z.to_nat avail < fuel)%nat ->
    pool_free (desc_pool chan) = free ->
    Z.of_nat (length free) < sg_chunks avail ->
    exists chan',
      sg_inner_loop SUPPORT_64BIT fuel d chan tx addr avail = (None, chan')
      /\ desc_pool chan'
         = free_all {| pool_free := [];
                       pool_used := rev free ++ pool_used (desc_pool chan) |}
             (map desc_phys tx ++ free).
Proof.
  induction free as [|a free IH]; intros fuel d chan tx addr avail
    Hdir Hav Hfuel Hpool Hn;
    (destruct fuel as [|fuel]; [lia|]); cbn [sg_inner_loop];
    set (chan0 := if nonzero (Z.land addr 7) then set_byte_align true chan
                  else chan);
    assert (Hp0 : desc_pool chan0 = desc_pool chan)
      by (subst chan0; destruct (nonzero _); reflexivity).
  - rewrite alloc_descriptor_none by (rewrite Hp0; exact Hpool).
    eexists. split; [reflexivity|].
    rewrite builder_fail_pool, app_nil_r, Hp0. cbn [rev app].
    rewrite (pool_eta (desc_pool chan)) at 1. rewrite Hpool. reflexivity.
  - rewrite (alloc_descriptor_some chan0 a free)
      by (rewrite Hp0; exact Hpool).
    rewrite Hp0.
    set (pool1 := {| pool_free := free;
                     pool_used := a :: pool_used (desc_pool chan) |}).
    set (chan1 := set_desc_pool pool1 chan0).
    match goal with
    | |- context [sg_set_addrs SUPPORT_64BIT d ?dv addr ?hw0] =>
        destruct (sg_set_addrs_ok d dv addr hw0 Hdir) as [hw Hhw]; rewrite Hhw
    end.
    unfold sg_chunks in Hn. cbn [length] in Hn.
    destruct (Z.leb_spec avail PDMA_MAX_DESC_BYTES) as [Hsmall|Hbig].
    + destruct (Z.leb_spec avail 0); [lia|].
      rewrite chunks_small in Hn by lia. lia.
    + rewrite !Z.min_r by lia.
      destruct (Z.eqb_spec (avail - PDMA_MAX_DESC_BYTES) 0) as [E|_]; [lia|].
      assert (Hav0 : 0 < avail) by (unfold PDMA_MAX_DESC_BYTES, DCMD_LENGTH in Hbig; lia).
      destruct (Z.leb_spec avail 0) as [|_]; [lia|].
      rewrite chunks_big in Hn by lia.
      match goal with
      | |- exists c, sg_inner_loop _ fuel d chan1 ?tx' ?a' ?l' = _ /\ _ =>
          destruct (IH fuel d chan1 tx' a' l') as (chan' & Hrun & Hpool')
      end.
      * exact Hdir.
      * lia.
      * unfold PDMA_MAX_DESC_BYTES, DCMD_LENGTH in *. lia.
      * reflexivity.
      * unfold sg_chunks.
        destruct (Z.leb_spec (avail - PDMA_MAX_DESC_BYTES) 0); lia.
      * exists chan'. split; [exact Hrun|].
        rewrite Hpool'. subst chan1 pool1.
        cbn [desc_pool set_desc_pool pool_used rev].
        rewrite map_app, map_last_phys by reflexivity.
        cbn [map]. rewrite <- !app_assoc. reflexivity.
Qed.

(** The [for_each_sg] loop with too few free blocks for the entries still
    to visit. *)
Lemma sg_outer_loop_fail (sgl rest : list scatterlist) :
  forall (d : dma_transfer_direction) (chan : mmp_pdma_chan)
         (tx : list mmp_pdma_desc_sw) (s0 : scatterlist)
         (tl : list scatterlist),
    sgl = s0 :: tl -> slave_dir_ok d -> 0 <= sg_dma_len s0 ->
    Z.of_nat (length (pool_free (desc_pool chan)))
      < Z.of_nat (length rest) * sg_chunks (sg_dma_len s0) ->
    exists chan',
      sg_outer_loop SUPPORT_64BIT sgl rest d chan tx = (None, chan')
      /\ desc_pool chan'
         = free_all {| pool_free := [];
                       pool_used := rev (pool_free (desc_pool chan))
                                    ++ pool_used (desc_pool chan) |}
             (map desc_phys tx ++ pool_free (desc_pool chan)).
Proof.
  induction rest as [|sg rest IH]; intros d chan tx s0 tl Hsgl Hdir Hav Hn.
  - cbn in Hn. lia.
  - cbn [sg_outer_loop]. rewrite Hsgl. rewrite <- Hsgl.
    pose proof (sg_chunks_pos (sg_dma_len s0)) as Hk.
    destruct (Z.lt_ge_cases (Z.of_nat (length (pool_free (desc_pool chan))))
                (sg_chunks (sg_dma_len s0))) as [Hfew|Henough].
    + destruct (sg_inner_loop_fail (pool_free (desc_pool chan))
                  (S (Z.to_nat (sg_dma_len s0))) d chan tx (sg_dma_address sg)
                  (sg_dma_len s0)) as (chan' & Hrun & Hpool');
        [assumption|assumption|lia|reflexivity|assumption|].
      rewrite Hrun. exists chan'. split; [reflexivity|exact Hpool'].
    + destruct (pool_split (pool_free (desc_pool chan))
                  (sg_chunks (sg_dma_len s0))) as (addrs & more & Hsplit & Hlen);
        [lia|].
      destruct (sg_inner_loop_ok addrs (S (Z.to_nat (sg_dma_len s0))) d chan tx
                  (sg_dma_address sg) (sg_dma_len s0) more)
        as (tx' & chan1 & Hrun & Hphys & Hpool1);
        [assumption|assumption|lia|assumption|assumption|].
      rewrite Hrun.
      destruct (IH d chan1 tx' s0 tl Hsgl Hdir Hav) as (chan' & Hrun' & Hpool').
      * rewrite Hpool1. cbn [pool_free].
        rewrite Hsplit, length_app in Hn. cbn [length] in Hn. nia.
      * exists chan'. split; [exact Hrun'|].
        rewrite Hpool', Hpool1, Hphys, Hsplit. cbn [pool_free pool_used].
        rewrite rev_app_distr, <- !app_assoc. reflexivity.
Qed.

End SgLemmas.

Lemma unwound_pool_restored (p p' : dma_pool) :
  NoDup (pool_free p ++ pool_used p) ->
  p' = free_all {| pool_free := [];
                   pool_used := rev (pool_free p) ++ pool_used p |}
         (map desc_phys [] ++ pool_free p) ->
  pool_restored p p'.
Proof.
  intros Hnd ->. cbn [map app]. rewrite free_all_restores by exact Hnd.
  split; [reflexivity|]. cbn [pool_free]. rewrite app_nil_r.
  symmetry. apply Permutation_rev.
Qed.

Section UnwindTheorem.

Variable SUPPORT_64BIT : bool.

(** C9.  When the pool runs out of descriptors while a chain is being
    built, each of the three builders returns a null chain and every
    descriptor it had allocated for that chain is back in the pool. *)
Theorem builders_unwind_on_exhaustion :
  (forall (pdev : mmp_pdma_device) (chan : mmp_pdma_chan)
          (dst src len flags : Z),
      0 < len < 2 ^ 64 -> memcpy_dir_ok (dir chan) ->
      (dir chan = DMA_MEM_TO_MEM ->
       get_max_burst_setting (max_burst_size pdev) <> INVALID_BURST_SETTING) ->
      NoDup (pool_free (desc_pool chan) ++ pool_used (desc_pool chan)) ->
      Z.of_nat (length (pool_free (desc_pool chan))) < chunks len ->
      exists chan',
        mmp_pdma_prep_memcpy SUPPORT_64BIT pdev chan dst src len flags
          = Done (None, chan') /\
        pool_restored (desc_pool chan) (desc_pool chan')) /\
  (forall (chan : mmp_pdma_chan) (sgl : list scatterlist)
          (d : dma_transfer_direction) (flags : Z),
      slave_dir_ok d ->
      Forall (fun sg => 0 <= sg_dma_len sg) sgl ->
      NoDup (pool_free (desc_pool chan) ++ pool_used (desc_pool chan)) ->
      Z.of_nat (length (pool_free (desc_pool chan))) < sg_desc_count sgl ->
      exists chan',
        mmp_pdma_prep_slave_sg SUPPORT_64BIT chan sgl d flags = (None, chan') /\
        pool_restored (desc_pool chan) (desc_pool chan')) /\
  (forall (chan : mmp_pdma_chan) (buf_addr len period_len flags : Z)
          (direction : dma_transfer_direction),
      0 < len < 2 ^ 64 -> 0 < period_len <= PDMA_MAX_DESC_BYTES ->
      len mod period_len = 0 -> slave_dir_ok direction ->
      NoDup (pool_free (desc_pool chan) ++ pool_used (desc_pool chan)) ->
      Z.of_nat (length (pool_free (desc_pool chan))) < len / period_len ->
      exists chan',
        mmp_pdma_prep_dma_cyclic SUPPORT_64BIT chan buf_addr len period_len
          direction flags = (None, chan') /\
        pool_restored (desc_pool chan) (desc_pool chan')).
Proof.
  split; [|split].
  - intros pdev chan dst src len flags Hlen Hdir Hburst Hnd Hfew.
    unfold mmp_pdma_prep_memcpy.
    destruct (Z.eqb_spec len 0) as [E|_]; [lia|].
    assert (Hsetup : exists chan1,
              memcpy_setup pdev (set_byte_align false chan) = Done chan1 /\
              dir chan1 = dir chan /\ desc_pool chan1 = desc_pool chan).
    { unfold memcpy_setup. cbn [dir set_byte_align].
      destruct (dir chan) eqn:E; try (eexists; split; [reflexivity|];
        cbn; rewrite ?E; split; reflexivity).
      destruct (Z.eqb_spec (get_max_burst_setting (max_burst_size pdev))
                  INVALID_BURST_SETTING) as [Hb|Hb].
      - exfalso. apply Hburst; [reflexivity|exact Hb].
      - eexists. split; [reflexivity|]. split; reflexivity. }
    destruct Hsetup as (chan1 & -> & Hd1 & Hp1).
    destruct (memcpy_loop_fail SUPPORT_64BIT (pool_free (desc_pool chan))
                (Z.to_nat len) chan1 [] dst src len)
      as (chan' & Hrun & Hpool').
    { rewrite Hd1. exact Hdir. } { lia. } { lia. }
    { rewrite Hp1. reflexivity. } { exact Hfew. }
    rewrite Hrun. exists chan'. split; [reflexivity|].
    apply unwound_pool_restored; [exact Hnd|].
    rewrite Hpool', Hp1. reflexivity.
  - intros chan sgl d flags Hdir Hlens Hnd Hfew.
    unfold mmp_pdma_prep_slave_sg.
    destruct sgl as [|s0 tl]; [cbn in Hfew; lia|].
    destruct (config_write_slave (set_byte_align true chan)
                (slave_config (set_byte_align true chan)) d Hdir)
      as (_ & _ & Hp1).
    set (chan1 := mmp_pdma_config_write _ _ d) in *.
    cbn [desc_pool set_byte_align] in Hp1.
    destruct (sg_outer_loop_fail SUPPORT_64BIT (s0 :: tl) (s0 :: tl) d chan1 []
                s0 tl) as (chan' & Hrun & Hpool').
    { reflexivity. } { exact Hdir. }
    { apply Forall_cons in Hlens as [H0 _]. exact H0. }
    { rewrite Hp1. exact Hfew. }
    rewrite Hrun. exists chan'. split; [reflexivity|].
    apply unwound_pool_restored; [exact Hnd|].
    rewrite Hpool', Hp1. reflexivity.
  - intros chan buf_addr len period_len flags direction Hlen Hp Hdiv Hdir
      Hnd Hfew.
    unfold mmp_pdma_prep_dma_cyclic.
    destruct (Z.eqb_spec len 0) as [E|_]; [lia|].
    destruct (Z.eqb_spec period_len 0) as [E|_]; [lia|].
    cbn [orb]. unfold nonzero. rewrite Hdiv. cbn [Z.eqb negb].
    destruct (Z.gtb_spec period_len PDMA_MAX_DESC_BYTES) as [Hgt|_]; [lia|].
    destruct (config_write_slave chan (slave_config chan) direction Hdir)
      as (_ & _ & Hp1).
    set (chan1 := mmp_pdma_config_write chan (slave_config chan) direction) in *.
    assert (Hstart : exists s t sh th,
      match direction with
      | DMA_MEM_TO_DEV =>
          Some (Z.land buf_addr 4294967295, dev_addr chan1,
                Z.shiftr buf_addr 32, 0)
      | DMA_DEV_TO_MEM =>
          Some (dev_addr chan1, Z.land buf_addr 4294967295, 0,
                Z.shiftr buf_addr 32)
      | _ => None
      end = Some (s, t, sh, th)).
    { destruct Hdir as [-> | ->]; do 4 eexists; reflexivity. }
    destruct Hstart as (s & t & sh & th & ->).
    destruct (cyclic_loop_fail SUPPORT_64BIT (pool_free (desc_pool chan))
                (Z.to_nat len) (set_dir direction chan1) [] s t sh th len
                period_len) as (chan' & Hrun & Hpool').
    { lia. } { lia. } { lia. }
    { cbn [desc_pool set_dir]. rewrite Hp1. reflexivity. }
    { pose proof (Z.div_mod len period_len). nia. }
    rewrite Hrun. exists chan'. split; [reflexivity|].
    apply unwound_pool_restored; [exact Hnd|].
    rewrite Hpool'. cbn [desc_pool set_dir]. rewrite Hp1. reflexivity.
Qed.

End UnwindTheorem.

Lemma sample_pool_nodup :
  NoDup (pool_free (desc_pool sample_chan) ++ pool_used (desc_pool sample_chan)).
Proof. exact (proj1 sample_pool_ok). Qed.

Lemma builders_unwind_on_exhaustion_witness :
  (exists chan',
     mmp_pdma_prep_memcpy true sample_pdev sample_chan 0x900000 0x800000 40000 0
       = Done (None, chan') /\
     pool_restored (desc_pool sample_chan) (desc_pool chan')) /\
  (exists chan',
     mmp_pdma_prep_slave_sg true sample_chan
       (replicate 5 {| sg_dma_address := 0x8000; sg_dma_len := 100 |})
       DMA_MEM_TO_DEV 0 = (None, chan') /\
     pool_restored (desc_pool sample_chan) (desc_pool chan')) /\
  (exists chan',
     mmp_pdma_prep_dma_cyclic true sample_chan 0x8000 5120 1024
       DMA_DEV_TO_MEM 0 = (None, chan') /\
     pool_restored (desc_pool sample_chan) (desc_pool chan')).
Proof.
  split; [|split].
  - apply (proj1 (builders_unwind_on_exhaustion true)).
    + lia.
    + left. reflexivity.
    + intros _. vm_compute. discriminate.
    + exact sample_pool_nodup.
    + vm_compute. reflexivity.
  - apply (proj1 (proj2 (builders_unwind_on_exhaustion true))).
    + left. reflexivity.
    + repeat constructor; cbn; lia.
    + exact sample_pool_nodup.
    + vm_compute. reflexivity.
  - apply (proj2 (proj2 (builders_unwind_on_exhaustion true))).
    + lia.
    + unfold PDMA_MAX_DESC_BYTES, DCMD_LENGTH. lia.
    + reflexivity.
    + right. reflexivity.
    + exact sample_pool_nodup.
    + vm_compute. reflexivity.
Defined.

(** ** Scatter-gather: the length read for every segment *)

(** C3.  On the segments (0x8000, 100) and (0x9000, 200) the
    scatter-gather builder produces two descriptors of 100 bytes each: the
    inner loop takes [avail] from [sg_dma_len(sgl)], the first entry, for
    every entry, so the second segment is cut to the length of the first
    and the descriptor lengths sum to 200 instead of 300. *)
Theorem prep_slave_sg_reads_first_length :
  match mmp_pdma_prep_slave_sg true sample_chan two_segments DMA_MEM_TO_DEV 0
  with
  | (Some tx_list, _) =>
      map desc_len tx_list = [100; 100] /\
      map (fun d => dsadr (desc d)) tx_list = [0x8000; 0x9000] /\
      sum_len tx_list = 200 /\
      fold_right Z.add 0 (map sg_dma_len two_segments) = 300 /\
      map end_of_chain_irq tx_list = [false; true]
  | _ => False
  end.
Proof. vm_compute. repeat split; reflexivity. Qed.

(** With the longer segment first, the descriptor of the second segment
    runs 100 bytes past its end. *)
Example prep_slave_sg_overruns_second :
  match mmp_pdma_prep_slave_sg true sample_chan two_segments_long_first
          DMA_MEM_TO_DEV 0 with
  | (Some tx_list, _) =>
      map (fun d => (dsadr (desc d), desc_len d)) tx_list
      = [(0x8000, 200); (0x9000, 200)]
  | _ => False
  end.
Proof. vm_compute. reflexivity. Qed.

(** An empty segment list is refused. *)
Lemma prep_slave_sg_empty (b64 : bool) (chan : mmp_pdma_chan)
    (d : dma_transfer_direction) (flags : Z) :
  mmp_pdma_prep_slave_sg b64 chan [] d flags = (None, chan).
Proof. reflexivity. Qed.

(** ** The per-channel interrupt handler *)

(** When the status bit of the channel is clear the handler reports the
    interrupt as not handled and changes nothing. *)
Lemma chan_handler_not_pending (pdev : mmp_pdma_device) (idx : nat)
    (scheduled : list nat) :
  Z.land (readl (regs pdev) DINT) (BIT (Z.of_nat idx)) = 0 ->
  mmp_pdma_chan_handler pdev idx scheduled = (IRQ_NONE, pdev, scheduled).
Proof.
  intros H. unfold mmp_pdma_chan_handler, clear_chan_irq. rewrite H.
  reflexivity.
Qed.

(** With a bound logical channel and the status bit set the handler
    schedules the tasklet of that channel (twice) and reports the interrupt
    as handled. *)
Lemma chan_handler_bound (pdev : mmp_pdma_device) (idx cid : nat)
    (scheduled : list nat) :
  pdev_phy pdev !! idx = Some (Some cid) ->
  Z.land (readl (regs pdev) DINT) (BIT (Z.of_nat idx)) <> 0 ->
  exists pdev',
    mmp_pdma_chan_handler pdev idx scheduled
    = (IRQ_HANDLED, pdev', (scheduled ++ [cid]) ++ [cid]).
Proof.
  intros Hb H. unfold mmp_pdma_chan_handler, clear_chan_irq, nonzero.
  destruct (Z.eqb_spec (Z.land (readl (regs pdev) DINT) (BIT (Z.of_nat idx))) 0)
    as [E|_]; [contradiction|].
  cbn [negb Z.eqb pdev_phy set_regs]. rewrite Hb. cbn. eexists. reflexivity.
Qed.

(** C10.  A completion interrupt for physical channel 3 while no logical
    channel is bound to it: after the guarded [tasklet_schedule] the
    handler calls [tasklet_schedule(&phy->vchan->tasklet)] once more without
    a guard, through the null [phy->vchan]. *)
Theorem chan_handler_unbound_oops :
  pdev_phy irq_pdev !! 3%nat = Some None /\
  fst (fst (mmp_pdma_chan_handler irq_pdev 3 [])) = IRQ_OOPS.
Proof. vm_compute. split; reflexivity. Qed.

(** ** Completion tokens and callback order *)

(** Submit numbers the descriptors of a chain consecutively, in chain
    order, starting after the last token of the channel. *)
Lemma assign_cookies_consecutive (tx_list : list mmp_pdma_desc_sw) :
  forall (chan : mmp_pdma_chan) (c0 : Z),
    let '(c, chan', l) := assign_cookies chan c0 tx_list in
    map (fun d => cookie (async_tx d)) l
    = map (fun i => chan_cookie chan + 1 + Z.of_nat i) (seq 0 (length tx_list))
    /\ chan_cookie chan' = chan_cookie chan + Z.of_nat (length tx_list)
    /\ c = match tx_list with [] => c0 | _ :: _ => chan_cookie chan' end.
Proof.
  induction tx_list as [|d rest IH]; intros chan c0.
  - cbn. split; [reflexivity|]. split; [lia|reflexivity].
  - cbn [assign_cookies dma_cookie_assign].
    specialize (IH (set_chan_cookie (chan_cookie chan + 1) chan)
                  (chan_cookie chan + 1)).
    destruct (assign_cookies _ _ rest) as [[c chan'] l].
    destruct IH as (Hmap & Hc & Hlast).
    cbn [chan_cookie set_chan_cookie] in Hmap, Hc.
    split; [|split].
    + cbn [map seq length with_tx async_tx cookie set_cookie].
      f_equal; [lia|]. rewrite Hmap, <- seq_shift, map_map.
      apply map_ext. intros i. lia.
    + rewrite Hc. cbn [length]. lia.
    + destruct rest as [|d' rest'].
      * cbn [length] in Hc. rewrite Hlast, Hc. lia.
      * exact Hlast.
Qed.

Lemma move_to_cleanup_reverses (running : list mmp_pdma_desc_sw) :
  forall cleanup completed,
    snd (fst (move_to_cleanup running cleanup completed))
    = rev (take_through_irq running) ++ cleanup.
Proof.
  induction running as [|d rest IH]; intros cleanup completed; [reflexivity|].
  cbn [move_to_cleanup take_through_irq].
  destruct (end_of_chain_irq d); [reflexivity|].
  rewrite IH. cbn [rev]. rewrite <- app_assoc. reflexivity.
Qed.

Lemma run_cleanup_log (cleanup : list mmp_pdma_desc_sw) :
  forall chan log,
    snd (run_cleanup chan cleanup log) = log ++ callbacks_of cleanup.
Proof.
  induction cleanup as [|d rest IH]; intros chan log.
  - cbn. rewrite app_nil_r. reflexivity.
  - cbn [run_cleanup callbacks_of]. rewrite IH.
    destruct (callback (async_tx d)); [|reflexivity].
    rewrite <- app_assoc. reflexivity.
Qed.

(** One run of the tasklet on a non-cyclic channel runs the callbacks of
    the descriptors it retires in the reverse of their order on the running
    list. *)
Lemma tasklet_callback_order (b64 : bool) (pdev : mmp_pdma_device)
    (chan : mmp_pdma_chan) :
  status chan <> DMA_COMPLETE -> cyclic_first chan = None ->
  snd (dma_do_tasklet b64 pdev chan)
  = callbacks_of (rev (take_through_irq (chain_running chan))).
Proof.
  intros Hs Hc. unfold dma_do_tasklet.
  assert (Hsb : status_eqb (status chan) DMA_COMPLETE = false)
    by (destruct (status chan); try reflexivity; contradiction).
  rewrite Hsb, Hc.
  set (chan0 := match first_irq_cookie (chain_running chan) with
                | Some c => set_bytes_residue (mmp_pdma_residue pdev chan c) chan
                | None => chan
                end).
  assert (F3 : chain_running chan0 = chain_running chan)
    by (subst chan0; destruct (first_irq_cookie _); reflexivity).
  rewrite F3.
  pose proof (move_to_cleanup_reverses (chain_running chan) [] None) as Hm.
  destruct (move_to_cleanup (chain_running chan) [] None)
    as [[running cleanup] completed].
  cbn [fst snd] in Hm. rewrite app_nil_r in Hm.
  destruct (start_pending_queue b64 pdev _) as [[ret pdev'] chan'].
  pose proof (run_cleanup_log cleanup
                (if nonzero ret then mmp_pdma_qos_put chan' else chan') [])
    as Hl.
  destruct (run_cleanup _ cleanup []) as [chan5 log].
  cbn [fst snd] in *. rewrite Hl, Hm. reflexivity.
Qed.

(** Within one run the cleanup loop walks the retired descriptors newest
    first, because [list_move] puts each retired descriptor at the head of
    the cleanup list.  On a running list made by hand, with a callback on
    each of the two descriptors of one transfer (which no client can
    submit, a builder returning the first descriptor only), the callback
    of token 3 runs before the callback of token 2. *)
Theorem tasklet_runs_callbacks_in_reverse :
  map (fun d => cookie (async_tx d)) (chain_running busy_chan) = [2; 3] /\
  snd (dma_do_tasklet true busy_pdev busy_chan) = [(1%nat, 3); (0%nat, 2)].
Proof. vm_compute. split; reflexivity. Qed.

(** ** The physical channel registry *)

Lemma lookup_phy_in_band_find (pdev : mmp_pdma_device) (prio : Z)
    (idxs : list nat) :
  lookup_phy_in_band pdev prio idxs = List.find (eligible pdev prio) idxs.
Proof.
  induction idxs as [|i rest IH]; [reflexivity|].
  cbn [lookup_phy_in_band List.find]. unfold eligible at 1.
  destruct (prio =? prio_of (Z.of_nat i)); cbn [negb andb]; [|exact IH].
  destruct (is_channel_reserved pdev (Z.of_nat i)); cbn [negb andb]; [exact IH|].
  destruct (pdev_phy pdev !! i) as [[c|]|]; try exact IH. reflexivity.
Qed.

Lemma find_seq_first (f : nat -> bool) (n i : nat) :
  List.find f (seq 0 n) = Some i ->
  (i < n)%nat /\ f i = true /\ forall j, (j < i)%nat -> f j = false.
Proof.
  assert (Hgen : forall k,
    List.find f (seq k n) = Some i ->
    (k <= i < k + n)%nat /\ f i = true /\
    forall j, (k <= j < i)%nat -> f j = false).
  { induction n as [|n IH]; intros k H; [discriminate|].
    cbn [seq List.find] in H. destruct (f k) eqn:Ef.
    - injection H as <-. split; [lia|]. split; [exact Ef|]. intros j Hj. lia.
    - apply IH in H as (Hr & Hi & Hlt). split; [lia|]. split; [exact Hi|].
      intros j Hj. destruct (Nat.eq_dec j k) as [->|Hne]; [exact Ef|].
      apply Hlt. lia. }
  intros H. apply Hgen in H as (Hr & Hi & Hlt).
  split; [lia|]. split; [exact Hi|]. intros j Hj. apply Hlt. lia.
Qed.

Lemma find_seq_none (f : nat -> bool) (n : nat) :
  List.find f (seq 0 n) = None -> forall j, (j < n)%nat -> f j = false.
Proof.
  intros H j Hj. apply (find_none f (seq 0 n) H). apply in_seq. lia.
Qed.

(** The outer loop: the first priority with an eligible channel, and in
    it the lowest eligible index. *)
Lemma lookup_phy_bands_some (pdev : mmp_pdma_device) (nprio : nat) (i : nat) :
  lookup_phy_bands pdev (seq 0 nprio) = Some i ->
  exists p : nat,
    (p < nprio)%nat /\ (i < Z.to_nat (dma_channels pdev))%nat /\
    eligible pdev (Z.of_nat p) i = true /\
    (forall j, (j < i)%nat -> eligible pdev (Z.of_nat p) j = false) /\
    (forall q j, (q < p)%nat -> (j < Z.to_nat (dma_channels pdev))%nat ->
                 eligible pdev (Z.of_nat q) j = false).
Proof.
  assert (Hgen : forall k,
    lookup_phy_bands pdev (seq k nprio) = Some i ->
    exists p : nat,
      (k <= p < k + nprio)%nat /\ (i < Z.to_nat (dma_channels pdev))%nat /\
      eligible pdev (Z.of_nat p) i = true /\
      (forall j, (j < i)%nat -> eligible pdev (Z.of_nat p) j = false) /\
      (forall q j, (k <= q < p)%nat ->
                   (j < Z.to_nat (dma_channels pdev))%nat ->
                   eligible pdev (Z.of_nat q) j = false)).
  { induction nprio as [|n IH]; intros k H; [discriminate|].
    cbn [seq lookup_phy_bands] in H.
    rewrite lookup_phy_in_band_find in H.
    destruct (List.find (eligible pdev (Z.of_nat k))
                (seq 0 (Z.to_nat (dma_channels pdev)))) as [i'|] eqn:Ef.
    - injection H as <-. apply find_seq_first in Ef as (Hi & He & Hlt).
      exists k. split; [lia|]. split; [exact Hi|]. split; [exact He|].
      split; [exact Hlt|]. intros q j Hq. lia.
    - apply IH in H as (p & Hp & Hi & He & Hlt & Hprev).
      exists p. split; [lia|]. split; [exact Hi|]. split; [exact He|].
      split; [exact Hlt|]. intros q j Hq Hj.
      destruct (Nat.eq_dec q k) as [->|Hne].
      + apply (find_seq_none _ _ Ef). exact Hj.
      + apply Hprev; [lia|exact Hj]. }
  intros H. apply Hgen in H as (p & Hp & Hrest).
  exists p. split; [lia|]. destruct Hrest as (Hi & He & Hlt & Hprev).
  split; [exact Hi|]. split; [exact He|]. split; [exact Hlt|].
  intros q j Hq. apply Hprev. lia.
Qed.

Lemma lookup_phy_bands_none (pdev : mmp_pdma_device) (nprio : nat) :
  lookup_phy_bands pdev (seq 0 nprio) = None ->
  forall q j, (q < nprio)%nat -> (j < Z.to_nat (dma_channels pdev))%nat ->
              eligible pdev (Z.of_nat q) j = false.
Proof.
  assert (Hgen : forall k,
    lookup_phy_bands pdev (seq k nprio) = None ->
    forall q j, (k <= q < k + nprio)%nat ->
                (j < Z.to_nat (dma_channels pdev))%nat ->
                eligible pdev (Z.of_nat q) j = false).
  { induction nprio as [|n IH]; intros k H q j Hq Hj; [lia|].
    cbn [seq lookup_phy_bands] in H.
    rewrite lookup_phy_in_band_find in H.
    destruct (List.find (eligible pdev (Z.of_nat k))
                (seq 0 (Z.to_nat (dma_channels pdev)))) as [i'|] eqn:Ef;
      [discriminate|].
    destruct (Nat.eq_dec q k) as [->|Hne].
    - apply (find_seq_none _ _ Ef). exact Hj.
    - apply (IH (S k) H); [lia|exact Hj]. }
  intros H q j Hq. apply (Hgen 0%nat H). lia.
Qed.

Lemma eligible_true (pdev : mmp_pdma_device) (prio : Z) (j : nat) :
  eligible pdev prio j = true <->
  prio = prio_of (Z.of_nat j) /\
  is_channel_reserved pdev (Z.of_nat j) = false /\ phy_unbound pdev j.
Proof.
  unfold eligible, phy_unbound. rewrite !andb_true_iff, negb_true_iff, Z.eqb_eq.
  destruct (pdev_phy pdev !! j) as [[c|]|]; intuition congruence.
Qed.

Lemma prio_of_range (j : Z) : 0 <= prio_of j <= 3.
Proof.
  unfold prio_of. change 0xf with (Z.ones 4).
  rewrite Z.land_ones by lia. rewrite Z.shiftr_div_pow2 by lia.
  pose proof (Z.mod_pos_bound j (2 ^ 4)).
  change (2 ^ 4) with 16 in *. change (2 ^ 2) with 4.
  split; [apply Z.div_pos; lia|].
  apply Z.lt_succ_r. apply Z.div_lt_upper_bound; lia.
Qed.

(** With at most 16 physical channels the loop bound covers the
    priority of every channel. *)
Lemma last_prio_covers (pdev : mmp_pdma_device) (j : nat) :
  dma_channels pdev <= 16 -> Z.of_nat j < dma_channels pdev ->
  prio_of (Z.of_nat j) <= last_prio pdev.
Proof.
  intros H16 Hj. unfold prio_of, last_prio. change 0xf with (Z.ones 4).
  rewrite !Z.land_ones by lia. rewrite !Z.shiftr_div_pow2 by lia.
  change (2 ^ 4) with 16. change (2 ^ 2) with 4.
  rewrite !Z.mod_small by lia. apply Z.div_le_mono; lia.
Qed.

(** The search as it is coded.  A request line with a reservation entry
    for a channel of the array is given exactly the reserved physical
    channel, and only if that channel is unbound.  A request line without
    one is given the first unbound, non-reserved channel in the order
    "priority [(i & 0xf) >> 2] ascending, then index ascending" among the
    priorities 0 to [((dma_channels - 1) & 0xf) >> 2] that the loop visits;
    it is given nothing when no such channel exists.  With at most 16
    physical channels the visited priorities are those of all channels. *)
Theorem lookup_phy_priority_search (pdev : mmp_pdma_device)
    (pchan : mmp_pdma_chan) :
  (forall idx : Z,
      lookup_phy_for_drcmr pdev (drcmr pchan) = Some idx ->
      0 <= idx < Z.of_nat (length (pdev_phy pdev)) ->
      (phy_vchan pdev idx = Some None ->
       lookup_phy pdev pchan
       = (Some (Z.to_nat idx), bind_phy pdev (Z.to_nat idx) (chan_id pchan))) /\
      (phy_vchan pdev idx <> Some None ->
       lookup_phy pdev pchan = (None, pdev))) /\
  (lookup_phy_for_drcmr pdev (drcmr pchan) = None ->
   match lookup_phy pdev pchan with
   | (Some i, pdev') =>
       Z.of_nat i < dma_channels pdev /\ phy_unbound pdev i /\
       is_channel_reserved pdev (Z.of_nat i) = false /\
       prio_of (Z.of_nat i) <= last_prio pdev /\
       pdev' = bind_phy pdev i (chan_id pchan) /\
       forall j : nat,
         Z.of_nat j < dma_channels pdev -> phy_unbound pdev j ->
         is_channel_reserved pdev (Z.of_nat j) = false ->
         prio_of (Z.of_nat j) <= last_prio pdev ->
         prio_of (Z.of_nat i) < prio_of (Z.of_nat j) \/
         (prio_of (Z.of_nat i) = prio_of (Z.of_nat j) /\ (i <= j)%nat)
   | (None, pdev') =>
       pdev' = pdev /\
       forall j : nat,
         Z.of_nat j < dma_channels pdev ->
         prio_of (Z.of_nat j) <= last_prio pdev ->
         ~ (phy_unbound pdev j /\
            is_channel_reserved pdev (Z.of_nat j) = false)
   end) /\
  (dma_channels pdev <= 16 ->
   forall j : nat, Z.of_nat j < dma_channels pdev ->
                   prio_of (Z.of_nat j) <= last_prio pdev).
Proof.
  split; [|split].
  - intros idx Hres _. unfold lookup_phy. rewrite Hres. split.
    + intros ->. reflexivity.
    + intros Hne. destruct (phy_vchan pdev idx) as [[c|]|]; try reflexivity.
      contradiction.
  - intros Hres. unfold lookup_phy. rewrite Hres.
    pose proof (prio_of_range (dma_channels pdev - 1)) as Hlast.
    fold (last_prio pdev) in Hlast.
    destruct (lookup_phy_bands pdev (seq 0 (Z.to_nat (last_prio pdev + 1))))
      as [i|] eqn:Hb.
    + apply lookup_phy_bands_some in Hb
        as (p & Hp & Hi & He & Hlt & Hprev).
      apply eligible_true in He as (Hprio & Hnr & Hfree).
      split; [lia|]. split; [exact Hfree|]. split; [exact Hnr|].
      split; [lia|]. split; [reflexivity|].
      intros j Hj Hjfree Hjnr Hjprio.
      pose proof (prio_of_range (Z.of_nat j)) as Hjr.
      assert (Hje : eligible pdev (Z.of_nat (Z.to_nat (prio_of (Z.of_nat j)))) j
                    = true).
      { apply eligible_true. split; [lia|]. split; assumption. }
      destruct (Z.lt_trichotomy (prio_of (Z.of_nat i)) (prio_of (Z.of_nat j)))
        as [Hlt'|[Heq|Hgt]].
      * left. exact Hlt'.
      * right. split; [exact Heq|].
        destruct (Nat.le_gt_cases i j) as [|Hji]; [assumption|].
        exfalso. specialize (Hlt j Hji).
        replace (Z.of_nat p) with (Z.of_nat (Z.to_nat (prio_of (Z.of_nat j))))
          in Hlt by lia.
        congruence.
      * exfalso.
        assert (Hq : (Z.to_nat (prio_of (Z.of_nat j)) < p)%nat) by lia.
        specialize (Hprev _ j Hq ltac:(lia)). congruence.
    + split; [reflexivity|].
      intros j Hj Hjprio [Hjfree Hjnr].
      pose proof (prio_of_range (Z.of_nat j)) as Hjr.
      pose proof (lookup_phy_bands_none pdev _ Hb
                    (Z.to_nat (prio_of (Z.of_nat j))) j
                    ltac:(lia) ltac:(lia)) as Hne.
      assert (Hje : eligible pdev (Z.of_nat (Z.to_nat (prio_of (Z.of_nat j)))) j
                    = true).
      { apply eligible_true. split; [lia|]. split; assumption. }
      congruence.
  - intros H16 j Hj. apply last_prio_covers; assumption.
Qed.

(** C4.  With 20 physical channels the outer loop of [lookup_phy] stops
    at priority [((20 - 1) & 0xf) >> 2 = 0] and visits channels 0-3 and
    16-19 only, although the table in the function's own comment gives
    channels 4-7 priority 1, 8-11 priority 2 and 12-15 priority 3.  With
    the channels of priority 0 bound, a request without a reservation is
    given nothing and the registry is left as it was, while channel 4 (like
    every channel from 4 to 15) exists, is unbound and is not reserved. *)
Theorem lookup_phy_misses_free_channels :
  lookup_phy_for_drcmr pdev20 (drcmr sample_chan) = None /\
  last_prio pdev20 = 0 /\
  lookup_phy pdev20 sample_chan = (None, pdev20) /\
  Z.of_nat 4 < dma_channels pdev20 /\
  pdev_phy pdev20 !! 4%nat = Some None /\
  is_channel_reserved pdev20 4 = false /\
  prio_of 4 = 1 /\
  List.filter (fun j => match pdev_phy pdev20 !! j with
                        | Some None => true
                        | _ => false
                        end) (seq 0 20)
  = seq 4 12.
Proof. vm_compute. repeat split; reflexivity. Qed.

(** Hence the free search does not find a channel whenever one is unbound
    and not reserved. *)
Lemma lookup_phy_skips_free_channel :
  ~ free_search_finds_any pdev20 sample_chan.
Proof.
  intros H. apply (H eq_refl 4%nat); vm_compute; reflexivity.
Qed.

Lemma lookup_phy_priority_search_witness :
  lookup_phy reserved_pdev sample_chan
    = (Some 15%nat, bind_phy reserved_pdev 15 (chan_id sample_chan)) /\
  match lookup_phy sample_pdev sample_chan with
  | (Some i, pdev') =>
      Z.of_nat i < dma_channels sample_pdev /\ phy_unbound sample_pdev i /\
      is_channel_reserved sample_pdev (Z.of_nat i) = false /\
      prio_of (Z.of_nat i) <= last_prio sample_pdev /\
      pdev' = bind_phy sample_pdev i (chan_id sample_chan) /\
      forall j : nat,
        Z.of_nat j < dma_channels sample_pdev -> phy_unbound sample_pdev j ->
        is_channel_reserved sample_pdev (Z.of_nat j) = false ->
        prio_of (Z.of_nat j) <= last_prio sample_pdev ->
        prio_of (Z.of_nat i) < prio_of (Z.of_nat j) \/
        (prio_of (Z.of_nat i) = prio_of (Z.of_nat j) /\ (i <= j)%nat)
  | (None, pdev') =>
      pdev' = sample_pdev /\
      forall j : nat,
        Z.of_nat j < dma_channels sample_pdev ->
        prio_of (Z.of_nat j) <= last_prio sample_pdev ->
        ~ (phy_unbound sample_pdev j /\
           is_channel_reserved sample_pdev (Z.of_nat j) = false)
  end /\
  prio_of (Z.of_nat 7) <= last_prio sample_pdev.
Proof.
  split; [|split].
  - assert (Hin : 0 <= 15 < Z.of_nat (length (pdev_phy reserved_pdev)))
      by (vm_compute; split; [discriminate|reflexivity]).
    apply (proj1 (proj1 (lookup_phy_priority_search reserved_pdev sample_chan)
                    15 eq_refl Hin)).
    reflexivity.
  - apply (proj1 (proj2 (lookup_phy_priority_search sample_pdev sample_chan))).
    reflexivity.
  - apply (proj2 (proj2 (lookup_phy_priority_search sample_pdev sample_chan))).
    + vm_compute. discriminate.
    + vm_compute. reflexivity.
Defined.

(** ** The residue calculator *)

Lemma u32_idem (x : Z) : u32 (u32 x) = u32 x.
Proof. unfold u32. apply Z.mod_mod. lia. Qed.

Lemma u32_add_l (x y : Z) : u32 (u32 x + y) = u32 (x + y).
Proof. unfold u32. apply Zplus_mod_idemp_l. Qed.

Lemma sum_len_app (l1 l2 : list mmp_pdma_desc_sw) :
  sum_len (l1 ++ l2) = sum_len l1 + sum_len l2.
Proof.
  induction l1 as [|a l1 IH]; cbn; [reflexivity|].
  fold (sum_len (l1 ++ l2)). fold (sum_len l1). rewrite IH. lia.
Qed.

Lemma bytes_left_not_passed (d : dma_transfer_direction) (curr : Z)
    (l : list mmp_pdma_desc_sw) :
  passed_in d curr l = false -> bytes_left d curr l = 0.
Proof.
  induction l as [|a l IH]; cbn; [reflexivity|].
  destruct (in_span d curr a); cbn; [discriminate|exact IH].
Qed.

Lemma bytes_left_snoc (d : dma_transfer_direction) (curr : Z)
    (l : list mmp_pdma_desc_sw) (sw : mmp_pdma_desc_sw) :
  bytes_left d curr (l ++ [sw])
  = if passed_in d curr l then u32 (bytes_left d curr l + desc_len sw)
    else if in_span d curr sw then u32 (span_end d sw - curr)
    else 0.
Proof.
  induction l as [|a l IH].
  - cbn. destruct (in_span d curr sw); [|reflexivity].
    f_equal. lia.
  - cbn [app bytes_left passed_in existsb].
    destruct (in_span d curr a); cbn [orb].
    + rewrite sum_len_app, u32_add_l. f_equal. cbn. lia.
    + exact IH.
Qed.

Lemma passed_in_snoc (d : dma_transfer_direction) (curr : Z)
    (l : list mmp_pdma_desc_sw) (sw : mmp_pdma_desc_sw) :
  passed_in d curr (l ++ [sw]) = passed_in d curr l || in_span d curr sw.
Proof.
  unfold passed_in. rewrite existsb_app. cbn. rewrite orb_false_r. reflexivity.
Qed.

(** One step of the walk keeps [residue] and [passed] equal to the bytes
    left in, and the "passed" state of, the descriptors seen so far. *)
Lemma residue_walk_step (d : dma_transfer_direction) (curr : Z)
    (acc : list mmp_pdma_desc_sw) (sw : mmp_pdma_desc_sw) :
  (if passed_in d curr acc
   then (u32 (bytes_left d curr acc + desc_len sw), passed_in d curr acc)
   else if in_span d curr sw
        then (u32 (bytes_left d curr acc + u32 (span_end d sw - curr)), true)
        else (bytes_left d curr acc, passed_in d curr acc))
  = (bytes_left d curr (acc ++ [sw]), passed_in d curr (acc ++ [sw])).
Proof.
  rewrite bytes_left_snoc, passed_in_snoc.
  destruct (passed_in d curr acc) eqn:Hp; cbn [orb]; [reflexivity|].
  rewrite (bytes_left_not_passed d curr acc Hp).
  destruct (in_span d curr sw); [|reflexivity].
  rewrite Z.add_0_l, u32_idem. reflexivity.
Qed.

Lemma residue_walk_cyclic (d : dma_transfer_direction) (cookie0 curr : Z)
    (running : list mmp_pdma_desc_sw) :
  forall acc,
    residue_walk d true cookie0 curr running
      (bytes_left d curr acc) (passed_in d curr acc)
    = bytes_left d curr (acc ++ running).
Proof.
  induction running as [|sw rest IH]; intros acc.
  - cbn. rewrite app_nil_r. reflexivity.
  - cbn [residue_walk orb].
    change (match d with
            | DMA_DEV_TO_MEM => dtadr (desc sw)
            | _ => dsadr (desc sw)
            end) with (span_start d sw).
    fold (desc_len sw). fold (span_end d sw). fold (in_span d curr sw).
    rewrite residue_walk_step, IH, <- app_assoc. reflexivity.
Qed.

Lemma residue_walk_transfers (d : dma_transfer_direction) (cookie0 curr : Z)
    (running : list mmp_pdma_desc_sw) :
  forall acc,
    residue_walk d false cookie0 curr running
      (bytes_left d curr acc) (passed_in d curr acc)
    = residue_by_transfer d cookie0 curr running acc.
Proof.
  induction running as [|sw rest IH]; intros acc.
  - reflexivity.
  - cbn [residue_walk residue_by_transfer orb].
    change (match d with
            | DMA_DEV_TO_MEM => dtadr (desc sw)
            | _ => dsadr (desc sw)
            end) with (span_start d sw).
    fold (desc_len sw). fold (span_end d sw). fold (in_span d curr sw).
    rewrite residue_walk_step.
    fold (end_of_chain_irq sw).
    destruct (end_of_chain_irq sw); cbn [negb].
    + destruct (cookie (async_tx sw) =? cookie0); [reflexivity|].
      apply (IH []).
    + apply IH.
Qed.

(** C7.  Without a bound physical channel the residue is the cached
    [bytes_residue].  Otherwise it is computed from the live position
    register of the channel's direction: for a cyclic channel the bytes
    left in the whole running list; else the bytes left in the transfer
    whose closing descriptor carries the queried token, each transfer
    before it being dropped from the count (residue back to 0, "passed"
    back to false). *)
Theorem residue_by_transfers (pdev : mmp_pdma_device) (chan : mmp_pdma_chan)
    (cookie0 : Z) :
  mmp_pdma_residue pdev chan cookie0
  = match phy chan with
    | None => bytes_residue chan
    | Some idx =>
        residue_spec (dir chan)
          (match cyclic_first chan with Some _ => true | None => false end)
          cookie0
          (readl (regs pdev) (position_register (dir chan) idx))
          (chain_running chan)
    end.
Proof.
  unfold mmp_pdma_residue, residue_spec.
  destruct (phy chan) as [idx|]; [|reflexivity].
  assert (Hreg : match dir chan with
                 | DMA_DEV_TO_MEM => readl (regs pdev) (DTADR (Z.of_nat idx))
                 | _ => readl (regs pdev) (DSADR (Z.of_nat idx))
                 end = readl (regs pdev) (position_register (dir chan) idx)).
  { unfold position_register. destruct (dir chan); reflexivity. }
  rewrite Hreg.
  destruct (cyclic_first chan).
  - apply (residue_walk_cyclic (dir chan) cookie0 _ (chain_running chan) []).
  - apply (residue_walk_transfers (dir chan) cookie0 _ (chain_running chan) []).
Qed.

(** ** Submission and queueing *)

Lemma readl_writel_eq (r : gmap Z Z) (v off : Z) :
  readl (writel v off r) off = v.
Proof. unfold readl, writel. rewrite lookup_insert_eq. reflexivity. Qed.

Lemma readl_writel_ne (r : gmap Z Z) (v off off' : Z) :
  off <> off' -> readl (writel v off r) off' = readl r off'.
Proof.
  intros H. unfold readl, writel. rewrite lookup_insert_ne by exact H.
  reflexivity.
Qed.

Lemma DRCMR_range (n : Z) :
  0x100 <= DRCMR n <= 0x1fc \/ 0x1100 <= DRCMR n <= 0x11fc.
Proof.
  unfold DRCMR. change 0x3f with (Z.ones 6). rewrite Z.land_ones by lia.
  rewrite Z.shiftl_mul_pow2 by lia.
  pose proof (Z.mod_pos_bound n (2 ^ 6)). change (2 ^ 6) with 64 in *.
  change (2 ^ 2) with 4. destruct (n <? 64); lia.
Qed.

(** The descriptors [start_pending_queue] moves: a non-empty prefix of the
    pending list that ends at the first descriptor with the stop flag (or
    is the whole list when there is none). *)
Lemma take_pending_prefix (pending : list mmp_pdma_desc_sw) :
  forall moved rest,
    take_pending pending = (moved, rest) ->
    pending = moved ++ rest /\
    (pending <> [] -> moved <> []) /\
    (forall (i : nat) d, moved !! i = Some d -> is_Some (moved !! S i) ->
                         ddadr_stop d = false) /\
    (rest <> [] -> exists d, last moved = Some d /\ ddadr_stop d = true).
Proof.
  induction pending as [|d pending IH]; intros moved rest H.
  - cbn in H. injection H as <- <-. repeat split; try reflexivity.
    + intros Hne. contradiction.
    + intros i d Hd. discriminate.
    + intros Hne. contradiction.
  - cbn [take_pending] in H. destruct (ddadr_stop d) eqn:Hs.
    + injection H as <- <-. split; [reflexivity|]. split; [discriminate|].
      split.
      * intros i x Hx [y Hy]. destruct i; discriminate.
      * intros _. exists d. split; [reflexivity|exact Hs].
    + destruct (take_pending pending) as [m r] eqn:Ht.
      injection H as <- <-.
      destruct (IH m r eq_refl) as (Happ & _ & Hinner & Hlast).
      split; [cbn; rewrite Happ; reflexivity|]. split; [discriminate|].
      split.
      * intros i x Hx Hy. destruct i as [|i].
        -- cbn in Hx. injection Hx as <-. exact Hs.
        -- cbn in Hx, Hy. apply (Hinner i x Hx Hy).
      * intros Hne. destruct (Hlast Hne) as (x & Hx & Hxs).
        exists x. split; [|exact Hxs].
        destruct m as [|m0 m']; [discriminate|].
        rewrite last_cons, Hx. reflexivity.
Qed.

(** What [lookup_phy] returns: a physical channel that was unbound, now
    bound to the requesting channel, or nothing and an unchanged
    registry. *)
Lemma lookup_phy_result (pdev : mmp_pdma_device) (pchan : mmp_pdma_chan) :
  match lookup_phy pdev pchan with
  | (Some i, pdev') =>
      phy_unbound pdev i /\ pdev' = bind_phy pdev i (chan_id pchan)
  | (None, pdev') => pdev' = pdev
  end.
Proof.
  unfold lookup_phy.
  destruct (lookup_phy_for_drcmr pdev (drcmr pchan)) as [idx|].
  - unfold phy_vchan. destruct (idx <? 0); [reflexivity|].
    destruct (pdev_phy pdev !! Z.to_nat idx) as [[c|]|] eqn:E;
      try reflexivity.
    split; [exact E|reflexivity].
  - destruct (lookup_phy_bands pdev (seq 0 (Z.to_nat (last_prio pdev + 1))))
      as [i|] eqn:Hb; [|reflexivity].
    apply lookup_phy_bands_some in Hb as (p & _ & _ & He & _).
    apply eligible_true in He as (_ & _ & Hfree).
    split; [exact Hfree|reflexivity].
Qed.

Section IssuePending.

Variable SUPPORT_64BIT : bool.

Lemma set_desc_readback (pdev : mmp_pdma_device) (idx : nat) (addr : Z) :
  readl (regs (set_desc SUPPORT_64BIT pdev idx addr))
    (Z.shiftl (Z.of_nat idx) 4 + DDADR) = u32 addr /\
  (SUPPORT_64BIT = true ->
   readl (regs (set_desc SUPPORT_64BIT pdev idx addr)) (DDADRH (Z.of_nat idx))
   = u32 (Z.shiftr addr 32)) /\
  pdev_phy (set_desc SUPPORT_64BIT pdev idx addr) = pdev_phy pdev.
Proof.
  unfold set_desc, DDADRH, DDADR. cbn [regs set_regs pdev_phy].
  rewrite land_low_word. destruct SUPPORT_64BIT.
  - split; [|split; [intros _|reflexivity]].
    + rewrite readl_writel_ne by lia. apply readl_writel_eq.
    + apply readl_writel_eq.
  - split; [apply readl_writel_eq|]. split; [discriminate|reflexivity].
Qed.

Lemma enable_chan_phy (pdev : mmp_pdma_device) (p : option nat)
    (chan : mmp_pdma_chan) :
  pdev_phy (enable_chan SUPPORT_64BIT pdev p chan) = pdev_phy pdev.
Proof.
  unfold enable_chan. destruct p as [idx|]; [|reflexivity].
  destruct (mjoin (pdev_phy pdev !! idx)); reflexivity.
Qed.

(** [enable_chan] leaves the descriptor address registers of a physical
    channel below 32 alone and, when the channel is bound, sets the run
    bit. *)
Lemma enable_chan_effect (pdev : mmp_pdma_device) (idx : nat)
    (chan : mmp_pdma_chan) :
  (idx < 32)%nat ->
  readl (regs (enable_chan SUPPORT_64BIT pdev (Some idx) chan))
    (Z.shiftl (Z.of_nat idx) 4 + DDADR)
  = readl (regs pdev) (Z.shiftl (Z.of_nat idx) 4 + DDADR) /\
  readl (regs (enable_chan SUPPORT_64BIT pdev (Some idx) chan))
    (DDADRH (Z.of_nat idx))
  = readl (regs pdev) (DDADRH (Z.of_nat idx)) /\
  pdev_phy (enable_chan SUPPORT_64BIT pdev (Some idx) chan) = pdev_phy pdev /\
  (mjoin (pdev_phy pdev !! idx) <> None ->
   Z.testbit (readl (regs (enable_chan SUPPORT_64BIT pdev (Some idx) chan))
                (Z.shiftl (Z.of_nat idx) 2 + DCSR)) 31 = true).
Proof.
  intros Hidx. unfold enable_chan.
  destruct (mjoin (pdev_phy pdev !! idx)) as [c|].
  - cbn [regs set_regs pdev_phy].
    pose proof (DRCMR_range (drcmr chan)) as Hd.
    assert (H4 : Z.shiftl (Z.of_nat idx) 4 = Z.of_nat idx * 16)
      by (rewrite Z.shiftl_mul_pow2 by lia; reflexivity).
    assert (H2 : Z.shiftl (Z.of_nat idx) 2 = Z.of_nat idx * 4)
      by (rewrite Z.shiftl_mul_pow2 by lia; reflexivity).
    unfold DDADRH, DDADR, DCSR, DALGN in *. rewrite H4, H2.
    split; [|split; [|split]].
    + rewrite !readl_writel_ne by lia. reflexivity.
    + rewrite !readl_writel_ne by lia. reflexivity.
    + reflexivity.
    + intros _. rewrite readl_writel_eq.
      destruct SUPPORT_64BIT; rewrite !Z.lor_spec;
        change (Z.testbit DCSR_RUN 31) with true;
        rewrite ?orb_true_r, ?orb_true_l; reflexivity.
  - split; [reflexivity|]. split; [reflexivity|]. split; [reflexivity|].
    intros H. contradiction.
Qed.


End IssuePending.


(** ** The logical channel invariant *)

Lemma consistent_at_most_one (pdev : mmp_pdma_device) (chan : mmp_pdma_chan) :
  bound_consistent pdev chan -> at_most_one_bound pdev (chan_id chan).
Proof.
  intros [_ H] i j Hi Hj. apply H in Hi, Hj. congruence.
Qed.

Lemma chan_invariant_intro (pdev : mmp_pdma_device) (chan : mmp_pdma_chan) :
  running_ok chan -> bound_consistent pdev chan -> chan_invariant pdev chan.
Proof.
  intros H1 H2. split; [exact H1|]. split; [exact H2|].
  apply consistent_at_most_one. exact H2.
Qed.

(** The invariant reads only the registry, the binding, the running list
    and the status. *)
Lemma chan_invariant_frame (pdev pdev' : mmp_pdma_device)
    (chan chan' : mmp_pdma_chan) :
  pdev_phy pdev' = pdev_phy pdev -> chan_id chan' = chan_id chan ->
  phy chan' = phy chan -> chain_running chan' = chain_running chan ->
  status chan' = status chan ->
  chan_invariant pdev chan -> chan_invariant pdev' chan'.
Proof.
  unfold chan_invariant, running_ok, bound_consistent, at_most_one_bound.
  intros -> -> -> -> ->. tauto.
Qed.

Lemma free_phy_consistent (pdev : mmp_pdma_device) (chan : mmp_pdma_chan) :
  bound_consistent pdev chan ->
  bound_consistent (fst (mmp_pdma_free_phy pdev chan))
    (snd (mmp_pdma_free_phy pdev chan)) /\
  phy (snd (mmp_pdma_free_phy pdev chan)) = None /\
  chain_running (snd (mmp_pdma_free_phy pdev chan)) = chain_running chan /\
  status (snd (mmp_pdma_free_phy pdev chan)) = status chan.
Proof.
  intros [H1 H2]. unfold mmp_pdma_free_phy.
  destruct (phy chan) as [i|] eqn:Ephy.
  - cbn [fst snd]. split; [|repeat split].
    unfold bound_consistent.
    cbn [phy set_phy pdev_phy set_pdev_phy set_regs chan_id].
    split; [discriminate|]. intros j Hj. exfalso.
    destruct (Nat.eq_dec i j) as [->|Hne].
    + destruct (Nat.lt_ge_cases j (length (pdev_phy pdev))) as [Hlt|Hge].
      * rewrite list_lookup_insert_eq in Hj by exact Hlt. discriminate.
      * rewrite list_insert_ge in Hj by exact Hge.
        apply lookup_ge_None_2 in Hge. congruence.
    + rewrite list_lookup_insert_ne in Hj by exact Hne.
      apply H2 in Hj. congruence.
  - cbn [fst snd].
    split; [unfold bound_consistent; rewrite Ephy; split; assumption|].
    split; [exact Ephy|].
    split; reflexivity.
Qed.

Lemma bind_phy_consistent (pdev : mmp_pdma_device) (chan : mmp_pdma_chan)
    (i : nat) :
  bound_consistent pdev chan -> phy chan = None -> phy_unbound pdev i ->
  bound_consistent (bind_phy pdev i (chan_id chan)) (set_phy (Some i) chan).
Proof.
  intros [H1 H2] Hnone Hfree. unfold bound_consistent, bind_phy.
  cbn [phy set_phy pdev_phy set_pdev_phy chan_id].
  assert (Hlt : (i < length (pdev_phy pdev))%nat)
    by (apply lookup_lt_Some in Hfree; exact Hfree).
  split.
  - intros j Hj. injection Hj as <-.
    apply list_lookup_insert_eq. exact Hlt.
  - intros j Hj. destruct (Nat.eq_dec i j) as [->|Hne]; [reflexivity|].
    rewrite list_lookup_insert_ne in Hj by exact Hne.
    apply H2 in Hj. congruence.
Qed.

Lemma move_to_cleanup_rest (running : list mmp_pdma_desc_sw) :
  forall cleanup completed,
    fst (fst (move_to_cleanup running cleanup completed)) <> [] ->
    running <> [].
Proof.
  intros cleanup completed H ->. apply H. reflexivity.
Qed.

Lemma run_cleanup_frame (cleanup : list mmp_pdma_desc_sw) :
  forall chan log,
    chan_id (fst (run_cleanup chan cleanup log)) = chan_id chan /\
    phy (fst (run_cleanup chan cleanup log)) = phy chan /\
    chain_running (fst (run_cleanup chan cleanup log)) = chain_running chan /\
    status (fst (run_cleanup chan cleanup log)) = status chan.
Proof.
  induction cleanup as [|d rest IH]; intros chan log; [repeat split|].
  cbn [run_cleanup]. 
  match goal with
  | |- context [run_cleanup ?c rest ?l] => destruct (IH c l) as (H1 & H2 & H3 & H4)
  end.
  rewrite H1, H2, H3, H4. repeat split.
Qed.

Lemma assign_cookies_frame (tx_list : list mmp_pdma_desc_sw) :
  forall chan c0,
    chan_id (snd (fst (assign_cookies chan c0 tx_list))) = chan_id chan /\
    phy (snd (fst (assign_cookies chan c0 tx_list))) = phy chan /\
    chain_running (snd (fst (assign_cookies chan c0 tx_list)))
    = chain_running chan /\
    status (snd (fst (assign_cookies chan c0 tx_list))) = status chan.
Proof.
  induction tx_list as [|d rest IH]; intros chan c0; [repeat split|].
  cbn [assign_cookies dma_cookie_assign].
  specialize (IH (set_chan_cookie (chan_cookie chan + 1) chan)
                (chan_cookie chan + 1)).
  destruct (assign_cookies _ _ rest) as [[c chan'] l].
  cbn [fst snd] in *. exact IH.
Qed.

Lemma qos_put_frame (chan : mmp_pdma_chan) :
  chan_id (mmp_pdma_qos_put chan) = chan_id chan /\
  phy (mmp_pdma_qos_put chan) = phy chan /\
  chain_running (mmp_pdma_qos_put chan) = chain_running chan /\
  status (mmp_pdma_qos_put chan) = status chan.
Proof.
  unfold mmp_pdma_qos_put. destruct (nonzero _); [repeat split|].
  destruct (_ =? _); repeat split.
Qed.

Lemma qos_get_frame (chan : mmp_pdma_chan) :
  chan_id (mmp_pdma_qos_get chan) = chan_id chan /\
  phy (mmp_pdma_qos_get chan) = phy chan /\
  chain_running (mmp_pdma_qos_get chan) = chain_running chan /\
  status (mmp_pdma_qos_get chan) = status chan.
Proof.
  unfold mmp_pdma_qos_get. destruct (nonzero _); [repeat split|].
  destruct (_ =? _); repeat split.
Qed.

Section InvariantLemmas.

Variable SUPPORT_64BIT : bool.

Lemma set_desc_phy (pdev : mmp_pdma_device) (idx : nat) (addr : Z) :
  pdev_phy (set_desc SUPPORT_64BIT pdev idx addr) = pdev_phy pdev.
Proof. reflexivity. Qed.

Lemma disable_chan_phy (pdev : mmp_pdma_device) (p : option nat) :
  pdev_phy (disable_chan SUPPORT_64BIT pdev p) = pdev_phy pdev.
Proof. destruct p; reflexivity. Qed.

Lemma run_pending_invariant (pdev : mmp_pdma_device) (chan : mmp_pdma_chan) :
  bound_consistent pdev chan -> phy chan <> None ->
  chan_invariant (snd (fst (run_pending SUPPORT_64BIT pdev chan)))
    (snd (run_pending SUPPORT_64BIT pdev chan)).
Proof.
  intros Hc Hp. unfold run_pending.
  destruct (take_pending (chain_pending chan)) as [moved remaining].
  cbn [fst snd]. apply chan_invariant_intro.
  - intros _. split; [reflexivity|exact Hp].
  - unfold bound_consistent in *.
    cbn [phy chan_id set_bytes_residue set_status set_idle
         set_chain_running set_chain_pending].
    rewrite enable_chan_phy.
    destruct (phy chan); [rewrite set_desc_phy|]; exact Hc.
Qed.

(** [start_pending_queue] keeps the invariant. *)
Lemma start_pending_queue_invariant (pdev : mmp_pdma_device)
    (chan : mmp_pdma_chan) :
  chan_invariant pdev chan ->
  chan_invariant (snd (fst (start_pending_queue SUPPORT_64BIT pdev chan)))
    (snd (start_pending_queue SUPPORT_64BIT pdev chan)).
Proof.
  intros Hinv. pose proof Hinv as (Hrun & Hcons & _).
  unfold start_pending_queue.
  destruct (status_eqb (status chan) DMA_IN_PROGRESS) eqn:Hs; [exact Hinv|].
  assert (Hempty : chain_running chan = []).
  { destruct (chain_running chan) as [|r0 rs] eqn:E; [reflexivity|].
    destruct Hrun as [Hst _]; [rewrite E; discriminate|].
    rewrite Hst in Hs. discriminate. }
  destruct (chain_pending chan) as [|d0 pend] eqn:Ep.
  - destruct (free_phy_consistent pdev chan Hcons) as (Hc & Hp & Hr & Hst).
    destruct (mmp_pdma_free_phy pdev chan) as [pdev' chan'].
    cbn [fst snd] in *. apply chan_invariant_intro; [|exact Hc].
    intros Hne. rewrite Hr, Hempty in Hne. contradiction.
  - destruct (phy chan) as [i|] eqn:Ephy.
    + apply run_pending_invariant; [exact Hcons|].
      rewrite Ephy. discriminate.
    + pose proof (lookup_phy_result pdev chan) as Hl.
      destruct (lookup_phy pdev chan) as [[i|] pdev1].
      * destruct Hl as [Hfree ->].
        apply run_pending_invariant.
        -- apply bind_phy_consistent; assumption.
        -- discriminate.
      * exact Hinv.
Qed.

End InvariantLemmas.

Section InvariantTheorem.

Variable SUPPORT_64BIT : bool.

(** C8 (as amended).  Submit, issue_pending, completion handling and
    terminate_all keep the invariant of the logical channel: a non-empty
    running list implies status "in progress" and a bound physical channel,
    and at most one physical channel is bound to the logical channel.
    Pause keeps the binding part but sets the status to "paused" while the
    running list stays as it is. *)
Theorem engine_keeps_invariant (pdev : mmp_pdma_device) (chan : mmp_pdma_chan) :
  chan_invariant pdev chan ->
  (forall tx_list,
      chan_invariant pdev (snd (mmp_pdma_tx_submit chan tx_list))) /\
  chan_invariant (fst (mmp_pdma_issue_pending SUPPORT_64BIT pdev chan))
    (snd (mmp_pdma_issue_pending SUPPORT_64BIT pdev chan)) /\
  chan_invariant (fst (fst (dma_do_tasklet SUPPORT_64BIT pdev chan)))
    (snd (fst (dma_do_tasklet SUPPORT_64BIT pdev chan))) /\
  chan_invariant (fst (mmp_pdma_terminate_all SUPPORT_64BIT pdev chan))
    (snd (mmp_pdma_terminate_all SUPPORT_64BIT pdev chan)) /\
  paused_invariant (snd (fst (mmp_pdma_pause_chan SUPPORT_64BIT pdev chan)))
    (snd (mmp_pdma_pause_chan SUPPORT_64BIT pdev chan)).
Proof.
  intros Hinv. pose proof Hinv as (Hrun & Hcons & Hone).
  split; [|split; [|split; [|split]]].
  - (* submit *)
    intros tx_list. unfold mmp_pdma_tx_submit.
    pose proof (assign_cookies_frame tx_list chan (- EBUSY)) as Hf.
    destruct (assign_cookies chan (- EBUSY) tx_list) as [[c chan1] l].
    cbn [fst snd] in *. destruct Hf as (H1 & H2 & H3 & H4).
    apply (chan_invariant_frame pdev pdev chan); try reflexivity; try assumption.
  - (* issue_pending *)
    unfold mmp_pdma_issue_pending.
    destruct (qos_get_frame chan) as (G1 & G2 & G3 & G4).
    assert (Hinv1 : chan_invariant pdev (mmp_pdma_qos_get chan)).
    { apply (chan_invariant_frame pdev pdev chan); try assumption. reflexivity. }
    pose proof (start_pending_queue_invariant SUPPORT_64BIT pdev
                  (mmp_pdma_qos_get chan) Hinv1) as Hs.
    destruct (start_pending_queue SUPPORT_64BIT pdev (mmp_pdma_qos_get chan))
      as [[ret pdev'] chan'].
    cbn [fst snd] in *. destruct (nonzero ret); [|exact Hs].
    destruct (qos_put_frame chan') as (P1 & P2 & P3 & P4).
    apply (chan_invariant_frame pdev' pdev' chan'); try assumption. reflexivity.
  - (* completion *)
    unfold dma_do_tasklet.
    destruct (status_eqb (status chan) DMA_COMPLETE); [exact Hinv|].
    destruct (cyclic_first chan) as [first|]; [exact Hinv|].
    set (chan0 := match first_irq_cookie (chain_running chan) with
                  | Some c => set_bytes_residue (mmp_pdma_residue pdev chan c) chan
                  | None => chan
                  end).
    assert (Hf0 : chan_id chan0 = chan_id chan /\ phy chan0 = phy chan /\
                  chain_running chan0 = chain_running chan).
    { subst chan0. destruct (first_irq_cookie _); repeat split. }
    destruct Hf0 as (F1 & F2 & F3). rewrite F3.
    pose proof (move_to_cleanup_rest (chain_running chan) [] None) as Hrest.
    destruct (move_to_cleanup (chain_running chan) [] None)
      as [[running cleanup] completed].
    cbn [fst snd] in Hrest.
    set (chan1 := set_chain_running running chan0).
    set (chan2 := match completed with
                  | Some c => set_completed_cookie c chan1
                  | None => chan1
                  end).
    assert (Hf2 : chan_id chan2 = chan_id chan /\ phy chan2 = phy chan /\
                  chain_running chan2 = running).
    { subst chan2 chan1. destruct completed; cbn; rewrite ?F1, ?F2; repeat split. }
    destruct Hf2 as (S1 & S2 & S3). rewrite S3.
    set (chan3 := set_status match running with
                             | [] => DMA_COMPLETE
                             | _ :: _ => DMA_IN_PROGRESS
                             end chan2).
    assert (Hinv3 : chan_invariant pdev chan3).
    { apply chan_invariant_intro.
      - unfold running_ok. subst chan3.
        cbn [chain_running status phy set_status]. rewrite S3, S2.
        intros Hne. split.
        + destruct running; [contradiction|reflexivity].
        + apply Hrun. apply Hrest. exact Hne.
      - unfold bound_consistent in *. subst chan3.
        cbn [phy chan_id set_status]. rewrite S1, S2. exact Hcons. }
    pose proof (start_pending_queue_invariant SUPPORT_64BIT pdev chan3 Hinv3)
      as Hs.
    destruct (start_pending_queue SUPPORT_64BIT pdev chan3)
      as [[ret pdev'] chan'].
    cbn [fst snd] in Hs.
    set (chan4 := if nonzero ret then mmp_pdma_qos_put chan' else chan').
    assert (Hinv4 : chan_invariant pdev' chan4).
    { subst chan4. destruct (nonzero ret); [|exact Hs].
      destruct (qos_put_frame chan') as (P1 & P2 & P3 & P4).
      apply (chan_invariant_frame pdev' pdev' chan'); try assumption.
      reflexivity. }
    destruct (run_cleanup_frame cleanup chan4 []) as (R1 & R2 & R3 & R4).
    destruct (run_cleanup chan4 cleanup []) as [chan5 log].
    cbn [fst snd] in *.
    apply (chan_invariant_frame pdev' pdev' chan4); try assumption. reflexivity.
  - (* terminate_all *)
    unfold mmp_pdma_terminate_all.
    set (pdev1 := disable_chan SUPPORT_64BIT pdev (phy chan)).
    assert (Hc1 : bound_consistent pdev1 (set_status DMA_COMPLETE chan)).
    { unfold bound_consistent in *. subst pdev1.
      rewrite disable_chan_phy. exact Hcons. }
    destruct (free_phy_consistent pdev1 (set_status DMA_COMPLETE chan) Hc1)
      as (Hc & Hp & _ & _).
    destruct (mmp_pdma_free_phy pdev1 (set_status DMA_COMPLETE chan))
      as [pdev' chan'].
    cbn [fst snd] in *.
    match goal with
    | |- chan_invariant _ (mmp_pdma_qos_put ?c) =>
        destruct (qos_put_frame c) as (P1 & P2 & P3 & P4);
        apply chan_invariant_intro;
          [ unfold running_ok; rewrite P3; cbn; intros H; contradiction
          | unfold bound_consistent in *; rewrite P1, P2; cbn; exact Hc ]
    end.
  - (* pause *)
    unfold mmp_pdma_pause_chan.
    destruct (phy chan) as [i|] eqn:Ephy; cbn [fst snd].
    + split; [|split].
      * intros _. cbn. split; [reflexivity|]. rewrite Ephy. discriminate.
      * unfold bound_consistent in *.
        cbn [phy chan_id set_status].
        rewrite disable_chan_phy. exact Hcons.
      * unfold at_most_one_bound. rewrite disable_chan_phy. exact Hone.
    + split; [|split].
      * intros Hne. destruct (Hrun Hne) as [_ Hp]. contradiction.
      * exact Hcons.
      * exact Hone.
Qed.

End InvariantTheorem.

Lemma busy_invariant : chan_invariant busy_pdev busy_chan.
Proof.
  apply chan_invariant_intro.
  - intros _. split; [reflexivity|discriminate].
  - split; intros i H.
    + injection H as <-. reflexivity.
    + destruct i as [|i]; [reflexivity|]. exfalso.
      change (pdev_phy busy_pdev) with (Some 0%nat :: replicate 15 None) in H.
      cbn [lookup list_lookup] in H.
      apply lookup_replicate in H as [H _]. discriminate.
Qed.

Lemma engine_keeps_invariant_witness :
  (forall tx_list,
      chan_invariant busy_pdev (snd (mmp_pdma_tx_submit busy_chan tx_list))) /\
  chan_invariant (fst (mmp_pdma_issue_pending true busy_pdev busy_chan))
    (snd (mmp_pdma_issue_pending true busy_pdev busy_chan)) /\
  chan_invariant (fst (fst (dma_do_tasklet true busy_pdev busy_chan)))
    (snd (fst (dma_do_tasklet true busy_pdev busy_chan))) /\
  chan_invariant (fst (mmp_pdma_terminate_all true busy_pdev busy_chan))
    (snd (mmp_pdma_terminate_all true busy_pdev busy_chan)) /\
  paused_invariant (snd (fst (mmp_pdma_pause_chan true busy_pdev busy_chan)))
    (snd (mmp_pdma_pause_chan true busy_pdev busy_chan)).
Proof.
  apply (engine_keeps_invariant true busy_pdev busy_chan).
  exact busy_invariant.
Defined.

(** C8 as stated fails for pause: on a channel with a transfer in flight
    the invariant holds before the pause; afterwards the running list is
    still non-empty but the status is "paused". *)
Lemma pause_breaks_invariant : ~ pause_keeps_invariant true.
Proof.
  intros H. specialize (H busy_pdev busy_chan busy_invariant).
  destruct H as [Hrun _].
  destruct Hrun as [Hst _]; [discriminate|]. discriminate.
Qed.

(** * Further properties of the driver *)

(** ** Register map *)

Lemma DRCMR_injective (n m : Z) :
  0 <= n < 128 -> 0 <= m < 128 -> DRCMR n = DRCMR m -> n = m.
Proof.
  intros Hn Hm. unfold DRCMR. change 0x3f with (Z.ones 6).
  rewrite !Z.land_ones by lia. rewrite !Z.shiftl_mul_pow2 by lia.
  change (2 ^ 6) with 64. change (2 ^ 2) with 4.
  assert (Hmod : forall k, 0 <= k < 128 ->
            k mod 64 = if k <? 64 then k else k - 64).
  { intros k Hk. destruct (k <? 64) eqn:E.
    - apply Z.ltb_lt in E. apply Z.mod_small. lia.
    - apply Z.ltb_ge in E. symmetry. apply (Z.mod_unique k 64 1); lia. }
  rewrite (Hmod n Hn), (Hmod m Hm).
  destruct (n <? 64) eqn:En, (m <? 64) eqn:Em;
    try apply Z.ltb_lt in En; try apply Z.ltb_ge in En;
    try apply Z.ltb_lt in Em; try apply Z.ltb_ge in Em; lia.
Qed.

Lemma shiftl_1_testbit (i j : nat) :
  Z.testbit (Z.shiftl 1 (Z.of_nat i)) (Z.of_nat j) = (i =? j)%nat.
Proof.
  rewrite Z.shiftl_1_l, Z.pow2_bits_eqb by lia.
  destruct (Nat.eqb_spec i j) as [->|Hne].
  - apply Z.eqb_refl.
  - apply Z.eqb_neq. lia.
Qed.

Lemma u32_testbit_low (x : Z) (j : nat) :
  (j < 32)%nat -> Z.testbit (u32 x) (Z.of_nat j) = Z.testbit x (Z.of_nat j).
Proof. intros Hj. unfold u32. apply Z.mod_pow2_bits_low. lia. Qed.

Section RegisterMap.

Variable SUPPORT_64BIT : bool.

(** X1.  On a controller with at most 16 physical channels, programming,
    starting or stopping physical channel [i] leaves the control, descriptor
    address and alignment registers of every other physical channel [j] as
    they were, and starting it for one request line leaves the mapping
    register of every other request line alone. *)
Theorem phy_channels_isolated (pdev : mmp_pdma_device) (chan : mmp_pdma_chan)
    (i j : nat) (addr : Z) :
  i <> j -> (i < 16)%nat -> (j < 16)%nat ->
  phy_registers (regs (set_desc SUPPORT_64BIT pdev i addr)) j
  = phy_registers (regs pdev) j /\
  phy_registers (regs (enable_chan SUPPORT_64BIT pdev (Some i) chan)) j
  = phy_registers (regs pdev) j /\
  phy_registers (regs (disable_chan SUPPORT_64BIT pdev (Some i))) j
  = phy_registers (regs pdev) j /\
  (forall m : Z,
      0 <= m < 128 -> 0 <= drcmr chan < 128 -> m <> drcmr chan ->
      readl (regs (enable_chan SUPPORT_64BIT pdev (Some i) chan)) (DRCMR m)
      = readl (regs pdev) (DRCMR m)).
Proof.
  intros Hij Hi Hj.
  assert (H4 : forall k : nat, Z.shiftl (Z.of_nat k) 4 = Z.of_nat k * 16)
    by (intros k; rewrite Z.shiftl_mul_pow2 by lia; reflexivity).
  assert (H2 : forall k : nat, Z.shiftl (Z.of_nat k) 2 = Z.of_nat k * 4)
    by (intros k; rewrite Z.shiftl_mul_pow2 by lia; reflexivity).
  pose proof (DRCMR_range (drcmr chan)) as Hd.
  split; [|split; [|split]].
  - unfold phy_registers, set_desc, DDADRH. cbn [regs set_regs].
    rewrite !H4, !H2. unfold DDADR, DCSR, DALGN.
    destruct SUPPORT_64BIT; rewrite !readl_writel_ne by lia; reflexivity.
  - unfold phy_registers, enable_chan, DDADRH.
    destruct (mjoin (pdev_phy pdev !! i)) as [c|]; [|reflexivity].
    cbn [regs set_regs]. rewrite !H4, !H2.
    unfold DDADR, DCSR, DALGN in *.
    rewrite (readl_writel_ne _ _ (Z.of_nat i * 4 + 0) (Z.of_nat j * 4 + 0))
      by lia.
    rewrite (readl_writel_ne _ _ (Z.of_nat i * 4 + 0) (Z.of_nat j * 16 + 512))
      by lia.
    rewrite (readl_writel_ne _ _ (Z.of_nat i * 4 + 0) (768 + Z.of_nat j * 16))
      by lia.
    rewrite (readl_writel_ne _ _ (Z.of_nat i * 4 + 0) 160) by lia.
    rewrite (readl_writel_ne _ _ 160 (Z.of_nat j * 4 + 0)) by lia.
    rewrite (readl_writel_ne _ _ 160 (Z.of_nat j * 16 + 512)) by lia.
    rewrite (readl_writel_ne _ _ 160 (768 + Z.of_nat j * 16)) by lia.
    rewrite readl_writel_eq.
    rewrite !(readl_writel_ne _ _ (DRCMR (drcmr chan))) by lia.
    f_equal.
    destruct (byte_align chan).
    + rewrite u32_testbit_low by lia.
      rewrite Z.lor_spec, shiftl_1_testbit.
      destruct (Nat.eqb_spec i j); [contradiction|]. apply orb_false_r.
    + rewrite Z.ldiff_spec, shiftl_1_testbit.
      destruct (Nat.eqb_spec i j); [contradiction|]. apply andb_true_r.
  - unfold phy_registers, disable_chan, DDADRH. cbn [regs set_regs].
    rewrite !H4, !H2. unfold DDADR, DCSR, DALGN.
    rewrite !readl_writel_ne by lia. reflexivity.
  - intros m Hm Hc Hne. unfold enable_chan.
    destruct (mjoin (pdev_phy pdev !! i)) as [c|]; [|reflexivity].
    cbn [regs set_regs]. rewrite !H2.
    pose proof (DRCMR_range m) as Hdm.
    assert (DRCMR (drcmr chan) <> DRCMR m)
      by (intros E; apply Hne; symmetry; apply DRCMR_injective; assumption).
    unfold DCSR, DALGN in *.
    rewrite !readl_writel_ne by lia. reflexivity.
Qed.

(** X2.  Starting physical channel [idx] (below 32, bound) for a logical
    channel writes a valid mapping for its request line from which the
    channel number reads back, and sets the channel's bit of the alignment
    register to the channel's [byte_align]; releasing the physical channel
    afterwards clears the mapping register. *)
Theorem request_line_mapping (pdev : mmp_pdma_device) (chan : mmp_pdma_chan)
    (idx cid : nat) :
  (idx < 32)%nat -> pdev_phy pdev !! idx = Some (Some cid) ->
  let pdev' := enable_chan SUPPORT_64BIT pdev (Some idx) chan in
  let m := readl (regs pdev') (DRCMR (drcmr chan)) in
  Z.testbit m 7 = true /\
  Z.land m DRCMR_CHLNUM = Z.of_nat idx /\
  Z.testbit (readl (regs pdev') DALGN) (Z.of_nat idx) = byte_align chan /\
  readl (regs (fst (mmp_pdma_free_phy pdev' (set_phy (Some idx) chan))))
    (DRCMR (drcmr chan)) = 0.
Proof.
  intros Hidx Hb pdev' m. subst m pdev'. unfold enable_chan. rewrite Hb.
  cbn [mjoin option_join option_bind mbind regs set_regs].
  assert (H2 : Z.shiftl (Z.of_nat idx) 2 = Z.of_nat idx * 4)
    by (rewrite Z.shiftl_mul_pow2 by lia; reflexivity).
  pose proof (DRCMR_range (drcmr chan)) as Hd.
  rewrite H2. unfold DCSR, DALGN in *.
  rewrite (readl_writel_ne _ _ (Z.of_nat idx * 4 + 0)) by lia.
  rewrite (readl_writel_ne _ _ (Z.of_nat idx * 4 + 0) 160) by lia.
  rewrite (readl_writel_ne _ _ 160 (DRCMR (drcmr chan))) by lia.
  rewrite !readl_writel_eq.
  split; [|split; [|split]].
  - rewrite Z.lor_spec. reflexivity.
  - rewrite Z.land_lor_distr_l. unfold DRCMR_CHLNUM.
    change (Z.land DRCMR_MAPVLD 31) with 0. rewrite Z.lor_0_l.
    change 31 with (Z.ones 5). rewrite Z.land_ones by lia.
    apply Z.mod_small. change (2 ^ 5) with 32. lia.
  - destruct (byte_align chan).
    + rewrite u32_testbit_low by lia.
      rewrite Z.lor_spec, shiftl_1_testbit, Nat.eqb_refl. apply orb_true_r.
    + rewrite Z.ldiff_spec, shiftl_1_testbit, Nat.eqb_refl. apply andb_false_r.
  - unfold mmp_pdma_free_phy. cbn [phy set_phy fst regs set_regs set_pdev_phy].
    apply readl_writel_eq.
Qed.

End RegisterMap.

Lemma phy_channels_isolated_witness :
  phy_registers (regs (set_desc true busy_pdev 0 0x1000)) 1
  = phy_registers (regs busy_pdev) 1 /\
  phy_registers (regs (enable_chan true busy_pdev (Some 0%nat) busy_chan)) 1
  = phy_registers (regs busy_pdev) 1 /\
  phy_registers (regs (disable_chan true busy_pdev (Some 0%nat))) 1
  = phy_registers (regs busy_pdev) 1 /\
  (forall m : Z,
      0 <= m < 128 -> 0 <= drcmr busy_chan < 128 -> m <> drcmr busy_chan ->
      readl (regs (enable_chan true busy_pdev (Some 0%nat) busy_chan)) (DRCMR m)
      = readl (regs busy_pdev) (DRCMR m)).
Proof.
  apply (phy_channels_isolated true busy_pdev busy_chan 0 1 0x1000); lia.
Defined.

Lemma request_line_mapping_witness :
  let pdev' := enable_chan true busy_pdev (Some 0%nat) busy_chan in
  let m := readl (regs pdev') (DRCMR (drcmr busy_chan)) in
  Z.testbit m 7 = true /\
  Z.land m DRCMR_CHLNUM = Z.of_nat 0 /\
  Z.testbit (readl (regs pdev') DALGN) (Z.of_nat 0) = byte_align busy_chan /\
  readl (regs (fst (mmp_pdma_free_phy pdev' (set_phy (Some 0%nat) busy_chan))))
    (DRCMR (drcmr busy_chan)) = 0.
Proof.
  apply (request_line_mapping true busy_pdev busy_chan 0 0);
    [lia | reflexivity].
Defined.

(** ** The physical channel registry *)

Lemma lookup_phy_in_band_ext (p q : mmp_pdma_device) (prio : Z)
    (idxs : list nat) :
  reserved_channels p = reserved_channels q -> pdev_phy p = pdev_phy q ->
  lookup_phy_in_band p prio idxs = lookup_phy_in_band q prio idxs.
Proof.
  intros Hr Hp. induction idxs as [|i idxs IH]; [reflexivity|].
  cbn [lookup_phy_in_band]. unfold is_channel_reserved.
  rewrite Hr, Hp, IH. reflexivity.
Qed.

Lemma lookup_phy_bands_ext (p q : mmp_pdma_device) (prios : list nat) :
  dma_channels p = dma_channels q ->
  reserved_channels p = reserved_channels q -> pdev_phy p = pdev_phy q ->
  lookup_phy_bands p prios = lookup_phy_bands q prios.
Proof.
  intros Hc Hr Hp. induction prios as [|prio prios IH]; [reflexivity|].
  cbn [lookup_phy_bands].
  rewrite (lookup_phy_in_band_ext p q _ _ Hr Hp), Hc, IH. reflexivity.
Qed.

(** The search of [lookup_phy] reads the channel count, the reservation
    table and the bindings, and nothing else. *)
Lemma lookup_phy_ext (p q : mmp_pdma_device) (chan : mmp_pdma_chan) :
  dma_channels p = dma_channels q ->
  reserved_channels p = reserved_channels q -> pdev_phy p = pdev_phy q ->
  fst (lookup_phy p chan) = fst (lookup_phy q chan).
Proof.
  intros Hc Hr Hp. unfold lookup_phy, lookup_phy_for_drcmr, phy_vchan, last_prio.
  rewrite Hr, Hp, Hc.
  destruct (drcmr_in (reserved_channels q) (drcmr chan)) as [idx|].
  - destruct (idx <? 0); [reflexivity|].
    destruct (pdev_phy q !! Z.to_nat idx) as [[c|]|]; reflexivity.
  - rewrite (lookup_phy_bands_ext p q _ Hc Hr Hp).
    destruct (lookup_phy_bands q _); reflexivity.
Qed.

(** X3.  Acquire and release are inverse: when [lookup_phy] hands physical
    channel [i] to a logical channel, the registry records the binding;
    releasing it with [mmp_pdma_free_phy] restores the bindings that held
    before, leaves the logical channel unbound, clears the mapping register
    of its request line, and a new search by the same channel finds [i]
    again. *)
Theorem lookup_phy_free_phy_round_trip (pdev pdev' : mmp_pdma_device)
    (chan : mmp_pdma_chan) (i : nat) :
  lookup_phy pdev chan = (Some i, pdev') ->
  pdev_phy pdev' !! i = Some (Some (chan_id chan)) /\
  pdev_phy (fst (mmp_pdma_free_phy pdev' (set_phy (Some i) chan)))
  = pdev_phy pdev /\
  phy (snd (mmp_pdma_free_phy pdev' (set_phy (Some i) chan))) = None /\
  readl (regs (fst (mmp_pdma_free_phy pdev' (set_phy (Some i) chan))))
    (DRCMR (drcmr chan)) = 0 /\
  fst (lookup_phy (fst (mmp_pdma_free_phy pdev' (set_phy (Some i) chan))) chan)
  = Some i.
Proof.
  intros H. pose proof (lookup_phy_result pdev chan) as Hres.
  rewrite H in Hres. destruct Hres as [Hfree ->].
  unfold phy_unbound in Hfree.
  assert (Hlt : (i < length (pdev_phy pdev))%nat)
    by (apply lookup_lt_is_Some; eexists; exact Hfree).
  assert (Hback : <[i := None]> (<[i := Some (chan_id chan)]> (pdev_phy pdev))
                  = pdev_phy pdev).
  { rewrite list_insert_insert_eq. apply list_insert_id. exact Hfree. }
  unfold mmp_pdma_free_phy, bind_phy.
  cbn [phy set_phy fst snd pdev_phy set_pdev_phy regs set_regs].
  split; [apply list_lookup_insert_eq; exact Hlt|].
  split; [exact Hback|]. split; [reflexivity|].
  split; [apply readl_writel_eq|].
  rewrite (lookup_phy_ext _ pdev chan); [rewrite H; reflexivity| | |];
    cbn [dma_channels reserved_channels pdev_phy set_pdev_phy set_regs];
    [reflexivity|reflexivity|exact Hback].
Qed.

Lemma lookup_phy_free_phy_round_trip_witness :
  pdev_phy (bind_phy sample_pdev 0 0) !! 0%nat
  = Some (Some (chan_id sample_chan)) /\
  pdev_phy (fst (mmp_pdma_free_phy (bind_phy sample_pdev 0 0)
                   (set_phy (Some 0%nat) sample_chan)))
  = pdev_phy sample_pdev /\
  phy (snd (mmp_pdma_free_phy (bind_phy sample_pdev 0 0)
              (set_phy (Some 0%nat) sample_chan))) = None /\
  readl (regs (fst (mmp_pdma_free_phy (bind_phy sample_pdev 0 0)
                      (set_phy (Some 0%nat) sample_chan))))
    (DRCMR (drcmr sample_chan)) = 0 /\
  fst (lookup_phy (fst (mmp_pdma_free_phy (bind_phy sample_pdev 0 0)
                          (set_phy (Some 0%nat) sample_chan))) sample_chan)
  = Some 0%nat.
Proof.
  apply (lookup_phy_free_phy_round_trip sample_pdev (bind_phy sample_pdev 0 0)
           sample_chan 0).
  reflexivity.
Defined.

Lemma is_reserved_in_In (l : list reserved_chan) (c : Z) :
  is_reserved_in l c = true <-> exists rc, In rc l /\ rc_chan_id rc = c.
Proof.
  induction l as [|rc l IH]; cbn [is_reserved_in].
  - split; [discriminate|]. intros (rc & [] & _).
  - destruct (Z.eqb_spec c (rc_chan_id rc)) as [->|Hne].
    + split; [|reflexivity]. intros _. exists rc. split; [left|]; reflexivity.
    + rewrite IH. split.
      * intros (x & Hx & Hc). exists x. split; [right; exact Hx|exact Hc].
      * intros (x & [<-|Hx] & Hc); [congruence|].
        exists x. split; assumption.
Qed.

Lemma drcmr_in_In (l : list reserved_chan) (d c : Z) :
  drcmr_in l d = Some c ->
  exists rc, In rc l /\ rc_chan_id rc = c /\ rc_drcmr rc = d.
Proof.
  induction l as [|rc l IH]; cbn [drcmr_in]; [discriminate|].
  destruct (Z.eqb_spec d (rc_drcmr rc)) as [->|Hne].
  - intros [= <-]. exists rc. split; [left; reflexivity|]. split; reflexivity.
  - intros H. destruct (IH H) as (x & Hx & Hc & Hd).
    exists x. split; [right; exact Hx|]. split; assumption.
Qed.

(** X4.  A reserved physical channel is only ever given to a request line
    it is reserved for: whenever [lookup_phy] returns a physical channel
    that appears in the reservation table, the table has an entry that
    reserves this channel for the request line of the requesting logical
    channel. *)
Theorem reserved_channel_exclusive (pdev pdev' : mmp_pdma_device)
    (pchan : mmp_pdma_chan) (i : nat) :
  lookup_phy pdev pchan = (Some i, pdev') ->
  is_channel_reserved pdev (Z.of_nat i) = true ->
  exists rc, In rc (reserved_channels pdev) /\
    rc_chan_id rc = Z.of_nat i /\ rc_drcmr rc = drcmr pchan.
Proof.
  unfold lookup_phy, lookup_phy_for_drcmr. intros H Hres.
  destruct (drcmr_in (reserved_channels pdev) (drcmr pchan)) as [idx|] eqn:Hd.
  - unfold phy_vchan in H. destruct (Z.ltb_spec idx 0) as [Hneg|Hpos];
      [discriminate|].
    destruct (pdev_phy pdev !! Z.to_nat idx) as [[c|]|]; try discriminate.
    injection H as <- _. rewrite Z2Nat.id by exact Hpos.
    apply drcmr_in_In. exact Hd.
  - destruct (lookup_phy_bands pdev (seq 0 (Z.to_nat (last_prio pdev + 1))))
      as [k|] eqn:Hb; [|discriminate].
    injection H as -> _.
    apply lookup_phy_bands_some in Hb as (p & _ & _ & He & _).
    apply eligible_true in He as (_ & Hnot & _). congruence.
Qed.

Lemma reserved_channel_exclusive_witness :
  exists rc, In rc (reserved_channels reserved_pdev) /\
    rc_chan_id rc = Z.of_nat 15 /\ rc_drcmr rc = drcmr sample_chan.
Proof.
  apply (reserved_channel_exclusive reserved_pdev
           (bind_phy reserved_pdev 15 0) sample_chan 15);
    reflexivity.
Defined.

(** ** Probe *)

Lemma reserved_cells_lookup (pairs : list (Z * Z)) (extra : list Z) :
  forall (i : nat) (p : Z * Z),
    pairs !! i = Some p ->
    (reserved_cells pairs ++ extra) !! (i * 2)%nat = Some (fst p) /\
    (reserved_cells pairs ++ extra) !! (i * 2 + 1)%nat = Some (snd p).
Proof.
  induction pairs as [|q pairs IH]; intros i p Hp; [discriminate|].
  destruct i as [|i].
  - injection Hp as ->. split; reflexivity.
  - cbn in Hp. destruct (IH i p Hp) as [H0 H1].
    split; [exact H0|exact H1].
Qed.

Lemma reserved_cells_length (pairs : list (Z * Z)) :
  length (reserved_cells pairs) = (2 * length pairs)%nat.
Proof.
  induction pairs as [|q pairs IH]; [reflexivity|].
  cbn [reserved_cells map concat app length] in *.
  unfold reserved_cells in IH. rewrite IH. lia.
Qed.

(** X5.  The reservation table that probe builds from the device tree is
    the list of [<chan_id drcmr>] pairs of the "reserved-channels"
    property, in order; an incomplete trailing pair is ignored. *)
Theorem probe_reserved_round_trip (pairs : list (Z * Z)) (extra : list Z) :
  (length extra <= 1)%nat ->
  probe_reserved_channels (reserved_cells pairs ++ extra)
  = map (fun p => {| rc_chan_id := fst p; rc_drcmr := snd p |}) pairs.
Proof.
  intros He. unfold probe_reserved_channels.
  rewrite length_app, reserved_cells_length.
  assert (Hn : Z.to_nat
                 (4 * Z.of_nat (2 * length pairs + length extra) / (4 * 2))
               = length pairs).
  { assert (4 * Z.of_nat (2 * length pairs + length extra) / (4 * 2)
            = Z.of_nat (length pairs)); [|lia].
    symmetry.
    apply (Z.div_unique _ _ _ (4 * Z.of_nat (length extra))); lia. }
  rewrite Hn.
  apply list_eq. intros i.
  rewrite !list_lookup_fmap.
  destruct (pairs !! i) as [p|] eqn:Hp.
  - assert (Hi : (i < length pairs)%nat)
      by (apply lookup_lt_is_Some; eexists; exact Hp).
    rewrite lookup_seq_lt by exact Hi. cbn [fmap option_fmap option_map].
    unfold read_reserved_chan.
    change (0 + i)%nat with i.
    destruct (reserved_cells_lookup pairs extra i p Hp) as [-> ->].
    reflexivity.
  - apply lookup_ge_None_1 in Hp.
    rewrite lookup_seq_ge by lia. reflexivity.
Qed.

Lemma probe_reserved_round_trip_witness :
  probe_reserved_channels (reserved_cells [(15, 5); (14, 6)] ++ [13])
  = map (fun p => {| rc_chan_id := fst p; rc_drcmr := snd p |})
      [(15, 5); (14, 6)].
Proof.
  apply (probe_reserved_round_trip [(15, 5); (14, 6)] [13]). cbn. lia.
Defined.

Lemma probe_max_burst_valid (prop : option Z) :
  get_max_burst_setting (probe_max_burst_size prop) <> INVALID_BURST_SETTING.
Proof.
  unfold probe_max_burst_size.
  destruct (get_max_burst_setting
              match prop with Some v => v | None => DEFAULT_MAX_BURST_SIZE end
            =? INVALID_BURST_SETTING) eqn:E.
  - discriminate.
  - apply Z.eqb_neq. exact E.
Qed.

(** X6.  The burst size that probe stores is always one the hardware
    supports (a missing or unsupported "max-burst-size" is replaced by the
    default), so on a probed controller the flat-copy builder never runs
    into its [BUG_ON]. *)
Theorem probed_burst_never_bug (b64 : bool) (of_id : option pdma_of_node)
    (pdata : option Z) (base : gmap Z Z) (pdev : mmp_pdma_device)
    (chan : mmp_pdma_chan) (dst src len flags : Z) :
  max_burst_size pdev = max_burst_size (mmp_pdma_probe of_id pdata base) ->
  get_max_burst_setting (max_burst_size pdev) <> INVALID_BURST_SETTING /\
  mmp_pdma_prep_memcpy b64 pdev chan dst src len flags <> Bug.
Proof.
  intros Hm.
  assert (Hv : get_max_burst_setting (max_burst_size pdev)
               <> INVALID_BURST_SETTING).
  { rewrite Hm. unfold mmp_pdma_probe. destruct of_id as [node|].
    - cbn [max_burst_size]. apply probe_max_burst_valid.
    - destruct pdata as [n|]; [destruct (nonzero n)|]; discriminate. }
  split; [exact Hv|].
  unfold mmp_pdma_prep_memcpy. destruct (len =? 0); [discriminate|].
  unfold memcpy_setup. cbn [dir set_byte_align].
  apply Z.eqb_neq in Hv.
  destruct (dir chan); rewrite ?Hv;
    match goal with
    | |- context [memcpy_loop ?b ?f ?c ?l ?d ?s ?n] =>
        destruct (memcpy_loop b f c l d s n) as [[tx|] c']; discriminate
    end.
Qed.

Lemma probed_burst_never_bug_witness :
  get_max_burst_setting
    (max_burst_size
       (mmp_pdma_probe
          (Some {| dt_dma_channels := Some 16; dt_reserved_channels := None;
                   dt_max_burst_size := Some 7 |}) None ∅))
  <> INVALID_BURST_SETTING /\
  mmp_pdma_prep_memcpy true
    (mmp_pdma_probe
       (Some {| dt_dma_channels := Some 16; dt_reserved_channels := None;
                dt_max_burst_size := Some 7 |}) None ∅)
    sample_chan 0x900000 0x800000 20000 0 <> Bug.
Proof.
  apply (probed_burst_never_bug true
           (Some {| dt_dma_channels := Some 16; dt_reserved_channels := None;
                    dt_max_burst_size := Some 7 |}) None ∅).
  reflexivity.
Defined.

(** ** Submission *)

Lemma assign_cookies_lookup (tx_list : list mmp_pdma_desc_sw) :
  forall (chan : mmp_pdma_chan) (c0 : Z) (i : nat) (d : mmp_pdma_desc_sw),
    tx_list !! i = Some d ->
    snd (assign_cookies chan c0 tx_list) !! i
    = Some (with_tx (set_cookie (chan_cookie chan + 1 + Z.of_nat i)) d).
Proof.
  induction tx_list as [|child rest IH]; intros chan c0 i d Hd;
    [discriminate|].
  cbn [assign_cookies dma_cookie_assign].
  destruct (assign_cookies (set_chan_cookie (chan_cookie chan + 1) chan)
              (chan_cookie chan + 1) rest) as [[c' chan'] rest'] eqn:E.
  cbn [snd]. destruct i as [|i].
  - injection Hd as <-. cbn. rewrite Z.add_0_r. reflexivity.
  - cbn in Hd. cbn [lookup list_lookup].
    pose proof (IH (set_chan_cookie (chan_cookie chan + 1) chan)
                  (chan_cookie chan + 1) i d Hd) as H.
    rewrite E in H. cbn [snd chan_cookie set_chan_cookie] in H.
    change (rest' !! i = Some (with_tx (set_cookie
              (chan_cookie chan + 1 + Z.of_nat (S i))) d)).
    rewrite H. do 3 f_equal. lia.
Qed.

Lemma assign_cookies_length (tx_list : list mmp_pdma_desc_sw) :
  forall (chan : mmp_pdma_chan) (c0 : Z),
    length (snd (assign_cookies chan c0 tx_list)) = length tx_list.
Proof.
  induction tx_list as [|child rest IH]; intros chan c0; [reflexivity|].
  cbn [assign_cookies dma_cookie_assign].
  pose proof (IH (set_chan_cookie (chan_cookie chan + 1) chan)
                (chan_cookie chan + 1)) as H.
  destruct (assign_cookies (set_chan_cookie (chan_cookie chan + 1) chan)
              (chan_cookie chan + 1) rest) as [[c' chan'] rest'].
  cbn [snd length] in *. rewrite H. reflexivity.
Qed.

(** Fields of the channel that the cookie loop of submit leaves alone. *)
Lemma assign_cookies_queues (tx_list : list mmp_pdma_desc_sw) :
  forall chan c0,
    chain_pending (snd (fst (assign_cookies chan c0 tx_list)))
    = chain_pending chan /\
    desc_pool (snd (fst (assign_cookies chan c0 tx_list))) = desc_pool chan /\
    completed_cookie (snd (fst (assign_cookies chan c0 tx_list)))
    = completed_cookie chan /\
    cyclic_first (snd (fst (assign_cookies chan c0 tx_list)))
    = cyclic_first chan /\
    dir (snd (fst (assign_cookies chan c0 tx_list))) = dir chan /\
    drcmr (snd (fst (assign_cookies chan c0 tx_list))) = drcmr chan /\
    user_do_qos (snd (fst (assign_cookies chan c0 tx_list)))
    = user_do_qos chan /\
    qos_count (snd (fst (assign_cookies chan c0 tx_list))) = qos_count chan.
Proof.
  induction tx_list as [|child rest IH]; intros chan c0.
  - repeat split.
  - cbn [assign_cookies dma_cookie_assign].
    pose proof (IH (set_chan_cookie (chan_cookie chan + 1) chan)
                  (chan_cookie chan + 1)) as H.
    destruct (assign_cookies (set_chan_cookie (chan_cookie chan + 1) chan)
                (chan_cookie chan + 1) rest) as [[c' chan'] rest'].
    exact H.
Qed.

(** X7.  Submit appends the chain, in order, to the tail of the pending
    queue and changes nothing in it but the tokens: descriptor [i] of the
    chain gets the token [chan_cookie + 1 + i].  The token returned is that
    of the last descriptor (or [-EBUSY] for an empty chain), and it becomes
    the channel's token counter.  The running queue, the status, the
    physical channel binding and the pool are untouched. *)
Theorem tx_submit_appends_in_order (chan : mmp_pdma_chan)
    (tx_list : list mmp_pdma_desc_sw) :
  exists stamped,
    chain_pending (snd (mmp_pdma_tx_submit chan tx_list))
    = chain_pending chan ++ stamped /\
    length stamped = length tx_list /\
    (forall (i : nat) (d : mmp_pdma_desc_sw),
        tx_list !! i = Some d ->
        stamped !! i
        = Some (with_tx (set_cookie (chan_cookie chan + 1 + Z.of_nat i)) d)) /\
    fst (mmp_pdma_tx_submit chan tx_list)
    = match tx_list with
      | [] => - EBUSY
      | _ :: _ => chan_cookie chan + Z.of_nat (length tx_list)
      end /\
    chan_cookie (snd (mmp_pdma_tx_submit chan tx_list))
    = chan_cookie chan + Z.of_nat (length tx_list) /\
    chain_running (snd (mmp_pdma_tx_submit chan tx_list)) = chain_running chan /\
    status (snd (mmp_pdma_tx_submit chan tx_list)) = status chan /\
    phy (snd (mmp_pdma_tx_submit chan tx_list)) = phy chan /\
    desc_pool (snd (mmp_pdma_tx_submit chan tx_list)) = desc_pool chan.
Proof.
  unfold mmp_pdma_tx_submit.
  pose proof (assign_cookies_lookup tx_list chan (- EBUSY)) as Hl.
  pose proof (assign_cookies_length tx_list chan (- EBUSY)) as Hn.
  pose proof (assign_cookies_queues tx_list chan (- EBUSY))
    as (Hp & Hpool & _).
  pose proof (assign_cookies_frame tx_list chan (- EBUSY))
    as (_ & Hphy & Hrun & Hst).
  pose proof (assign_cookies_consecutive tx_list chan (- EBUSY)) as Hc.
  destruct (assign_cookies chan (- EBUSY) tx_list) as [[c chan'] stamped].
  cbn [fst snd] in *. destruct Hc as (_ & Hcc & Hret).
  exists stamped.
  cbn [chain_pending set_chain_pending chan_cookie chain_running status phy
       desc_pool].
  rewrite Hp. split; [reflexivity|]. split; [exact Hn|]. split; [exact Hl|].
  split.
  - rewrite Hret. destruct tx_list; [reflexivity|exact Hcc].
  - repeat split; assumption.
Qed.

Lemma tx_submit_appends_in_order_witness :
  fst (mmp_pdma_tx_submit pending_chan running_pair)
  = chan_cookie pending_chan + 2.
Proof.
  destruct (tx_submit_appends_in_order pending_chan running_pair)
    as (stamped & _ & _ & _ & H & _).
  exact H.
Defined.

(** ** Queue discipline of issue and completion *)

Lemma free_phy_queues (pdev : mmp_pdma_device) (chan : mmp_pdma_chan) :
  chain_running (snd (mmp_pdma_free_phy pdev chan)) = chain_running chan /\
  chain_pending (snd (mmp_pdma_free_phy pdev chan)) = chain_pending chan /\
  desc_pool (snd (mmp_pdma_free_phy pdev chan)) = desc_pool chan /\
  qos_count (snd (mmp_pdma_free_phy pdev chan)) = qos_count chan /\
  user_do_qos (snd (mmp_pdma_free_phy pdev chan)) = user_do_qos chan.
Proof.
  unfold mmp_pdma_free_phy. destruct (phy chan); repeat split.
Qed.

Lemma qos_put_queues (chan : mmp_pdma_chan) :
  chain_running (mmp_pdma_qos_put chan) = chain_running chan /\
  chain_pending (mmp_pdma_qos_put chan) = chain_pending chan /\
  desc_pool (mmp_pdma_qos_put chan) = desc_pool chan.
Proof.
  unfold mmp_pdma_qos_put.
  destruct (nonzero (user_do_qos chan)); [repeat split|].
  destruct (qos_count chan =? 1); repeat split.
Qed.

Lemma qos_get_queues (chan : mmp_pdma_chan) :
  chain_running (mmp_pdma_qos_get chan) = chain_running chan /\
  chain_pending (mmp_pdma_qos_get chan) = chain_pending chan /\
  desc_pool (mmp_pdma_qos_get chan) = desc_pool chan.
Proof.
  unfold mmp_pdma_qos_get.
  destruct (nonzero (user_do_qos chan)); [repeat split|].
  destruct (qos_count chan =? 0); repeat split.
Qed.

Section QueueDiscipline.

Variable SUPPORT_64BIT : bool.

(** [start_pending_queue] only moves descriptors from the head of the
    pending queue to the tail of the running queue. *)
Lemma start_pending_queue_queues (pdev : mmp_pdma_device)
    (chan : mmp_pdma_chan) :
  chain_running (snd (start_pending_queue SUPPORT_64BIT pdev chan))
  ++ chain_pending (snd (start_pending_queue SUPPORT_64BIT pdev chan))
  = chain_running chan ++ chain_pending chan /\
  desc_pool (snd (start_pending_queue SUPPORT_64BIT pdev chan))
  = desc_pool chan /\
  qos_count (snd (start_pending_queue SUPPORT_64BIT pdev chan))
  = qos_count chan /\
  user_do_qos (snd (start_pending_queue SUPPORT_64BIT pdev chan))
  = user_do_qos chan.
Proof.
  unfold start_pending_queue.
  destruct (status_eqb (status chan) DMA_IN_PROGRESS); [repeat split|].
  destruct (chain_pending chan) as [|d0 pend] eqn:Epend.
  - pose proof (free_phy_queues pdev chan) as (Hr & Hp & Hpool & Hq & Hu).
    destruct (mmp_pdma_free_phy pdev chan) as [pdev' chan']. cbn [snd] in *.
    rewrite Hr, Hp, Epend. repeat split; assumption.
  - assert (Hrun : forall pdev1 chan1,
              chain_running chan1 = chain_running chan ->
              chain_pending chan1 = chain_pending chan ->
              desc_pool chan1 = desc_pool chan ->
              qos_count chan1 = qos_count chan ->
              user_do_qos chan1 = user_do_qos chan ->
              chain_running (snd (run_pending SUPPORT_64BIT pdev1 chan1))
              ++ chain_pending (snd (run_pending SUPPORT_64BIT pdev1 chan1))
              = chain_running chan ++ chain_pending chan /\
              desc_pool (snd (run_pending SUPPORT_64BIT pdev1 chan1))
              = desc_pool chan /\
              qos_count (snd (run_pending SUPPORT_64BIT pdev1 chan1))
              = qos_count chan /\
              user_do_qos (snd (run_pending SUPPORT_64BIT pdev1 chan1))
              = user_do_qos chan).
    { intros pdev1 chan1 Hr Hp Hpool Hq Hu. unfold run_pending.
      destruct (take_pending (chain_pending chan1)) as [moved rest] eqn:Et.
      apply take_pending_prefix in Et as (Happ & _).
      cbn [snd chain_running chain_pending set_chain_running set_chain_pending
           set_bytes_residue set_status set_idle desc_pool qos_count
           user_do_qos].
      rewrite <- app_assoc, <- Happ, Hr, Hp. repeat split; assumption. }
    rewrite <- Epend.
    destruct (phy chan) as [idx|] eqn:Ephy.
    + apply Hrun; reflexivity.
    + destruct (lookup_phy pdev chan) as [[i|] pdev1].
      * apply Hrun; reflexivity.
      * repeat split.
Qed.

(** X8.  Issuing never drops, duplicates or reorders a queued descriptor:
    after [mmp_pdma_issue_pending] the running queue followed by the
    pending queue is the same list of descriptors as before, and the pool
    is untouched. *)
Theorem issue_pending_conserves_queues (pdev : mmp_pdma_device)
    (chan : mmp_pdma_chan) :
  chain_running (snd (mmp_pdma_issue_pending SUPPORT_64BIT pdev chan))
  ++ chain_pending (snd (mmp_pdma_issue_pending SUPPORT_64BIT pdev chan))
  = chain_running chan ++ chain_pending chan /\
  desc_pool (snd (mmp_pdma_issue_pending SUPPORT_64BIT pdev chan))
  = desc_pool chan.
Proof.
  unfold mmp_pdma_issue_pending.
  pose proof (start_pending_queue_queues pdev (mmp_pdma_qos_get chan))
    as (Hq & Hpool & _).
  pose proof (qos_get_queues chan) as (Hr & Hp & Hpg).
  rewrite Hr, Hp, Hpg in *.
  destruct (start_pending_queue SUPPORT_64BIT pdev (mmp_pdma_qos_get chan))
    as [[ret pdev'] chan'].
  cbn [snd] in *.
  destruct (nonzero ret); [|split; assumption].
  pose proof (qos_put_queues chan') as (Hr' & Hp' & Hpool').
  rewrite Hr', Hp', Hpool'. split; assumption.
Qed.

End QueueDiscipline.

Lemma free_desc_list_pool (chan : mmp_pdma_chan) (l : list mmp_pdma_desc_sw) :
  desc_pool (mmp_pdma_free_desc_list chan l)
  = free_all (desc_pool chan) (map desc_phys l).
Proof.
  unfold mmp_pdma_free_desc_list. cbn [desc_pool set_desc_pool].
  unfold free_all. generalize (desc_pool chan).
  induction l as [|x l IH]; intros p; [reflexivity|].
  cbn [fold_left map]. apply IH.
Qed.

Lemma free_all_free (l : list Z) :
  forall p, pool_free (free_all p l) = rev l ++ pool_free p.
Proof.
  induction l as [|x l IH]; intros p; [reflexivity|].
  change (free_all p (x :: l)) with (free_all (dma_pool_free p x) l).
  rewrite IH. cbn [dma_pool_free pool_free rev]. rewrite <- app_assoc.
  reflexivity.
Qed.

Lemma free_all_used (l : list Z) :
  forall p a, In a (pool_used (free_all p l)) ->
              In a (pool_used p) /\ ~ In a l.
Proof.
  induction l as [|x l IH]; intros p a H.
  - split; [exact H|]. intros [].
  - change (free_all p (x :: l)) with (free_all (dma_pool_free p x) l) in H.
    apply IH in H as [Hin Hnot]. cbn [dma_pool_free pool_used] in Hin.
    apply in_remove in Hin as [Hin Hne].
    split; [exact Hin|]. intros [->|Hl]; [congruence|contradiction].
Qed.

Lemma move_to_cleanup_split (running : list mmp_pdma_desc_sw) :
  forall cleanup completed,
    take_through_irq running
    ++ fst (fst (move_to_cleanup running cleanup completed)) = running.
Proof.
  induction running as [|d rest IH]; intros cleanup completed; [reflexivity|].
  cbn [move_to_cleanup take_through_irq].
  destruct (end_of_chain_irq d); [reflexivity|].
  cbn [app]. rewrite IH. reflexivity.
Qed.

Lemma move_to_cleanup_completed (running : list mmp_pdma_desc_sw) :
  forall cleanup completed,
    snd (move_to_cleanup running cleanup completed)
    = match List.find end_of_chain_irq running with
      | Some d => Some (cookie (async_tx d))
      | None => completed
      end.
Proof.
  induction running as [|d rest IH]; intros cleanup completed; [reflexivity|].
  cbn [move_to_cleanup List.find].
  destruct (end_of_chain_irq d); [reflexivity|]. apply IH.
Qed.

Lemma run_cleanup_pool (cleanup : list mmp_pdma_desc_sw) :
  forall chan log,
    desc_pool (fst (run_cleanup chan cleanup log))
    = free_all (desc_pool chan) (map desc_phys cleanup) /\
    chain_pending (fst (run_cleanup chan cleanup log)) = chain_pending chan /\
    completed_cookie (fst (run_cleanup chan cleanup log))
    = completed_cookie chan.
Proof.
  induction cleanup as [|d rest IH]; intros chan log; [repeat split|].
  cbn [run_cleanup].
  match goal with
  | |- context [run_cleanup ?c rest ?l] => destruct (IH c l) as (H1 & H2 & H3)
  end.
  rewrite H1, H2, H3. repeat split.
Qed.

Lemma start_pending_queue_completed (b64 : bool) (pdev : mmp_pdma_device)
    (chan : mmp_pdma_chan) :
  completed_cookie (snd (start_pending_queue b64 pdev chan))
  = completed_cookie chan.
Proof.
  unfold start_pending_queue.
  destruct (status_eqb (status chan) DMA_IN_PROGRESS); [reflexivity|].
  destruct (chain_pending chan) as [|d0 pend].
  - unfold mmp_pdma_free_phy. destruct (phy chan); reflexivity.
  - assert (Hrun : forall pdev1 chan1,
              completed_cookie (snd (run_pending b64 pdev1 chan1))
              = completed_cookie chan1).
    { intros pdev1 chan1. unfold run_pending.
      destruct (take_pending (chain_pending chan1)). reflexivity. }
    destruct (phy chan) as [idx|]; [apply Hrun|].
    destruct (lookup_phy pdev chan) as [[i|] pdev1]; [|reflexivity].
    rewrite Hrun. reflexivity.
Qed.

Lemma qos_put_completed (chan : mmp_pdma_chan) :
  completed_cookie (mmp_pdma_qos_put chan) = completed_cookie chan.
Proof.
  unfold mmp_pdma_qos_put.
  destruct (nonzero (user_do_qos chan)); [reflexivity|].
  destruct (qos_count chan =? 1); reflexivity.
Qed.

Section Completion.

Variable SUPPORT_64BIT : bool.

(** X9.  One run of the completion tasklet on a non-cyclic channel retires
    exactly the running descriptors up to and including the first one with
    the end interrupt flag: these are returned to the pool, the token of
    that flagged descriptor becomes the completed token, and all other
    descriptors stay queued in their order (running first, then
    pending). *)
Theorem tasklet_retires_first_transfer (pdev : mmp_pdma_device)
    (chan : mmp_pdma_chan) :
  status chan <> DMA_COMPLETE -> cyclic_first chan = None ->
  take_through_irq (chain_running chan)
  ++ chain_running (snd (fst (dma_do_tasklet SUPPORT_64BIT pdev chan)))
  ++ chain_pending (snd (fst (dma_do_tasklet SUPPORT_64BIT pdev chan)))
  = chain_running chan ++ chain_pending chan /\
  desc_pool (snd (fst (dma_do_tasklet SUPPORT_64BIT pdev chan)))
  = free_all (desc_pool chan)
      (map desc_phys (rev (take_through_irq (chain_running chan)))) /\
  completed_cookie (snd (fst (dma_do_tasklet SUPPORT_64BIT pdev chan)))
  = match List.find end_of_chain_irq (chain_running chan) with
    | Some d => cookie (async_tx d)
    | None => completed_cookie chan
    end.
Proof.
  intros Hst Hcyc. unfold dma_do_tasklet.
  destruct (status_eqb (status chan) DMA_COMPLETE) eqn:Es.
  { destruct (status chan); try discriminate. contradiction. }
  rewrite Hcyc.
  set (chan0 := match first_irq_cookie (chain_running chan) with
                | Some c => set_bytes_residue (mmp_pdma_residue pdev chan c) chan
                | None => chan
                end).
  assert (Hr0 : chain_running chan0 = chain_running chan)
    by (subst chan0; destruct (first_irq_cookie _); reflexivity).
  assert (Hp0 : chain_pending chan0 = chain_pending chan)
    by (subst chan0; destruct (first_irq_cookie _); reflexivity).
  assert (Hpool0 : desc_pool chan0 = desc_pool chan)
    by (subst chan0; destruct (first_irq_cookie _); reflexivity).
  assert (Hcc0 : completed_cookie chan0 = completed_cookie chan)
    by (subst chan0; destruct (first_irq_cookie _); reflexivity).
  pose proof (move_to_cleanup_split (chain_running chan0) [] None) as Hsplit.
  pose proof (move_to_cleanup_reverses (chain_running chan0) [] None) as Hrev.
  pose proof (move_to_cleanup_completed (chain_running chan0) [] None) as Hco.
  destruct (move_to_cleanup (chain_running chan0) [] None)
    as [[running cleanup] completed].
  cbn [fst snd] in Hsplit, Hrev, Hco. rewrite app_nil_r in Hrev.
  rewrite Hr0 in Hsplit, Hrev, Hco.
  set (chan1 := set_status _ _).
  assert (Hr1 : chain_running chan1 = running)
    by (subst chan1; destruct completed; reflexivity).
  assert (Hp1 : chain_pending chan1 = chain_pending chan)
    by (subst chan1; destruct completed; exact Hp0).
  assert (Hpool1 : desc_pool chan1 = desc_pool chan)
    by (subst chan1; destruct completed; exact Hpool0).
  assert (Hcc1 : completed_cookie chan1
                 = match completed with
                   | Some c => c
                   | None => completed_cookie chan
                   end)
    by (subst chan1; destruct completed; [reflexivity|exact Hcc0]).
  pose proof (start_pending_queue_queues SUPPORT_64BIT pdev chan1)
    as (Hq & Hpool2 & _).
  pose proof (start_pending_queue_completed SUPPORT_64BIT pdev chan1) as Hcc2.
  destruct (start_pending_queue SUPPORT_64BIT pdev chan1)
    as [[ret pdev2] chan2].
  cbn [snd] in Hq, Hpool2, Hcc2.
  set (chan3 := if nonzero ret then mmp_pdma_qos_put chan2 else chan2).
  assert (H3 : chain_running chan3 = chain_running chan2 /\
               chain_pending chan3 = chain_pending chan2 /\
               desc_pool chan3 = desc_pool chan2 /\
               completed_cookie chan3 = completed_cookie chan2).
  { subst chan3. destruct (nonzero ret); [|repeat split].
    pose proof (qos_put_queues chan2) as (? & ? & ?).
    pose proof (qos_put_completed chan2). repeat split; assumption. }
  destruct H3 as (Hr3 & Hp3 & Hpool3 & Hcc3).
  pose proof (run_cleanup_pool cleanup chan3 []) as (Hpool4 & Hp4 & Hcc4).
  pose proof (run_cleanup_frame cleanup chan3 []) as (_ & _ & Hr4 & _).
  destruct (run_cleanup chan3 cleanup []) as [chan4 log].
  cbn [fst snd] in *.
  rewrite Hr4, Hp4, Hpool4, Hcc4, Hr3, Hp3, Hpool3, Hcc3, Hq, Hpool2, Hcc2.
  rewrite Hr1, Hp1, Hpool1, Hcc1, Hrev, Hco.
  split; [|split].
  - rewrite app_assoc, Hsplit. reflexivity.
  - reflexivity.
  - destruct (List.find end_of_chain_irq (chain_running chan)); reflexivity.
Qed.

(** What [mmp_pdma_terminate_all] leaves behind. *)
Lemma terminate_all_effect (pdev : mmp_pdma_device) (chan : mmp_pdma_chan) :
  let pdev' := fst (mmp_pdma_terminate_all SUPPORT_64BIT pdev chan) in
  let chan' := snd (mmp_pdma_terminate_all SUPPORT_64BIT pdev chan) in
  chain_pending chan' = [] /\ chain_running chan' = [] /\
  status chan' = DMA_COMPLETE /\ phy chan' = None /\
  bytes_residue chan' = 0 /\ idle chan' = true /\
  desc_pool chan'
  = free_all (desc_pool chan)
      (map desc_phys (chain_pending chan ++ chain_running chan)) /\
  (all_blocks_queued chan -> pool_used (desc_pool chan') = []) /\
  (forall i : nat, phy chan = Some i ->
     pdev_phy pdev' = <[i := None]> (pdev_phy pdev) /\
     readl (regs pdev') (DRCMR (drcmr chan)) = 0 /\
     ((i < 64)%nat ->
      Z.testbit (readl (regs pdev') (Z.shiftl (Z.of_nat i) 2 + DCSR)) 31
      = false)) /\
  (phy chan = None -> pdev' = pdev).
Proof.
  intros pdev' chan'. subst pdev' chan'. unfold mmp_pdma_terminate_all.
  set (pdev0 := disable_chan SUPPORT_64BIT pdev (phy chan)).
  set (chan0 := set_status DMA_COMPLETE chan).
  assert (Hfree : phy (snd (mmp_pdma_free_phy pdev0 chan0)) = None /\
                  status (snd (mmp_pdma_free_phy pdev0 chan0)) = DMA_COMPLETE).
  { unfold mmp_pdma_free_phy. subst chan0. cbn [phy set_status].
    destruct (phy chan) eqn:E; cbn [snd phy set_phy status set_status];
      split; try reflexivity. exact E. }
  pose proof (free_phy_queues pdev0 chan0) as (Hr1 & Hp1 & Hpool1 & _).
  assert (Hdev : fst (mmp_pdma_free_phy pdev0 chan0)
                 = match phy chan with
                   | Some i =>
                       set_pdev_phy (<[i := None]> (pdev_phy pdev0))
                         (set_regs (writel 0 (DRCMR (drcmr chan)) (regs pdev0))
                            pdev0)
                   | None => pdev0
                   end).
  { unfold mmp_pdma_free_phy. subst chan0. cbn [phy set_status].
    destruct (phy chan); reflexivity. }
  destruct (mmp_pdma_free_phy pdev0 chan0) as [pdev1 chan1].
  cbn [fst snd] in *. destruct Hfree as [Hphy1 Hst1].
  subst chan0. cbn [chain_running chain_pending desc_pool set_status] in *.
  set (chan2 := set_chain_pending []
                  (mmp_pdma_free_desc_list chan1 (chain_pending chan1))).
  set (chan3 := set_chain_running []
                  (mmp_pdma_free_desc_list chan2 (chain_running chan2))).
  assert (Hpool : desc_pool chan3
                  = free_all (desc_pool chan)
                      (map desc_phys (chain_pending chan ++ chain_running chan))).
  { subst chan3.
    change (desc_pool (set_chain_running []
                         (mmp_pdma_free_desc_list chan2 (chain_running chan2))))
      with (desc_pool (mmp_pdma_free_desc_list chan2 (chain_running chan2))).
    rewrite free_desc_list_pool. subst chan2.
    change (chain_running
              (set_chain_pending []
                 (mmp_pdma_free_desc_list chan1 (chain_pending chan1))))
      with (chain_running chan1).
    change (desc_pool
              (set_chain_pending []
                 (mmp_pdma_free_desc_list chan1 (chain_pending chan1))))
      with (desc_pool (mmp_pdma_free_desc_list chan1 (chain_pending chan1))).
    rewrite free_desc_list_pool, Hp1, Hr1, Hpool1, map_app, free_all_app.
    reflexivity. }
  assert (Hfields : chain_pending chan3 = [] /\ chain_running chan3 = [] /\
                    status chan3 = DMA_COMPLETE /\ phy chan3 = None).
  { subst chan3 chan2. repeat split; [exact Hst1|exact Hphy1]. }
  destruct Hfields as (Hp3 & Hr3 & Hst3 & Hphy3).
  set (chan4 := set_idle true (set_bytes_residue 0 chan3)).
  assert (Hput : chain_pending (mmp_pdma_qos_put chan4) = [] /\
                 chain_running (mmp_pdma_qos_put chan4) = [] /\
                 status (mmp_pdma_qos_put chan4) = DMA_COMPLETE /\
                 phy (mmp_pdma_qos_put chan4) = None /\
                 bytes_residue (mmp_pdma_qos_put chan4) = 0 /\
                 idle (mmp_pdma_qos_put chan4) = true /\
                 desc_pool (mmp_pdma_qos_put chan4) = desc_pool chan3).
  { unfold mmp_pdma_qos_put.
    destruct (nonzero (user_do_qos chan4));
      [|destruct (qos_count chan4 =? 1)];
      repeat split; assumption. }
  destruct Hput as (H1 & H2 & H3 & H4 & H5 & H6 & H7).
  rewrite H1, H2, H3, H4, H5, H6, H7, Hpool.
  split; [reflexivity|]. split; [reflexivity|]. split; [reflexivity|].
  split; [reflexivity|]. split; [reflexivity|]. split; [reflexivity|].
  split; [reflexivity|]. split.
  - intros Hall.
    destruct (pool_used (free_all (desc_pool chan) _)) as [|a l] eqn:E;
      [reflexivity|].
    assert (Hin : In a (pool_used (free_all (desc_pool chan)
               (map desc_phys (chain_pending chan ++ chain_running chan)))))
      by (rewrite E; left; reflexivity).
    apply free_all_used in Hin as [Hin Hnot].
    exfalso. apply Hnot, Hall, Hin.
  - rewrite Hdev. split.
    + intros i Hi. rewrite Hi. subst pdev0. rewrite Hi.
      cbn [pdev_phy set_pdev_phy set_regs regs].
      split; [rewrite disable_chan_phy; reflexivity|].
      split; [apply readl_writel_eq|].
      intros Hlt. unfold disable_chan. cbn [regs set_regs].
      assert (E2 : Z.shiftl (Z.of_nat i) 2 = Z.of_nat i * 4)
        by (rewrite Z.shiftl_mul_pow2 by lia; reflexivity).
      pose proof (DRCMR_range (drcmr chan)) as Hd.
      rewrite E2. unfold DCSR in *.
      rewrite readl_writel_ne by lia. rewrite readl_writel_eq.
      destruct SUPPORT_64BIT; rewrite !Z.ldiff_spec, !Z.lor_spec;
        change (Z.testbit DCSR_RUN 31) with true;
        cbn [orb negb]; rewrite ?andb_false_r; reflexivity.
    + intros Hn. subst pdev0. rewrite Hn. reflexivity.
Qed.

(** X10.  [mmp_pdma_terminate_all] leaves the channel with both queues
    empty, status complete, no physical channel, residue 0 and idle; every
    descriptor that was queued is handed back to the pool, so that no block
    stays handed out when all handed-out blocks were on the queues.  The
    physical channel the channel held is unbound in the registry, its
    mapping register is cleared and (for an index below 64) its run bit is
    clear. *)
Theorem terminate_all_resets (pdev : mmp_pdma_device) (chan : mmp_pdma_chan) :
  let pdev' := fst (mmp_pdma_terminate_all SUPPORT_64BIT pdev chan) in
  let chan' := snd (mmp_pdma_terminate_all SUPPORT_64BIT pdev chan) in
  chain_pending chan' = [] /\ chain_running chan' = [] /\
  status chan' = DMA_COMPLETE /\ phy chan' = None /\
  bytes_residue chan' = 0 /\ idle chan' = true /\
  desc_pool chan'
  = free_all (desc_pool chan)
      (map desc_phys (chain_pending chan ++ chain_running chan)) /\
  (all_blocks_queued chan -> pool_used (desc_pool chan') = []) /\
  (forall i : nat, phy chan = Some i ->
     pdev_phy pdev' = <[i := None]> (pdev_phy pdev) /\
     readl (regs pdev') (DRCMR (drcmr chan)) = 0 /\
     ((i < 64)%nat ->
      Z.testbit (readl (regs pdev') (Z.shiftl (Z.of_nat i) 2 + DCSR)) 31
      = false)) /\
  (phy chan = None -> pdev' = pdev).
Proof. exact (terminate_all_effect pdev chan). Qed.

End Completion.

Lemma busy_blocks_queued : all_blocks_queued busy_chan.
Proof.
  intros a Ha. vm_compute in Ha. vm_compute.
  destruct Ha as [<-|[<-|[]]]; auto.
Qed.

Lemma tasklet_retires_first_transfer_witness :
  take_through_irq (chain_running busy_chan)
  ++ chain_running (snd (fst (dma_do_tasklet true busy_pdev busy_chan)))
  ++ chain_pending (snd (fst (dma_do_tasklet true busy_pdev busy_chan)))
  = chain_running busy_chan ++ chain_pending busy_chan /\
  desc_pool (snd (fst (dma_do_tasklet true busy_pdev busy_chan)))
  = free_all (desc_pool busy_chan)
      (map desc_phys (rev (take_through_irq (chain_running busy_chan)))) /\
  completed_cookie (snd (fst (dma_do_tasklet true busy_pdev busy_chan)))
  = match List.find end_of_chain_irq (chain_running busy_chan) with
    | Some d => cookie (async_tx d)
    | None => completed_cookie busy_chan
    end.
Proof.
  apply (tasklet_retires_first_transfer true busy_pdev busy_chan);
    [discriminate | reflexivity].
Defined.

Lemma terminate_all_resets_witness :
  chain_pending (snd (mmp_pdma_terminate_all true busy_pdev busy_chan)) = [] /\
  chain_running (snd (mmp_pdma_terminate_all true busy_pdev busy_chan)) = [] /\
  pool_used (desc_pool (snd (mmp_pdma_terminate_all true busy_pdev busy_chan)))
  = [] /\
  pdev_phy (fst (mmp_pdma_terminate_all true busy_pdev busy_chan))
  = <[0%nat := None]> (pdev_phy busy_pdev) /\
  Z.testbit
    (readl (regs (fst (mmp_pdma_terminate_all true busy_pdev busy_chan)))
       (Z.shiftl (Z.of_nat 0) 2 + DCSR)) 31 = false.
Proof.
  destruct (terminate_all_resets true busy_pdev busy_chan)
    as (Hp & Hr & _ & _ & _ & _ & _ & Hused & Hphy & _).
  destruct (Hphy 0%nat eq_refl) as (Hreg & _ & Hrun).
  split; [exact Hp|]. split; [exact Hr|].
  split; [apply Hused, busy_blocks_queued|].
  split; [exact Hreg|]. apply Hrun. lia.
Defined.

Section CyclicAndQos.

Variable SUPPORT_64BIT : bool.

(** X11.  A cyclic ring is permanent: on a channel in cyclic mode whose
    head descriptor carries a callback, any number of completion interrupts
    runs that callback once per interrupt and leaves the queues, the pool
    and the hardware state exactly as they were.  Once the channel is
    complete (after terminate_all), further interrupts are ignored. *)
Theorem cyclic_ring_persists (n : nat) (pdev : mmp_pdma_device)
    (chan : mmp_pdma_chan) (first : mmp_pdma_desc_sw) (cb : nat) :
  cyclic_first chan = Some (desc_phys first) ->
  chain_running chan !! 0%nat = Some first ->
  callback (async_tx first) = Some cb ->
  (status chan <> DMA_COMPLETE ->
   tasklet_runs SUPPORT_64BIT n pdev chan
   = (pdev, chan, replicate n (cb, cookie (async_tx first)))) /\
  (status chan = DMA_COMPLETE ->
   tasklet_runs SUPPORT_64BIT n pdev chan = (pdev, chan, [])).
Proof.
  intros Hc Hf Hcb. split; intros Hst.
  - assert (Hone : dma_do_tasklet SUPPORT_64BIT pdev chan
                   = (pdev, chan, [(cb, cookie (async_tx first))])).
    { unfold dma_do_tasklet.
      destruct (status_eqb (status chan) DMA_COMPLETE) eqn:Es.
      { destruct (status chan); try discriminate. contradiction. }
      rewrite Hc. destruct (chain_running chan) as [|d0 run]; [discriminate|].
      injection Hf as ->. cbn [app List.find]. unfold desc_phys.
      rewrite Z.eqb_refl, Hcb. reflexivity. }
    induction n as [|n IH]; [reflexivity|].
    cbn [tasklet_runs]. rewrite Hone, IH. reflexivity.
  - assert (Hone : dma_do_tasklet SUPPORT_64BIT pdev chan = (pdev, chan, [])).
    { unfold dma_do_tasklet. rewrite Hst. reflexivity. }
    induction n as [|n IH]; [reflexivity|].
    cbn [tasklet_runs]. rewrite Hone, IH. reflexivity.
Qed.

Lemma start_pending_queue_ret (pdev : mmp_pdma_device) (chan : mmp_pdma_chan) :
  (fst (fst (start_pending_queue SUPPORT_64BIT pdev chan)) = 0 /\
   status (snd (start_pending_queue SUPPORT_64BIT pdev chan)) = DMA_IN_PROGRESS /\
   status chan <> DMA_IN_PROGRESS) \/
  (fst (fst (start_pending_queue SUPPORT_64BIT pdev chan)) = -1 /\
   status (snd (start_pending_queue SUPPORT_64BIT pdev chan)) = status chan).
Proof.
  unfold start_pending_queue.
  destruct (status_eqb (status chan) DMA_IN_PROGRESS) eqn:Es;
    [right; split; reflexivity|].
  assert (Hne : status chan <> DMA_IN_PROGRESS)
    by (intros E; rewrite E in Es; discriminate).
  destruct (chain_pending chan) as [|d0 pend].
  - right. unfold mmp_pdma_free_phy. destruct (phy chan); split; reflexivity.
  - assert (Hrun : forall pdev1 chan1,
              fst (fst (run_pending SUPPORT_64BIT pdev1 chan1)) = 0 /\
              status (snd (run_pending SUPPORT_64BIT pdev1 chan1))
              = DMA_IN_PROGRESS).
    { intros pdev1 chan1. unfold run_pending.
      destruct (take_pending (chain_pending chan1)). split; reflexivity. }
    destruct (phy chan) as [idx|].
    + left. destruct (Hrun pdev chan) as [H1 H2]. repeat split; assumption.
    + destruct (lookup_phy pdev chan) as [[i|] pdev1].
      * left. destruct (Hrun pdev1 (set_phy (Some i) chan)) as [H1 H2].
        repeat split; assumption.
      * right. split; reflexivity.
Qed.

(** X12.  When the driver does the QoS bookkeeping itself
    ([user_do_qos] is 0), the channel's QoS count after
    [mmp_pdma_issue_pending] is 1 exactly if this call started a transfer:
    a call that finds the channel already in progress, an empty pending
    queue or no free physical channel leaves the count at 0. *)
Theorem issue_pending_qos_count (pdev : mmp_pdma_device)
    (chan : mmp_pdma_chan) :
  user_do_qos chan = 0 -> qos_count chan = 0 \/ qos_count chan = 1 ->
  let chan' := snd (mmp_pdma_issue_pending SUPPORT_64BIT pdev chan) in
  qos_count chan'
  = (if negb (status_eqb (status chan) DMA_IN_PROGRESS)
        && status_eqb (status chan') DMA_IN_PROGRESS
     then 1 else 0) /\
  (status chan = DMA_IN_PROGRESS -> qos_count chan' = 0).
Proof.
  intros Hu Hq chan'.
  assert (Hmain : qos_count chan'
                  = if negb (status_eqb (status chan) DMA_IN_PROGRESS)
                       && status_eqb (status chan') DMA_IN_PROGRESS
                    then 1 else 0).
  { subst chan'. unfold mmp_pdma_issue_pending.
    assert (Hget : qos_count (mmp_pdma_qos_get chan) = 1 /\
                   user_do_qos (mmp_pdma_qos_get chan) = 0 /\
                   status (mmp_pdma_qos_get chan) = status chan).
    { unfold mmp_pdma_qos_get. rewrite Hu. cbn [nonzero Z.eqb negb].
      destruct Hq as [E | E]; rewrite E; cbn; repeat split; assumption. }
    destruct Hget as (Hg1 & Hg2 & Hg3).
    pose proof (start_pending_queue_queues SUPPORT_64BIT pdev
                  (mmp_pdma_qos_get chan)) as (_ & _ & Hqc & Huq).
    pose proof (start_pending_queue_ret pdev (mmp_pdma_qos_get chan)) as Hret.
    destruct (start_pending_queue SUPPORT_64BIT pdev (mmp_pdma_qos_get chan))
      as [[ret pdev1] chan1].
    cbn [fst snd] in *. rewrite Hg1 in Hqc. rewrite Hg2 in Huq.
    rewrite Hg3 in Hret.
    destruct Hret as [(-> & Hs1 & Hne) | (-> & Hs1)].
    - cbn [nonzero Z.eqb negb]. rewrite Hqc, Hs1.
      destruct (status chan); try reflexivity. contradiction.
    - cbn [nonzero Z.eqb negb]. unfold mmp_pdma_qos_put.
      rewrite Huq, Hqc. change (1 =? 1) with true.
      cbn [nonzero Z.eqb negb qos_count set_qos_count status].
      rewrite Hs1. destruct (status chan); reflexivity. }
  split; [exact Hmain|].
  intros Hs. rewrite Hmain, Hs. reflexivity.
Qed.

End CyclicAndQos.

Lemma cyclic_ring_persists_witness :
  tasklet_runs true 3 busy_pdev (set_cyclic_first (Some 0x1000) busy_chan)
  = (busy_pdev, set_cyclic_first (Some 0x1000) busy_chan,
     replicate 3 (0%nat, 2)).
Proof.
  edestruct (cyclic_ring_persists true 3 busy_pdev
               (set_cyclic_first (Some 0x1000) busy_chan)) as [H _];
    [ | reflexivity | | ]; [reflexivity | reflexivity | ].
  apply H. discriminate.
Defined.

Lemma issue_pending_qos_count_witness :
  qos_count
    (snd (mmp_pdma_issue_pending true busy_pdev
            {| chan_id := 0; phy := Some 0%nat; dir := DMA_MEM_TO_MEM;
               slave_config := sample_config; cyclic_first := None;
               chan_dcmd := 0; drcmr := 5; dev_addr := 0;
               chain_pending := []; chain_running := running_pair;
               idle := false; byte_align := false; user_do_qos := 0;
               qos_count := 1; status := DMA_IN_PROGRESS;
               bytes_residue := 0; desc_pool := sample_pool;
               chan_cookie := 3; completed_cookie := 1 |})) = 0.
Proof.
  eapply (issue_pending_qos_count true busy_pdev); [reflexivity | right; reflexivity | reflexivity].
Defined.

(** ** The slave builder *)

Section SgShapeLemmas.

Variable SUPPORT_64BIT : bool.

(** With one free block per piece the inner loop of the slave builder runs
    to completion and appends the descriptors of the segment. *)
Lemma sg_inner_loop_shape (addrs : list Z) :
  forall (fuel : nat) (d : dma_transfer_direction) (chan : mmp_pdma_chan)
         (pre : list mmp_pdma_desc_sw) (addr avail : Z) (more : list Z),
    slave_dir_ok d -> 0 < avail -> (Z.to_nat avail < fuel)%nat ->
    pool_free (desc_pool chan) = addrs ++ more ->
    Z.of_nat (length addrs) = chunks avail ->
    exists chan',
      sg_inner_loop SUPPORT_64BIT fuel d chan (link_chain SUPPORT_64BIT pre)
        addr avail
      = (Some (link_chain SUPPORT_64BIT
                 (pre ++ sg_descs SUPPORT_64BIT (chan_dcmd chan) d
                           (dev_addr chan) addrs addr avail)), chan')
      /\ desc_pool chan'
         = {| pool_free := more;
              pool_used := rev addrs ++ pool_used (desc_pool chan) |}
      /\ chan_dcmd chan' = chan_dcmd chan /\ dev_addr chan' = dev_addr chan.
Proof.
  induction addrs as [|a addrs IH]; intros fuel d chan pre addr avail more
    Hdir Hav Hfuel Hpool Hn.
  - pose proof (chunks_pos avail Hav). cbn in Hn. lia.
  - destruct fuel as [|fuel]; [lia|].
    cbn [sg_inner_loop].
    set (chan0 := if nonzero (Z.land addr 7) then set_byte_align true chan
                  else chan).
    assert (Hp0 : desc_pool chan0 = desc_pool chan)
      by (subst chan0; destruct (nonzero _); reflexivity).
    assert (Hc0 : chan_dcmd chan0 = chan_dcmd chan)
      by (subst chan0; destruct (nonzero _); reflexivity).
    assert (Hd0 : dev_addr chan0 = dev_addr chan)
      by (subst chan0; destruct (nonzero _); reflexivity).
    rewrite (alloc_descriptor_some chan0 a (addrs ++ more))
      by (rewrite Hp0; exact Hpool).
    rewrite Hp0.
    set (pool1 := {| pool_free := addrs ++ more;
                     pool_used := a :: pool_used (desc_pool chan) |}).
    set (chan1 := set_desc_pool pool1 chan0).
    change (chan_dcmd chan1) with (chan_dcmd chan0).
    change (dev_addr chan1) with (dev_addr chan0).
    rewrite Hc0, Hd0.
    destruct (sg_set_addrs_ok SUPPORT_64BIT d (dev_addr chan) addr
                (set_dcmd (Z.lor (chan_dcmd chan)
                             (Z.land DCMD_LENGTH
                                (Z.min avail PDMA_MAX_DESC_BYTES)))
                   (desc (zero_desc a))) Hdir) as [hw Hhw].
    rewrite Hhw.
    set (new := with_desc (fun _ => hw) _).
    assert (Hnew : ack_new new
                   = sg_desc SUPPORT_64BIT (chan_dcmd chan) d (dev_addr chan)
                       a addr avail).
    { unfold sg_desc. cbv zeta. rewrite Hhw. reflexivity. }
    rewrite (link_chain_push SUPPORT_64BIT pre new (ack_new new))
      by reflexivity.
    rewrite Hnew. cbn [sg_descs].
    destruct (Z.leb_spec avail PDMA_MAX_DESC_BYTES) as [Hsmall|Hbig].
    + rewrite !Z.min_l by lia. rewrite Z.sub_diag. cbn [Z.eqb].
      rewrite chunks_small in Hn by lia.
      destruct addrs; [|cbn in Hn; lia].
      exists chan1. split; [reflexivity|]. split; [reflexivity|].
      split; [exact Hc0|exact Hd0].
    + rewrite !Z.min_r by lia.
      destruct (Z.eqb_spec (avail - PDMA_MAX_DESC_BYTES) 0) as [E|_]; [lia|].
      rewrite chunks_big in Hn by lia.
      destruct (IH fuel d chan1
                  (pre ++ [sg_desc SUPPORT_64BIT (chan_dcmd chan) d
                             (dev_addr chan) a addr avail])
                  (u64 (addr + PDMA_MAX_DESC_BYTES))
                  (avail - PDMA_MAX_DESC_BYTES) more)
        as (chan' & Hrun & Hpool' & Hc' & Hd').
      * exact Hdir.
      * lia.
      * unfold PDMA_MAX_DESC_BYTES, DCMD_LENGTH in *. lia.
      * reflexivity.
      * cbn [length] in Hn. lia.
      * exists chan'.
        change (chan_dcmd chan1) with (chan_dcmd chan0) in Hrun, Hc'.
        change (dev_addr chan1) with (dev_addr chan0) in Hrun, Hd'.
        rewrite Hc0 in Hrun, Hc'. rewrite Hd0 in Hrun, Hd'.
        split; [|split; [|split; assumption]].
        -- rewrite <- app_assoc in Hrun. exact Hrun.
        -- rewrite Hpool'. subst chan1 pool1.
           cbn [desc_pool set_desc_pool pool_used rev].
           rewrite <- !app_assoc. reflexivity.
Qed.

(** The outer loop: [n] blocks for every segment, each segment cut with
    the length of the first one. *)
Lemma sg_outer_loop_shape (sgl rest : list scatterlist) :
  forall (d : dma_transfer_direction) (chan : mmp_pdma_chan)
         (pre : list mmp_pdma_desc_sw) (addrs more : list Z)
         (s0 : scatterlist) (tl : list scatterlist),
    sgl = s0 :: tl -> slave_dir_ok d -> 0 < sg_dma_len s0 ->
    pool_free (desc_pool chan) = addrs ++ more ->
    length addrs
    = (length rest * Z.to_nat (chunks (sg_dma_len s0)))%nat ->
    exists chan',
      sg_outer_loop SUPPORT_64BIT sgl rest d chan
        (link_chain SUPPORT_64BIT pre)
      = (Some (link_chain SUPPORT_64BIT
                 (pre ++ sg_list_descs SUPPORT_64BIT (chan_dcmd chan) d
                           (dev_addr chan)
                           (Z.to_nat (chunks (sg_dma_len s0)))
                           (sg_dma_len s0) rest addrs)), chan')
      /\ desc_pool chan'
         = {| pool_free := more;
              pool_used := rev addrs ++ pool_used (desc_pool chan) |}
      /\ chan_dcmd chan' = chan_dcmd chan /\ dev_addr chan' = dev_addr chan.
Proof.
  induction rest as [|sg rest IH]; intros d chan pre addrs more s0 tl
    Hsgl Hdir Hlen Hpool Hn.
  - cbn [sg_outer_loop sg_list_descs]. rewrite app_nil_r.
    destruct addrs; [|discriminate].
    exists chan. split; [reflexivity|]. split; [|split; reflexivity].
    cbn [rev app] in *. rewrite <- Hpool. apply pool_eta.
  - cbn [sg_outer_loop sg_list_descs]. rewrite Hsgl.
    set (n := Z.to_nat (chunks (sg_dma_len s0))) in *.
    pose proof (chunks_pos _ Hlen) as Hcp.
    assert (Hge : (n <= length addrs)%nat) by (cbn [length] in Hn; lia).
    destruct (sg_inner_loop_shape (take n addrs) (S (Z.to_nat (sg_dma_len s0)))
                d chan pre (sg_dma_address sg) (sg_dma_len s0)
                (drop n addrs ++ more))
      as (chan1 & Hrun & Hpool1 & Hc1 & Hd1).
    + exact Hdir.
    + exact Hlen.
    + lia.
    + rewrite app_assoc, take_drop. exact Hpool.
    + rewrite length_take. subst n. lia.
    + rewrite Hrun.
      destruct (IH d chan1
                  (pre ++ sg_descs SUPPORT_64BIT (chan_dcmd chan) d
                            (dev_addr chan) (take n addrs)
                            (sg_dma_address sg) (sg_dma_len s0))
                  (drop n addrs) more s0 tl Hsgl Hdir Hlen)
        as (chan' & Hrun' & Hpool' & Hc' & Hd').
      * rewrite Hpool1. reflexivity.
      * rewrite length_drop. cbn [length] in Hn. fold n. lia.
      * exists chan'. rewrite Hc1, Hd1 in Hrun'. rewrite Hsgl in Hrun'.
        split; [|split; [|split; congruence]].
        -- rewrite <- app_assoc in Hrun'. exact Hrun'.
        -- rewrite Hpool', Hpool1. cbn [pool_used].
           rewrite app_assoc, <- rev_app_distr, take_drop. reflexivity.
Qed.

End SgShapeLemmas.

Lemma buffer_pieces_small (addr avail : Z) :
  0 < avail <= PDMA_MAX_DESC_BYTES -> buffer_pieces addr avail = [(u32 addr, avail)].
Proof.
  intros H. unfold buffer_pieces. rewrite chunks_small by exact H.
  change (seq 0 (Z.to_nat 1)) with [0%nat]. cbn [map].
  change (Z.of_nat 0) with 0.
  rewrite Z.mul_0_r, Z.add_0_r, Z.sub_0_r, Z.min_l by lia. reflexivity.
Qed.

Lemma buffer_pieces_step (addr avail : Z) :
  PDMA_MAX_DESC_BYTES < avail ->
  buffer_pieces addr avail
  = (u32 addr, PDMA_MAX_DESC_BYTES)
    :: buffer_pieces (addr + PDMA_MAX_DESC_BYTES) (avail - PDMA_MAX_DESC_BYTES).
Proof.
  intros H. unfold buffer_pieces. rewrite (chunks_big avail) by exact H.
  assert (Hpos : 0 < chunks (avail - PDMA_MAX_DESC_BYTES)).
  { apply chunks_pos. unfold PDMA_MAX_DESC_BYTES, DCMD_LENGTH in *. lia. }
  replace (Z.to_nat (chunks (avail - PDMA_MAX_DESC_BYTES) + 1))
    with (S (Z.to_nat (chunks (avail - PDMA_MAX_DESC_BYTES)))) by lia.
  cbn [seq map]. rewrite <- seq_shift, map_map.
  change (Z.of_nat 0) with 0.
  rewrite Z.mul_0_r, Z.add_0_r, Z.sub_0_r, Z.min_r by lia.
  f_equal. apply map_ext. intros k.
  f_equal; [f_equal|f_equal]; lia.
Qed.

Lemma u32_u64_add (x y : Z) : u32 (u64 x + y) = u32 (x + y).
Proof.
  unfold u32, u64.
  rewrite <- (Z.mod_mod_divide (x mod 2 ^ 64 + y) (2 ^ 64) (2 ^ 32))
    by (exists (2 ^ 32); reflexivity).
  rewrite Zplus_mod_idemp_l.
  apply Z.mod_mod_divide. exists (2 ^ 32); reflexivity.
Qed.

Lemma buffer_pieces_u64 (addr avail : Z) :
  buffer_pieces (u64 addr) avail = buffer_pieces addr avail.
Proof.
  unfold buffer_pieces. apply map_ext. intros k.
  rewrite u32_u64_add. reflexivity.
Qed.

Lemma buffer_pieces_sum (n : nat) :
  forall addr avail,
    0 < avail -> Z.to_nat (chunks avail) = n ->
    fold_right Z.add 0 (map snd (buffer_pieces addr avail)) = avail.
Proof.
  induction n as [|n IH]; intros addr avail Hav Hn.
  - pose proof (chunks_pos avail Hav). lia.
  - destruct (Z.leb_spec avail PDMA_MAX_DESC_BYTES) as [Hsmall|Hbig].
    + rewrite buffer_pieces_small by lia. cbn. lia.
    + rewrite buffer_pieces_step by exact Hbig. cbn [map snd fold_right].
      rewrite IH.
      * lia.
      * unfold PDMA_MAX_DESC_BYTES, DCMD_LENGTH in *. lia.
      * rewrite chunks_big in Hn by exact Hbig.
        assert (0 < chunks (avail - PDMA_MAX_DESC_BYTES)).
        { apply chunks_pos. unfold PDMA_MAX_DESC_BYTES, DCMD_LENGTH in *. lia. }
        lia.
Qed.

Section SgObservations.

Variable SUPPORT_64BIT : bool.

Lemma sg_desc_obs (c0 : Z) (d : dma_transfer_direction) (dev a addr avail : Z) :
  slave_dir_ok d -> dcmd_clean c0 -> 0 < avail ->
  piece_of d (sg_desc SUPPORT_64BIT c0 d dev a addr avail)
  = (u32 addr, Z.min avail PDMA_MAX_DESC_BYTES) /\
  dev_side d (sg_desc SUPPORT_64BIT c0 d dev a addr avail) = dev /\
  end_of_chain_irq (sg_desc SUPPORT_64BIT c0 d dev a addr avail) = false /\
  desc_phys (sg_desc SUPPORT_64BIT c0 d dev a addr avail) = a /\
  callback (async_tx (sg_desc SUPPORT_64BIT c0 d dev a addr avail)) = None.
Proof.
  intros Hd Hc Hav.
  assert (Hlen : Z.land (Z.lor c0 (Z.land DCMD_LENGTH
                                      (Z.min avail PDMA_MAX_DESC_BYTES)))
                   DCMD_LENGTH = Z.min avail PDMA_MAX_DESC_BYTES).
  { apply dcmd_length_field; [exact Hc|].
    unfold PDMA_MAX_DESC_BYTES, DCMD_LENGTH. lia. }
  assert (Hirq : Z.land (Z.lor c0 (Z.land DCMD_LENGTH
                                      (Z.min avail PDMA_MAX_DESC_BYTES)))
                   DCMD_ENDIRQEN = 0)
    by (apply dcmd_irq_field_clear; exact Hc).
  destruct Hd as [-> | ->];
    unfold piece_of, span_start, desc_len, dev_side, end_of_chain_irq,
      desc_phys, sg_desc;
    cbn [sg_set_addrs default from_option id desc dcmd dsadr dtadr async_tx
         phys callback ack_new with_desc with_tx set_addrs set_dcmd set_flags
         set_cookie zero_desc];
    rewrite Hlen, Hirq, land_low_word; repeat split.
Qed.

Lemma sg_descs_pieces (c0 : Z) (d : dma_transfer_direction) (dev : Z)
    (addrs : list Z) :
  forall addr avail,
    slave_dir_ok d -> dcmd_clean c0 -> 0 < avail ->
    Z.of_nat (length addrs) = chunks avail ->
    map (piece_of d) (sg_descs SUPPORT_64BIT c0 d dev addrs addr avail)
    = buffer_pieces addr avail.
Proof.
  induction addrs as [|a addrs IH]; intros addr avail Hd Hc Hav Hn.
  - pose proof (chunks_pos avail Hav). cbn in Hn. lia.
  - cbn [sg_descs map].
    destruct (sg_desc_obs c0 d dev a addr avail Hd Hc Hav) as (-> & _).
    destruct (Z.leb_spec avail PDMA_MAX_DESC_BYTES) as [Hsmall|Hbig].
    + rewrite chunks_small in Hn by lia.
      destruct addrs; [|cbn in Hn; lia].
      rewrite buffer_pieces_small by lia. rewrite Z.min_l by lia.
      reflexivity.
    + rewrite buffer_pieces_step by exact Hbig.
      rewrite !Z.min_r by lia. f_equal.
      rewrite IH.
      * apply buffer_pieces_u64.
      * exact Hd.
      * exact Hc.
      * unfold PDMA_MAX_DESC_BYTES, DCMD_LENGTH in *. lia.
      * rewrite chunks_big in Hn by exact Hbig. cbn [length] in Hn. lia.
Qed.

(** Every descriptor of a segment is a fresh descriptor of the expected
    shape at one of the blocks. *)
Lemma sg_descs_Forall (P : Z -> Prop) (c0 : Z) (d : dma_transfer_direction)
    (dev : Z) (addrs : list Z) :
  forall addr avail,
    0 < avail -> Z.of_nat (length addrs) = chunks avail ->
    Forall P addrs ->
    Forall (fun x => exists a addr' avail',
                       P a /\ 0 < avail' /\
                       x = sg_desc SUPPORT_64BIT c0 d dev a addr' avail')
      (sg_descs SUPPORT_64BIT c0 d dev addrs addr avail).
Proof.
  induction addrs as [|a addrs IH]; intros addr avail Hav Hn HP;
    [constructor|].
  cbn [sg_descs]. inversion HP as [|? ? Pa Prest]; subst.
  constructor.
  - exists a, addr, avail. repeat split; assumption.
  - destruct addrs as [|a' addrs']; [constructor|].
    destruct (Z.leb_spec avail PDMA_MAX_DESC_BYTES) as [Hsmall|Hbig].
    + rewrite chunks_small in Hn by lia. cbn in Hn. lia.
    + rewrite Z.min_r by lia. apply IH.
      * unfold PDMA_MAX_DESC_BYTES, DCMD_LENGTH in *. lia.
      * rewrite chunks_big in Hn by exact Hbig. cbn [length] in *. lia.
      * exact Prest.
Qed.

Lemma sg_list_descs_pieces (c0 : Z) (d : dma_transfer_direction) (dev L : Z)
    (rest : list scatterlist) :
  forall addrs,
    slave_dir_ok d -> dcmd_clean c0 -> 0 < L ->
    length addrs = (length rest * Z.to_nat (chunks L))%nat ->
    map (piece_of d)
      (sg_list_descs SUPPORT_64BIT c0 d dev (Z.to_nat (chunks L)) L rest addrs)
    = concat (map (fun sg => buffer_pieces (sg_dma_address sg) L) rest).
Proof.
  pose proof (chunks_pos L) as Hcp.
  induction rest as [|sg rest IH]; intros addrs Hd Hc HL Hn; [reflexivity|].
  cbn [sg_list_descs map concat]. rewrite map_app.
  rewrite sg_descs_pieces; try assumption.
  - f_equal. apply IH; try assumption.
    rewrite length_drop. cbn [length] in Hn. lia.
  - rewrite length_take. cbn [length] in Hn. lia.
Qed.

Lemma sg_list_descs_Forall (P : Z -> Prop) (c0 : Z)
    (d : dma_transfer_direction) (dev L : Z) (rest : list scatterlist) :
  forall addrs,
    0 < L ->
    length addrs = (length rest * Z.to_nat (chunks L))%nat ->
    Forall P addrs ->
    Forall (fun x => exists a addr' avail',
                       P a /\ 0 < avail' /\
                       x = sg_desc SUPPORT_64BIT c0 d dev a addr' avail')
      (sg_list_descs SUPPORT_64BIT c0 d dev (Z.to_nat (chunks L)) L rest addrs).
Proof.
  pose proof (chunks_pos L) as Hcp.
  induction rest as [|sg rest IH]; intros addrs HL Hn HP; [constructor|].
  cbn [sg_list_descs]. apply Forall_app. split.
  - apply sg_descs_Forall; [exact HL| |apply Forall_take; exact HP].
    rewrite length_take. cbn [length] in Hn. lia.
  - apply IH; [exact HL| |apply Forall_drop; exact HP].
    rewrite length_drop. cbn [length] in Hn. lia.
Qed.

Lemma sg_list_descs_length (c0 : Z) (d : dma_transfer_direction) (dev L : Z)
    (rest : list scatterlist) :
  forall addrs,
    0 < L -> length addrs = (length rest * Z.to_nat (chunks L))%nat ->
    length (sg_list_descs SUPPORT_64BIT c0 d dev (Z.to_nat (chunks L)) L
              rest addrs)
    = length addrs.
Proof.
  intros addrs HL Hn.
  assert (Hgen : forall (r : list scatterlist) (a : list Z),
            length a = (length r * Z.to_nat (chunks L))%nat ->
            length (sg_list_descs SUPPORT_64BIT c0 d dev
                      (Z.to_nat (chunks L)) L r a) = length a).
  { pose proof (chunks_pos L HL) as Hcp.
    induction r as [|sg r IH]; intros a Ha.
    - cbn in *. lia.
    - cbn [sg_list_descs]. rewrite length_app.
      rewrite IH by (rewrite length_drop; cbn [length] in Ha; lia).
      rewrite length_drop.
      assert (Hone : forall (l : list Z) addr avail,
                length (sg_descs SUPPORT_64BIT c0 d dev l addr avail)
                = length l).
      { induction l as [|x l IHl]; intros addr avail; [reflexivity|].
        cbn [sg_descs length]. rewrite IHl. reflexivity. }
      rewrite Hone, length_take. cbn [length] in Ha. lia. }
  apply Hgen. exact Hn.
Qed.

End SgObservations.

(** The flags of a finished chain: every descriptor but the last points to
    its successor and carries neither the stop marker nor the end
    interrupt flag; the last one carries both. *)
Lemma finished_chain_flags (b64 : bool)
    (f : dma_async_tx_descriptor -> dma_async_tx_descriptor)
    (news : list mmp_pdma_desc_sw) :
  (forall t, phys (f t) = phys t) ->
  Forall (fun x => desc_phys x mod 32 = 0 /\ end_of_chain_irq x = false) news ->
  forall (i : nat) (d : mmp_pdma_desc_sw),
    map_last stop_and_irq (map_head (with_tx f) (link_chain b64 news)) !! i
    = Some d ->
    match map_last stop_and_irq (map_head (with_tx f) (link_chain b64 news))
          !! S i with
    | Some y =>
        ddadr (desc d) = u32 (desc_phys y) /\
        end_of_chain_irq d = false /\ ddadr_stop d = false
    | None =>
        ddadr (desc d) = DDADR_STOP /\
        end_of_chain_irq d = true /\ ddadr_stop d = true
    end.
Proof.
  intros Hf Hall i d Hd.
  set (fin := map_last stop_and_irq (map_head (with_tx f) (link_chain b64 news)))
    in *.
  assert (Hlen : length fin = length news).
  { subst fin. rewrite map_last_length, map_head_length, link_chain_length.
    reflexivity. }
  destruct (finished_lookup b64 f _ news i d Hf Hd) as (x & Hx & _ & Hdesc).
  pose proof (Forall_lookup_1 _ _ _ _ Hall Hx) as [_ Hirqx].
  destruct (fin !! S i) as [y|] eqn:Hy.
  - destruct (finished_lookup b64 f _ news (S i) y Hf Hy)
      as (x' & Hx' & Hphys & _).
    rewrite Hx' in Hdesc.
    pose proof (Forall_lookup_1 _ _ _ _ Hall Hx') as [Hal _].
    unfold end_of_chain_irq, ddadr_stop in *. rewrite Hdesc.
    cbn [link_to with_desc desc ddadr dcmd set_ddadrh set_ddadr].
    rewrite Hphys. split; [reflexivity|]. split; [exact Hirqx|].
    rewrite u32_aligned_no_stop by exact Hal. reflexivity.
  - assert (Hnone : news !! S i = None).
    { apply lookup_ge_None_2. apply lookup_ge_None_1 in Hy. lia. }
    rewrite Hnone in Hdesc.
    unfold end_of_chain_irq, ddadr_stop. rewrite Hdesc.
    cbn [ddadr dcmd set_dcmd set_ddadr].
    split; [reflexivity|]. split; [apply lor_irq_set|reflexivity].
Qed.

Lemma piece_of_stop_and_irq (d : dma_transfer_direction) (x : mmp_pdma_desc_sw) :
  piece_of d (stop_and_irq x) = piece_of d x.
Proof.
  unfold piece_of, span_start, desc_len, stop_and_irq.
  cbn [with_desc desc dcmd dsadr dtadr set_dcmd set_ddadr].
  rewrite lor_irq_length. destruct d; reflexivity.
Qed.

Lemma piece_of_link_to (b64 : bool) (d : dma_transfer_direction)
    (n x : mmp_pdma_desc_sw) :
  piece_of d (link_to b64 n x) = piece_of d x.
Proof. unfold piece_of, span_start, desc_len. destruct d; reflexivity. Qed.

Lemma dev_side_stop_and_irq (d : dma_transfer_direction) (x : mmp_pdma_desc_sw) :
  dev_side d (stop_and_irq x) = dev_side d x.
Proof. destruct d; reflexivity. Qed.

Lemma sum_list_app (l1 l2 : list Z) :
  fold_right Z.add 0 (l1 ++ l2) = fold_right Z.add 0 l1 + fold_right Z.add 0 l2.
Proof. induction l1 as [|x l1 IH]; cbn [app fold_right]; [reflexivity|lia]. Qed.

Lemma sum_len_pieces (d : dma_transfer_direction) (l : list mmp_pdma_desc_sw) :
  sum_len l = fold_right Z.add 0 (map snd (map (piece_of d) l)).
Proof.
  rewrite sum_len_map, map_map. reflexivity.
Qed.

Lemma segments_pieces_sum (L : Z) (sgl : list scatterlist) :
  0 < L -> Forall (fun sg => sg_dma_len sg = L) sgl ->
  fold_right Z.add 0
    (map snd (concat (map (fun sg => buffer_pieces (sg_dma_address sg) L) sgl)))
  = fold_right Z.add 0 (map sg_dma_len sgl).
Proof.
  intros HL Hall. induction Hall as [|sg sgl Hsg Hall IH]; [reflexivity|].
  cbn [map concat fold_right]. rewrite map_app, sum_list_app, IH.
  rewrite (buffer_pieces_sum (Z.to_nat (chunks L))) by (try reflexivity; exact HL).
  lia.
Qed.

Lemma config_write_dev_addr (chan : mmp_pdma_chan) (cfg : dma_slave_config)
    (d : dma_transfer_direction) :
  slave_dir_ok d ->
  dev_addr (mmp_pdma_config_write chan cfg d)
  = u32 (match d with
         | DMA_DEV_TO_MEM => src_addr cfg
         | _ => dst_addr cfg
         end).
Proof.
  intros [-> | ->]; unfold mmp_pdma_config_write;
    repeat match goal with
           | |- context [if ?b then _ else _] => destruct b
           end; reflexivity.
Qed.

Section SgTheorem.

Variable SUPPORT_64BIT : bool.

(** The chain and the channel the slave builder returns when the pool has
    enough free descriptors, in closed form. *)
Lemma prep_slave_sg_closed (chan : mmp_pdma_chan) (s0 : scatterlist)
    (tl : list scatterlist) (d : dma_transfer_direction) (flags : Z) :
  0 < sg_dma_len s0 -> slave_dir_ok d -> pool_ok (desc_pool chan) ->
  Z.of_nat (length (s0 :: tl)) * chunks (sg_dma_len s0)
  <= Z.of_nat (length (pool_free (desc_pool chan))) ->
  exists (addrs more : list Z) (chan1 : mmp_pdma_chan) (c0 : Z),
    pool_free (desc_pool chan) = addrs ++ more /\
    length addrs
    = (length (s0 :: tl) * Z.to_nat (chunks (sg_dma_len s0)))%nat /\
    Forall (fun a => a mod 32 = 0) addrs /\
    dcmd_clean c0 /\
    mmp_pdma_prep_slave_sg SUPPORT_64BIT chan (s0 :: tl) d flags
    = (Some
         (map_last stop_and_irq
            (map_head
               (with_tx (fun t => set_flags flags (set_cookie (- EBUSY) t)))
               (link_chain SUPPORT_64BIT
                  (sg_list_descs SUPPORT_64BIT c0 d
                     (u32 (match d with
                           | DMA_DEV_TO_MEM => src_addr (slave_config chan)
                           | _ => dst_addr (slave_config chan)
                           end))
                     (Z.to_nat (chunks (sg_dma_len s0))) (sg_dma_len s0)
                     (s0 :: tl) addrs)))),
       set_cyclic_first None (set_dir d chan1)) /\
    desc_pool chan1
    = {| pool_free := more;
         pool_used := rev addrs ++ pool_used (desc_pool chan) |}.
Proof.
  intros HL Hdir Hok Hroom.
  unfold mmp_pdma_prep_slave_sg.
  set (chanB := mmp_pdma_config_write (set_byte_align true chan)
                  (slave_config (set_byte_align true chan)) d).
  destruct (config_write_slave (set_byte_align true chan)
              (slave_config (set_byte_align true chan)) d Hdir)
    as (Hclean & _ & HpoolB).
  pose proof (config_write_dev_addr (set_byte_align true chan)
                (slave_config (set_byte_align true chan)) d Hdir) as HdevB.
  fold chanB in Hclean, HpoolB, HdevB.
  change (desc_pool (set_byte_align true chan)) with (desc_pool chan) in HpoolB.
  change (slave_config (set_byte_align true chan)) with (slave_config chan)
    in HdevB.
  pose proof (chunks_pos _ HL) as Hcp.
  destruct (pool_split (pool_free (desc_pool chan))
              (Z.of_nat (length (s0 :: tl)) * chunks (sg_dma_len s0)))
    as (addrs & more & Hfree & Haddrs); [lia|].
  assert (Hn : length addrs
               = (length (s0 :: tl) * Z.to_nat (chunks (sg_dma_len s0)))%nat)
    by nia.
  destruct (sg_outer_loop_shape SUPPORT_64BIT (s0 :: tl) (s0 :: tl) d chanB []
              addrs more s0 tl eq_refl Hdir HL)
    as (chan1 & Hrun & Hpool1 & Hc1 & Hd1).
  { rewrite HpoolB. exact Hfree. }
  { exact Hn. }
  cbn [link_chain app] in Hrun. rewrite Hrun. rewrite HdevB in Hrun |- *.
  exists addrs, more, chan1, (chan_dcmd chanB).
  split; [exact Hfree|]. split; [exact Hn|]. split.
  { destruct Hok as [_ Hal]. rewrite Hfree in Hal.
    apply Forall_app in Hal as [Hal _].
    eapply Forall_impl; [exact Hal|]. intros a [_ Ha]. exact Ha. }
  split; [exact Hclean|]. split; [reflexivity|].
  rewrite Hpool1, HpoolB. reflexivity.
Qed.

(** X13.  What the slave builder builds for a list of segments when the
    pool has enough free descriptors: every segment is cut into pieces of
    at most [PDMA_MAX_DESC_BYTES] bytes starting at the segment's own
    address, always with the length of the first segment; when all segments
    have that length the descriptor lengths sum to the total length of the
    list.  Every descriptor carries the configured device address on its
    device side, every descriptor but the last points to its successor, and
    only the last carries the stop marker and the end interrupt flag. *)
Theorem prep_slave_sg_shape (chan : mmp_pdma_chan) (s0 : scatterlist)
    (tl : list scatterlist) (d : dma_transfer_direction) (flags : Z) :
  0 < sg_dma_len s0 -> slave_dir_ok d -> pool_ok (desc_pool chan) ->
  Z.of_nat (length (s0 :: tl)) * chunks (sg_dma_len s0)
  <= Z.of_nat (length (pool_free (desc_pool chan))) ->
  exists tx_list chan',
    mmp_pdma_prep_slave_sg SUPPORT_64BIT chan (s0 :: tl) d flags
    = (Some tx_list, chan') /\
    map (piece_of d) tx_list
    = concat (map (fun sg => buffer_pieces (sg_dma_address sg) (sg_dma_len s0))
                (s0 :: tl)) /\
    (Forall (fun sg => sg_dma_len sg = sg_dma_len s0) tl ->
     sum_len tx_list = fold_right Z.add 0 (map sg_dma_len (s0 :: tl))) /\
    dir chan' = d /\ cyclic_first chan' = None /\
    forall (i : nat) (d' : mmp_pdma_desc_sw),
      tx_list !! i = Some d' ->
      dev_side d d'
      = u32 (match d with
             | DMA_DEV_TO_MEM => src_addr (slave_config chan)
             | _ => dst_addr (slave_config chan)
             end) /\
      match tx_list !! S i with
      | Some y =>
          ddadr (desc d') = u32 (desc_phys y) /\
          end_of_chain_irq d' = false /\ ddadr_stop d' = false
      | None =>
          ddadr (desc d') = DDADR_STOP /\
          end_of_chain_irq d' = true /\ ddadr_stop d' = true
      end.
Proof.
  intros HL Hdir Hok Hroom.
  destruct (prep_slave_sg_closed chan s0 tl d flags HL Hdir Hok Hroom)
    as (addrs & more & chan1 & c0 & Hfree & Hn & Hall & Hclean & Hrun & Hpool1).
  set (dev := u32 (match d with
                   | DMA_DEV_TO_MEM => src_addr (slave_config chan)
                   | _ => dst_addr (slave_config chan)
                   end)) in *.
  set (news := sg_list_descs SUPPORT_64BIT c0 d dev
                 (Z.to_nat (chunks (sg_dma_len s0))) (sg_dma_len s0)
                 (s0 :: tl) addrs) in *.
  pose proof (sg_list_descs_Forall SUPPORT_64BIT (fun a => a mod 32 = 0)
                c0 d dev (sg_dma_len s0) (s0 :: tl) addrs HL Hn Hall)
    as Hshape.
  fold news in Hshape.
  assert (Hnews : Forall (fun x => desc_phys x mod 32 = 0 /\
                                   end_of_chain_irq x = false) news).
  { eapply Forall_impl; [exact Hshape|].
    intros x (a & addr' & avail' & Ha & Hav & ->).
    destruct (sg_desc_obs SUPPORT_64BIT c0 d dev a addr' avail' Hdir Hclean Hav)
      as (_ & _ & Hirq & Hphys & _).
    rewrite Hphys. split; assumption. }
  assert (Hpieces : map (piece_of d)
                      (map_last stop_and_irq
                         (map_head
                            (with_tx (fun t => set_flags flags
                                                 (set_cookie (- EBUSY) t)))
                            (link_chain SUPPORT_64BIT news)))
                    = concat (map (fun sg => buffer_pieces (sg_dma_address sg)
                                               (sg_dma_len s0)) (s0 :: tl))).
  { rewrite map_last_obs by apply piece_of_stop_and_irq.
    rewrite map_head_obs by reflexivity.
    rewrite link_chain_obs by apply piece_of_link_to.
    subst news. apply sg_list_descs_pieces; assumption. }
  eexists. eexists. split; [exact Hrun|].
  split; [exact Hpieces|]. split.
  { intros Heq. rewrite (sum_len_pieces d), Hpieces.
    apply segments_pieces_sum; [exact HL|].
    constructor; [reflexivity|exact Heq]. }
  split; [reflexivity|]. split; [reflexivity|].
  intros i d' Hd'. split.
  - destruct (finished_lookup SUPPORT_64BIT
                (fun t => set_flags flags (set_cookie (- EBUSY) t)) _ news i d'
                (fun t => eq_refl) Hd') as (x & Hx & _ & Hdesc).
    pose proof (Forall_lookup_1 _ _ _ _ Hshape Hx)
      as (a & addr' & avail' & Ha & Hav & Hxeq).
    destruct (sg_desc_obs SUPPORT_64BIT c0 d dev a addr' avail' Hdir Hclean Hav)
      as (_ & Hdev & _).
    rewrite <- Hxeq in Hdev. rewrite <- Hdev.
    unfold dev_side. destruct (news !! S i); rewrite Hdesc;
      destruct d; reflexivity.
  - apply (finished_chain_flags SUPPORT_64BIT
             (fun t => set_flags flags (set_cookie (- EBUSY) t)) news
             (fun t => eq_refl) Hnews i d' Hd').
Qed.

End SgTheorem.

Lemma prep_slave_sg_shape_witness :
  exists tx_list chan',
    mmp_pdma_prep_slave_sg true sample_chan
      ({| sg_dma_address := 0x8000; sg_dma_len := 100 |}
       :: [ {| sg_dma_address := 0x9000; sg_dma_len := 100 |} ])
      DMA_DEV_TO_MEM 0
    = (Some tx_list, chan') /\
    map (piece_of DMA_DEV_TO_MEM) tx_list
    = concat (map (fun sg => buffer_pieces (sg_dma_address sg) 100)
                ({| sg_dma_address := 0x8000; sg_dma_len := 100 |}
                 :: [ {| sg_dma_address := 0x9000; sg_dma_len := 100 |} ])) /\
    sum_len tx_list = 200.
Proof.
  destruct (prep_slave_sg_shape true sample_chan
              {| sg_dma_address := 0x8000; sg_dma_len := 100 |}
              [ {| sg_dma_address := 0x9000; sg_dma_len := 100 |} ]
              DMA_DEV_TO_MEM 0)
    as (tx_list & chan' & Hrun & Hpieces & Hsum & _).
  - cbn. lia.
  - right. reflexivity.
  - exact sample_pool_ok.
  - vm_compute. discriminate.
  - exists tx_list, chan'. split; [exact Hrun|]. split; [exact Hpieces|].
    apply Hsum. repeat constructor.
Defined.

(** ** The slave configuration *)

(** X14.  For a slave direction [mmp_pdma_config_write] builds the command
    word of the channel from the configuration alone, whatever the word was
    before: the width field (bits 14-15) and the burst field (bits 16-18)
    hold the codes of the device-side bus width and burst size (0 for a
    value the hardware does not know, which includes a burst of 64), the
    memory side increments and the device side does the flow control, the
    length and end interrupt bits are clear, and the device address is the
    low word of the configured address of the device side. *)
Theorem config_write_fields (chan : mmp_pdma_chan) (cfg : dma_slave_config)
    (d : dma_transfer_direction) (old : Z) :
  slave_dir_ok d ->
  let c := chan_dcmd (mmp_pdma_config_write chan cfg d) in
  Z.land (Z.shiftr c 14) 3
  = width_code (match d with
                | DMA_DEV_TO_MEM => src_addr_width cfg
                | _ => dst_addr_width cfg
                end) /\
  Z.land (Z.shiftr c 16) 7
  = burst_code (match d with
                | DMA_DEV_TO_MEM => src_maxburst cfg
                | _ => dst_maxburst cfg
                end) /\
  Z.testbit c 31 = dir_eqb d DMA_MEM_TO_DEV /\
  Z.testbit c 30 = dir_eqb d DMA_DEV_TO_MEM /\
  Z.testbit c 29 = dir_eqb d DMA_DEV_TO_MEM /\
  Z.testbit c 28 = dir_eqb d DMA_MEM_TO_DEV /\
  Z.land c DCMD_LENGTH = 0 /\ Z.land c DCMD_ENDIRQEN = 0 /\
  chan_dcmd (mmp_pdma_config_write (set_chan_dcmd old chan) cfg d) = c /\
  dev_addr (mmp_pdma_config_write chan cfg d)
  = u32 (match d with
         | DMA_DEV_TO_MEM => src_addr cfg
         | _ => dst_addr cfg
         end) /\
  dir (mmp_pdma_config_write chan cfg d) = d.
Proof.
  intros [-> | ->] c; subst c;
    unfold mmp_pdma_config_write, width_code, burst_code;
    repeat match goal with
           | |- context [if ?b then _ else _] => destruct b
           end;
    cbn [chan_dcmd set_chan_dcmd set_dir set_dev_addr dev_addr dir];
    repeat split; reflexivity.
Qed.

Lemma config_write_fields_witness :
  let c := chan_dcmd (mmp_pdma_config_write sample_chan sample_config
                        DMA_DEV_TO_MEM) in
  Z.land (Z.shiftr c 14) 3 = width_code (src_addr_width sample_config) /\
  Z.land (Z.shiftr c 16) 7 = burst_code (src_maxburst sample_config) /\
  Z.testbit c 31 = dir_eqb DMA_DEV_TO_MEM DMA_MEM_TO_DEV /\
  Z.testbit c 30 = dir_eqb DMA_DEV_TO_MEM DMA_DEV_TO_MEM /\
  Z.testbit c 29 = dir_eqb DMA_DEV_TO_MEM DMA_DEV_TO_MEM /\
  Z.testbit c 28 = dir_eqb DMA_DEV_TO_MEM DMA_MEM_TO_DEV /\
  Z.land c DCMD_LENGTH = 0 /\ Z.land c DCMD_ENDIRQEN = 0 /\
  chan_dcmd (mmp_pdma_config_write (set_chan_dcmd 0xffffffff sample_chan)
               sample_config DMA_DEV_TO_MEM) = c /\
  dev_addr (mmp_pdma_config_write sample_chan sample_config DMA_DEV_TO_MEM)
  = u32 (src_addr sample_config) /\
  dir (mmp_pdma_config_write sample_chan sample_config DMA_DEV_TO_MEM)
  = DMA_DEV_TO_MEM.
Proof.
  apply (config_write_fields sample_chan sample_config DMA_DEV_TO_MEM
           0xffffffff).
  right. reflexivity.
Defined.

(** ** What the builders leave alone *)

Lemma chan_frame_refl (c : mmp_pdma_chan) : chan_frame c c.
Proof. unfold chan_frame. repeat split. Qed.

Lemma chan_frame_trans (c1 c2 c3 : mmp_pdma_chan) :
  chan_frame c1 c2 -> chan_frame c2 c3 -> chan_frame c1 c3.
Proof.
  unfold chan_frame.
  intros (A1 & A2 & A3 & A4 & A5 & A6 & A7 & A8 & A9 & A10 & A11 & A12 & A13)
         (B1 & B2 & B3 & B4 & B5 & B6 & B7 & B8 & B9 & B10 & B11 & B12 & B13).
  repeat split; congruence.
Qed.

Lemma builder_fail_frame (chan : mmp_pdma_chan) (tx : list mmp_pdma_desc_sw) :
  chan_frame chan (builder_fail chan tx).
Proof. destruct tx; unfold chan_frame; repeat split. Qed.

Lemma config_write_frame (chan : mmp_pdma_chan) (cfg : dma_slave_config)
    (d : dma_transfer_direction) :
  chan_frame chan (mmp_pdma_config_write chan cfg d).
Proof.
  unfold mmp_pdma_config_write.
  destruct d;
    repeat match goal with
           | |- context [if ?b then _ else _] => destruct b
           end; unfold chan_frame; repeat split.
Qed.

Section BuilderFrame.

Variable SUPPORT_64BIT : bool.

Lemma memcpy_loop_frame (fuel : nat) :
  forall chan tx dst src len,
    chan_frame chan (snd (memcpy_loop SUPPORT_64BIT fuel chan tx dst src len)).
Proof.
  induction fuel as [|fuel IH]; intros chan tx dst src len;
    [apply chan_frame_refl|].
  cbn [memcpy_loop]. unfold mmp_pdma_alloc_descriptor.
  destruct (dma_pool_zalloc (desc_pool chan)) as [[a pool]|];
    [|apply builder_fail_frame].
  set (chan1 := if nonzero (Z.land src 7) || nonzero (Z.land dst 7)
                then set_byte_align true (set_desc_pool pool chan)
                else set_desc_pool pool chan).
  assert (H1 : chan_frame chan chan1)
    by (subst chan1; destruct (_ || _); unfold chan_frame; repeat split).
  match goal with
  | |- context [memcpy_set_addrs ?b ?d ?x ?y ?h] =>
      destruct (memcpy_set_addrs b d x y h)
  end.
  - match goal with
    | |- context [if ?c then _ else _] => destruct c
    end.
    + exact H1.
    + eapply chan_frame_trans; [exact H1|apply IH].
  - eapply chan_frame_trans; [exact H1|apply builder_fail_frame].
Qed.

Lemma sg_inner_loop_frame (fuel : nat) :
  forall d chan tx addr avail,
    chan_frame chan
      (snd (sg_inner_loop SUPPORT_64BIT fuel d chan tx addr avail)).
Proof.
  induction fuel as [|fuel IH]; intros d chan tx addr avail;
    [apply chan_frame_refl|].
  cbn [sg_inner_loop].
  set (chan0 := if nonzero (Z.land addr 7) then set_byte_align true chan
                else chan).
  assert (H0 : chan_frame chan chan0)
    by (subst chan0; destruct (nonzero _); unfold chan_frame; repeat split).
  unfold mmp_pdma_alloc_descriptor.
  destruct (dma_pool_zalloc (desc_pool chan0)) as [[a pool]|].
  - assert (H1 : chan_frame chan (set_desc_pool pool chan0))
      by (eapply chan_frame_trans; [exact H0|];
          unfold chan_frame; repeat split).
    match goal with
    | |- context [sg_set_addrs ?b ?dd ?x ?y ?h] =>
        destruct (sg_set_addrs b dd x y h)
    end.
    + match goal with
      | |- context [if ?c then _ else _] => destruct c
      end.
      * exact H1.
      * eapply chan_frame_trans; [exact H1|apply IH].
    + eapply chan_frame_trans; [exact H1|apply builder_fail_frame].
  - eapply chan_frame_trans; [exact H0|apply builder_fail_frame].
Qed.

Lemma sg_outer_loop_frame (sgl rest : list scatterlist) :
  forall d chan tx,
    chan_frame chan (snd (sg_outer_loop SUPPORT_64BIT sgl rest d chan tx)).
Proof.
  induction rest as [|sg rest IH]; intros d chan tx; [apply chan_frame_refl|].
  cbn [sg_outer_loop].
  match goal with
  | |- context [sg_inner_loop ?b ?f ?dd ?c ?t ?a ?v] =>
      pose proof (sg_inner_loop_frame f dd c t a v) as H1;
      destruct (sg_inner_loop b f dd c t a v) as [[tx1|] chan1]
  end; cbn [snd] in H1.
  - eapply chan_frame_trans; [exact H1|apply IH].
  - exact H1.
Qed.

Lemma cyclic_loop_frame (fuel : nat) :
  forall chan tx src dst srch dsth len period_len,
    chan_frame chan
      (snd (cyclic_loop SUPPORT_64BIT fuel chan tx src dst srch dsth len
              period_len)).
Proof.
  induction fuel as [|fuel IH]; intros chan tx src dst srch dsth len period_len;
    [apply chan_frame_refl|].
  cbn [cyclic_loop]. unfold mmp_pdma_alloc_descriptor.
  destruct (dma_pool_zalloc (desc_pool chan)) as [[a pool]|];
    [|apply builder_fail_frame].
  assert (H1 : chan_frame chan (set_desc_pool pool chan))
    by (unfold chan_frame; repeat split).
  match goal with
  | |- context [if ?c then _ else _] => destruct c
  end.
  - exact H1.
  - eapply chan_frame_trans; [exact H1|apply IH].
Qed.

Lemma prep_slave_sg_frame (chan : mmp_pdma_chan) (sgl : list scatterlist)
    (d : dma_transfer_direction) (flags : Z) :
  chan_frame chan (snd (mmp_pdma_prep_slave_sg SUPPORT_64BIT chan sgl d flags)).
Proof.
  unfold mmp_pdma_prep_slave_sg. destruct sgl as [|s0 tl];
    [apply chan_frame_refl|].
  match goal with
  | |- context [sg_outer_loop ?b ?l ?r ?dd ?c ?t] =>
      pose proof (sg_outer_loop_frame l r dd c t) as H1;
      destruct (sg_outer_loop b l r dd c t) as [[tx1|] chan1]
  end; cbn [snd] in *.
  - eapply chan_frame_trans; [|eapply chan_frame_trans; [exact H1|]].
    + eapply chan_frame_trans; [|apply config_write_frame].
      unfold chan_frame; repeat split.
    + unfold chan_frame; repeat split.
  - eapply chan_frame_trans; [|exact H1].
    eapply chan_frame_trans; [|apply config_write_frame].
    unfold chan_frame; repeat split.
Qed.

Lemma prep_memcpy_frame (pdev : mmp_pdma_device) (chan : mmp_pdma_chan)
    (dst src len flags : Z) (r : option (list mmp_pdma_desc_sw))
    (chan' : mmp_pdma_chan) :
  mmp_pdma_prep_memcpy SUPPORT_64BIT pdev chan dst src len flags
  = Done (r, chan') ->
  chan_frame chan chan'.
Proof.
  unfold mmp_pdma_prep_memcpy. destruct (len =? 0).
  { intros [= <- <-]. apply chan_frame_refl. }
  unfold memcpy_setup. cbn [dir set_byte_align].
  assert (Hloop : forall c0 : mmp_pdma_chan,
            chan_frame chan c0 ->
            match memcpy_loop SUPPORT_64BIT (Z.to_nat len) c0 [] dst src len with
            | (None, c) => Done (None, c)
            | (Some tx_list, c) =>
                Done (Some (map_last stop_and_irq
                              (map_head
                                 (with_tx (fun t => set_cookie (- EBUSY)
                                                      (set_flags flags t)))
                                 tx_list)),
                      set_cyclic_first None c)
            end = Done (r, chan') ->
            chan_frame chan chan').
  { intros c0 H0.
    pose proof (memcpy_loop_frame (Z.to_nat len) c0 [] dst src len) as H1.
    destruct (memcpy_loop SUPPORT_64BIT (Z.to_nat len) c0 [] dst src len)
      as [[tx|] c1]; cbn [snd] in H1; intros [= <- <-].
    - eapply chan_frame_trans; [exact H0|].
      eapply chan_frame_trans; [exact H1|].
      unfold chan_frame; repeat split.
    - eapply chan_frame_trans; [exact H0|exact H1]. }
  destruct (dir chan) eqn:Ed;
    try (apply Hloop; unfold chan_frame; repeat split).
  destruct (get_max_burst_setting (max_burst_size pdev) =? INVALID_BURST_SETTING);
    [discriminate|].
  apply Hloop. unfold chan_frame; repeat split.
Qed.

Lemma prep_dma_cyclic_frame (chan : mmp_pdma_chan)
    (buf_addr len period_len : Z) (direction : dma_transfer_direction)
    (flags : Z) :
  chan_frame chan
    (snd (mmp_pdma_prep_dma_cyclic SUPPORT_64BIT chan buf_addr len period_len
            direction flags)).
Proof.
  unfold mmp_pdma_prep_dma_cyclic.
  destruct ((len =? 0) || (period_len =? 0)); [apply chan_frame_refl|].
  destruct (nonzero (len mod period_len)); [apply chan_frame_refl|].
  destruct (period_len >? PDMA_MAX_DESC_BYTES); [apply chan_frame_refl|].
  pose proof (config_write_frame chan (slave_config chan) direction) as Hcw.
  set (chanB := mmp_pdma_config_write chan (slave_config chan) direction) in *.
  destruct direction; cbn [snd]; try exact Hcw;
    match goal with
    | |- context [cyclic_loop ?b ?f ?c ?t ?s ?dd ?sh ?dh ?l ?p] =>
        pose proof (cyclic_loop_frame f c t s dd sh dh l p) as H1;
        destruct (cyclic_loop b f c t s dd sh dh l p) as [[tx1|] chan1]
    end; cbn [snd] in *;
    (eapply chan_frame_trans; [exact Hcw|]);
    (eapply chan_frame_trans; [|try exact H1]);
    try (unfold chan_frame; repeat split);
    try (eapply chan_frame_trans; [exact H1|];
         unfold chan_frame; repeat split).
Qed.

(** X15.  The three builders only build: whether they succeed or fail,
    they leave the queues of the channel, its status, its physical channel
    binding, its tokens, its QoS bookkeeping and its slave configuration as
    they were. *)
Theorem builders_leave_queues_alone :
  (forall (pdev : mmp_pdma_device) (chan : mmp_pdma_chan)
          (dst src len flags : Z) (r : option (list mmp_pdma_desc_sw))
          (chan' : mmp_pdma_chan),
      mmp_pdma_prep_memcpy SUPPORT_64BIT pdev chan dst src len flags
      = Done (r, chan') ->
      chan_frame chan chan') /\
  (forall (chan : mmp_pdma_chan) (sgl : list scatterlist)
          (d : dma_transfer_direction) (flags : Z),
      chan_frame chan
        (snd (mmp_pdma_prep_slave_sg SUPPORT_64BIT chan sgl d flags))) /\
  (forall (chan : mmp_pdma_chan) (buf_addr len period_len flags : Z)
          (direction : dma_transfer_direction),
      chan_frame chan
        (snd (mmp_pdma_prep_dma_cyclic SUPPORT_64BIT chan buf_addr len
                period_len direction flags))).
Proof.
  split; [|split].
  - apply prep_memcpy_frame.
  - apply prep_slave_sg_frame.
  - intros. apply prep_dma_cyclic_frame.
Qed.

End BuilderFrame.

Lemma builders_leave_queues_alone_witness :
  match mmp_pdma_prep_memcpy true sample_pdev pending_chan 0x900000 0x800000
          20000 0 with
  | Done (_, chan') => chan_frame pending_chan chan'
  | Bug => False
  end /\
  chan_frame pending_chan
    (snd (mmp_pdma_prep_slave_sg true pending_chan two_segments
            DMA_MEM_TO_DEV 0)) /\
  chan_frame pending_chan
    (snd (mmp_pdma_prep_dma_cyclic true pending_chan 0x8000 4096 1024
            DMA_DEV_TO_MEM 0)).
Proof.
  destruct (builders_leave_queues_alone true) as (Hm & Hs & Hc).
  split; [|split; [apply Hs|apply Hc]].
  destruct (mmp_pdma_prep_memcpy true sample_pdev pending_chan 0x900000
              0x800000 20000 0) as [[r chan']|] eqn:E.
  - exact (Hm _ _ _ _ _ _ r chan' E).
  - vm_compute in E. discriminate.
Defined.

(** ** The residue as the number of bytes left *)

Lemma desc_len_nonneg (x : mmp_pdma_desc_sw) : 0 <= desc_len x.
Proof.
  unfold desc_len. apply Z.land_nonneg. right. unfold DCMD_LENGTH. lia.
Qed.

Lemma sum_len_nonneg (l : list mmp_pdma_desc_sw) : 0 <= sum_len l.
Proof.
  induction l as [|x l IH]; [cbn; lia|].
  change (sum_len (x :: l)) with (desc_len x + sum_len l).
  pose proof (desc_len_nonneg x). lia.
Qed.

Lemma bytes_left_contiguous (d : dma_transfer_direction) (curr : Z)
    (l : list mmp_pdma_desc_sw) :
  forall start,
    l <> [] -> contiguous_from d start l ->
    0 <= start -> start + sum_len l < 2 ^ 32 ->
    start <= curr <= start + sum_len l ->
    bytes_left d curr l = start + sum_len l - curr.
Proof.
  induction l as [|sw rest IH]; intros start Hne Hc H0 Hlt Hcurr;
    [contradiction|].
  destruct Hc as [Hs Hc].
  change (sum_len (sw :: rest)) with (desc_len sw + sum_len rest) in *.
  pose proof (desc_len_nonneg sw) as Hl.
  pose proof (sum_len_nonneg rest) as Hr.
  cbn [bytes_left]. unfold in_span, span_end. rewrite Hs.
  assert (Hend : u32 (start + desc_len sw) = start + desc_len sw)
    by (unfold u32; apply Z.mod_small; lia).
  rewrite Hend, Z.geb_leb.
  destruct (Z.leb_spec curr (start + desc_len sw)) as [Hin|Hout].
  - assert (Hge : (start <=? curr) = true) by (apply Z.leb_le; lia).
    rewrite Hge. cbn [andb]. unfold u32. rewrite Z.mod_small by lia. lia.
  - rewrite andb_false_r.
    destruct rest as [|sw' rest'].
    + change (sum_len []) with 0 in *. lia.
    + rewrite (IH (start + desc_len sw)); [lia|discriminate|exact Hc|lia|lia|lia].
Qed.

Lemma residue_by_transfer_head (d : dma_transfer_direction) (c curr : Z)
    (last : mmp_pdma_desc_sw) (later : list mmp_pdma_desc_sw)
    (init : list mmp_pdma_desc_sw) :
  forall acc,
    Forall (fun x => end_of_chain_irq x = false) init ->
    end_of_chain_irq last = true -> cookie (async_tx last) = c ->
    residue_by_transfer d c curr (init ++ last :: later) acc
    = bytes_left d curr (acc ++ init ++ [last]).
Proof.
  induction init as [|x init IH]; intros acc Hall Hirq Hck.
  - cbn [app residue_by_transfer]. rewrite Hirq, Hck, Z.eqb_refl. reflexivity.
  - inversion Hall as [|? ? Hx Hrest]; subst.
    cbn [app residue_by_transfer]. rewrite Hx.
    rewrite IH by (try assumption; reflexivity).
    rewrite <- app_assoc. reflexivity.
Qed.

(** The residue of the transfer at the head of the running queue. *)
Lemma residue_head_transfer (pdev : mmp_pdma_device) (chan : mmp_pdma_chan)
    (idx : nat) (c start p : Z) (init later : list mmp_pdma_desc_sw)
    (last : mmp_pdma_desc_sw) :
  phy chan = Some idx -> cyclic_first chan = None ->
  chain_running chan = init ++ last :: later ->
  Forall (fun x => end_of_chain_irq x = false) init ->
  end_of_chain_irq last = true -> cookie (async_tx last) = c ->
  contiguous_from (dir chan) start (init ++ [last]) ->
  0 <= start -> start + sum_len (init ++ [last]) < 2 ^ 32 ->
  readl (regs pdev) (position_register (dir chan) idx) = start + p ->
  0 <= p <= sum_len (init ++ [last]) ->
  mmp_pdma_residue pdev chan c = sum_len (init ++ [last]) - p.
Proof.
  intros Hphy Hcyc Hrun Hall Hirq Hck Hcont H0 Hlt Hpos Hp.
  unfold mmp_pdma_residue. rewrite Hphy, Hcyc.
  assert (Hcurr : match dir chan with
                  | DMA_DEV_TO_MEM => readl (regs pdev) (DTADR (Z.of_nat idx))
                  | _ => readl (regs pdev) (DSADR (Z.of_nat idx))
                  end = start + p)
    by (unfold position_register in Hpos; destruct (dir chan); exact Hpos).
  rewrite Hcurr.
  pose proof (residue_walk_transfers (dir chan) c (start + p)
                (chain_running chan) []) as Hw.
  cbn [bytes_left passed_in existsb] in Hw. rewrite Hw, Hrun.
  rewrite residue_by_transfer_head by assumption. cbn [app].
  rewrite (bytes_left_contiguous _ _ _ start); try assumption; try lia.
  destruct init; discriminate.
Qed.

(** The residue of a cyclic ring. *)
Lemma residue_ring (pdev : mmp_pdma_device) (chan : mmp_pdma_chan)
    (idx : nat) (first c start p : Z) :
  phy chan = Some idx -> cyclic_first chan = Some first ->
  chain_running chan <> [] ->
  contiguous_from (dir chan) start (chain_running chan) ->
  0 <= start -> start + sum_len (chain_running chan) < 2 ^ 32 ->
  readl (regs pdev) (position_register (dir chan) idx) = start + p ->
  0 <= p <= sum_len (chain_running chan) ->
  mmp_pdma_residue pdev chan c = sum_len (chain_running chan) - p.
Proof.
  intros Hphy Hcyc Hne Hcont H0 Hlt Hpos Hp.
  unfold mmp_pdma_residue. rewrite Hphy, Hcyc.
  assert (Hcurr : match dir chan with
                  | DMA_DEV_TO_MEM => readl (regs pdev) (DTADR (Z.of_nat idx))
                  | _ => readl (regs pdev) (DSADR (Z.of_nat idx))
                  end = start + p)
    by (unfold position_register in Hpos; destruct (dir chan); exact Hpos).
  rewrite Hcurr.
  pose proof (residue_walk_cyclic (dir chan) c (start + p)
                (chain_running chan) []) as Hw.
  cbn [bytes_left passed_in existsb app] in Hw. rewrite Hw.
  rewrite (bytes_left_contiguous _ _ _ start); try assumption; lia.
Qed.

(** X16.  For a transfer whose descriptors cover one buffer without gaps
    (and without wrapping around 2^32), the residue the driver reports is
    the number of bytes between the live hardware position and the end of
    the buffer: for the transfer at the head of the running queue of a
    non-cyclic channel, asked for by the token of its closing descriptor,
    and for the whole ring of a cyclic channel. *)
Theorem residue_counts_bytes_left (pdev : mmp_pdma_device)
    (chan : mmp_pdma_chan) (idx : nat) (c start p : Z) :
  phy chan = Some idx -> 0 <= start ->
  readl (regs pdev) (position_register (dir chan) idx) = start + p ->
  (forall (init later : list mmp_pdma_desc_sw) (last : mmp_pdma_desc_sw),
      cyclic_first chan = None ->
      chain_running chan = init ++ last :: later ->
      Forall (fun x => end_of_chain_irq x = false) init ->
      end_of_chain_irq last = true -> cookie (async_tx last) = c ->
      contiguous_from (dir chan) start (init ++ [last]) ->
      start + sum_len (init ++ [last]) < 2 ^ 32 ->
      0 <= p <= sum_len (init ++ [last]) ->
      mmp_pdma_residue pdev chan c = sum_len (init ++ [last]) - p) /\
  (forall first : Z,
      cyclic_first chan = Some first -> chain_running chan <> [] ->
      contiguous_from (dir chan) start (chain_running chan) ->
      start + sum_len (chain_running chan) < 2 ^ 32 ->
      0 <= p <= sum_len (chain_running chan) ->
      mmp_pdma_residue pdev chan c = sum_len (chain_running chan) - p).
Proof.
  intros Hphy H0 Hpos. split.
  - intros init later last Hcyc Hrun Hall Hirq Hck Hcont Hlt Hp.
    apply (residue_head_transfer pdev chan idx c start p init later last);
      assumption.
  - intros first Hcyc Hne Hcont Hlt Hp.
    apply (residue_ring pdev chan idx first c start p); assumption.
Qed.

Lemma residue_counts_bytes_left_witness :
  mmp_pdma_residue
    (set_regs {[ DSADR 0 := 0x800000 + 100 ]} busy_pdev) busy_chan 3
  = sum_len running_pair - 100.
Proof.
  destruct (residue_counts_bytes_left
              (set_regs {[ DSADR 0 := 0x800000 + 100 ]} busy_pdev) busy_chan
              0 3 0x800000 100) as [H _].
  - reflexivity.
  - lia.
  - reflexivity.
  - apply (H [ {| desc := {| ddadr := 0x1040; dsadr := 0x800000;
                             dtadr := 0x900000;
                             dcmd := Z.lor (Z.lor DCMD_INCTRGADDR DCMD_INCSRCADDR)
                                       8191;
                             ddadrh := 0; dsadrh := 0; dtadrh := 0 |};
                  async_tx := {| cookie := 2; flags := DMA_CTRL_ACK;
                                 phys := 0x1000; callback := Some 0%nat |} |} ]
             []
             {| desc := {| ddadr := DDADR_STOP; dsadr := 0x801fff;
                           dtadr := 0x901fff;
                           dcmd := Z.lor (Z.lor (Z.lor DCMD_INCTRGADDR
                                                   DCMD_INCSRCADDR)
                                            DCMD_ENDIRQEN) 1809;
                           ddadrh := 0; dsadrh := 0; dtadrh := 0 |};
                async_tx := {| cookie := 3; flags := DMA_CTRL_ACK;
                               phys := 0x1040; callback := Some 1%nat |} |}).
    + reflexivity.
    + reflexivity.
    + repeat constructor.
    + reflexivity.
    + reflexivity.
    + cbn. repeat split; reflexivity.
    + vm_compute. reflexivity.
    + vm_compute. split; discriminate.
Defined.

(** ** Closed chains on the queues *)

Lemma closed_chain_intro (l : list mmp_pdma_desc_sw) :
  l <> [] ->
  (forall (i : nat) (d : mmp_pdma_desc_sw),
      l !! i = Some d ->
      match l !! S i with
      | Some y => end_of_chain_irq d = false /\ ddadr_stop d = false
      | None => end_of_chain_irq d = true /\ ddadr_stop d = true
      end) ->
  closed_chain l = true.
Proof.
  induction l as [|x rest IH]; intros Hne H; [contradiction|].
  cbn [closed_chain]. destruct rest as [|y rest'].
  - destruct (H 0%nat x eq_refl) as [-> ->]. reflexivity.
  - destruct (H 0%nat x eq_refl) as [-> ->]. cbn [negb andb].
    apply IH; [discriminate|].
    intros i d Hd. exact (H (S i) d Hd).
Qed.

Lemma closed_chain_desc_ext (l1 : list mmp_pdma_desc_sw) :
  forall l2, map desc l1 = map desc l2 -> closed_chain l2 = closed_chain l1.
Proof.
  induction l1 as [|x l1 IH]; intros l2 H.
  - destruct l2; [reflexivity|discriminate].
  - destruct l2 as [|y l2]; [discriminate|].
    cbn [map] in H. injection H as Hxy Hrest.
    cbn [closed_chain]. unfold end_of_chain_irq, ddadr_stop. rewrite <- Hxy.
    destruct l1 as [|x' l1'], l2 as [|y' l2']; try discriminate; try reflexivity.
    rewrite (IH (y' :: l2') Hrest). reflexivity.
Qed.

Lemma closed_chain_take_pending (l : list mmp_pdma_desc_sw) :
  forall rest, closed_chain l = true -> take_pending (l ++ rest) = (l, rest).
Proof.
  induction l as [|x l IH]; intros rest H; [discriminate|].
  cbn [closed_chain] in H. destruct l as [|y l'].
  - apply andb_prop in H as [_ Hs]. cbn [app take_pending]. rewrite Hs.
    reflexivity.
  - apply andb_prop in H as [H Hc]. apply andb_prop in H as [_ Hs].
    apply negb_true_iff in Hs.
    change ((x :: y :: l') ++ rest) with (x :: ((y :: l') ++ rest)).
    cbn [take_pending]. rewrite Hs, (IH rest Hc). reflexivity.
Qed.

Lemma closed_chain_take_through_irq (l : list mmp_pdma_desc_sw) :
  forall rest, closed_chain l = true -> take_through_irq (l ++ rest) = l.
Proof.
  induction l as [|x l IH]; intros rest H; [discriminate|].
  cbn [closed_chain] in H. destruct l as [|y l'].
  - apply andb_prop in H as [Hi _]. cbn [app take_through_irq]. rewrite Hi.
    reflexivity.
  - apply andb_prop in H as [H Hc]. apply andb_prop in H as [Hi _].
    apply negb_true_iff in Hi.
    change ((x :: y :: l') ++ rest) with (x :: ((y :: l') ++ rest)).
    cbn [take_through_irq]. rewrite Hi, (IH rest Hc). reflexivity.
Qed.

Lemma closed_chain_split (l : list mmp_pdma_desc_sw) :
  closed_chain l = true ->
  exists init last,
    l = init ++ [last] /\
    Forall (fun x => end_of_chain_irq x = false) init /\
    end_of_chain_irq last = true.
Proof.
  induction l as [|x l IH]; intros H; [discriminate|].
  cbn [closed_chain] in H. destruct l as [|y l'].
  - apply andb_prop in H as [Hi _]. exists [], x.
    split; [reflexivity|]. split; [constructor|exact Hi].
  - apply andb_prop in H as [H Hc]. apply andb_prop in H as [Hi _].
    apply negb_true_iff in Hi.
    destruct (IH Hc) as (init & last & Heq & Hall & Hlast).
    exists (x :: init), last. split; [cbn [app]; rewrite Heq; reflexivity|].
    split; [constructor; assumption|exact Hlast].
Qed.

Lemma map_desc_obs_ext {B : Type} (obs : mmp_pdma_desc_sw -> B)
    (l1 : list mmp_pdma_desc_sw) :
  (forall x y, desc x = desc y -> obs x = obs y) ->
  forall l2, map desc l1 = map desc l2 -> map obs l1 = map obs l2.
Proof.
  intros Hobs. induction l1 as [|x l1 IH]; intros l2 H.
  - destruct l2; [reflexivity|discriminate].
  - destruct l2 as [|y l2]; [discriminate|].
    cbn [map] in *. injection H as Hxy Hrest.
    rewrite (Hobs x y Hxy), (IH l2 Hrest). reflexivity.
Qed.

Lemma contiguous_from_desc_ext (d : dma_transfer_direction)
    (l1 : list mmp_pdma_desc_sw) :
  forall l2 start,
    map desc l1 = map desc l2 ->
    contiguous_from d start l1 -> contiguous_from d start l2.
Proof.
  induction l1 as [|x l1 IH]; intros l2 start H Hc.
  - destruct l2; [exact I|discriminate].
  - destruct l2 as [|y l2]; [discriminate|].
    cbn [map] in H. injection H as Hxy Hrest.
    destruct Hc as [Hs Hc]. cbn [contiguous_from].
    unfold span_start, desc_len in *. rewrite <- Hxy.
    split; [exact Hs|]. apply (IH l2 _ Hrest Hc).
Qed.

Lemma map_head_desc (f : dma_async_tx_descriptor -> dma_async_tx_descriptor)
    (l : list mmp_pdma_desc_sw) :
  map desc (map_head (with_tx f) l) = map desc l.
Proof. destruct l; reflexivity. Qed.

Lemma assign_cookies_desc (tx_list : list mmp_pdma_desc_sw) :
  forall chan c0,
    map desc (snd (assign_cookies chan c0 tx_list)) = map desc tx_list /\
    map desc_phys (snd (assign_cookies chan c0 tx_list))
    = map desc_phys tx_list /\
    map (fun x => callback (async_tx x)) (snd (assign_cookies chan c0 tx_list))
    = map (fun x => callback (async_tx x)) tx_list.
Proof.
  induction tx_list as [|child rest IH]; intros chan c0.
  - repeat split.
  - cbn [assign_cookies dma_cookie_assign].
    pose proof (IH (set_chan_cookie (chan_cookie chan + 1) chan)
                  (chan_cookie chan + 1)) as (H1 & H2 & H3).
    destruct (assign_cookies (set_chan_cookie (chan_cookie chan + 1) chan)
                (chan_cookie chan + 1) rest) as [[c' chan'] rest'].
    cbn [snd map] in *. rewrite H1, H2, H3. repeat split.
Qed.

Lemma lookup_phy_chan_ext (pdev : mmp_pdma_device) (c1 c2 : mmp_pdma_chan) :
  chan_id c1 = chan_id c2 -> drcmr c1 = drcmr c2 ->
  lookup_phy pdev c1 = lookup_phy pdev c2.
Proof. intros Hi Hd. unfold lookup_phy. rewrite Hi, Hd. reflexivity. Qed.

Section Transfers.

Variable SUPPORT_64BIT : bool.

(** Issuing on an unbound channel that is not in progress, whose pending
    queue starts with a closed chain, when the registry has a physical
    channel for it. *)
Lemma issue_pending_starts_chain (pdev pdev1 : mmp_pdma_device)
    (chan : mmp_pdma_chan) (l rest : list mmp_pdma_desc_sw) (idx : nat) :
  status chan <> DMA_IN_PROGRESS -> phy chan = None ->
  chain_pending chan = l ++ rest -> closed_chain l = true ->
  lookup_phy pdev chan = (Some idx, pdev1) ->
  let pdev' := fst (mmp_pdma_issue_pending SUPPORT_64BIT pdev chan) in
  let chan' := snd (mmp_pdma_issue_pending SUPPORT_64BIT pdev chan) in
  chain_running chan' = chain_running chan ++ l /\
  chain_pending chan' = rest /\
  status chan' = DMA_IN_PROGRESS /\ phy chan' = Some idx /\
  pdev_phy pdev' = pdev_phy pdev1 /\
  dir chan' = dir chan /\ cyclic_first chan' = cyclic_first chan /\
  desc_pool chan' = desc_pool chan /\ chan_id chan' = chan_id chan /\
  chan_cookie chan' = chan_cookie chan /\
  completed_cookie chan' = completed_cookie chan /\
  user_do_qos chan' = user_do_qos chan /\ drcmr chan' = drcmr chan /\
  ((idx < 32)%nat ->
   forall first, (chain_running chan ++ l) !! 0%nat = Some first ->
     readl (regs pdev') (Z.shiftl (Z.of_nat idx) 4 + DDADR)
     = u32 (desc_phys first) /\
     Z.testbit (readl (regs pdev') (Z.shiftl (Z.of_nat idx) 2 + DCSR)) 31
     = true).
Proof.
  intros Hst Hphy Hpend Hclosed Hlook pdev' chan'. subst pdev' chan'.
  unfold mmp_pdma_issue_pending.
  set (chanG := mmp_pdma_qos_get chan).
  assert (HG : status chanG = status chan /\ phy chanG = phy chan /\
               chain_pending chanG = chain_pending chan /\
               chain_running chanG = chain_running chan /\
               chan_id chanG = chan_id chan /\ drcmr chanG = drcmr chan /\
               dir chanG = dir chan /\ cyclic_first chanG = cyclic_first chan /\
               desc_pool chanG = desc_pool chan /\
               chan_cookie chanG = chan_cookie chan /\
               completed_cookie chanG = completed_cookie chan /\
               user_do_qos chanG = user_do_qos chan /\
               byte_align chanG = byte_align chan).
  { subst chanG. unfold mmp_pdma_qos_get.
    destruct (nonzero (user_do_qos chan)); [repeat split|].
    destruct (qos_count chan =? 0); repeat split. }
  destruct HG as (G1 & G2 & G3 & G4 & G5 & G6 & G7 & G8 & G9 & G10 & G11
                  & G12 & G13).
  clearbody chanG.
  unfold start_pending_queue.
  destruct (status_eqb (status chanG) DMA_IN_PROGRESS) eqn:Es.
  { rewrite G1 in Es. destruct (status chan); try discriminate.
    contradiction. }
  rewrite G3, Hpend.
  destruct l as [|x l']; [discriminate|].
  change ((x :: l') ++ rest) with (x :: (l' ++ rest)). cbv iota.
  rewrite G2, Hphy.
  rewrite (lookup_phy_chan_ext pdev chanG chan G5 G6), Hlook.
  unfold run_pending.
  change (chain_pending (set_phy (Some idx) chanG)) with (chain_pending chanG).
  rewrite G3, Hpend, (closed_chain_take_pending (x :: l') rest Hclosed).
  cbn [fst snd nonzero Z.eqb negb].
  cbn [chain_running chain_pending status phy dir cyclic_first desc_pool
       chan_id chan_cookie completed_cookie user_do_qos drcmr
       set_bytes_residue set_status set_idle set_chain_running
       set_chain_pending set_phy].
  rewrite G4, G5, G6, G7, G8, G9, G10, G11, G12.
  split; [reflexivity|]. split; [reflexivity|]. split; [reflexivity|].
  split; [reflexivity|]. split.
  { rewrite enable_chan_phy, set_desc_phy. reflexivity. }
  do 8 (split; [reflexivity|]).
  intros Hidx first Hfirst.
  assert (Hb : pdev_phy pdev1 !! idx = Some (Some (chan_id chan))).
  { pose proof (lookup_phy_result pdev chan) as Hres. rewrite Hlook in Hres.
    destruct Hres as [Hfree ->]. unfold bind_phy. cbn [pdev_phy set_pdev_phy].
    apply list_lookup_insert_eq. apply lookup_lt_is_Some.
    eexists. exact Hfree. }
  match goal with
  | |- context [enable_chan SUPPORT_64BIT ?p (Some idx) ?c] =>
      destruct (enable_chan_effect SUPPORT_64BIT p idx c Hidx)
        as (Hd & _ & _ & Hr)
  end.
  rewrite Hd. split.
  - match goal with
    | |- context [set_desc SUPPORT_64BIT ?p idx ?a] =>
        destruct (set_desc_readback SUPPORT_64BIT p idx a) as (Hrb & _)
    end.
    rewrite Hrb. f_equal.
    destruct (chain_running chan ++ x :: l') as [|f0 t0] eqn:E;
      [discriminate|].
    injection Hfirst as ->. reflexivity.
  - apply Hr. rewrite set_desc_phy, Hb. discriminate.
Qed.

End Transfers.

Lemma find_irq_closed (init : list mmp_pdma_desc_sw) (last : mmp_pdma_desc_sw)
    (later : list mmp_pdma_desc_sw) :
  Forall (fun x => end_of_chain_irq x = false) init ->
  end_of_chain_irq last = true ->
  List.find end_of_chain_irq (init ++ last :: later) = Some last.
Proof.
  intros Hall Hlast. induction Hall as [|x init Hx Hall IH].
  - cbn [app List.find]. rewrite Hlast. reflexivity.
  - cbn [app List.find]. rewrite Hx. exact IH.
Qed.

Lemma free_all_prefix (l : list Z) :
  forall f u,
    NoDup (l ++ u) ->
    free_all {| pool_free := f; pool_used := l ++ u |} l
    = {| pool_free := rev l ++ f; pool_used := u |}.
Proof.
  induction l as [|x l IH]; intros f u Hnd; [reflexivity|].
  change (free_all {| pool_free := f; pool_used := (x :: l) ++ u |} (x :: l))
    with (free_all (dma_pool_free {| pool_free := f;
                                     pool_used := x :: (l ++ u) |} x) l).
  unfold dma_pool_free. cbn [pool_free pool_used List.remove].
  destruct (Z.eq_dec x x) as [_|Hne]; [|contradiction].
  cbn [app] in Hnd. apply NoDup_cons in Hnd as [Hnot Hnd].
  rewrite remove_not_in by (rewrite <- list_elem_of_In; exact Hnot).
  rewrite (IH (x :: f) u Hnd). cbn [rev]. rewrite <- app_assoc. reflexivity.
Qed.

Lemma start_pending_queue_idle (b64 : bool) (pdev : mmp_pdma_device)
    (chan : mmp_pdma_chan) (idx : nat) :
  status chan = DMA_COMPLETE -> chain_pending chan = [] ->
  phy chan = Some idx ->
  start_pending_queue b64 pdev chan
  = (-1,
     set_pdev_phy (<[idx := None]> (pdev_phy pdev))
       (set_regs (writel 0 (DRCMR (drcmr chan)) (regs pdev)) pdev),
     set_phy None chan).
Proof.
  intros Hst Hpend Hphy. unfold start_pending_queue, mmp_pdma_free_phy.
  rewrite Hst, Hpend, Hphy. reflexivity.
Qed.

Lemma move_to_cleanup_closed (init : list mmp_pdma_desc_sw)
    (last : mmp_pdma_desc_sw) :
  Forall (fun x => end_of_chain_irq x = false) init ->
  end_of_chain_irq last = true ->
  take_through_irq (init ++ [last]) = init ++ [last] /\
  move_to_cleanup (init ++ [last]) [] None
  = ([], rev (init ++ [last]), Some (cookie (async_tx last))).
Proof.
  intros Hall Hlast.
  assert (Htake : take_through_irq (init ++ [last]) = init ++ [last]).
  { clear -Hall Hlast. induction Hall as [|x init Hx Hall IH].
    - cbn. rewrite Hlast. reflexivity.
    - cbn [app take_through_irq]. rewrite Hx, IH. reflexivity. }
  split; [exact Htake|].
  pose proof (move_to_cleanup_split (init ++ [last]) [] None) as Hsplit.
  pose proof (move_to_cleanup_reverses (init ++ [last]) [] None) as Hrev.
  pose proof (move_to_cleanup_completed (init ++ [last]) [] None) as Hco.
  destruct (move_to_cleanup (init ++ [last]) [] None)
    as [[running cleanup] completed].
  cbn [fst snd] in Hsplit, Hrev, Hco.
  rewrite Htake in Hsplit, Hrev. rewrite app_nil_r in Hrev.
  rewrite (find_irq_closed init last [] Hall Hlast) in Hco.
  assert (running = [])
    by (apply (app_inv_head (init ++ [last]));
        rewrite app_nil_r; exact Hsplit).
  subst running cleanup completed. reflexivity.
Qed.

Section Completion2.

Variable SUPPORT_64BIT : bool.

(** The completion of the only transfer of a channel: the channel becomes
    idle and gives up its physical channel. *)
Lemma tasklet_completes_transfer (pdev : mmp_pdma_device)
    (chan : mmp_pdma_chan) (init : list mmp_pdma_desc_sw)
    (last : mmp_pdma_desc_sw) (idx : nat) :
  status chan = DMA_IN_PROGRESS -> cyclic_first chan = None ->
  chain_pending chan = [] -> chain_running chan = init ++ [last] ->
  Forall (fun x => end_of_chain_irq x = false) init ->
  end_of_chain_irq last = true -> phy chan = Some idx ->
  let pdev' := fst (fst (dma_do_tasklet SUPPORT_64BIT pdev chan)) in
  let chan' := snd (fst (dma_do_tasklet SUPPORT_64BIT pdev chan)) in
  chain_running chan' = [] /\ chain_pending chan' = [] /\
  status chan' = DMA_COMPLETE /\ phy chan' = None /\
  pdev_phy pdev' = <[idx := None]> (pdev_phy pdev) /\
  readl (regs pdev') (DRCMR (drcmr chan)) = 0 /\
  desc_pool chan'
  = free_all (desc_pool chan) (map desc_phys (rev (init ++ [last]))) /\
  completed_cookie chan' = cookie (async_tx last) /\
  snd (dma_do_tasklet SUPPORT_64BIT pdev chan)
  = callbacks_of (rev (init ++ [last])).
Proof.
  intros Hst Hcyc Hpend Hrun Hall Hlast Hphy pdev' chan'.
  destruct (move_to_cleanup_closed init last Hall Hlast) as [Htake Hmove].
  assert (Hlog : snd (dma_do_tasklet SUPPORT_64BIT pdev chan)
                 = callbacks_of (rev (init ++ [last]))).
  { rewrite tasklet_callback_order; [rewrite Hrun, Htake; reflexivity| |exact Hcyc].
    rewrite Hst. discriminate. }
  set (chan3 :=
         set_status DMA_COMPLETE
           (set_completed_cookie (cookie (async_tx last))
              (set_chain_running []
                 (set_bytes_residue
                    (mmp_pdma_residue pdev chan (cookie (async_tx last)))
                    chan)))).
  assert (Hrunq :
            fst (dma_do_tasklet SUPPORT_64BIT pdev chan)
            = (set_pdev_phy (<[idx := None]> (pdev_phy pdev))
                 (set_regs (writel 0 (DRCMR (drcmr chan)) (regs pdev)) pdev),
               fst (run_cleanup (mmp_pdma_qos_put (set_phy None chan3))
                      (rev (init ++ [last])) []))).
  { unfold dma_do_tasklet. rewrite Hst, Hcyc. cbn [status_eqb].
    unfold first_irq_cookie.
    rewrite Hrun, (find_irq_closed init last [] Hall Hlast).
    cbn [fmap option_fmap option_map].
    change (chain_running
              (set_bytes_residue
                 (mmp_pdma_residue pdev chan (cookie (async_tx last))) chan))
      with (chain_running chan).
    rewrite Hrun, Hmove.
    change (start_pending_queue SUPPORT_64BIT pdev _)
      with (start_pending_queue SUPPORT_64BIT pdev chan3).
    rewrite (start_pending_queue_idle SUPPORT_64BIT pdev chan3 idx eq_refl
               Hpend Hphy).
    change (nonzero (-1)) with true. cbv iota.
    destruct (run_cleanup (mmp_pdma_qos_put (set_phy None chan3))
                (rev (init ++ [last])) []) as [chanF logF].
    reflexivity. }
  subst pdev' chan'. rewrite Hrunq. cbn [fst snd]. clear Hrunq.
  destruct (run_cleanup_pool (rev (init ++ [last]))
              (mmp_pdma_qos_put (set_phy None chan3)) []) as (Hp1 & Hp2 & Hp3).
  destruct (run_cleanup_frame (rev (init ++ [last]))
              (mmp_pdma_qos_put (set_phy None chan3)) [])
    as (_ & Hf2 & Hf3 & Hf4).
  destruct (qos_put_frame (set_phy None chan3)) as (_ & Hq2 & Hq3 & Hq4).
  destruct (qos_put_queues (set_phy None chan3)) as (_ & Hq5 & Hq6).
  pose proof (qos_put_completed (set_phy None chan3)) as Hq7.
  split; [rewrite Hf3, Hq3; reflexivity|].
  split; [rewrite Hp2, Hq5; exact Hpend|].
  split; [rewrite Hf4, Hq4; reflexivity|].
  split; [rewrite Hf2, Hq2; reflexivity|].
  split; [reflexivity|].
  split; [apply readl_writel_eq|].
  split; [rewrite Hp1, Hq6; reflexivity|].
  split; [rewrite Hp3, Hq7; reflexivity|exact Hlog].
Qed.

End Completion2.

(** ** One slave transfer from start to completion *)

Lemma pieces_contiguous (d : dma_transfer_direction)
    (l : list mmp_pdma_desc_sw) :
  forall addr avail,
    map (piece_of d) l = buffer_pieces addr avail ->
    0 < avail -> 0 <= addr -> addr + avail < 2 ^ 32 ->
    contiguous_from d addr l.
Proof.
  induction l as [|x l IH]; intros addr avail Hp Hav Ha Hlt; [exact I|].
  assert (Hu : u32 addr = addr) by (unfold u32; apply Z.mod_small; lia).
  destruct (Z.leb_spec avail PDMA_MAX_DESC_BYTES) as [Hsmall|Hbig].
  - rewrite buffer_pieces_small in Hp by lia. cbn [map] in Hp.
    unfold piece_of at 1 in Hp.
    injection Hp as Hs Hl Hrest. destruct l; [|discriminate].
    cbn [contiguous_from]. split; [congruence|exact I].
  - rewrite buffer_pieces_step in Hp by exact Hbig. cbn [map] in Hp.
    unfold piece_of at 1 in Hp.
    injection Hp as Hs Hl Hrest.
    cbn [contiguous_from]. split; [congruence|].
    rewrite Hl. apply (IH _ (avail - PDMA_MAX_DESC_BYTES) Hrest);
      unfold PDMA_MAX_DESC_BYTES, DCMD_LENGTH in *; lia.
Qed.

Lemma sg_list_descs_phys (b64 : bool) (c0 : Z) (d : dma_transfer_direction)
    (dev : Z) (n : nat) (L : Z) (rest : list scatterlist) :
  forall addrs,
    length addrs = (length rest * n)%nat ->
    map desc_phys (sg_list_descs b64 c0 d dev n L rest addrs) = addrs /\
    Forall (fun x => callback (async_tx x) = None)
      (sg_list_descs b64 c0 d dev n L rest addrs).
Proof.
  assert (Hone : forall (l : list Z) addr avail,
            map desc_phys (sg_descs b64 c0 d dev l addr avail) = l /\
            Forall (fun x => callback (async_tx x) = None)
              (sg_descs b64 c0 d dev l addr avail)).
  { induction l as [|a l IHl]; intros addr avail; [split; constructor|].
    cbn [sg_descs map]. destruct (IHl (u64 (addr + Z.min avail PDMA_MAX_DESC_BYTES))
                                    (avail - Z.min avail PDMA_MAX_DESC_BYTES))
      as [H1 H2].
    rewrite H1. split; [reflexivity|]. constructor; [reflexivity|exact H2]. }
  induction rest as [|sg rest IH]; intros addrs Hn.
  - destruct addrs; [|discriminate]. split; constructor.
  - cbn [sg_list_descs]. rewrite map_app.
    destruct (Hone (take n addrs) (sg_dma_address sg) L) as [H1 H2].
    destruct (IH (drop n addrs)) as [H3 H4].
    { rewrite length_drop. cbn [length] in Hn. lia. }
    rewrite H1, H3, take_drop. split; [reflexivity|].
    apply Forall_app. split; assumption.
Qed.

Lemma Forall_obs_ext {B : Type} (obs : mmp_pdma_desc_sw -> B) (P : B -> Prop)
    (l1 : list mmp_pdma_desc_sw) :
  forall l2, map obs l1 = map obs l2 ->
             Forall (fun x => P (obs x)) l2 -> Forall (fun x => P (obs x)) l1.
Proof.
  induction l1 as [|x l1 IH]; intros l2 H HF; [constructor|].
  destruct l2 as [|y l2]; [discriminate|].
  cbn [map] in H. injection H as Hxy Hrest.
  inversion HF as [|? ? Hy HF']; subst.
  constructor; [rewrite Hxy; exact Hy|exact (IH l2 Hrest HF')].
Qed.

Lemma callbacks_of_app (l1 l2 : list mmp_pdma_desc_sw) :
  callbacks_of (l1 ++ l2) = callbacks_of l1 ++ callbacks_of l2.
Proof.
  induction l1 as [|x l1 IH]; [reflexivity|].
  cbn [app callbacks_of]. destruct (callback (async_tx x)); rewrite IH;
    reflexivity.
Qed.

Lemma callbacks_of_none (l : list mmp_pdma_desc_sw) :
  Forall (fun x => callback (async_tx x) = None) l -> callbacks_of l = [].
Proof.
  induction 1 as [|x l Hx Hall IH]; [reflexivity|].
  cbn [callbacks_of]. rewrite Hx. exact IH.
Qed.

Section SlaveTransfer.

Variable SUPPORT_64BIT : bool.

(** The chain the slave builder returns for one buffer. *)
Lemma single_buffer_chain (chan : mmp_pdma_chan) (d : dma_transfer_direction)
    (buf len flags : Z) :
  0 < len -> 0 <= buf -> buf + len < 2 ^ 32 -> slave_dir_ok d ->
  pool_ok (desc_pool chan) ->
  chunks len <= Z.of_nat (length (pool_free (desc_pool chan))) ->
  exists (tx : list mmp_pdma_desc_sw) (chan2 : mmp_pdma_chan)
         (addrs more : list Z),
    mmp_pdma_prep_slave_sg SUPPORT_64BIT chan
      [ {| sg_dma_address := buf; sg_dma_len := len |} ] d flags
    = (Some tx, chan2) /\
    closed_chain tx = true /\ contiguous_from d buf tx /\ sum_len tx = len /\
    Z.of_nat (length tx) = chunks len /\
    map desc_phys tx = addrs /\
    Forall (fun x => callback (async_tx x) = None) tx /\
    pool_free (desc_pool chan) = addrs ++ more /\
    desc_pool chan2
    = {| pool_free := more;
         pool_used := rev addrs ++ pool_used (desc_pool chan) |} /\
    dir chan2 = d /\ cyclic_first chan2 = None /\ chan_frame chan chan2.
Proof.
  intros Hlen Hbuf Hlt Hdir Hok Hroom.
  set (s0 := {| sg_dma_address := buf; sg_dma_len := len |}).
  pose proof (chunks_pos len Hlen) as Hcp.
  destruct (prep_slave_sg_closed SUPPORT_64BIT chan s0 [] d flags)
    as (addrs & more & chan1 & c0 & Hfree & Hn & Hall & Hclean & Hrun & Hpool1);
    try assumption.
  { cbn [length sg_dma_len s0]. lia. }
  cbn [sg_dma_len s0] in Hn, Hrun.
  pose proof (prep_slave_sg_frame SUPPORT_64BIT chan [s0] d flags) as Hframe.
  rewrite Hrun in Hframe |- *. cbn [snd] in Hframe.
  set (dev := u32 (match d with
                   | DMA_DEV_TO_MEM => src_addr (slave_config chan)
                   | _ => dst_addr (slave_config chan)
                   end)) in *.
  set (news := sg_list_descs SUPPORT_64BIT c0 d dev (Z.to_nat (chunks len)) len
                 [s0] addrs) in *.
  set (f := fun t => set_flags flags (set_cookie (- EBUSY) t)) in *.
  set (tx := map_last stop_and_irq (map_head (with_tx f)
                                      (link_chain SUPPORT_64BIT news))).
  pose proof (sg_list_descs_Forall SUPPORT_64BIT (fun a => a mod 32 = 0)
                c0 d dev len [s0] addrs Hlen Hn Hall) as Hshape.
  fold news in Hshape.
  assert (Hnews : Forall (fun x => desc_phys x mod 32 = 0 /\
                                   end_of_chain_irq x = false) news).
  { eapply Forall_impl; [exact Hshape|].
    intros x (a & addr' & avail' & Ha & Hav & ->).
    destruct (sg_desc_obs SUPPORT_64BIT c0 d dev a addr' avail' Hdir Hclean Hav)
      as (_ & _ & Hirq & Hphys & _).
    rewrite Hphys. split; assumption. }
  destruct (sg_list_descs_phys SUPPORT_64BIT c0 d dev (Z.to_nat (chunks len))
              len [s0] addrs Hn) as [Hphys Hcb].
  fold news in Hphys, Hcb.
  assert (Hlength : length tx = length addrs).
  { subst tx. rewrite map_last_length, map_head_length, link_chain_length.
    rewrite <- (length_map desc_phys news), Hphys. reflexivity. }
  assert (Hpieces : map (piece_of d) tx = buffer_pieces buf len).
  { subst tx. rewrite map_last_obs by apply piece_of_stop_and_irq.
    rewrite map_head_obs by reflexivity.
    rewrite link_chain_obs by apply piece_of_link_to.
    subst news. rewrite sg_list_descs_pieces by assumption.
    cbn [map concat sg_dma_address s0]. apply app_nil_r. }
  exists tx, (set_cyclic_first None (set_dir d chan1)), addrs, more.
  split; [reflexivity|]. split.
  { apply closed_chain_intro.
    - intros E. rewrite E in Hlength. cbn in Hlength.
      cbn [length] in Hn. lia.
    - intros i x Hx.
      pose proof (finished_chain_flags SUPPORT_64BIT f news
                    (fun t => eq_refl) Hnews i x Hx) as Hfl.
      fold tx in Hfl. destruct (tx !! S i); tauto. }
  split; [apply (pieces_contiguous d tx buf len Hpieces); assumption|].
  split.
  { rewrite (sum_len_pieces d), Hpieces.
    apply (buffer_pieces_sum (Z.to_nat (chunks len))); [exact Hlen|reflexivity]. }
  split; [rewrite Hlength; cbn [length] in Hn; lia|].
  split.
  { subst tx. rewrite map_last_obs by reflexivity.
    rewrite map_head_obs by reflexivity.
    rewrite link_chain_phys. exact Hphys. }
  split.
  { assert (Hm : map (fun y => callback (async_tx y)) tx
                 = map (fun y => callback (async_tx y)) news).
    { subst tx. rewrite map_last_obs by reflexivity.
      rewrite map_head_obs by reflexivity.
      apply link_chain_obs. reflexivity. }
    exact (Forall_obs_ext (fun y => callback (async_tx y)) (fun o => o = None)
             tx news Hm Hcb). }
  split; [exact Hfree|]. split; [exact Hpool1|].
  split; [reflexivity|]. split; [reflexivity|exact Hframe].
Qed.

End SlaveTransfer.

Lemma tx_submit_fields (chan : mmp_pdma_chan) (tx : list mmp_pdma_desc_sw) :
  tx <> [] ->
  fst (mmp_pdma_tx_submit chan tx) = chan_cookie chan + Z.of_nat (length tx) /\
  chain_pending (snd (mmp_pdma_tx_submit chan tx))
  = chain_pending chan ++ snd (assign_cookies chan (- EBUSY) tx) /\
  chain_running (snd (mmp_pdma_tx_submit chan tx)) = chain_running chan /\
  status (snd (mmp_pdma_tx_submit chan tx)) = status chan /\
  phy (snd (mmp_pdma_tx_submit chan tx)) = phy chan /\
  chan_id (snd (mmp_pdma_tx_submit chan tx)) = chan_id chan /\
  drcmr (snd (mmp_pdma_tx_submit chan tx)) = drcmr chan /\
  dir (snd (mmp_pdma_tx_submit chan tx)) = dir chan /\
  cyclic_first (snd (mmp_pdma_tx_submit chan tx)) = cyclic_first chan /\
  desc_pool (snd (mmp_pdma_tx_submit chan tx)) = desc_pool chan.
Proof.
  intros Hne. unfold mmp_pdma_tx_submit.
  pose proof (assign_cookies_queues tx chan (- EBUSY))
    as (Hp & Hpool & _ & Hcyc & Hdir & Hdr & _).
  pose proof (assign_cookies_frame tx chan (- EBUSY))
    as (Hid & Hphy & Hrun & Hst).
  pose proof (assign_cookies_consecutive tx chan (- EBUSY)) as Hc.
  destruct (assign_cookies chan (- EBUSY) tx) as [[c chan'] stamped].
  cbn [fst snd] in *. destruct Hc as (_ & Hcc & Hret).
  cbn [chain_pending set_chain_pending chain_running status phy chan_id drcmr
       dir cyclic_first desc_pool].
  rewrite Hp. destruct tx as [|x tx']; [contradiction|].
  repeat split; congruence.
Qed.

Lemma disable_chan_position (b64 : bool) (pdev : mmp_pdma_device)
    (d : dma_transfer_direction) (idx : nat) :
  readl (regs (disable_chan b64 pdev (Some idx))) (position_register d idx)
  = readl (regs pdev) (position_register d idx).
Proof.
  unfold disable_chan, position_register, DTADR, DSADR, DCSR.
  cbn [regs set_regs]. rewrite !Z.shiftl_mul_pow2 by lia.
  destruct d; rewrite readl_writel_ne by lia; reflexivity.
Qed.

Section SlaveTransferTheorems.

Variable SUPPORT_64BIT : bool.

(** The state in which [start_slave_transfer] leaves an idle channel. *)
Lemma start_slave_transfer_state (pdev pdev1 : mmp_pdma_device)
    (chan : mmp_pdma_chan) (cfg : dma_slave_config)
    (d : dma_transfer_direction) (buf len flags : Z) (cb : option nat)
    (idx : nat) :
  chain_pending chan = [] -> chain_running chan = [] ->
  status chan <> DMA_IN_PROGRESS -> phy chan = None ->
  pool_ok (desc_pool chan) ->
  chunks len <= Z.of_nat (length (pool_free (desc_pool chan))) ->
  slave_dir_ok d -> 0 < len -> 0 <= buf -> buf + len < 2 ^ 32 ->
  lookup_phy pdev chan = (Some idx, pdev1) ->
  exists (pdev' : mmp_pdma_device) (chan' : mmp_pdma_chan)
         (init : list mmp_pdma_desc_sw) (last : mmp_pdma_desc_sw)
         (addrs more : list Z),
    start_slave_transfer SUPPORT_64BIT pdev chan cfg d buf len flags cb
    = (Some (chan_cookie chan + chunks len), pdev', chan') /\
    chain_running chan' = init ++ [last] /\ chain_pending chan' = [] /\
    status chan' = DMA_IN_PROGRESS /\ phy chan' = Some idx /\
    dir chan' = d /\ cyclic_first chan' = None /\
    chan_id chan' = chan_id chan /\ drcmr chan' = drcmr chan /\
    pdev_phy pdev' = pdev_phy pdev1 /\
    Forall (fun x => end_of_chain_irq x = false) init /\
    end_of_chain_irq last = true /\
    cookie (async_tx last) = chan_cookie chan + chunks len /\
    contiguous_from d buf (init ++ [last]) /\
    sum_len (init ++ [last]) = len /\
    map desc_phys (init ++ [last]) = addrs /\
    callbacks_of (rev (init ++ [last]))
    = match cb with
      | Some f => [(f, chan_cookie chan + 1)]
      | None => []
      end /\
    pool_free (desc_pool chan) = addrs ++ more /\
    desc_pool chan'
    = {| pool_free := more;
         pool_used := rev addrs ++ pool_used (desc_pool chan) |} /\
    ((idx < 32)%nat ->
     forall first, (init ++ [last]) !! 0%nat = Some first ->
       readl (regs pdev') (Z.shiftl (Z.of_nat idx) 4 + DDADR)
       = u32 (desc_phys first) /\
       Z.testbit (readl (regs pdev') (Z.shiftl (Z.of_nat idx) 2 + DCSR)) 31
       = true).
Proof.
  intros Hpend Hrunq Hst Hphy Hok Hroom Hdir Hlen Hbuf Hlt Hlook.
  unfold start_slave_transfer, mmp_pdma_config.
  set (chanC := set_slave_config cfg chan).
  destruct (single_buffer_chain SUPPORT_64BIT chanC d buf len flags
              Hlen Hbuf Hlt Hdir Hok Hroom)
    as (tx & chan2 & addrs & more & Hprep & Hclosed & Hcont & Hsum & Hlength
        & Hphys & Hcb & Hfree & Hpool2 & Hdir2 & Hcyc2 & Hframe).
  rewrite Hprep.
  destruct Hframe as (F1 & F2 & F3 & F4 & F5 & F6 & F7 & F8 & F9 & F10 & F11
                      & F12 & F13).
  cbn [chan_id phy drcmr chain_pending chain_running status chan_cookie
       completed_cookie user_do_qos qos_count chanC set_slave_config] in *.
  set (tx' := map_head (with_tx (set_callback cb)) tx).
  assert (Hd' : map desc tx' = map desc tx) by apply map_head_desc.
  assert (Hne : tx' <> []).
  { subst tx'. destruct tx; [discriminate|]. discriminate. }
  assert (Hlen' : length tx' = length tx)
    by (subst tx'; apply map_head_length).
  pose proof (tx_submit_fields chan2 tx' Hne)
    as (S1 & S2 & S3 & S4 & S5 & S6 & S7 & S8 & S9 & S10).
  pose proof (assign_cookies_desc tx' chan2 (- EBUSY)) as (D1 & D2 & D3).
  pose proof (assign_cookies_lookup tx' chan2 (- EBUSY)) as Hlk.
  pose proof (assign_cookies_length tx' chan2 (- EBUSY)) as Hsl.
  set (stamped := snd (assign_cookies chan2 (- EBUSY) tx')) in *.
  destruct (mmp_pdma_tx_submit chan2 tx') as [c chan3].
  cbn [fst snd] in S1, S2, S3, S4, S5, S6, S7, S8, S9, S10.
  rewrite F4 in S2. rewrite Hpend in S2. cbn [app] in S2.
  assert (Hclosed' : closed_chain stamped = true).
  { rewrite (closed_chain_desc_ext tx stamped); [exact Hclosed|].
    rewrite D1, Hd'. reflexivity. }
  assert (Hlook3 : lookup_phy pdev chan3 = (Some idx, pdev1)).
  { rewrite (lookup_phy_chan_ext pdev chan3 chan); [exact Hlook| |];
      congruence. }
  destruct (issue_pending_starts_chain SUPPORT_64BIT pdev pdev1 chan3 stamped []
              idx)
    as (I1 & I2 & I3 & I4 & I5 & I6 & I7 & I8 & I9 & I10 & I11 & I12 & I13
        & I14).
  { rewrite S4, F6. exact Hst. }
  { rewrite S5, F2. exact Hphy. }
  { rewrite S2, app_nil_r. reflexivity. }
  { exact Hclosed'. }
  { exact Hlook3. }
  destruct (mmp_pdma_issue_pending SUPPORT_64BIT pdev chan3) as [pdev4 chan4].
  cbn [fst snd] in I1, I2, I3, I4, I5, I6, I7, I8, I9, I10, I11, I12, I13, I14.
  rewrite S3, F5, Hrunq in I1, I14. cbn [app] in I1, I14.
  destruct (closed_chain_split stamped Hclosed')
    as (init & last & Hsplit & Hall & Hlast).
  assert (Hsd : map desc stamped = map desc tx) by (rewrite D1; exact Hd').
  assert (Hn : length stamped = Z.to_nat (chunks len)).
  { rewrite Hsl, Hlen'. lia. }
  assert (Hck : cookie (async_tx last) = chan_cookie chan + chunks len).
  { assert (Hi : (length init < length tx')%nat).
    { rewrite <- Hsl, Hsplit, length_app. cbn. lia. }
    destruct (lookup_lt_is_Some_2 tx' (length init) Hi) as [x Hx].
    pose proof (Hlk (length init) x Hx) as Hl.
    fold stamped in Hl.
    rewrite Hsplit, lookup_app_r, Nat.sub_diag in Hl by lia.
    cbn in Hl. injection Hl as ->. cbn [with_tx async_tx cookie set_cookie].
    rewrite F7.
    assert (Z.of_nat (length init) + 1 = chunks len).
    { rewrite Hsplit, length_app in Hn. cbn [length] in Hn.
      pose proof (chunks_pos len Hlen). lia. }
    lia. }
  exists pdev4, chan4, init, last, addrs, more.
  split.
  { cbv iota beta. f_equal. f_equal. f_equal. rewrite S1, F7, Hlen'. lia. }
  rewrite <- Hsplit.
  split; [exact I1|]. split; [exact I2|]. split; [exact I3|].
  split; [exact I4|]. split; [congruence|]. split; [congruence|].
  split; [congruence|]. split; [congruence|]. split; [exact I5|].
  split; [exact Hall|]. split; [exact Hlast|]. split; [exact Hck|].
  split.
  { apply (contiguous_from_desc_ext d tx stamped buf); [|exact Hcont].
    symmetry. exact Hsd. }
  split.
  { rewrite <- Hsum. rewrite !sum_len_map.
    f_equal. apply (map_desc_obs_ext desc_len); [|exact Hsd].
    intros x y Hxy. unfold desc_len. rewrite Hxy. reflexivity. }
  split; [rewrite D2; subst tx'; rewrite map_head_obs by reflexivity;
          exact Hphys|].
  split.
  { destruct tx as [|h t]; [discriminate|].
    inversion Hcb as [|? ? Hh Ht]; subst.
    assert (Hst' : stamped
                   = with_tx (set_cookie (chan_cookie chan2 + 1 + Z.of_nat 0))
                       (with_tx (set_callback cb) h)
                     :: snd (assign_cookies
                               (set_chan_cookie (chan_cookie chan2 + 1) chan2)
                               (chan_cookie chan2 + 1) t)).
    { subst stamped tx'. cbn [map_head assign_cookies dma_cookie_assign].
      destruct (assign_cookies _ _ t) as [[c1 ch1] r1]. cbn [snd].
      rewrite Z.add_0_r. reflexivity. }
    rewrite Hst'. cbn [rev]. rewrite callbacks_of_app.
    pose proof (assign_cookies_desc t
                  (set_chan_cookie (chan_cookie chan2 + 1) chan2)
                  (chan_cookie chan2 + 1)) as (_ & _ & E3).
    rewrite (callbacks_of_none (rev _)).
    - cbn [app callbacks_of with_tx async_tx callback set_cookie set_callback
           cookie].
      change (Z.of_nat 0) with 0. rewrite Z.add_0_r, F7.
      destruct cb; reflexivity.
    - apply Forall_rev.
      apply (Forall_obs_ext (fun y => callback (async_tx y))
               (fun o => o = None) _ t E3 Ht). }
  split; [exact Hfree|]. split; [rewrite I8, S10, Hpool2; reflexivity|].
  exact I14.
Qed.

End SlaveTransferTheorems.

Section SlaveTransferLifeCycle.

Variable SUPPORT_64BIT : bool.

(** X17.  Starting one slave transfer on an idle channel (configure,
    prepare a single buffer, submit, issue) for a buffer that lies below
    2^32 ([0 <= buf] and [buf + len < 2^32]), when the pool has the
    descriptors and the registry has a physical channel for it: the token
    returned is the channel's token counter advanced by the number of
    descriptors, the channel is in progress on that physical channel with
    an empty pending queue, and the hardware is programmed with the first
    descriptor and running.  From then on, whenever the live position
    register stands [p] bytes into the buffer, the residue reported for
    the token is [len - p]; this is also what a status query returns,
    together with the status "paused", after the client has paused the
    channel, so that the client's [len - residue] is the number of bytes
    moved.  (For a buffer that crosses 2^32 the 32-bit arithmetic of the
    residue wraps, see [slave_transfer_residue_wraps].) *)
Theorem slave_transfer_progress (pdev pdev1 : mmp_pdma_device)
    (chan : mmp_pdma_chan) (cfg : dma_slave_config)
    (d : dma_transfer_direction) (buf len flags : Z) (cb : option nat)
    (idx : nat) :
  chain_pending chan = [] -> chain_running chan = [] ->
  status chan <> DMA_IN_PROGRESS -> phy chan = None ->
  pool_ok (desc_pool chan) ->
  chunks len <= Z.of_nat (length (pool_free (desc_pool chan))) ->
  slave_dir_ok d -> 0 < len -> 0 <= buf -> buf + len < 2 ^ 32 ->
  lookup_phy pdev chan = (Some idx, pdev1) ->
  exists (pdev' : mmp_pdma_device) (chan' : mmp_pdma_chan),
    start_slave_transfer SUPPORT_64BIT pdev chan cfg d buf len flags cb
    = (Some (chan_cookie chan + chunks len), pdev', chan') /\
    status chan' = DMA_IN_PROGRESS /\ phy chan' = Some idx /\
    chain_pending chan' = [] /\ sum_len (chain_running chan') = len /\
    pdev_phy pdev' !! idx = Some (Some (chan_id chan)) /\
    ((idx < 32)%nat ->
     exists first, chain_running chan' !! 0%nat = Some first /\
       readl (regs pdev') (Z.shiftl (Z.of_nat idx) 4 + DDADR)
       = u32 (desc_phys first) /\
       Z.testbit (readl (regs pdev') (Z.shiftl (Z.of_nat idx) 2 + DCSR)) 31
       = true) /\
    forall (r : gmap Z Z) (p : Z),
      0 <= p <= len -> readl r (position_register d idx) = buf + p ->
      mmp_pdma_residue (set_regs r pdev') chan'
        (chan_cookie chan + chunks len) = len - p /\
      mmp_pdma_tx_status
        (snd (fst (mmp_pdma_pause_chan SUPPORT_64BIT (set_regs r pdev') chan')))
        (snd (mmp_pdma_pause_chan SUPPORT_64BIT (set_regs r pdev') chan'))
        (chan_cookie chan + chunks len) DMA_IN_PROGRESS
      = (DMA_PAUSED, Some (len - p)).
Proof.
  intros Hpend Hrunq Hst Hphy Hok Hroom Hdir Hlen Hbuf Hlt Hlook.
  destruct (start_slave_transfer_state SUPPORT_64BIT pdev pdev1 chan cfg d buf
              len flags cb idx Hpend Hrunq Hst Hphy Hok Hroom Hdir Hlen Hbuf
              Hlt Hlook)
    as (pdev' & chan' & init & last & addrs & more & Hstart & Hrun & Hp & Hs
        & Hph & Hd & Hcyc & Hid & Hdr & Hreg & Hall & Hlast & Hck & Hcont
        & Hsum & _ & _ & _ & _ & Hhw).
  exists pdev', chan'. split; [exact Hstart|]. split; [exact Hs|].
  split; [exact Hph|]. split; [exact Hp|].
  split; [rewrite Hrun; exact Hsum|]. split.
  { rewrite Hreg. pose proof (lookup_phy_result pdev chan) as Hres.
    rewrite Hlook in Hres. destruct Hres as [Hfree ->].
    unfold bind_phy. cbn [pdev_phy set_pdev_phy].
    apply list_lookup_insert_eq. apply lookup_lt_is_Some.
    eexists. exact Hfree. }
  split.
  { intros Hidx.
    destruct (init ++ [last]) as [|first t] eqn:E;
      [destruct init; discriminate|].
    exists first. rewrite Hrun. split; [reflexivity|].
    apply (Hhw Hidx first). reflexivity. }
  intros r p Hp' Hpos.
  assert (Hres : forall (pd : mmp_pdma_device) (ch : mmp_pdma_chan),
            phy ch = Some idx -> cyclic_first ch = None ->
            chain_running ch = init ++ [last] -> dir ch = d ->
            readl (regs pd) (position_register d idx) = buf + p ->
            mmp_pdma_residue pd ch (chan_cookie chan + chunks len) = len - p).
  { intros pd ch H1 H2 H3 H4 H5.
    replace (len - p) with (sum_len (init ++ [last]) - p)
      by (rewrite Hsum; reflexivity).
    apply (residue_head_transfer pd ch idx (chan_cookie chan + chunks len)
             buf p init [] last H1 H2 H3 Hall Hlast Hck);
      [rewrite H4; exact Hcont | exact Hbuf | rewrite Hsum; exact Hlt
      | rewrite H4; exact H5 | rewrite Hsum; exact Hp']. }
  split.
  - apply Hres; try assumption.
  - unfold mmp_pdma_pause_chan. rewrite Hph. cbn [fst snd].
    unfold mmp_pdma_tx_status. cbn [status_eqb negb status set_status].
    f_equal. f_equal. apply Hres; try assumption.
    rewrite disable_chan_position. exact Hpos.
Qed.

(** X18.  The life cycle of one slave transfer: when the completion
    interrupt of a transfer started as above is handled, the callback the
    client stored in the returned descriptor runs exactly once, the token
    of the transfer is the completed token, and the channel is idle again:
    status complete, both queues empty, the physical channel released
    (the registry is as it was before the transfer) and every descriptor
    back in the pool, which is exactly as it was before the chain was
    built. *)
Theorem slave_transfer_completion (pdev pdev1 : mmp_pdma_device)
    (chan : mmp_pdma_chan) (cfg : dma_slave_config)
    (d : dma_transfer_direction) (buf len flags : Z) (cb : option nat)
    (idx : nat) :
  chain_pending chan = [] -> chain_running chan = [] ->
  status chan <> DMA_IN_PROGRESS -> phy chan = None ->
  pool_ok (desc_pool chan) ->
  chunks len <= Z.of_nat (length (pool_free (desc_pool chan))) ->
  slave_dir_ok d -> 0 < len -> 0 <= buf -> buf + len < 2 ^ 32 ->
  lookup_phy pdev chan = (Some idx, pdev1) ->
  exists (pdev' : mmp_pdma_device) (chan' : mmp_pdma_chan),
    start_slave_transfer SUPPORT_64BIT pdev chan cfg d buf len flags cb
    = (Some (chan_cookie chan + chunks len), pdev', chan') /\
    snd (dma_do_tasklet SUPPORT_64BIT pdev' chan')
    = match cb with
      | Some f => [(f, chan_cookie chan + 1)]
      | None => []
      end /\
    completed_cookie (snd (fst (dma_do_tasklet SUPPORT_64BIT pdev' chan')))
    = chan_cookie chan + chunks len /\
    status (snd (fst (dma_do_tasklet SUPPORT_64BIT pdev' chan')))
    = DMA_COMPLETE /\
    chain_running (snd (fst (dma_do_tasklet SUPPORT_64BIT pdev' chan'))) = [] /\
    chain_pending (snd (fst (dma_do_tasklet SUPPORT_64BIT pdev' chan'))) = [] /\
    phy (snd (fst (dma_do_tasklet SUPPORT_64BIT pdev' chan'))) = None /\
    pdev_phy (fst (fst (dma_do_tasklet SUPPORT_64BIT pdev' chan')))
    = pdev_phy pdev /\
    desc_pool (snd (fst (dma_do_tasklet SUPPORT_64BIT pdev' chan')))
    = desc_pool chan.
Proof.
  intros Hpend Hrunq Hst Hphy Hok Hroom Hdir Hlen Hbuf Hlt Hlook.
  destruct (start_slave_transfer_state SUPPORT_64BIT pdev pdev1 chan cfg d buf
              len flags cb idx Hpend Hrunq Hst Hphy Hok Hroom Hdir Hlen Hbuf
              Hlt Hlook)
    as (pdev' & chan' & init & last & addrs & more & Hstart & Hrun & Hp & Hs
        & Hph & Hd & Hcyc & Hid & Hdr & Hreg & Hall & Hlast & Hck & Hcont
        & Hsum & Hphys & Hcbs & Hfree & Hpool & _).
  exists pdev', chan'. split; [exact Hstart|].
  destruct (tasklet_completes_transfer SUPPORT_64BIT pdev' chan' init last idx
              Hs Hcyc Hp Hrun Hall Hlast Hph)
    as (T1 & T2 & T3 & T4 & T5 & T6 & T7 & T8 & T9).
  split; [rewrite T9; exact Hcbs|]. split; [rewrite T8; exact Hck|].
  split; [exact T3|]. split; [exact T1|]. split; [exact T2|].
  split; [exact T4|]. split.
  { rewrite T5, Hreg. pose proof (lookup_phy_result pdev chan) as Hres.
    rewrite Hlook in Hres. destruct Hres as [Hfreephy ->].
    unfold bind_phy. cbn [pdev_phy set_pdev_phy].
    rewrite list_insert_insert_eq. apply list_insert_id. exact Hfreephy. }
  rewrite T7, map_rev, Hphys, Hpool.
  destruct Hok as [Hnd _]. rewrite Hfree in Hnd.
  assert (Hnd' : NoDup (rev addrs ++ pool_used (desc_pool chan))).
  { apply NoDup_app in Hnd as (H1 & H2 & H3).
    apply NoDup_app in H1 as (H11 & _ & _).
    apply NoDup_app. split; [|split; [|exact H3]].
    - apply NoDup_ListNoDup. apply NoDup_rev. apply NoDup_ListNoDup.
      exact H11.
    - intros x Hx. apply H2. apply elem_of_app. left.
      apply list_elem_of_In. apply in_rev. apply list_elem_of_In. exact Hx. }
  rewrite (free_all_prefix (rev addrs) more _ Hnd').
  rewrite rev_involutive, <- Hfree. symmetry. apply pool_eta.
Qed.

End SlaveTransferLifeCycle.

Lemma slave_transfer_progress_witness :
  exists (pdev' : mmp_pdma_device) (chan' : mmp_pdma_chan),
    start_slave_transfer true sample_pdev sample_chan sample_config
      DMA_DEV_TO_MEM 0x8000 20000 0 (Some 7%nat)
    = (Some (chan_cookie sample_chan + chunks 20000), pdev', chan') /\
    mmp_pdma_residue (set_regs {[ DTADR 0 := 0x8000 + 5000 ]} pdev') chan'
      (chan_cookie sample_chan + chunks 20000) = 20000 - 5000.
Proof.
  destruct (slave_transfer_progress true sample_pdev (bind_phy sample_pdev 0 0)
              sample_chan sample_config DMA_DEV_TO_MEM 0x8000 20000 0
              (Some 7%nat) 0)
    as (pdev' & chan' & Hstart & _ & _ & _ & _ & _ & _ & Hres);
    [ reflexivity | reflexivity | discriminate | reflexivity
    | exact sample_pool_ok | vm_compute; discriminate | right; reflexivity
    | lia | lia | lia | reflexivity | ].
  exists pdev', chan'. split; [exact Hstart|].
  apply (Hres {[ DTADR 0 := 0x8000 + 5000 ]} 5000); [lia|reflexivity].
Defined.

(** The bound on the buffer is needed: for a 20000 byte buffer at
    0xfffff000, which crosses 2^32, the end of the first descriptor wraps
    around in the 32-bit arithmetic of [mmp_pdma_residue], and with the
    position register 100 bytes into the buffer the residue reported is 0
    and not 19900. *)
Example slave_transfer_residue_wraps :
  match start_slave_transfer true sample_pdev sample_chan sample_config
          DMA_MEM_TO_DEV 0xfffff000 20000 0 (Some 0%nat) with
  | (Some c, pdev', chan') =>
      phy chan' = Some 0%nat /\
      map desc_len (chain_running chan') = [8191; 8191; 3618] /\
      mmp_pdma_residue
        (set_regs (writel (0xfffff000 + 100)
                     (position_register DMA_MEM_TO_DEV 0) (regs pdev')) pdev')
        chan' c = 0
  | _ => False
  end.
Proof. vm_compute. repeat split; reflexivity. Qed.

Lemma slave_transfer_completion_witness :
  exists (pdev' : mmp_pdma_device) (chan' : mmp_pdma_chan),
    start_slave_transfer true sample_pdev sample_chan sample_config
      DMA_DEV_TO_MEM 0x8000 20000 0 (Some 7%nat)
    = (Some (chan_cookie sample_chan + chunks 20000), pdev', chan') /\
    snd (dma_do_tasklet true pdev' chan') = [(7%nat, chan_cookie sample_chan + 1)] /\
    desc_pool (snd (fst (dma_do_tasklet true pdev' chan')))
    = desc_pool sample_chan.
Proof.
  destruct (slave_transfer_completion true sample_pdev
              (bind_phy sample_pdev 0 0) sample_chan sample_config
              DMA_DEV_TO_MEM 0x8000 20000 0 (Some 7%nat) 0)
    as (pdev' & chan' & Hstart & Hlog & _ & _ & _ & _ & _ & _ & Hpool);
    [ reflexivity | reflexivity | discriminate | reflexivity
    | exact sample_pool_ok | vm_compute; discriminate | right; reflexivity
    | lia | lia | lia | reflexivity | ].
  exists pdev', chan'. split; [exact Hstart|]. split; assumption.
Defined.

Section TransferStartAndCancel.

Variable SUPPORT_64BIT : bool.

(** X19.  Issue starts exactly the oldest submitted transfer: on an
    unbound channel that is not in progress, whose pending queue begins
    with a closed chain [l] (as the flat-copy and slave builders produce
    them), and for which the registry has a physical channel,
    [mmp_pdma_issue_pending] moves [l], and nothing of what was submitted
    after it, to the running queue, binds the physical channel and sets
    the status to in progress; if nothing was running, the hardware is
    given the first descriptor of [l] and started. *)
Theorem issue_starts_oldest_transfer (pdev pdev1 : mmp_pdma_device)
    (chan : mmp_pdma_chan) (l rest : list mmp_pdma_desc_sw) (idx : nat) :
  status chan <> DMA_IN_PROGRESS -> phy chan = None ->
  chain_pending chan = l ++ rest -> closed_chain l = true ->
  lookup_phy pdev chan = (Some idx, pdev1) ->
  chain_running (snd (mmp_pdma_issue_pending SUPPORT_64BIT pdev chan))
  = chain_running chan ++ l /\
  chain_pending (snd (mmp_pdma_issue_pending SUPPORT_64BIT pdev chan)) = rest /\
  status (snd (mmp_pdma_issue_pending SUPPORT_64BIT pdev chan))
  = DMA_IN_PROGRESS /\
  phy (snd (mmp_pdma_issue_pending SUPPORT_64BIT pdev chan)) = Some idx /\
  pdev_phy (fst (mmp_pdma_issue_pending SUPPORT_64BIT pdev chan))
  = pdev_phy pdev1 /\
  ((idx < 32)%nat -> chain_running chan = [] ->
   forall first, l !! 0%nat = Some first ->
     readl (regs (fst (mmp_pdma_issue_pending SUPPORT_64BIT pdev chan)))
       (Z.shiftl (Z.of_nat idx) 4 + DDADR)
     = u32 (desc_phys first) /\
     Z.testbit
       (readl (regs (fst (mmp_pdma_issue_pending SUPPORT_64BIT pdev chan)))
          (Z.shiftl (Z.of_nat idx) 2 + DCSR)) 31 = true).
Proof.
  intros Hst Hphy Hpend Hclosed Hlook.
  destruct (issue_pending_starts_chain SUPPORT_64BIT pdev pdev1 chan l rest idx
              Hst Hphy Hpend Hclosed Hlook)
    as (I1 & I2 & I3 & I4 & I5 & _ & _ & _ & _ & _ & _ & _ & _ & I14).
  split; [exact I1|]. split; [exact I2|]. split; [exact I3|].
  split; [exact I4|]. split; [exact I5|].
  intros Hidx Hrun first Hfirst. apply (I14 Hidx first).
  rewrite Hrun. exact Hfirst.
Qed.

(** X20.  Cancelling a slave transfer that was started as above:
    [mmp_pdma_terminate_all] leaves the channel complete with empty queues
    and no physical channel, stops the hardware channel and clears its
    request line mapping, puts the registry back to what it was before
    the transfer, and returns every descriptor of the transfer: the pool
    holds the same free and handed-out blocks as before the chain was
    built. *)
Theorem slave_transfer_cancel (pdev pdev1 : mmp_pdma_device)
    (chan : mmp_pdma_chan) (cfg : dma_slave_config)
    (d : dma_transfer_direction) (buf len flags : Z) (cb : option nat)
    (idx : nat) :
  chain_pending chan = [] -> chain_running chan = [] ->
  status chan <> DMA_IN_PROGRESS -> phy chan = None ->
  pool_ok (desc_pool chan) ->
  chunks len <= Z.of_nat (length (pool_free (desc_pool chan))) ->
  slave_dir_ok d -> 0 < len -> 0 <= buf -> buf + len < 2 ^ 32 ->
  lookup_phy pdev chan = (Some idx, pdev1) -> (idx < 64)%nat ->
  exists (pdev' : mmp_pdma_device) (chan' : mmp_pdma_chan),
    start_slave_transfer SUPPORT_64BIT pdev chan cfg d buf len flags cb
    = (Some (chan_cookie chan + chunks len), pdev', chan') /\
    let pdev'' := fst (mmp_pdma_terminate_all SUPPORT_64BIT pdev' chan') in
    let chan'' := snd (mmp_pdma_terminate_all SUPPORT_64BIT pdev' chan') in
    status chan'' = DMA_COMPLETE /\
    chain_running chan'' = [] /\ chain_pending chan'' = [] /\
    phy chan'' = None /\ pdev_phy pdev'' = pdev_phy pdev /\
    readl (regs pdev'') (DRCMR (drcmr chan)) = 0 /\
    Z.testbit (readl (regs pdev'') (Z.shiftl (Z.of_nat idx) 2 + DCSR)) 31
    = false /\
    pool_restored (desc_pool chan) (desc_pool chan'').
Proof.
  intros Hpend Hrunq Hst Hphy Hok Hroom Hdir Hlen Hbuf Hlt Hlook Hidx.
  destruct (start_slave_transfer_state SUPPORT_64BIT pdev pdev1 chan cfg d buf
              len flags cb idx Hpend Hrunq Hst Hphy Hok Hroom Hdir Hlen Hbuf
              Hlt Hlook)
    as (pdev' & chan' & init & last & addrs & more & Hstart & Hrun & Hp & Hs
        & Hph & Hd & Hcyc & Hid & Hdr & Hreg & Hall & Hlast & Hck & Hcont
        & Hsum & Hphys & Hcbs & Hfree & Hpool & _).
  exists pdev', chan'. split; [exact Hstart|].
  destruct (terminate_all_effect SUPPORT_64BIT pdev' chan')
    as (T1 & T2 & T3 & T4 & _ & _ & T7 & _ & T9 & _).
  destruct (T9 idx Hph) as (R1 & R2 & R3).
  cbv zeta.
  split; [exact T3|]. split; [exact T2|]. split; [exact T1|].
  split; [exact T4|]. split.
  { rewrite R1, Hreg. pose proof (lookup_phy_result pdev chan) as Hres.
    rewrite Hlook in Hres. destruct Hres as [Hfreephy ->].
    unfold bind_phy. cbn [pdev_phy set_pdev_phy].
    rewrite list_insert_insert_eq. apply list_insert_id. exact Hfreephy. }
  split; [rewrite <- Hdr; exact R2|]. split; [exact (R3 Hidx)|].
  rewrite T7, Hp, Hrun. cbn [app]. rewrite Hphys, Hpool.
  destruct Hok as [Hnd _]. rewrite Hfree in Hnd.
  assert (Hnd' : NoDup (addrs ++ pool_used (desc_pool chan))).
  { apply NoDup_app in Hnd as (H1 & H2 & H3).
    apply NoDup_app in H1 as (H11 & _ & _).
    apply NoDup_app. split; [exact H11|]. split; [|exact H3].
    intros x Hx. apply H2. apply elem_of_app. left. exact Hx. }
  rewrite (free_all_restores addrs more _ Hnd').
  split; [reflexivity|]. cbn [pool_free]. rewrite Hfree.
  apply Permutation_app_tail. symmetry. apply Permutation_rev.
Qed.

End TransferStartAndCancel.

Lemma issue_starts_oldest_transfer_witness :
  chain_running (snd (mmp_pdma_issue_pending true sample_pdev pending_chan))
  = chain_running pending_chan ++ running_pair /\
  chain_pending (snd (mmp_pdma_issue_pending true sample_pdev pending_chan))
  = [] /\
  status (snd (mmp_pdma_issue_pending true sample_pdev pending_chan))
  = DMA_IN_PROGRESS /\
  phy (snd (mmp_pdma_issue_pending true sample_pdev pending_chan))
  = Some 0%nat /\
  pdev_phy (fst (mmp_pdma_issue_pending true sample_pdev pending_chan))
  = pdev_phy (bind_phy sample_pdev 0 0).
Proof.
  destruct (issue_starts_oldest_transfer true sample_pdev
              (bind_phy sample_pdev 0 0) pending_chan running_pair [] 0)
    as (H1 & H2 & H3 & H4 & H5 & _);
    [ discriminate | reflexivity | reflexivity | reflexivity | reflexivity | ].
  repeat split; assumption.
Defined.

Lemma slave_transfer_cancel_witness :
  exists (pdev' : mmp_pdma_device) (chan' : mmp_pdma_chan),
    start_slave_transfer true sample_pdev sample_chan sample_config
      DMA_MEM_TO_DEV 0x8000 20000 0 None
    = (Some (chan_cookie sample_chan + chunks 20000), pdev', chan') /\
    pdev_phy (fst (mmp_pdma_terminate_all true pdev' chan'))
    = pdev_phy sample_pdev /\
    pool_restored (desc_pool sample_chan)
      (desc_pool (snd (mmp_pdma_terminate_all true pdev' chan'))).
Proof.
  destruct (slave_transfer_cancel true sample_pdev (bind_phy sample_pdev 0 0)
              sample_chan sample_config DMA_MEM_TO_DEV 0x8000 20000 0 None 0)
    as (pdev' & chan' & Hstart & _ & _ & _ & _ & Hreg & _ & _ & Hpool);
    [ reflexivity | reflexivity | discriminate | reflexivity
    | exact sample_pool_ok | vm_compute; discriminate | left; reflexivity
    | lia | lia | lia | reflexivity | lia | ].
  exists pdev', chan'. split; [exact Hstart|]. split; assumption.
Defined.

(** ** Several logical channels on one controller *)

Lemma others_untouched_same (pdev pdev' : mmp_pdma_device) (k : nat) :
  pdev_phy pdev' = pdev_phy pdev -> others_untouched pdev pdev' k.
Proof. intros H i j _. rewrite H. reflexivity. Qed.

Lemma others_untouched_trans (p1 p2 p3 : mmp_pdma_device) (k : nat) :
  others_untouched p1 p2 k -> others_untouched p2 p3 k ->
  others_untouched p1 p3 k.
Proof.
  intros H12 H23 i j Hj. rewrite (H23 i j Hj). apply (H12 i j Hj).
Qed.

Lemma binding_frame (pdev pdev' : mmp_pdma_device) (chan chan' : mmp_pdma_chan) :
  pdev_phy pdev' = pdev_phy pdev -> chan_id chan' = chan_id chan ->
  phy chan' = phy chan ->
  bound_consistent pdev chan ->
  bound_consistent pdev' chan' /\ others_untouched pdev pdev' (chan_id chan).
Proof.
  intros Hp Hid Hphy H. split; [|apply others_untouched_same; exact Hp].
  unfold bound_consistent in *. rewrite Hp, Hid, Hphy. exact H.
Qed.

Lemma free_phy_others (pdev : mmp_pdma_device) (chan : mmp_pdma_chan) :
  bound_consistent pdev chan ->
  others_untouched pdev (fst (mmp_pdma_free_phy pdev chan)) (chan_id chan) /\
  chan_id (snd (mmp_pdma_free_phy pdev chan)) = chan_id chan.
Proof.
  intros [H1 H2]. unfold mmp_pdma_free_phy.
  destruct (phy chan) as [i|] eqn:Ephy; cbn [fst snd];
    [|split; [apply others_untouched_same|]; reflexivity].
  split; [|reflexivity].
  intros i' j Hj. cbn [pdev_phy set_pdev_phy set_regs].
  destruct (Nat.eq_dec i i') as [<-|Hne].
  - pose proof (H1 i eq_refl) as Hi.
    assert (Hlt : (i < length (pdev_phy pdev))%nat)
      by (apply lookup_lt_Some in Hi; exact Hi).
    rewrite list_lookup_insert_eq by exact Hlt. rewrite Hi.
    split; intros E; [discriminate|]. injection E as E. congruence.
  - rewrite list_lookup_insert_ne by exact Hne. reflexivity.
Qed.

Lemma lookup_phy_binding (pdev pdev1 : mmp_pdma_device)
    (chan : mmp_pdma_chan) (i : nat) :
  lookup_phy pdev chan = (Some i, pdev1) -> phy chan = None ->
  bound_consistent pdev chan ->
  bound_consistent pdev1 (set_phy (Some i) chan) /\
  others_untouched pdev pdev1 (chan_id chan).
Proof.
  intros Hlook Hnone Hb.
  pose proof (lookup_phy_result pdev chan) as Hres. rewrite Hlook in Hres.
  destruct Hres as [Hfree ->].
  split; [apply bind_phy_consistent; assumption|].
  intros i' j Hj. unfold bind_phy. cbn [pdev_phy set_pdev_phy].
  assert (Hlt : (i < length (pdev_phy pdev))%nat)
    by (apply lookup_lt_Some in Hfree; exact Hfree).
  destruct (Nat.eq_dec i i') as [<-|Hne].
  - rewrite list_lookup_insert_eq by exact Hlt.
    unfold phy_unbound in Hfree. rewrite Hfree.
    split; intros E; [injection E as E; congruence|discriminate].
  - rewrite list_lookup_insert_ne by exact Hne. reflexivity.
Qed.

Section SharedController.

Variable SUPPORT_64BIT : bool.

Lemma run_pending_binding (pdev : mmp_pdma_device) (chan : mmp_pdma_chan) :
  pdev_phy (snd (fst (run_pending SUPPORT_64BIT pdev chan))) = pdev_phy pdev /\
  chan_id (snd (run_pending SUPPORT_64BIT pdev chan)) = chan_id chan /\
  phy (snd (run_pending SUPPORT_64BIT pdev chan)) = phy chan.
Proof.
  unfold run_pending. destruct (take_pending (chain_pending chan)) as [m r].
  cbn [fst snd phy chan_id set_bytes_residue set_status set_idle
       set_chain_running set_chain_pending].
  split; [|split; reflexivity].
  rewrite enable_chan_phy. destruct (phy chan); [apply set_desc_phy|reflexivity].
Qed.

Lemma start_pending_queue_binding (pdev : mmp_pdma_device)
    (chan : mmp_pdma_chan) :
  bound_consistent pdev chan ->
  bound_consistent (snd (fst (start_pending_queue SUPPORT_64BIT pdev chan)))
    (snd (start_pending_queue SUPPORT_64BIT pdev chan)) /\
  others_untouched pdev
    (snd (fst (start_pending_queue SUPPORT_64BIT pdev chan))) (chan_id chan) /\
  chan_id (snd (start_pending_queue SUPPORT_64BIT pdev chan)) = chan_id chan.
Proof.
  intros Hb. unfold start_pending_queue.
  destruct (status_eqb (status chan) DMA_IN_PROGRESS).
  { cbn [fst snd]. split; [exact Hb|].
    split; [apply others_untouched_same|]; reflexivity. }
  destruct (chain_pending chan) as [|d0 pend].
  - destruct (free_phy_consistent pdev chan Hb) as (Hc & _).
    destruct (free_phy_others pdev chan Hb) as (Ho & Hid).
    destruct (mmp_pdma_free_phy pdev chan) as [pdev' chan'].
    cbn [fst snd] in *. split; [exact Hc|]. split; [exact Ho|exact Hid].
  - destruct (phy chan) as [idx|] eqn:Ephy.
    + destruct (run_pending_binding pdev chan) as (Hp & Hid & Hphy).
      destruct (binding_frame pdev _ chan _ Hp Hid Hphy Hb) as [Hc Ho].
      split; [exact Hc|]. split; [exact Ho|exact Hid].
    + destruct (lookup_phy pdev chan) as [[i|] pdev1] eqn:Hlook.
      * destruct (lookup_phy_binding pdev pdev1 chan i Hlook Ephy Hb)
          as [Hc1 Ho1].
        destruct (run_pending_binding pdev1 (set_phy (Some i) chan))
          as (Hp & Hid & Hphy).
        destruct (binding_frame pdev1 _ (set_phy (Some i) chan) _ Hp Hid Hphy
                    Hc1) as [Hc Ho].
        split; [exact Hc|]. split; [|exact Hid].
        eapply others_untouched_trans; [exact Ho1|exact Ho].
      * cbn [fst snd]. split; [exact Hb|].
        split; [apply others_untouched_same|]; reflexivity.
Qed.

Lemma qos_put_binding (pdev : mmp_pdma_device) (chan : mmp_pdma_chan) :
  bound_consistent pdev chan -> bound_consistent pdev (mmp_pdma_qos_put chan).
Proof.
  intros Hb. destruct (qos_put_frame chan) as (Hid & Hphy & _).
  exact (proj1 (binding_frame pdev pdev chan _ eq_refl Hid Hphy Hb)).
Qed.

(** One call on a logical channel keeps the channel's number, keeps its
    binding in agreement with the registry, and leaves the bindings of all
    other logical channels alone. *)
Lemma engine_step_binding (op : engine_op) (pdev : mmp_pdma_device)
    (chan : mmp_pdma_chan) :
  bound_consistent pdev chan ->
  chan_id (snd (engine_step SUPPORT_64BIT op pdev chan)) = chan_id chan /\
  bound_consistent (fst (engine_step SUPPORT_64BIT op pdev chan))
    (snd (engine_step SUPPORT_64BIT op pdev chan)) /\
  others_untouched pdev (fst (engine_step SUPPORT_64BIT op pdev chan))
    (chan_id chan).
Proof.
  intros Hb.
  assert (Hframe : forall chan' : mmp_pdma_chan,
            chan_frame chan chan' ->
            chan_id chan' = chan_id chan /\
            bound_consistent pdev chan' /\
            others_untouched pdev pdev (chan_id chan)).
  { intros chan' (F1 & F2 & _).
    split; [exact F1|].
    exact (binding_frame pdev pdev chan chan' eq_refl F1 F2 Hb). }
  destruct op as [dst src len fl | sgl d fl | buf len per direction fl
                  | tx_list | | | | ]; cbn [engine_step].
  - destruct (mmp_pdma_prep_memcpy SUPPORT_64BIT pdev chan dst src len fl)
      as [[r chan']|] eqn:E; cbn [fst snd].
    + apply Hframe. exact (prep_memcpy_frame SUPPORT_64BIT _ _ _ _ _ _ _ _ E).
    + apply Hframe. apply chan_frame_refl.
  - cbn [fst snd]. apply Hframe. apply prep_slave_sg_frame.
  - cbn [fst snd]. apply Hframe. apply prep_dma_cyclic_frame.
  - cbn [fst snd]. unfold mmp_pdma_tx_submit.
    pose proof (assign_cookies_frame tx_list chan (- EBUSY))
      as (Hid & Hphy & _).
    destruct (assign_cookies chan (- EBUSY) tx_list) as [[c chan'] l].
    cbn [fst snd] in *.
    split; [exact Hid|].
    exact (binding_frame pdev pdev chan _ eq_refl Hid Hphy Hb).
  - unfold mmp_pdma_issue_pending.
    destruct (qos_get_frame chan) as (Gid & Gphy & _).
    destruct (binding_frame pdev pdev chan _ eq_refl Gid Gphy Hb) as [Hg _].
    destruct (start_pending_queue_binding pdev (mmp_pdma_qos_get chan) Hg)
      as (Hc & Ho & Hid).
    rewrite Gid in Ho, Hid.
    destruct (start_pending_queue SUPPORT_64BIT pdev (mmp_pdma_qos_get chan))
      as [[ret pdev'] chan'].
    cbn [fst snd] in *.
    destruct (nonzero ret);
      [|split; [exact Hid|]; split; [exact Hc|exact Ho]].
    destruct (qos_put_frame chan') as (Pid & _).
    split; [congruence|]. split; [apply qos_put_binding; exact Hc|exact Ho].
  - unfold dma_do_tasklet.
    destruct (status_eqb (status chan) DMA_COMPLETE).
    { cbn [fst snd]. apply Hframe. apply chan_frame_refl. }
    destruct (cyclic_first chan).
    { cbn [fst snd]. apply Hframe. apply chan_frame_refl. }
    set (chan0 := match first_irq_cookie (chain_running chan) with
                  | Some c => set_bytes_residue (mmp_pdma_residue pdev chan c) chan
                  | None => chan
                  end).
    destruct (move_to_cleanup (chain_running chan0) [] None)
      as [[running cleanup] completed].
    set (chan1 := set_status _ _).
    assert (H1 : chan_id chan1 = chan_id chan /\ phy chan1 = phy chan).
    { subst chan1 chan0. destruct completed;
        destruct (first_irq_cookie (chain_running chan)); split; reflexivity. }
    destruct H1 as [Hid1 Hphy1].
    destruct (binding_frame pdev pdev chan chan1 eq_refl Hid1 Hphy1 Hb)
      as [Hb1 _].
    destruct (start_pending_queue_binding pdev chan1 Hb1) as (Hc & Ho & Hid).
    rewrite Hid1 in Ho, Hid.
    destruct (start_pending_queue SUPPORT_64BIT pdev chan1)
      as [[ret pdev2] chan2].
    cbn [fst snd] in Hc, Ho, Hid.
    set (chan3 := if nonzero ret then mmp_pdma_qos_put chan2 else chan2).
    assert (H3 : chan_id chan3 = chan_id chan /\ bound_consistent pdev2 chan3).
    { subst chan3. destruct (nonzero ret); [|split; assumption].
      destruct (qos_put_frame chan2) as (Pid & _).
      split; [congruence|apply qos_put_binding; exact Hc]. }
    destruct H3 as [Hid3 Hb3].
    pose proof (run_cleanup_frame cleanup chan3 []) as (Rid & Rphy & _).
    destruct (run_cleanup chan3 cleanup []) as [chan4 log].
    cbn [fst snd] in *.
    split; [congruence|]. split; [|exact Ho].
    exact (proj1 (binding_frame pdev2 pdev2 chan3 chan4 eq_refl Rid Rphy Hb3)).
  - unfold mmp_pdma_pause_chan. destruct (phy chan) as [idx|] eqn:Ephy;
      cbn [fst snd].
    + split; [reflexivity|].
      apply (binding_frame pdev _ chan (set_status DMA_PAUSED chan));
        [apply disable_chan_phy|reflexivity|reflexivity|exact Hb].
    + apply Hframe. apply chan_frame_refl.
  - unfold mmp_pdma_terminate_all.
    set (pdev0 := disable_chan SUPPORT_64BIT pdev (phy chan)).
    set (chan0 := set_status DMA_COMPLETE chan).
    destruct (binding_frame pdev pdev0 chan chan0
                (disable_chan_phy SUPPORT_64BIT pdev (phy chan))
                eq_refl eq_refl Hb) as [Hb0 Ho0].
    destruct (free_phy_consistent pdev0 chan0 Hb0) as (Hc & _).
    destruct (free_phy_others pdev0 chan0 Hb0) as (Ho & Hid).
    destruct (mmp_pdma_free_phy pdev0 chan0) as [pdev1 chan1].
    cbn [fst snd] in *.
    match goal with
    | |- context [mmp_pdma_qos_put ?c] =>
        destruct (qos_put_frame c) as (Pid & Pphy & _);
        assert (Hc' : bound_consistent pdev1 c)
          by (exact (proj1 (binding_frame pdev1 pdev1 chan1 c eq_refl eq_refl
                              eq_refl Hc)))
    end.
    split; [rewrite Pid; exact Hid|].
    split; [apply qos_put_binding; exact Hc'|].
    eapply others_untouched_trans; [exact Ho0|exact Ho].
Qed.

Lemma engine_run_consistent (ops : list (nat * engine_op)) :
  forall (pdev : mmp_pdma_device) (chans : list mmp_pdma_chan),
    engine_consistent pdev chans ->
    engine_consistent (fst (engine_run SUPPORT_64BIT ops pdev chans))
      (snd (engine_run SUPPORT_64BIT ops pdev chans)).
Proof.
  induction ops as [|[k op] ops IH]; intros pdev chans Hc; [exact Hc|].
  cbn [engine_run]. destruct (chans !! k) as [chan|] eqn:Ek; [|apply IH, Hc].
  destruct (Hc k chan Ek) as [Hid Hb].
  destruct (engine_step_binding op pdev chan Hb) as (Sid & Sb & So).
  destruct (engine_step SUPPORT_64BIT op pdev chan) as [pdev' chan'].
  cbn [fst snd] in *. apply IH.
  intros k' c Hk'.
  destruct (Nat.eq_dec k k') as [<-|Hne].
  - rewrite list_lookup_insert_eq in Hk'
      by (apply lookup_lt_Some in Ek; exact Ek).
    injection Hk' as <-. split; [congruence|exact Sb].
  - rewrite list_lookup_insert_ne in Hk' by exact Hne.
    destruct (Hc k' c Hk') as [Hid' [H1 H2]].
    split; [exact Hid'|].
    assert (Hk : chan_id c <> chan_id chan) by congruence.
    split.
    + intros i Hi. apply (So i (chan_id c) Hk). apply H1. exact Hi.
    + intros i Hi. apply H2. apply (So i (chan_id c) Hk). exact Hi.
Qed.

(** X21.  Physical channels are never shared.  Start from a controller
    whose registry agrees with the [phy] pointers of its logical channels
    (as after probe, where nothing is bound), and let the clients and the
    completion tasklets of the logical channels make any sequence of calls
    (prepare, submit, issue, completion, pause, terminate), in any
    interleaving.  Afterwards the registry still agrees with the [phy]
    pointers of all logical channels, and no two logical channels hold the
    same physical channel. *)
Theorem physical_channels_never_shared (ops : list (nat * engine_op))
    (pdev : mmp_pdma_device) (chans : list mmp_pdma_chan) :
  engine_consistent pdev chans ->
  engine_consistent (fst (engine_run SUPPORT_64BIT ops pdev chans))
    (snd (engine_run SUPPORT_64BIT ops pdev chans)) /\
  forall (j k i : nat) (cj ck : mmp_pdma_chan),
    snd (engine_run SUPPORT_64BIT ops pdev chans) !! j = Some cj ->
    snd (engine_run SUPPORT_64BIT ops pdev chans) !! k = Some ck ->
    phy cj = Some i -> phy ck = Some i -> j = k.
Proof.
  intros Hc. pose proof (engine_run_consistent ops pdev chans Hc) as Hc'.
  split; [exact Hc'|].
  intros j k i cj ck Hj Hk Pj Pk.
  destruct (Hc' j cj Hj) as [Ij [Bj _]].
  destruct (Hc' k ck Hk) as [Ik [Bk _]].
  pose proof (Bj i Pj) as E1. pose proof (Bk i Pk) as E2.
  rewrite E1 in E2. injection E2 as E2. congruence.
Qed.

End SharedController.

(** After probe nothing is bound: logical channels that carry their number
    and hold no physical channel are consistent with the registry. *)
Lemma probe_consistent (of_id : option pdma_of_node) (pdata : option Z)
    (base : gmap Z Z) (chans : list mmp_pdma_chan) :
  (forall k chan, chans !! k = Some chan -> chan_id chan = k /\ phy chan = None) ->
  engine_consistent (mmp_pdma_probe of_id pdata base) chans.
Proof.
  intros H k chan Hk. destruct (H k chan Hk) as [Hid Hphy].
  split; [exact Hid|]. unfold bound_consistent. rewrite Hphy.
  split; [discriminate|].
  intros i Hi. exfalso. unfold mmp_pdma_probe in Hi.
  destruct of_id as [node|]; cbn [pdev_phy] in Hi;
    apply lookup_replicate in Hi as [Hi _]; discriminate.
Qed.

Lemma physical_channels_never_shared_witness :
  engine_consistent (mmp_pdma_probe None None ∅) [sample_chan; sample_chan_1] /\
  engine_consistent
    (fst (engine_run true
            [ (0%nat, OpSubmit running_pair); (1%nat, OpSubmit running_pair);
              (1%nat, OpIssuePending); (0%nat, OpIssuePending);
              (1%nat, OpTasklet); (0%nat, OpTerminateAll) ]
            (mmp_pdma_probe None None ∅) [sample_chan; sample_chan_1]))
    (snd (engine_run true
            [ (0%nat, OpSubmit running_pair); (1%nat, OpSubmit running_pair);
              (1%nat, OpIssuePending); (0%nat, OpIssuePending);
              (1%nat, OpTasklet); (0%nat, OpTerminateAll) ]
            (mmp_pdma_probe None None ∅) [sample_chan; sample_chan_1])).
Proof.
  assert (H0 : engine_consistent (mmp_pdma_probe None None ∅)
                 [sample_chan; sample_chan_1]).
  { apply probe_consistent.
    intros k chan Hk. destruct k as [|[|k]]; cbn in Hk;
      [injection Hk as <- | injection Hk as <- | discriminate];
      split; reflexivity. }
  split; [exact H0|].
  exact (proj1 (physical_channels_never_shared true _ _ _ H0)).
Defined.

(** ** The shared interrupt handler *)

Lemma clear_lowest_bits (p : positive) :
  forall j : nat,
    Z.testbit (Zpos p) (Z.of_nat j) && Z.testbit (Zpos p - 1) (Z.of_nat j)
    = Z.testbit (Zpos p) (Z.of_nat j) && negb (j =? ctz p)%nat.
Proof.
  induction p as [p IH|p IH|]; intros j.
  - (* odd *)
    replace (Zpos p~1 - 1) with (2 * Zpos p) by lia.
    rewrite (Pos2Z.inj_xI p). cbn [ctz].
    destruct j as [|j].
    + change (Z.of_nat 0) with 0.
      rewrite Z.testbit_odd_0, Z.testbit_even_0. reflexivity.
    + rewrite Nat2Z.inj_succ.
      rewrite Z.testbit_odd_succ, Z.testbit_even_succ by lia.
      cbn [Nat.eqb negb]. destruct (Z.testbit (Zpos p) (Z.of_nat j)); reflexivity.
  - (* even *)
    replace (Zpos p~0 - 1) with (2 * (Zpos p - 1) + 1) by lia.
    rewrite (Pos2Z.inj_xO p). cbn [ctz].
    destruct j as [|j].
    + change (Z.of_nat 0) with 0. rewrite Z.testbit_even_0. reflexivity.
    + rewrite Nat2Z.inj_succ.
      rewrite Z.testbit_even_succ, Z.testbit_odd_succ by lia.
      cbn [Nat.eqb]. apply IH.
  - (* one *)
    change (1 - 1) with 0. rewrite Z.bits_0. cbn [ctz].
    destruct j as [|j]; [reflexivity|].
    rewrite Nat2Z.inj_succ.
    change 1 with (2 * 0 + 1). rewrite Z.testbit_odd_succ by lia.
    rewrite Z.bits_0. reflexivity.
Qed.

Lemma ffs_lowest (p : positive) :
  Z.testbit (Zpos p) (Z.of_nat (ctz p)) = true /\
  forall j : nat, (j < ctz p)%nat -> Z.testbit (Zpos p) (Z.of_nat j) = false.
Proof.
  induction p as [p IH|p [IH1 IH2]|].
  - cbn [ctz]. split; [reflexivity|]. intros j Hj. lia.
  - cbn [ctz]. rewrite (Pos2Z.inj_xO p). split.
    + rewrite Nat2Z.inj_succ, Z.testbit_even_succ by lia. exact IH1.
    + intros [|j] Hj.
      * change (Z.of_nat 0) with 0. apply Z.testbit_even_0.
      * rewrite Nat2Z.inj_succ, Z.testbit_even_succ by lia.
        apply IH2. lia.
  - cbn [ctz]. split; [reflexivity|]. intros j Hj. lia.
Qed.

Lemma filter_seq_lowest (f g : nat -> bool) (i : nat) :
  (forall j, (j < i)%nat -> f j = false) -> f i = true ->
  (forall j, g j = f j && negb (j =? i)%nat) ->
  forall m,
    List.filter f (seq 0 m)
    = if (i <? m)%nat then i :: List.filter g (seq 0 m) else [].
Proof.
  intros Hlow Hi Hg.
  assert (Hbelow : forall (h : nat -> bool) m,
            (forall j, (j < m)%nat -> h j = false) ->
            List.filter h (seq 0 m) = []).
  { intros h m Hh. induction m as [|m IHm]; [reflexivity|].
    rewrite seq_S, List.filter_app, IHm by (intros j Hj; apply Hh; lia).
    cbn [List.filter app Nat.add]. rewrite Hh by lia. reflexivity. }
  assert (Habove : forall s len, (i < s)%nat ->
            List.filter f (seq s len) = List.filter g (seq s len)).
  { intros s len. revert s. induction len as [|len IHl]; intros s Hs;
      [reflexivity|].
    cbn [seq List.filter]. rewrite (Hg s).
    assert (E : (s =? i)%nat = false) by (apply Nat.eqb_neq; lia).
    rewrite E, andb_true_r, IHl by lia. reflexivity. }
  intros m. destruct (Nat.ltb_spec i m) as [Hlt|Hge].
  - replace m with (i + S (m - S i))%nat by lia.
    rewrite seq_app, !List.filter_app.
    rewrite (Hbelow f i Hlow).
    rewrite (Hbelow g i) by (intros j Hj; rewrite Hg, Hlow by lia; reflexivity).
    cbn [app seq List.filter Nat.add].
    rewrite Hi, (Hg i), Hi, Nat.eqb_refl. cbn [andb negb].
    rewrite Habove by lia. reflexivity.
  - apply Hbelow. intros j Hj. apply Hlow. lia.
Qed.

Lemma land_BIT_testbit (x : Z) (i : nat) :
  nonzero (Z.land x (BIT (Z.of_nat i))) = Z.testbit x (Z.of_nat i).
Proof.
  unfold nonzero, BIT. rewrite Z.shiftl_1_l.
  destruct (Z.testbit x (Z.of_nat i)) eqn:E.
  - apply negb_true_iff, Z.eqb_neq. intros H0.
    assert (Hb : Z.testbit (Z.land x (2 ^ Z.of_nat i)) (Z.of_nat i) = true)
      by (rewrite Z.land_spec, E, Z.pow2_bits_true by lia; reflexivity).
    rewrite H0, Z.bits_0 in Hb. discriminate.
  - apply negb_false_iff, Z.eqb_eq. apply Z.bits_inj'. intros n Hn.
    rewrite Z.land_spec, Z.bits_0.
    destruct (Z.eq_dec n (Z.of_nat i)) as [->|Hne].
    + rewrite E. reflexivity.
    + rewrite Z.pow2_bits_false by lia. apply andb_false_r.
Qed.

Lemma chan_handler_dispatch (pdev : mmp_pdma_device) (idx cid : nat)
    (scheduled : list nat) :
  pdev_phy pdev !! idx = Some (Some cid) ->
  Z.testbit (readl (regs pdev) DINT) (Z.of_nat idx) = true ->
  (idx < 32)%nat ->
  exists pdev',
    mmp_pdma_chan_handler pdev idx scheduled
    = (IRQ_HANDLED, pdev', scheduled ++ [cid; cid]) /\
    pdev_phy pdev' = pdev_phy pdev /\
    dma_channels pdev' = dma_channels pdev /\
    readl (regs pdev') DINT = readl (regs pdev) DINT.
Proof.
  intros Hb Hbit Hidx. unfold mmp_pdma_chan_handler, clear_chan_irq.
  rewrite land_BIT_testbit, Hbit. cbn [negb nonzero Z.eqb].
  cbn [pdev_phy set_regs]. rewrite Hb.
  cbn [mjoin option_join tasklet_schedule].
  eexists. split; [rewrite <- app_assoc; reflexivity|].
  split; [reflexivity|]. split; [reflexivity|].
  cbn [regs set_regs]. apply readl_writel_ne.
  rewrite Z.shiftl_mul_pow2 by lia. unfold DCSR, DINT. lia.
Qed.

Lemma chan_handler_unbound (pdev : mmp_pdma_device) (idx : nat)
    (scheduled : list nat) :
  pdev_phy pdev !! idx = Some None ->
  Z.testbit (readl (regs pdev) DINT) (Z.of_nat idx) = true ->
  fst (fst (mmp_pdma_chan_handler pdev idx scheduled)) = IRQ_OOPS.
Proof.
  intros Hb Hbit. unfold mmp_pdma_chan_handler, clear_chan_irq.
  rewrite land_BIT_testbit, Hbit. cbn [negb nonzero Z.eqb].
  cbn [pdev_phy set_regs]. rewrite Hb. reflexivity.
Qed.

Lemma int_handler_loop_spec (P : list (option nat)) (D n : Z) :
  0 <= n <= 32 ->
  forall (fuel : nat) (w : Z) (pdev : mmp_pdma_device) (irq : Z)
         (scheduled : list nat),
    0 <= w ->
    (forall j : nat, (32 <= j)%nat -> Z.testbit w (Z.of_nat j) = false) ->
    (forall j : nat, Z.testbit w (Z.of_nat j) = true ->
                     Z.testbit D (Z.of_nat j) = true) ->
    (length (List.filter (fun i => Z.testbit w (Z.of_nat i)) (seq 0 32))
     <= fuel)%nat ->
    pdev_phy pdev = P -> dma_channels pdev = n ->
    readl (regs pdev) DINT = D ->
    (forall i : nat, Z.of_nat i < n -> Z.testbit w (Z.of_nat i) = true ->
                     exists cid, P !! i = Some (Some cid)) ->
    0 <= irq ->
    exists pdev',
      int_handler_loop fuel pdev w irq scheduled
      = (if nonzero
              (irq + Z.of_nat
                       (length (List.filter
                                  (fun i => Z.testbit w (Z.of_nat i))
                                  (seq 0 (Z.to_nat n)))))
         then IRQ_HANDLED else IRQ_NONE,
         pdev',
         scheduled
         ++ flat_map (fun i => match mjoin (P !! i) with
                               | Some cid => [cid; cid]
                               | None => []
                               end)
              (List.filter (fun i => Z.testbit w (Z.of_nat i))
                 (seq 0 (Z.to_nat n)))) /\
      pdev_phy pdev' = P.
Proof.
  intros Hn.
  assert (Hsub : forall (f : nat -> bool) (m1 m2 : nat),
            (m1 <= m2)%nat -> List.filter f (seq 0 m2) = [] ->
            List.filter f (seq 0 m1) = []).
  { intros f m1 m2 Hle H. replace m2 with (m1 + (m2 - m1))%nat in H by lia.
    rewrite seq_app, List.filter_app in H.
    apply app_eq_nil in H as [H _]. exact H. }
  induction fuel as [|fuel IH];
    intros w pdev irq scheduled Hw Hhigh HD Hfuel HP Hch Hdint Hbound Hirq.
  - assert (E : List.filter (fun i => Z.testbit w (Z.of_nat i)) (seq 0 32) = [])
      by (destruct (List.filter _ (seq 0 32)); [reflexivity|cbn in Hfuel; lia]).
    rewrite (Hsub _ (Z.to_nat n) 32%nat) by (try exact E; lia).
    cbn [int_handler_loop length flat_map]. rewrite Z.add_0_r, app_nil_r.
    exists pdev. split; [reflexivity|exact HP].
  - cbn [int_handler_loop].
    destruct w as [|p|p]; [| |lia].
    + cbn [nonzero Z.eqb negb].
      assert (E : forall m, List.filter (fun i => Z.testbit 0 (Z.of_nat i))
                              (seq 0 m) = []).
      { intros m. induction (seq 0 m) as [|x l IHl]; [reflexivity|].
        cbn [List.filter]. rewrite Z.bits_0. exact IHl. }
      rewrite E. cbn [length flat_map]. rewrite Z.add_0_r, app_nil_r.
      exists pdev. split; [reflexivity|exact HP].
    + cbn [nonzero Z.eqb negb __ffs].
      destruct (ffs_lowest p) as [Hset Hlow].
      assert (Hi32 : (ctz p < 32)%nat).
      { destruct (Nat.lt_ge_cases (ctz p) 32) as [H|H]; [exact H|].
        rewrite (Hhigh _ H) in Hset. discriminate. }
      assert (Hg : forall j : nat,
                Z.testbit (Z.land (Zpos p) (Zpos p - 1)) (Z.of_nat j)
                = Z.testbit (Zpos p) (Z.of_nat j) && negb (j =? ctz p)%nat)
        by (intros j; rewrite Z.land_spec; apply clear_lowest_bits).
      pose proof (filter_seq_lowest
                    (fun i => Z.testbit (Zpos p) (Z.of_nat i))
                    (fun i => Z.testbit (Z.land (Zpos p) (Zpos p - 1))
                                (Z.of_nat i))
                    (ctz p) Hlow Hset Hg) as Hfilter.
      rewrite Hch.
      destruct (Z.geb_spec (Z.of_nat (ctz p)) n) as [Hge|Hlt].
      * rewrite (Hfilter (Z.to_nat n)).
        assert (E : (ctz p <? Z.to_nat n)%nat = false)
          by (apply Nat.ltb_ge; lia).
        rewrite E. cbn [length flat_map]. rewrite Z.add_0_r, app_nil_r.
        exists pdev. split; [reflexivity|exact HP].
      * destruct (Hbound (ctz p) Hlt Hset) as [cid Hcid].
        destruct (chan_handler_dispatch pdev (ctz p) cid scheduled)
          as (pdev1 & Hrun & HP1 & Hch1 & HD1);
          [rewrite HP; exact Hcid | rewrite Hdint; apply HD; exact Hset
          | exact Hi32 |].
        rewrite Hrun.
        destruct (IH (Z.land (Zpos p) (Zpos p - 1)) pdev1 (irq + 1)
                    (scheduled ++ [cid; cid]))
          as (pdev' & Hloop & HP');
          [ apply Z.land_nonneg; left; lia
          | intros j Hj; rewrite Hg, (Hhigh j Hj); reflexivity
          | intros j Hj; rewrite Hg in Hj; apply andb_prop in Hj as [Hj _];
            apply HD; exact Hj
          | rewrite (Hfilter 32%nat) in Hfuel;
            assert (E32 : (ctz p <? 32)%nat = true) by (apply Nat.ltb_lt; lia);
            rewrite E32 in Hfuel; cbn [length] in Hfuel; lia
          | congruence | congruence | congruence
          | intros i Hi Hb; rewrite Hg in Hb; apply andb_prop in Hb as [Hb _];
            apply (Hbound i Hi Hb)
          | lia |].
        rewrite Hloop, (Hfilter (Z.to_nat n)).
        assert (E : (ctz p <? Z.to_nat n)%nat = true)
          by (apply Nat.ltb_lt; lia).
        rewrite E. cbn [length flat_map]. rewrite Hcid.
        cbn [mjoin option_join].
        exists pdev'. split; [|exact HP'].
        rewrite <- app_assoc.
        replace (irq + 1 + Z.of_nat (length (List.filter
                   (fun i => Z.testbit (Z.land (Zpos p) (Zpos p - 1))
                               (Z.of_nat i)) (seq 0 (Z.to_nat n)))))
          with (irq + Z.of_nat (S (length (List.filter
                   (fun i => Z.testbit (Z.land (Zpos p) (Zpos p - 1))
                               (Z.of_nat i)) (seq 0 (Z.to_nat n)))))) by lia.
        reflexivity.
Qed.

Lemma int_handler_loop_fault (fuel : nat) (pdev : mmp_pdma_device)
    (p : positive) (irq_num : Z) (scheduled : list nat) :
  Z.of_nat (ctz p) < dma_channels pdev ->
  fst (fst (mmp_pdma_chan_handler pdev (ctz p) scheduled)) = IRQ_OOPS ->
  fst (fst (int_handler_loop (S fuel) pdev (Zpos p) irq_num scheduled))
  = IRQ_OOPS.
Proof.
  intros Hlt Hoops. cbn [int_handler_loop nonzero Z.eqb negb __ffs].
  destruct (Z.geb_spec (Z.of_nat (ctz p)) (dma_channels pdev)) as [Hge|_];
    [lia|].
  destruct (mmp_pdma_chan_handler pdev (ctz p) scheduled) as [[ret pdev1] s1].
  cbn [fst] in Hoops. rewrite Hoops. reflexivity.
Qed.

(** X22.  The shared interrupt handler serves exactly the physical channels
    of the controller whose status bit is set in the interrupt status
    register, in ascending order: when all of them are bound, it requests
    the tasklet of the logical channel of each (twice per channel, once
    through each of the two calls in the per-channel handler), leaves the
    registry alone and reports "handled" if and only if there was such a
    channel.  When the lowest such channel is not bound, the handler
    faults. *)
Theorem int_handler_dispatch (pdev : mmp_pdma_device) (scheduled : list nat) :
  0 <= dma_channels pdev <= 32 ->
  ((forall i : nat, In i (pending_channels pdev) ->
                    exists cid, pdev_phy pdev !! i = Some (Some cid)) ->
   exists pdev',
     mmp_pdma_int_handler pdev scheduled
     = (match pending_channels pdev with
        | [] => IRQ_NONE
        | _ :: _ => IRQ_HANDLED
        end,
        pdev',
        scheduled ++ flat_map (schedule_requests pdev) (pending_channels pdev))
     /\ pdev_phy pdev' = pdev_phy pdev) /\
  (forall (i : nat) (rest : list nat),
      pending_channels pdev = i :: rest ->
      pdev_phy pdev !! i = Some None ->
      fst (fst (mmp_pdma_int_handler pdev scheduled)) = IRQ_OOPS).
Proof.
  intros Hn.
  set (D := readl (regs pdev) DINT).
  assert (Hbits : forall m : nat, (m <= 32)%nat ->
            List.filter (fun i => Z.testbit (u32 D) (Z.of_nat i)) (seq 0 m)
            = List.filter (fun i => Z.testbit D (Z.of_nat i)) (seq 0 m)).
  { intros m Hm. apply List.filter_ext_in. intros i Hi.
    apply in_seq in Hi. apply u32_testbit_low. lia. }
  split.
  - intros Hbound. unfold mmp_pdma_int_handler. fold D.
    destruct (int_handler_loop_spec (pdev_phy pdev) D (dma_channels pdev) Hn
                32 (u32 D) pdev 0 scheduled)
      as (pdev' & Hloop & HP).
    + unfold u32. apply Z.mod_pos_bound. lia.
    + intros j Hj. unfold u32. apply Z.mod_pow2_bits_high. lia.
    + intros j Hj.
      destruct (Nat.lt_ge_cases j 32) as [Hlt|Hge].
      * rewrite u32_testbit_low in Hj by exact Hlt. exact Hj.
      * unfold u32 in Hj. rewrite Z.mod_pow2_bits_high in Hj by lia.
        discriminate.
    + etransitivity; [apply List.filter_length_le|]. rewrite length_seq. lia.
    + reflexivity.
    + reflexivity.
    + reflexivity.
    + intros i Hi Hb. apply Hbound. unfold pending_channels.
      apply List.filter_In. split; [apply in_seq; lia|].
      fold D. rewrite u32_testbit_low in Hb by lia. exact Hb.
    + lia.
    + exists pdev'. split; [|exact HP].
      rewrite Hloop, Hbits by lia. unfold pending_channels. fold D.
      generalize (List.filter (fun i => Z.testbit D (Z.of_nat i))
                    (seq 0 (Z.to_nat (dma_channels pdev)))).
      intros l. destruct l; reflexivity.
  - intros i rest Hpend Hunb. unfold mmp_pdma_int_handler. fold D.
    assert (Hin : In i (pending_channels pdev))
      by (rewrite Hpend; left; reflexivity).
    unfold pending_channels in Hin, Hpend. fold D in Hin, Hpend.
    apply List.filter_In in Hin as [Hseq Hbit]. apply in_seq in Hseq.
    assert (Hlow : forall j : nat, (j < i)%nat ->
              Z.testbit D (Z.of_nat j) = false).
    { intros j Hj. destruct (Z.testbit D (Z.of_nat j)) eqn:E; [|reflexivity].
      exfalso.
      assert (Hjin : In j (List.filter (fun k => Z.testbit D (Z.of_nat k))
                             (seq 0 (Z.to_nat (dma_channels pdev)))))
        by (apply List.filter_In; split; [apply in_seq; lia|exact E]).
      rewrite Hpend in Hjin. destruct Hjin as [->|Hjin]; [lia|].
      assert (Hsorted : forall (m : nat) (a : nat) (t : list nat),
                List.filter (fun k => Z.testbit D (Z.of_nat k)) (seq 0 m)
                = a :: t -> forall x, In x t -> (a < x)%nat).
      { intros m. induction m as [|m IHm]; intros a t Hf x Hx;
          [discriminate|].
        rewrite seq_S, List.filter_app in Hf. cbn [List.filter app Nat.add] in Hf.
        destruct (List.filter (fun k => Z.testbit D (Z.of_nat k)) (seq 0 m))
          as [|a' t'] eqn:Efm.
        - cbn [app] in Hf. destruct (Z.testbit D (Z.of_nat m));
            [injection Hf as <- <-; destruct Hx|discriminate].
        - cbn [app] in Hf. injection Hf as <- <-.
          apply in_app_or in Hx as [Hx|Hx]; [apply (IHm a' t' eq_refl x Hx)|].
          destruct (Z.testbit D (Z.of_nat m)); [|destruct Hx].
          destruct Hx as [<-|[]].
          assert (Ha : In a' (List.filter (fun k => Z.testbit D (Z.of_nat k))
                                (seq 0 m)))
            by (rewrite Efm; left; reflexivity).
          apply List.filter_In in Ha as [Ha _]. apply in_seq in Ha. lia. }
      pose proof (Hsorted _ _ _ Hpend j Hjin). lia. }
    assert (Hw : 0 < u32 D).
    { assert (0 <= u32 D) by (unfold u32; apply Z.mod_pos_bound; lia).
      destruct (Z.eq_dec (u32 D) 0) as [E|]; [|lia].
      assert (Hb : Z.testbit (u32 D) (Z.of_nat i) = true)
        by (rewrite u32_testbit_low by lia; exact Hbit).
      rewrite E, Z.bits_0 in Hb. discriminate. }
    destruct (u32 D) as [|p|p] eqn:Ew; try lia.
    assert (Hffs : ctz p = i).
    { destruct (ffs_lowest p) as [Hset Hlowp].
      destruct (Nat.lt_trichotomy (ctz p) i) as [H|[H|H]]; [|exact H|].
      - exfalso. rewrite <- Ew, u32_testbit_low in Hset by lia.
        rewrite Hlow in Hset by exact H. discriminate.
      - exfalso. specialize (Hlowp i H).
        rewrite <- Ew, u32_testbit_low in Hlowp by lia. congruence. }
    apply int_handler_loop_fault; rewrite Hffs; [lia|].
    exact (chan_handler_unbound pdev i scheduled Hunb Hbit).
Qed.

Lemma int_handler_dispatch_witness :
  exists pdev',
    mmp_pdma_int_handler
      (set_regs {[ DINT := 5 ]}
         (set_pdev_phy (replicate 16 (Some 7%nat)) sample_pdev)) []
    = (IRQ_HANDLED, pdev', [7%nat; 7%nat; 7%nat; 7%nat]).
Proof.
  destruct (int_handler_dispatch
              (set_regs {[ DINT := 5 ]}
                 (set_pdev_phy (replicate 16 (Some 7%nat)) sample_pdev)) [])
    as [H _]; [cbn; lia|].
  destruct H as (pdev' & Hrun & _).
  - intros i Hi. exists 7%nat. vm_compute in Hi.
    destruct Hi as [<-|[<-|[]]]; reflexivity.
  - exists pdev'. exact Hrun.
Defined.

(** ** Callbacks run in token order *)

















Section CallbackOrder.

Variable SUPPORT_64BIT : bool.



End CallbackOrder.

(** *** The chains the builders hand to a client *)








Section BuilderChains.

Variable SUPPORT_64BIT : bool.

(** A descriptor as a builder loop adds it: fresh from the pool, without a
    callback. *)
Lemma new_desc_no_callback (a : Z) (h : mmp_pdma_desc_hw) :
  callback (async_tx (ack_new (with_desc (fun _ => h) (zero_desc a)))) = None.
Proof. reflexivity. Qed.







End BuilderChains.

(** *** The queue discipline is kept *)






Section QueueOrder.

Variable SUPPORT_64BIT : bool.





End QueueOrder.


(** ** Where the model is exact *)

(** A physical channel that [lookup_phy] hands out lies inside the [phy]
    array, and the access through the reservation entry was in bounds. *)
Lemma lookup_phy_some_in_bounds (pdev pdev' : mmp_pdma_device)
    (pchan : mmp_pdma_chan) (i : nat) :
  lookup_phy pdev pchan = (Some i, pdev') ->
  reserved_phy_in_bounds pdev pchan = true /\
  (i < length (pdev_phy pdev))%nat.
Proof.
  unfold lookup_phy, reserved_phy_in_bounds.
  destruct (lookup_phy_for_drcmr pdev (drcmr pchan)) as [idx|].
  - unfold phy_vchan. destruct (Z.ltb_spec idx 0) as [Hneg|Hpos];
      [discriminate|].
    destruct (pdev_phy pdev !! Z.to_nat idx) as [[c|]|] eqn:E;
      try discriminate.
    intros [= <- _]. apply lookup_lt_Some in E.
    split; [|exact E].
    apply andb_true_intro. split; [apply Z.leb_le; lia|apply Z.ltb_lt; lia].
  - destruct (lookup_phy_bands pdev (seq 0 (Z.to_nat (last_prio pdev + 1))))
      as [j|] eqn:Hb; [|discriminate].
    intros [= <- _]. split; [reflexivity|].
    apply lookup_phy_bands_some in Hb as (p & _ & _ & He & _).
    apply eligible_true in He as (_ & _ & Hfree).
    unfold phy_unbound in Hfree. exact (lookup_lt_Some _ _ _ Hfree).
Qed.

(** With every reservation entry naming a channel of the array, no request
    leaves the array. *)
Lemma reservations_in_bounds (pdev : mmp_pdma_device) (pchan : mmp_pdma_chan) :
  Forall (fun rc => 0 <= rc_chan_id rc < Z.of_nat (length (pdev_phy pdev)))
    (reserved_channels pdev) ->
  reserved_phy_in_bounds pdev pchan = true.
Proof.
  unfold reserved_phy_in_bounds, lookup_phy_for_drcmr.
  induction 1 as [|rc l Hrc Hl IH]; [reflexivity|].
  cbn [drcmr_in]. destruct (drcmr pchan =? rc_drcmr rc); [|exact IH].
  apply andb_true_intro. split; [apply Z.leb_le; lia|apply Z.ltb_lt; lia].
Qed.

(** A ring whose first descriptor heads the running queue is on the
    queues. *)
Lemma ring_head_queued (chan : mmp_pdma_chan) (first : mmp_pdma_desc_sw) :
  cyclic_first chan = Some (desc_phys first) ->
  chain_running chan !! 0%nat = Some first ->
  cyclic_head_queued chan = true.
Proof.
  intros Hc Hf. unfold cyclic_head_queued. rewrite Hc.
  destruct (chain_running chan) as [|d0 run]; [discriminate|].
  injection Hf as ->. cbn [app existsb]. unfold desc_phys.
  rewrite Z.eqb_refl. reflexivity.
Qed.
